(** * A4091 diagnostic utility: card control and test engine

    A shallow embedding of the parts of [a4091.c] that drive the NCR 53C710
    (SIOP) on the A4091 card, and the properties established about them.

    Conventions.
    - C integers are [Z] values kept in range by explicit wrap-around:
      [wrap8] for [uint8_t], [wrap16] for [uint16_t], [wrap32] for
      [uint32_t] and [uint].
    - Bit operations are [Z.land], [Z.lor], [Z.lxor], [Z.shiftl],
      [Z.shiftr], [Z.testbit].
    - The machine outside the program (the card, the system clock, the
      interrupts that arrive) answers from tapes held in the [world]: the
      k-th bus read returns the k-th value of the bus tape, and so on.
      Every access the program performs is appended to a log. *)

From Stdlib Require Import ZArith List String Ascii Bool Lia Arith.
From Stdlib Require Import Permutation.
Import ListNotations.
Open Scope Z_scope.

(** ** Machine integers *)

Definition wrap8 (z : Z) : Z := z mod 256.
Definition wrap16 (z : Z) : Z := z mod 65536.
Definition wrap32 (z : Z) : Z := z mod 4294967296.
Definition wrap64 (z : Z) : Z := z mod 18446744073709551616.

(** [(int) x] for a value that fits 32 bits: the two's complement reading. *)
Definition to_int32 (z : Z) : Z :=
  let u := wrap32 z in if u <? 2147483648 then u else u - 4294967296.

(** [#define BIT(x) (1 << (x))], stored into unsigned objects. *)
Definition BIT (x : Z) : Z := wrap32 (Z.shiftl 1 x).

(** [~x] narrowed to eight bits. *)
Definition not8 (x : Z) : Z := wrap8 (Z.lnot x).

(** [~x] narrowed to 32 bits. *)
Definition not32 (x : Z) : Z := wrap32 (Z.lnot x).

Lemma wrap8_range z : 0 <= wrap8 z < 256.
Proof. unfold wrap8. apply Z.mod_pos_bound. lia. Qed.

Lemma wrap16_range z : 0 <= wrap16 z < 65536.
Proof. unfold wrap16. apply Z.mod_pos_bound. lia. Qed.

Lemma wrap32_range z : 0 <= wrap32 z < 4294967296.
Proof. unfold wrap32. apply Z.mod_pos_bound. lia. Qed.

Lemma wrap8_small z : 0 <= z < 256 -> wrap8 z = z.
Proof. intros H. unfold wrap8. apply Z.mod_small. exact H. Qed.

Lemma wrap32_small z : 0 <= z < 4294967296 -> wrap32 z = z.
Proof. intros H. unfold wrap32. apply Z.mod_small. exact H. Qed.

Lemma wrap8_idem z : wrap8 (wrap8 z) = wrap8 z.
Proof. apply wrap8_small, wrap8_range. Qed.

Lemma wrap32_idem z : wrap32 (wrap32 z) = wrap32 z.
Proof. apply wrap32_small, wrap32_range. Qed.

Lemma not8_byte x : 0 <= x < 256 -> not8 x = 255 - x.
Proof.
  intros H. unfold not8, wrap8, Z.lnot.
  replace (Z.pred (- x)) with ((255 - x) + (-1) * 256) by lia.
  rewrite Z.mod_add by lia. apply Z.mod_small. lia.
Qed.

(** A bounded universal quantifier that computes, for facts about bytes
    and bit positions that are settled by running through all of them. *)
Fixpoint forall_below (n : nat) (p : Z -> bool) : bool :=
  match n with
  | O => true
  | S k => p (Z.of_nat k) && forall_below k p
  end.

Lemma forall_below_spec n p :
  forall_below n p = true -> forall z, 0 <= z < Z.of_nat n -> p z = true.
Proof.
  induction n as [|k IH]; intros H z Hz.
  - simpl in Hz. lia.
  - simpl in H. apply andb_true_iff in H. destruct H as [Hk Hr].
    destruct (Z.eq_dec z (Z.of_nat k)) as [->|Hne]; [exact Hk|].
    apply IH; [exact Hr|lia].
Qed.

(** ** Card layout and 53C710 registers *)

Definition A4091_OFFSET_AUTOCONFIG : Z := 0x00000000.
Definition A4091_OFFSET_ROM        : Z := 0x00000000.
Definition A4091_OFFSET_REGISTERS  : Z := 0x00800000.
Definition A4091_OFFSET_SWITCHES   : Z := 0x008c0003.

Definition ZORRO_MFG_COMMODORE : Z := 0x0202.
Definition ZORRO_PROD_A4091    : Z := 0x0054.

Definition A4091_INTPRI : Z := 30.
Definition A4091_IRQ    : Z := 3.

Definition FLAG_DEBUG      : Z := 0x01.
Definition FLAG_MORE_DEBUG : Z := 0x02.

Definition REG_SCNTL0  : Z := 0x03.
Definition REG_SCNTL1  : Z := 0x02.
Definition REG_SDID    : Z := 0x01.
Definition REG_SIEN    : Z := 0x00.
Definition REG_SCID    : Z := 0x07.
Definition REG_SODL    : Z := 0x05.
Definition REG_SOCL    : Z := 0x04.
Definition REG_SBDL    : Z := 0x09.
Definition REG_SBCL    : Z := 0x08.
Definition REG_DSTAT   : Z := 0x0f.
Definition REG_SSTAT0  : Z := 0x0e.
Definition REG_SSTAT1  : Z := 0x0d.
Definition REG_SSTAT2  : Z := 0x0c.
Definition REG_CTEST0  : Z := 0x17.
Definition REG_CTEST1  : Z := 0x16.
Definition REG_CTEST2  : Z := 0x15.
Definition REG_CTEST4  : Z := 0x1b.
Definition REG_CTEST6  : Z := 0x19.
Definition REG_CTEST7  : Z := 0x18.
Definition REG_TEMP    : Z := 0x1c.
Definition REG_ISTAT   : Z := 0x22.
Definition REG_DSP     : Z := 0x2c.
Definition REG_SCRATCH : Z := 0x34.
Definition REG_DIEN    : Z := 0x3a.
Definition REG_DWT     : Z := 0x39.
Definition REG_DCNTL   : Z := 0x38.

Definition REG_ISTAT_DIP  : Z := Eval cbv in BIT 0.
Definition REG_ISTAT_SIP  : Z := Eval cbv in BIT 1.
Definition REG_ISTAT_RST  : Z := Eval cbv in BIT 6.
Definition REG_ISTAT_ABRT : Z := Eval cbv in BIT 7.
Definition REG_DCNTL_EA   : Z := Eval cbv in BIT 5.
Definition REG_DSTAT_DFE  : Z := Eval cbv in BIT 7.
Definition REG_SSTAT1_RST : Z := Eval cbv in BIT 1.
Definition REG_CTEST4_FBL2 : Z := Eval cbv in BIT 2.

Definition NCR_FIFO_SIZE : Z := 16.

(** ** Autoconfig nibble reader *)

Module Autoconfig.

(** What a byte-wide read of a bus address returns.  The autoconfig area is
    read-only ROM, so one function of the address describes it. *)
Definition bus := Z -> Z.

(** [*ADDR8(x)]: the address is a [uint32_t], the result a [uint8_t]. *)
Definition ADDR8 (m : bus) (x : Z) : Z := wrap8 (m (wrap32 x)).

(** [get_creg]:
<<
    uint8_t hi = ~*ADDR8(a4091_base + A4091_OFFSET_AUTOCONFIG + reg);
    uint8_t lo = ~*ADDR8(a4091_base + A4091_OFFSET_AUTOCONFIG + reg + 0x100);
    return ((hi & 0xf0) | (lo >> 4));
>> *)
Definition get_creg (m : bus) (a4091_base reg : Z) : Z :=
  let hi := wrap8 (Z.lnot (ADDR8 m (a4091_base + A4091_OFFSET_AUTOCONFIG + reg))) in
  let lo := wrap8 (Z.lnot (ADDR8 m (a4091_base + A4091_OFFSET_AUTOCONFIG + reg + 0x100))) in
  wrap8 (Z.lor (Z.land hi 0xf0) (Z.shiftr lo 4)).

(** The specification's formula, over the two raw bytes seen on the bus,
    with the complement taken on 8-bit values. *)
Definition read_creg_formula (hi lo : Z) : Z :=
  Z.lor (Z.land (255 - hi) 0xF0) (Z.shiftr (255 - lo) 4).

Definition raw_hi (m : bus) (base r : Z) : Z := ADDR8 m (base + r).
Definition raw_lo (m : bus) (base r : Z) : Z := ADDR8 m (base + r + 0x100).

Lemma hi_nibble_arith h :
  0 <= h < 256 -> Z.land (255 - h) 0xF0 = 16 * (15 - h / 16).
Proof.
  intros H.
  assert (C : forall_below 256
            (fun h => Z.land (255 - h) 0xF0 =? 16 * (15 - h / 16)) = true)
    by (vm_compute; reflexivity).
  apply Z.eqb_eq. apply (forall_below_spec 256 _ C). exact H.
Qed.

Lemma lo_nibble_arith l :
  0 <= l < 256 -> Z.shiftr (255 - l) 4 = 15 - l / 16.
Proof.
  intros H. rewrite Z.shiftr_div_pow2 by lia.
  change (2 ^ 4) with 16.
  assert (C : forall_below 256
            (fun l => (255 - l) / 16 =? 15 - l / 16) = true)
    by (vm_compute; reflexivity).
  apply Z.eqb_eq. apply (forall_below_spec 256 _ C). exact H.
Qed.

Lemma nibble_join a b :
  0 <= a < 16 -> 0 <= b < 16 -> Z.lor (16 * a) b = 16 * a + b.
Proof.
  intros Ha Hb.
  assert (C : forall_below 16 (fun a => forall_below 16
            (fun b => Z.lor (16 * a) b =? 16 * a + b)) = true)
    by (vm_compute; reflexivity).
  apply Z.eqb_eq.
  apply (forall_below_spec 16 _ (forall_below_spec 16 _ C a Ha)). exact Hb.
Qed.

(** C6.  For every register offset [r], [get_creg] rebuilds the byte as
    [((~hi & 0xF0) | (~lo >> 4))] from the raw byte [hi] read at the card
    base plus [r] and the raw byte [lo] read at the card base plus
    [r + 0x100], the complement being the 8-bit one: the high nibble of the
    result is the inverted high nibble of [hi], its low nibble the inverted
    high nibble of [lo]. *)
Theorem get_creg_nibble_reader :
  forall (m : bus) (base r : Z),
    get_creg m base r = read_creg_formula (raw_hi m base r) (raw_lo m base r)
    /\ get_creg m base r
       = 16 * (15 - raw_hi m base r / 16) + (15 - raw_lo m base r / 16)
    /\ 0 <= get_creg m base r < 256.
Proof.
  intros m base r.
  unfold get_creg, read_creg_formula, raw_hi, raw_lo, A4091_OFFSET_AUTOCONFIG.
  rewrite Z.add_0_r.
  set (h := ADDR8 m (base + r)). set (l := ADDR8 m (base + r + 256)).
  assert (Hh : 0 <= h < 256) by apply wrap8_range.
  assert (Hl : 0 <= l < 256) by apply wrap8_range.
  fold (not8 h). fold (not8 l).
  rewrite (not8_byte h Hh), (not8_byte l Hl).
  rewrite (hi_nibble_arith h Hh), (lo_nibble_arith l Hl).
  assert (Hq : 0 <= h / 16 < 16)
    by (split; [apply Z.div_pos; lia | apply Z.div_lt_upper_bound; lia]).
  assert (Hr : 0 <= l / 16 < 16)
    by (split; [apply Z.div_pos; lia | apply Z.div_lt_upper_bound; lia]).
  rewrite nibble_join by lia.
  rewrite wrap8_small by lia.
  repeat split; lia.
Qed.

End Autoconfig.

(** ** The machine: session state, tapes and log *)

(** A [printf] argument. *)
Inductive parg : Type :=
| PInt (z : Z)
| PStr (s : string).

(** [struct Interrupt]: a node of an interrupt-server chain.  [is_ptr] is
    the address of the node, which is what [AddIntServer] and
    [RemIntServer] are given. *)
Record Interrupt : Type := mkInterrupt {
  is_ptr  : Z;
  ln_Pri  : Z;
  ln_Name : option string;
  is_Data : Z;
  is_Code : Z
}.

(** [a4091_save_t], the process-wide session.  The fields [reg_dcntl] and
    [reg_00] .. [reg_3c] are only touched inside [#if 0] blocks and are
    left out; [0] is [NULL] and [None] is a null node pointer. *)
Record a4091_save_t : Type := mkSave {
  addr              : Z;
  intcount          : Z;
  card_owned        : Z;
  cleanup_installed : Z;
  reg_istat         : Z;
  local_isr         : option Interrupt;
  driver_isr        : option Interrupt;
  ireg_istat        : Z;
  ireg_sien         : Z;
  ireg_sstat0       : Z;
  ireg_dstat        : Z
}.

(** What the four register reads of one run of the interrupt handler
    return. *)
Record irq_regs : Type := mkIrqRegs {
  ir_istat  : Z;
  ir_sien   : Z;
  ir_sstat0 : Z;
  ir_dstat  : Z
}.

Inductive event : Type :=
| EvRead8 (a v : Z)
| EvWrite8 (a v : Z)
| EvRead32 (a v : Z)
| EvWrite32 (a v : Z)
| EvTicks (t : Z)
| EvPrintf (fmt : string) (args : list parg)
| EvDelay (n : Z)
| EvAtExit
| EvAllocMem (p : Z)
| EvFreeMem (p : Z)
| EvAddIntServer (irq : Z) (node : Interrupt)
| EvRemIntServer (irq : Z) (node : Interrupt)
| EvDisable
| EvEnable
| EvIrqReturn (rc : Z).

(** The program's globals together with the machine it runs on.
    - [bus_tape k] is what the k-th bus read of the main line returns,
      [tick_tape k] what the k-th call of [read_system_ticks] returns.
    - [irq_tape k] lists the interrupts that are taken just before the
      main line looks at the captured snapshot for the k-th time, each with
      the values the handler's reads return.
    - [isr_alloc] is the address [AllocMem] hands out for the local
      interrupt node.
    - [log] holds the main line's accesses in program order, [irq_log] the
      accesses made by the interrupt handler. *)
Record world : Type := mkWorld {
  a4091_base    : Z;
  runtime_flags : Z;
  a4091_save    : a4091_save_t;
  rand_seed     : Z;
  int_servers   : list Interrupt;
  isr_alloc     : Z;
  bus_tape      : nat -> Z;
  bus_pos       : nat;
  tick_tape     : nat -> Z;
  tick_pos      : nat;
  irq_tape      : nat -> list irq_regs;
  irq_pos       : nat;
  log           : list event;
  irq_log       : list event
}.

Definition with_save (s : a4091_save_t) (w : world) : world :=
  mkWorld (a4091_base w) (runtime_flags w) s (rand_seed w) (int_servers w)
          (isr_alloc w) (bus_tape w) (bus_pos w) (tick_tape w) (tick_pos w)
          (irq_tape w) (irq_pos w) (log w) (irq_log w).

Definition with_rand_seed (r : Z) (w : world) : world :=
  mkWorld (a4091_base w) (runtime_flags w) (a4091_save w) r (int_servers w)
          (isr_alloc w) (bus_tape w) (bus_pos w) (tick_tape w) (tick_pos w)
          (irq_tape w) (irq_pos w) (log w) (irq_log w).

Definition with_int_servers (l : list Interrupt) (w : world) : world :=
  mkWorld (a4091_base w) (runtime_flags w) (a4091_save w) (rand_seed w) l
          (isr_alloc w) (bus_tape w) (bus_pos w) (tick_tape w) (tick_pos w)
          (irq_tape w) (irq_pos w) (log w) (irq_log w).

Definition with_bus_pos (n : nat) (w : world) : world :=
  mkWorld (a4091_base w) (runtime_flags w) (a4091_save w) (rand_seed w)
          (int_servers w) (isr_alloc w) (bus_tape w) n (tick_tape w)
          (tick_pos w) (irq_tape w) (irq_pos w) (log w) (irq_log w).

Definition with_tick_pos (n : nat) (w : world) : world :=
  mkWorld (a4091_base w) (runtime_flags w) (a4091_save w) (rand_seed w)
          (int_servers w) (isr_alloc w) (bus_tape w) (bus_pos w) (tick_tape w)
          n (irq_tape w) (irq_pos w) (log w) (irq_log w).

Definition with_irq_pos (n : nat) (w : world) : world :=
  mkWorld (a4091_base w) (runtime_flags w) (a4091_save w) (rand_seed w)
          (int_servers w) (isr_alloc w) (bus_tape w) (bus_pos w) (tick_tape w)
          (tick_pos w) (irq_tape w) n (log w) (irq_log w).

Definition with_log (l : list event) (w : world) : world :=
  mkWorld (a4091_base w) (runtime_flags w) (a4091_save w) (rand_seed w)
          (int_servers w) (isr_alloc w) (bus_tape w) (bus_pos w) (tick_tape w)
          (tick_pos w) (irq_tape w) (irq_pos w) l (irq_log w).

Definition with_irq_log (l : list event) (w : world) : world :=
  mkWorld (a4091_base w) (runtime_flags w) (a4091_save w) (rand_seed w)
          (int_servers w) (isr_alloc w) (bus_tape w) (bus_pos w) (tick_tape w)
          (tick_pos w) (irq_tape w) (irq_pos w) (log w) l.

(** Field updates of the session. *)
Definition set_intcount (v : Z) (s : a4091_save_t) : a4091_save_t :=
  mkSave (addr s) v (card_owned s) (cleanup_installed s) (reg_istat s)
         (local_isr s) (driver_isr s) (ireg_istat s) (ireg_sien s)
         (ireg_sstat0 s) (ireg_dstat s).

Definition set_card_owned (v : Z) (s : a4091_save_t) : a4091_save_t :=
  mkSave (addr s) (intcount s) v (cleanup_installed s) (reg_istat s)
         (local_isr s) (driver_isr s) (ireg_istat s) (ireg_sien s)
         (ireg_sstat0 s) (ireg_dstat s).

Definition set_cleanup_installed (v : Z) (s : a4091_save_t) : a4091_save_t :=
  mkSave (addr s) (intcount s) (card_owned s) v (reg_istat s)
         (local_isr s) (driver_isr s) (ireg_istat s) (ireg_sien s)
         (ireg_sstat0 s) (ireg_dstat s).

Definition set_reg_istat (v : Z) (s : a4091_save_t) : a4091_save_t :=
  mkSave (addr s) (intcount s) (card_owned s) (cleanup_installed s) v
         (local_isr s) (driver_isr s) (ireg_istat s) (ireg_sien s)
         (ireg_sstat0 s) (ireg_dstat s).

Definition set_local_isr (v : option Interrupt) (s : a4091_save_t)
  : a4091_save_t :=
  mkSave (addr s) (intcount s) (card_owned s) (cleanup_installed s)
         (reg_istat s) v (driver_isr s) (ireg_istat s) (ireg_sien s)
         (ireg_sstat0 s) (ireg_dstat s).

Definition set_driver_isr (v : option Interrupt) (s : a4091_save_t)
  : a4091_save_t :=
  mkSave (addr s) (intcount s) (card_owned s) (cleanup_installed s)
         (reg_istat s) (local_isr s) v (ireg_istat s) (ireg_sien s)
         (ireg_sstat0 s) (ireg_dstat s).

Definition set_ireg_istat (v : Z) (s : a4091_save_t) : a4091_save_t :=
  mkSave (addr s) (intcount s) (card_owned s) (cleanup_installed s)
         (reg_istat s) (local_isr s) (driver_isr s) v (ireg_sien s)
         (ireg_sstat0 s) (ireg_dstat s).

Definition set_captured (i e s0 d : Z) (s : a4091_save_t) : a4091_save_t :=
  mkSave (addr s) (intcount s) (card_owned s) (cleanup_installed s)
         (reg_istat s) (local_isr s) (driver_isr s) i e s0 d.

(** *** A state monad over the world *)

Definition M (A : Type) : Type := world -> A * world.

Definition ret {A : Type} (a : A) : M A := fun w => (a, w).

Definition bind {A B : Type} (c : M A) (k : A -> M B) : M B :=
  fun w => let r := c w in k (fst r) (snd r).

Declare Scope machine_scope.
Delimit Scope machine_scope with machine.
Notation "x <- c ;; k" := (bind c (fun x => k))
  (at level 61, c at next level, right associativity) : machine_scope.
Notation "c ;; k" := (bind c (fun _ => k))
  (at level 61, right associativity) : machine_scope.
Open Scope machine_scope.

Definition emit (e : event) : M unit :=
  fun w => (tt, with_log (log w ++ [e]) w).

Definition printf (fmt : string) (args : list parg) : M unit :=
  emit (EvPrintf fmt args).

Definition when (b : bool) (c : M unit) : M unit :=
  if b then c else ret tt.

Definition modify_save (f : a4091_save_t -> a4091_save_t) : M unit :=
  fun w => (tt, with_save (f (a4091_save w)) w).

Definition flag_set (w : world) (f : Z) : bool :=
  negb (Z.land (runtime_flags w) f =? 0).

Definition debug (f : Z) (c : M unit) : M unit :=
  fun w => if flag_set w f then c w else (tt, w).

(** *** Register access layer *)

(** A byte-wide and a long-word bus read of the main line: the value comes
    from the bus tape. *)
Definition bus_read8 (a : Z) : M Z :=
  fun w => let v := wrap8 (bus_tape w (bus_pos w)) in
           (v, with_log (log w ++ [EvRead8 (wrap32 a) v])
                 (with_bus_pos (S (bus_pos w)) w)).

Definition bus_read32 (a : Z) : M Z :=
  fun w => let v := wrap32 (bus_tape w (bus_pos w)) in
           (v, with_log (log w ++ [EvRead32 (wrap32 a) v])
                 (with_bus_pos (S (bus_pos w)) w)).

Definition bus_write8 (a v : Z) : M unit :=
  emit (EvWrite8 (wrap32 a) (wrap8 v)).

Definition bus_write32 (a v : Z) : M unit :=
  emit (EvWrite32 (wrap32 a) (wrap32 v)).

(** [get_ncrreg8]: [*ADDR8(a4091_base + A4091_OFFSET_REGISTERS + reg)]. *)
Definition get_ncrreg8 (reg : Z) : M Z :=
  fun w => bus_read8 (a4091_base w + A4091_OFFSET_REGISTERS + reg) w.

(** [get_ncrreg32]. *)
Definition get_ncrreg32 (reg : Z) : M Z :=
  fun w => bus_read32 (a4091_base w + A4091_OFFSET_REGISTERS + reg) w.

(** [set_ncrreg8]: the write goes to the shadow register at [+0x40]. *)
Definition set_ncrreg8 (reg value : Z) : M unit :=
  fun w =>
    bus_write8 (a4091_base w + A4091_OFFSET_REGISTERS + 0x40 + reg) value w.

(** [set_ncrreg32]. *)
Definition set_ncrreg32 (reg value : Z) : M unit :=
  fun w =>
    bus_write32 (a4091_base w + A4091_OFFSET_REGISTERS + 0x40 + reg) value w.

(** The bus address a register is read at, and the one it is written at. *)
Definition rd_addr (w : world) (reg : Z) : Z :=
  wrap32 (a4091_base w + A4091_OFFSET_REGISTERS + reg).

Definition wr_addr (w : world) (reg : Z) : Z :=
  wrap32 (a4091_base w + A4091_OFFSET_REGISTERS + 0x40 + reg).

(** [read_system_ticks]: a [uint64_t] taken from the clock. *)
Definition read_system_ticks : M Z :=
  fun w => let t := wrap64 (tick_tape w (tick_pos w)) in
           (t, with_log (log w ++ [EvTicks t])
                 (with_tick_pos (S (tick_pos w)) w)).

(** [Delay(n)]. *)
Definition Delay (n : Z) : M unit := emit (EvDelay n).

(** ** Interrupt adapter, takeover and restore, SCRIPTS execution *)

Section Machine.

(** Constants of the host that the repository takes from the AmigaOS
    headers and the linker: the number of clock ticks per second, and the
    addresses of [a4091_save] and of [a4091_irq_handler]. *)
Variable TICKS_PER_SECOND : Z.
Variable a4091_save_ptr : Z.
Variable a4091_irq_handler_ptr : Z.

(** [access_timeout]: non-zero when more than [ticks] ticks have gone by
    since [tick_start].  The difference is compared as an [int]. *)
Definition access_timeout (msg : string) (ticks tick_start : Z) : M bool :=
  tick_end <- read_system_ticks ;;
  if tick_end <? tick_start then
    printf "Invalid time comparison: %08x:%08x < %08x:%08x\n"
           [PInt (wrap32 (Z.shiftr tick_end 32)); PInt (wrap32 tick_end);
            PInt (wrap32 (Z.shiftr tick_start 32)); PInt (wrap32 tick_start)] ;;
    ret false
  else if to_int32 ticks <? to_int32 (tick_end - tick_start) then
    printf "%s: %d ticks" [PStr msg; PInt (wrap32 (tick_end - tick_start))] ;;
    when (TICKS_PER_SECOND * 10 <? tick_end - tick_start)
         (printf ": bug? %08x%08x %08x%08x\n"
                 [PInt (wrap32 (Z.shiftr tick_end 32)); PInt (wrap32 tick_start);
                  PInt (wrap32 (Z.shiftr tick_end 32)); PInt (wrap32 tick_end)]) ;;
    printf "\n" [] ;;
    ret true
  else ret false.

(** [a4091_reset]. *)
Definition a4091_reset : M unit :=
  set_ncrreg8 REG_DCNTL REG_DCNTL_EA ;;
  set_ncrreg8 REG_ISTAT REG_ISTAT_RST ;;
  _ <- get_ncrreg8 REG_ISTAT ;;
  set_ncrreg8 REG_ISTAT 0 ;;
  _ <- get_ncrreg8 REG_ISTAT ;;
  set_ncrreg8 REG_SCID (BIT 7) ;;
  set_ncrreg8 REG_DCNTL REG_DCNTL_EA ;;
  set_ncrreg8 REG_DWT 0xff.

(** The bus address [get_ncrreg8_noglob(save->addr, reg)] reads. *)
Definition noglob_addr (save : a4091_save_t) (reg : Z) : Z :=
  wrap32 (addr save + A4091_OFFSET_REGISTERS + reg).

(** [istat & (REG_ISTAT_DIP | REG_ISTAT_SIP)] is not zero. *)
Definition irq_pending (istat : Z) : bool :=
  negb (Z.land istat (Z.lor REG_ISTAT_DIP REG_ISTAT_SIP) =? 0).

(** [a4091_irq_handler], run with the session [save] it gets through
    [is_Data] and the register values [r] its reads return.  The result is
    the handler's return value, the session it leaves and what it did: its
    reads, then its return. *)
Definition a4091_irq_handler (r : irq_regs) (save : a4091_save_t)
  : Z * a4091_save_t * list event :=
  let istat := wrap8 (ir_istat r) in
  let rd_istat := EvRead8 (noglob_addr save REG_ISTAT) istat in
  if irq_pending istat then
    let sien := wrap8 (ir_sien r) in
    let sstat0 := wrap8 (ir_sstat0 r) in
    let dstat := wrap8 (ir_dstat r) in
    let save1 := set_captured istat sien sstat0 dstat save in
    let save2 := set_intcount (wrap32 (intcount save1 + 1)) save1 in
    let reads := [rd_istat;
                  EvRead8 (noglob_addr save REG_SIEN) sien;
                  EvRead8 (noglob_addr save REG_SSTAT0) sstat0;
                  EvRead8 (noglob_addr save REG_DSTAT) dstat] in
    if intcount save2 =? 1 then (1, save2, reads ++ [EvIrqReturn 1])
    else (0, save2, reads ++ [EvIrqReturn 0])
  else (0, save, [rd_istat; EvIrqReturn 0]).

(** The interrupts of one batch, taken one after the other. *)
Fixpoint run_irqs (rs : list irq_regs) (save : a4091_save_t)
  : a4091_save_t * list event :=
  match rs with
  | [] => (save, [])
  | r :: rest =>
      let '(_, save1, evs) := a4091_irq_handler r save in
      let '(save2, evs2) := run_irqs rest save1 in
      (save2, evs ++ evs2)
  end.

(** A point where the main line reads the [volatile] snapshot: the
    interrupts that arrived since the last such point have run by now,
    provided the local interrupt server is installed. *)
Definition irq_window : M unit :=
  fun w =>
    let w1 := with_irq_pos (S (irq_pos w)) w in
    match local_isr (a4091_save w) with
    | None => (tt, w1)
    | Some _ =>
        let '(save', evs) := run_irqs (irq_tape w (irq_pos w)) (a4091_save w) in
        (tt, with_irq_log (irq_log w ++ evs) (with_save save' w1))
    end.

(** [Enqueue]: insertion into a chain kept in descending priority, behind
    the nodes of the same priority. *)
Fixpoint Enqueue (node : Interrupt) (l : list Interrupt) : list Interrupt :=
  match l with
  | [] => [node]
  | n :: t => if ln_Pri n <? ln_Pri node then node :: n :: t
              else n :: Enqueue node t
  end.

Definition AddIntServer (irq : Z) (node : Interrupt) : M unit :=
  fun w => emit (EvAddIntServer irq node)
                (with_int_servers (Enqueue node (int_servers w)) w).

Definition RemIntServer (irq : Z) (node : Interrupt) : M unit :=
  fun w => emit (EvRemIntServer irq node)
                (with_int_servers
                   (filter (fun n => negb (is_ptr n =? is_ptr node))
                           (int_servers w)) w).

(** [a4091_add_local_irq_handler].  The result of [AllocMem] is not
    checked: when it is [NULL] ([isr_alloc w] is 0) the session holds the
    [NULL] pointer, which is [None] to the guard of the removal, while the
    node fields are still written through it and the pointer is still
    handed to [AddIntServer], so that the server added is the node at
    address 0. *)
Definition a4091_add_local_irq_handler : M unit :=
  modify_save (set_intcount 0) ;;
  fun w =>
    let node := mkInterrupt (isr_alloc w) A4091_INTPRI (Some "A4091 test"%string)
                            a4091_save_ptr a4091_irq_handler_ptr in
    (emit (EvAllocMem (isr_alloc w)) ;;
     modify_save (set_local_isr (if isr_alloc w =? 0 then None
                                 else Some node)) ;;
     debug FLAG_DEBUG
       (printf "my irq handler=%x %x\n"
               [PInt (wrap32 a4091_save_ptr); PInt (wrap32 (isr_alloc w))]) ;;
     AddIntServer A4091_IRQ node) w.

(** [a4091_remove_local_irq_handler]. *)
Definition a4091_remove_local_irq_handler : M unit :=
  fun w =>
    match local_isr (a4091_save w) with
    | Some node =>
        (RemIntServer A4091_IRQ node ;;
         emit (EvFreeMem (is_ptr node)) ;;
         modify_save (set_local_isr None)) w
    | None => (tt, w)
    end.

(** [GetNodeName] of a node that is not [NULL]. *)
Definition GetNodeName (node : Interrupt) : string :=
  match ln_Name node with
  | None => "(missing)"%string
  | Some n => n
  end.

(** The walk of [a4091_disable_driver_irq_handler] over the chain as it
    stood at entry: a removed node keeps its successor pointer, so the walk
    goes on from it. *)
Fixpoint disable_walk (l : list Interrupt) (suspended : bool) : M bool :=
  match l with
  | [] => ret suspended
  | s :: rest =>
      debug FLAG_DEBUG
        (emit EvEnable ;;
         printf "  %08x %08x %08x %s\n"
                [PInt (wrap32 (is_Code s)); PInt (wrap32 (is_Data s));
                 PInt (wrap32 (is_ptr s)); PStr (GetNodeName s)] ;;
         emit EvDisable) ;;
      if String.eqb (GetNodeName s) "NCR SCSI" then
        modify_save (set_driver_isr (Some s)) ;;
        RemIntServer A4091_IRQ s ;;
        disable_walk rest true
      else disable_walk rest suspended
  end.

(** [a4091_disable_driver_irq_handler]. *)
Definition a4091_disable_driver_irq_handler (verbose : Z) : M unit :=
  fun w =>
    match int_servers w with
    | [] => (tt, w)
    | slist =>
        (emit EvDisable ;;
         suspended <- disable_walk slist false ;;
         emit EvEnable ;;
         fun w' =>
           when (suspended && (flag_set w' FLAG_DEBUG || negb (verbose =? 0)))
                (printf "Suspended NCR SCSI driver IRQ handler\n" []) w') w
    end.

(** [a4091_enable_driver_irq_handler]. *)
Definition a4091_enable_driver_irq_handler : M unit :=
  fun w =>
    match driver_isr (a4091_save w) with
    | Some node =>
        (debug FLAG_DEBUG
           (printf "Restoring NCR SCSI driver IRQ handler\n" []) ;;
         AddIntServer A4091_IRQ node ;;
         modify_save (set_driver_isr None)) w
    | None => (tt, w)
    end.

(** [a4091_state_restore]. *)
Definition a4091_state_restore : M unit :=
  fun w =>
    if card_owned (a4091_save w) =? 0 then (tt, w)
    else
      (modify_save (set_card_owned 0) ;;
       a4091_reset ;;
       a4091_enable_driver_irq_handler ;;
       a4091_remove_local_irq_handler ;;
       fun w' =>
         let s := a4091_save w' in
         when (negb (intcount s =? 0) && flag_set w' FLAG_DEBUG)
              (printf
                 "Interrupt count=%d ISTAT=%02x SSTAT0=%02x DSTAT=%02x SIEN=%02x\n"
                 [PInt (intcount s); PInt (ireg_istat s); PInt (ireg_sstat0 s);
                  PInt (ireg_dstat s); PInt (ireg_sien s)]) w') w.

(** [a4091_cleanup], the action registered with [atexit]. *)
Definition a4091_cleanup : M unit := a4091_state_restore.

(** The wait of [a4091_state_takeover]:
<<
    while ((get_ncrreg8(REG_ISTAT) & REG_ISTAT_RST) == 0)
        if (access_timeout("ISTAT_RST timeout", 2, tick_start))
            break;
>>
    [true] when the loop is left within [fuel] rounds. *)
Fixpoint takeover_wait (fuel : nat) (tick_start : Z) : M bool :=
  match fuel with
  | O => ret false
  | S fuel' =>
      v <- get_ncrreg8 REG_ISTAT ;;
      if Z.land v REG_ISTAT_RST =? 0 then
        expired <- access_timeout "ISTAT_RST timeout" 2 tick_start ;;
        if expired : bool then ret true else takeover_wait fuel' tick_start
      else ret true
  end.

(** The second half of [a4091_state_takeover], from the capture of ISTAT
    to the end of the soft reset. *)
Definition takeover_soft_reset (fuel : nat) : M bool :=
  v <- get_ncrreg8 REG_ISTAT ;;
  modify_save (set_reg_istat v) ;;
  debug FLAG_DEBUG (printf "Soft resetting SIOP\n" []) ;;
  set_ncrreg8 REG_ISTAT (Z.lor v REG_ISTAT_RST) ;;
  _ <- get_ncrreg8 REG_ISTAT ;;
  set_ncrreg8 REG_ISTAT v ;;
  set_ncrreg8 REG_ISTAT (Z.lor v REG_ISTAT_RST) ;;
  tick_start <- read_system_ticks ;;
  left <- takeover_wait fuel tick_start ;;
  if left : bool then
    set_ncrreg8 REG_ISTAT (Z.land v (Z.lnot REG_ISTAT_RST)) ;;
    ret true
  else ret false.

(** [a4091_state_takeover].  The result is [true] when the function
    returns within [fuel] rounds of its wait loop. *)
Definition a4091_state_takeover (fuel : nat) : M bool :=
  (fun w =>
     when (cleanup_installed (a4091_save w) =? 0)
          (modify_save (set_cleanup_installed 1) ;; emit EvAtExit) w) ;;
  fun w =>
    if card_owned (a4091_save w) =? 0 then
      (modify_save (set_card_owned 1) ;;
       a4091_add_local_irq_handler ;;
       a4091_disable_driver_irq_handler 0 ;;
       takeover_soft_reset fuel) w
    else (true, w).

(** A completion indication in an ISTAT value:
    [istat & (REG_ISTAT_ABRT | REG_ISTAT_DIP)]. *)
Definition completion (istat : Z) : bool :=
  negb (Z.land istat (Z.lor REG_ISTAT_ABRT REG_ISTAT_DIP) =? 0).

(** The poll at the head of the loop of [execute_script]:
<<
    if ((count & 7) == 0) {
        uint8_t istat = get_ncrreg8(REG_ISTAT);
        if (istat & (REG_ISTAT_ABRT | REG_ISTAT_DIP)) {
            (void) get_ncrreg8(REG_DSTAT);
            ...
            break;
>>
    [true] stands for the [break]. *)
Definition poll_completion (count : Z) : M bool :=
  if Z.land count 7 =? 0 then
    istat <- get_ncrreg8 REG_ISTAT ;;
    if completion istat then
      _ <- get_ncrreg8 REG_DSTAT ;;
      debug FLAG_DEBUG (printf "Got DMA polled completion\n" []) ;;
      ret true
    else ret false
  else ret false.

(** The registers the diagnostic of [execute_script] reads, as its
    [printf] lists them: argument [i] of the five is the read of register
    [nth i diagnostic_regs 0]. *)
Definition diagnostic_regs : list Z :=
  [REG_ISTAT; REG_DSTAT; REG_SSTAT0; REG_SSTAT1; REG_SSTAT2].

(** The five reads are arguments of one call of [printf], and the
    language leaves the order in which the arguments of a call are
    evaluated to the compiler.  [arg_order] is the order of the compiler
    at hand: the positions of the five reads in the argument list, the
    one evaluated first coming first. *)
Variable arg_order : list nat.

(** The reads taken in the order [order]; [vals i] is the value read for
    argument [i]. *)
Fixpoint read_args (order : list nat) (vals : nat -> Z) : M (nat -> Z) :=
  match order with
  | [] => ret vals
  | i :: rest =>
      v <- get_ncrreg8 (nth i diagnostic_regs 0) ;;
      read_args rest (fun k => if (k =? i)%nat then v else vals k)
  end.

(** The diagnostic of [execute_script] once the deadline has passed:
<<
    printf("ISTAT=%02x %02x DSTAT=%02x SSTAT0=%02x SSTAT1=%02x "
           "SSTAT2=%02x\n",
           a4091_save.ireg_istat, get_ncrreg8(REG_ISTAT),
           get_ncrreg8(REG_DSTAT), get_ncrreg8(REG_SSTAT0),
           get_ncrreg8(REG_SSTAT1), get_ncrreg8(REG_SSTAT2));
>> *)
Definition report_timeout : M unit :=
  vals <- read_args arg_order (fun _ => 0) ;;
  fun w =>
    printf "ISTAT=%02x %02x DSTAT=%02x SSTAT0=%02x SSTAT1=%02x SSTAT2=%02x\n"
           [PInt (ireg_istat (a4091_save w)); PInt (vals 0%nat);
            PInt (vals 1%nat); PInt (vals 2%nat); PInt (vals 3%nat);
            PInt (vals 4%nat)] w.

(** The [while (1)] loop of [execute_script].  [count] is an [int]; the
    result is [None] when the loop is still running after [fuel] rounds. *)
Fixpoint execute_script_loop (fuel : nat) (count tick_start : Z)
  : M (option Z) :=
  match fuel with
  | O => ret None
  | S fuel' =>
      polled <- poll_completion count ;;
      if polled : bool then ret (Some 0)
      else
        irq_window ;;
        fun w =>
          if completion (ireg_istat (a4091_save w)) then
            (debug FLAG_DEBUG (printf "Got DMA completion interrupt\n" []) ;;
             ret (Some 0)) w
          else
            (expired <-
               (if Z.land count 31 =? 0
                then access_timeout "SIOP timeout" 30 tick_start
                else ret false) ;;
             if expired : bool then
               report_timeout ;;
               ret (Some 1)
             else execute_script_loop fuel' (to_int32 (count + 1)) tick_start) w
  end.

(** [execute_script]. *)
Definition execute_script (fuel : nat) (script : Z) : M (option Z) :=
  modify_save (set_ireg_istat 0) ;;
  set_ncrreg32 REG_DSP script ;;
  tick_start <- read_system_ticks ;;
  execute_script_loop fuel 0 tick_start.

End Machine.

(** The order of a compiler that evaluates the arguments of a call last to
    first, as one that pushes them on the stack does. *)
Definition last_to_first : list nat := [4; 3; 2; 1; 0]%nat.

(** ** Restore: idempotence and guarded undo steps *)

(** A computation that leaves the ownership flag as it found it. *)
Definition keeps_owned {A : Type} (c : M A) : Prop :=
  forall w, card_owned (a4091_save (snd (c w))) = card_owned (a4091_save w).

Lemma keeps_owned_ret {A : Type} (a : A) : keeps_owned (ret a).
Proof. intros w. reflexivity. Qed.

Lemma keeps_owned_bind {A B : Type} (c : M A) (k : A -> M B) :
  keeps_owned c -> (forall a, keeps_owned (k a)) -> keeps_owned (bind c k).
Proof.
  intros Hc Hk w. unfold bind. rewrite Hk. apply Hc.
Qed.

Lemma keeps_owned_emit e : keeps_owned (emit e).
Proof. intros w. reflexivity. Qed.

Lemma keeps_owned_printf fmt args : keeps_owned (printf fmt args).
Proof. apply keeps_owned_emit. Qed.

Lemma keeps_owned_when b c : keeps_owned c -> keeps_owned (when b c).
Proof. intros H. destruct b; [exact H | apply keeps_owned_ret]. Qed.

Lemma keeps_owned_debug f c : keeps_owned c -> keeps_owned (debug f c).
Proof.
  intros H w. unfold debug. destruct (flag_set w f); [apply H | reflexivity].
Qed.

Lemma keeps_owned_get8 reg : keeps_owned (get_ncrreg8 reg).
Proof. intros w. reflexivity. Qed.

Lemma keeps_owned_set8 reg v : keeps_owned (set_ncrreg8 reg v).
Proof. intros w. reflexivity. Qed.

Lemma keeps_owned_modify f :
  (forall s, card_owned (f s) = card_owned s) -> keeps_owned (modify_save f).
Proof. intros H w. simpl. apply H. Qed.

Lemma keeps_owned_AddIntServer irq node : keeps_owned (AddIntServer irq node).
Proof. intros w. reflexivity. Qed.

Lemma keeps_owned_RemIntServer irq node : keeps_owned (RemIntServer irq node).
Proof. intros w. reflexivity. Qed.

Create HintDb owned.
#[local] Hint Resolve keeps_owned_ret keeps_owned_emit keeps_owned_printf
  keeps_owned_when keeps_owned_debug keeps_owned_get8 keeps_owned_set8
  keeps_owned_AddIntServer keeps_owned_RemIntServer : owned.

Ltac owned_step :=
  first [ apply keeps_owned_bind; [| intros ? ]
        | apply keeps_owned_modify; intros []; reflexivity
        | solve [ auto with owned ] ].

Lemma keeps_owned_reset : keeps_owned a4091_reset.
Proof. unfold a4091_reset. repeat owned_step. Qed.

Lemma keeps_owned_enable : keeps_owned a4091_enable_driver_irq_handler.
Proof.
  intros w. unfold a4091_enable_driver_irq_handler.
  destruct (driver_isr (a4091_save w)) as [node|]; [|reflexivity].
  revert w. change (keeps_owned
    (debug FLAG_DEBUG (printf "Restoring NCR SCSI driver IRQ handler\n" []) ;;
     AddIntServer A4091_IRQ node ;; modify_save (set_driver_isr None))).
  repeat owned_step.
Qed.

Lemma keeps_owned_remove : keeps_owned a4091_remove_local_irq_handler.
Proof.
  intros w. unfold a4091_remove_local_irq_handler.
  destruct (local_isr (a4091_save w)) as [node|]; [|reflexivity].
  revert w. change (keeps_owned
    (RemIntServer A4091_IRQ node ;; emit (EvFreeMem (is_ptr node)) ;;
     modify_save (set_local_isr None))).
  repeat owned_step.
Qed.

(** After a restore the card is not owned, whatever the state before. *)
Lemma restore_clears_owned w :
  card_owned (a4091_save (snd (a4091_state_restore w))) = 0.
Proof.
  unfold a4091_state_restore.
  destruct (card_owned (a4091_save w) =? 0) eqn:E.
  - apply Z.eqb_eq in E. exact E.
  - match goal with
    | |- context [bind (modify_save (set_card_owned 0)) (fun _ => ?t)] =>
        assert (T : keeps_owned t)
    end.
    { apply keeps_owned_bind; [apply keeps_owned_reset | intros _].
      apply keeps_owned_bind; [apply keeps_owned_enable | intros _].
      apply keeps_owned_bind; [apply keeps_owned_remove | intros _].
      intros w'. apply keeps_owned_when. apply keeps_owned_printf. }
    unfold bind at 1. cbv beta zeta. rewrite T. reflexivity.
Qed.

(** C4.  The release path is idempotent: a second [a4091_state_restore]
    right after a first leaves the world (session, interrupt-server chain,
    log of register accesses) as the first left it; on a card that is not
    owned it changes nothing at all, so it writes no register and touches
    no interrupt server; and each undo step is guarded by its own
    precondition: without a saved driver server
    [a4091_enable_driver_irq_handler] does nothing, without a local server
    [a4091_remove_local_irq_handler] does nothing. *)
Theorem state_restore_idempotent :
  forall w : world,
    snd (a4091_state_restore (snd (a4091_state_restore w)))
    = snd (a4091_state_restore w)
    /\ (card_owned (a4091_save w) = 0 -> snd (a4091_state_restore w) = w)
    /\ (driver_isr (a4091_save w) = None ->
        snd (a4091_enable_driver_irq_handler w) = w)
    /\ (local_isr (a4091_save w) = None ->
        snd (a4091_remove_local_irq_handler w) = w).
Proof.
  intros w. repeat split.
  - pose proof (restore_clears_owned w) as H.
    set (w1 := snd (a4091_state_restore w)) in *.
    unfold a4091_state_restore at 1.
    apply Z.eqb_eq in H. rewrite H. reflexivity.
  - intros H. unfold a4091_state_restore.
    apply Z.eqb_eq in H. rewrite H. reflexivity.
  - intros H. unfold a4091_enable_driver_irq_handler. rewrite H. reflexivity.
  - intros H. unfold a4091_remove_local_irq_handler. rewrite H. reflexivity.
Qed.

(** A concrete world with no card owned, used to run the definitions. *)
Definition idle_save (base : Z) : a4091_save_t :=
  mkSave base 0 0 0 0 None None 0 0 0 0.

Definition ncr_scsi_server : Interrupt :=
  mkInterrupt 0x07f00100 20 (Some "NCR SCSI"%string) 0x07f00000 0x00f80000.

Definition idle_world (bus ticks : nat -> Z) (irqs : nat -> list irq_regs)
  : world :=
  mkWorld 0x40000000 0 (idle_save 0x40000000) 0 [ncr_scsi_server] 0x07e00000
          bus 0%nat ticks 0%nat irqs 0%nat [] [].

Definition no_irqs : nat -> list irq_regs := fun _ => [].

Lemma state_restore_idempotent_witness :
  card_owned (a4091_save (idle_world (fun _ => 0) (fun _ => 0) no_irqs)) = 0
  /\ snd (a4091_state_restore (idle_world (fun _ => 0) (fun _ => 0) no_irqs))
     = idle_world (fun _ => 0) (fun _ => 0) no_irqs.
Proof.
  split.
  - reflexivity.
  - apply (proj1 (proj2 (state_restore_idempotent
                           (idle_world (fun _ => 0) (fun _ => 0) no_irqs)))).
    reflexivity.
Defined.

(** ** Takeover: the soft reset *)

Definition is_bus_access (e : event) : bool :=
  match e with
  | EvRead8 _ _ | EvWrite8 _ _ | EvRead32 _ _ | EvWrite32 _ _ => true
  | _ => false
  end.

(** The register accesses among the events of a log. *)
Definition bus_accesses (l : list event) : list event :=
  filter is_bus_access l.

Lemma bus_accesses_app l1 l2 :
  bus_accesses (l1 ++ l2) = bus_accesses l1 ++ bus_accesses l2.
Proof. apply filter_app. Qed.

(** The events a computation appends to the log. *)
Definition appended (w w' : world) : list event :=
  skipn (List.length (log w)) (log w').

(** [frame w w' nb nt ni]: [w'] is [w] after [nb] bus reads, [nt] readings
    of the clock and [ni] looks at the interrupt snapshot; the card base,
    the flags and the tapes are those of [w]. *)
Record frame (w w' : world) (nb nt ni : nat) : Prop := mkFrame {
  fr_base     : a4091_base w' = a4091_base w;
  fr_flags    : runtime_flags w' = runtime_flags w;
  fr_bus_tape : bus_tape w' = bus_tape w;
  fr_tick_tape : tick_tape w' = tick_tape w;
  fr_irq_tape : irq_tape w' = irq_tape w;
  fr_bus_pos  : bus_pos w' = (nb + bus_pos w)%nat;
  fr_tick_pos : tick_pos w' = (nt + tick_pos w)%nat;
  fr_irq_pos  : irq_pos w' = (ni + irq_pos w)%nat
}.

Lemma frame_refl w : frame w w 0 0 0.
Proof. constructor; reflexivity. Qed.

Lemma frame_trans w1 w2 w3 a b c a' b' c' :
  frame w1 w2 a b c -> frame w2 w3 a' b' c' ->
  frame w1 w3 (a' + a) (b' + b) (c' + c).
Proof.
  intros [] []. constructor; try congruence; lia.
Qed.

(** A computation that leaves the card, the clock and the tapes alone and
    logs no register access. *)
Definition silent {A : Type} (c : M A) : Prop :=
  forall w,
    frame w (snd (c w)) 0 0 0
    /\ exists tr, log (snd (c w)) = log w ++ tr /\ bus_accesses tr = [].

Lemma silent_ret {A : Type} (a : A) : silent (ret a).
Proof.
  intros w. simpl. split; [apply frame_refl|].
  exists []. rewrite app_nil_r. auto.
Qed.

Lemma silent_bind {A B : Type} (c : M A) (k : A -> M B) :
  silent c -> (forall a, silent (k a)) -> silent (bind c k).
Proof.
  intros Hc Hk w. unfold bind. cbv zeta.
  destruct (Hc w) as (F1 & tr1 & L1 & B1).
  destruct (Hk (fst (c w)) (snd (c w))) as (F2 & tr2 & L2 & B2).
  split.
  - apply (frame_trans _ _ _ _ _ _ _ _ _ F1 F2).
  - exists (tr1 ++ tr2). split.
    + rewrite L2, L1, app_assoc. reflexivity.
    + rewrite bus_accesses_app, B1, B2. reflexivity.
Qed.

Lemma silent_emit e : is_bus_access e = false -> silent (emit e).
Proof.
  intros H w. simpl. split; [constructor; reflexivity|].
  exists [e]. split; [reflexivity|].
  unfold bus_accesses. simpl. rewrite H. reflexivity.
Qed.

Lemma silent_printf fmt args : silent (printf fmt args).
Proof. apply silent_emit. reflexivity. Qed.

Lemma silent_when b c : silent c -> silent (when b c).
Proof. intros H. destruct b; [exact H | apply silent_ret]. Qed.

Lemma silent_debug f c : silent c -> silent (debug f c).
Proof.
  intros H w. unfold debug.
  destruct (flag_set w f); [apply H | apply (silent_ret tt)].
Qed.

Lemma silent_modify f : silent (modify_save f).
Proof.
  intros w. simpl. split; [constructor; reflexivity|].
  exists []. rewrite app_nil_r. auto.
Qed.

Lemma silent_AddIntServer irq node : silent (AddIntServer irq node).
Proof.
  intros w. unfold AddIntServer. simpl. split; [constructor; reflexivity|].
  exists [EvAddIntServer irq node]. split; reflexivity.
Qed.

Lemma silent_RemIntServer irq node : silent (RemIntServer irq node).
Proof.
  intros w. unfold RemIntServer. simpl. split; [constructor; reflexivity|].
  exists [EvRemIntServer irq node]. split; reflexivity.
Qed.

Create HintDb silence.
#[local] Hint Resolve silent_ret silent_printf silent_when silent_debug
  silent_modify silent_AddIntServer silent_RemIntServer : silence.

Ltac silent_step :=
  first [ apply silent_bind; [| intros ? ]
        | apply silent_emit; reflexivity
        | apply silent_debug
        | apply silent_when
        | solve [ auto with silence ] ].

Lemma silent_add_local sp hp : silent (a4091_add_local_irq_handler sp hp).
Proof.
  unfold a4091_add_local_irq_handler.
  apply silent_bind; [apply silent_modify | intros _].
  intros w.
  match goal with
  | |- context [?c w] =>
      match c with
      | bind _ _ => assert (S : silent c) by (repeat silent_step); apply (S w)
      end
  end.
Qed.

Lemma silent_disable_walk l :
  forall suspended, silent (disable_walk l suspended).
Proof.
  induction l as [|s rest IH]; intros suspended; simpl.
  - apply silent_ret.
  - apply silent_bind; [ repeat silent_step | intros _ ].
    destruct (String.eqb (GetNodeName s) "NCR SCSI").
    + repeat silent_step.
    + apply IH.
Qed.

Lemma silent_disable_driver verbose :
  silent (a4091_disable_driver_irq_handler verbose).
Proof.
  intros w. unfold a4091_disable_driver_irq_handler.
  destruct (int_servers w) as [|s rest] eqn:E.
  - apply (silent_ret tt).
  - match goal with
    | |- context [?c w] =>
        match c with
        | bind _ _ => assert (S : silent c); [| apply (S w)]
        end
    end.
    apply silent_bind; [ silent_step | intros _ ].
    apply silent_bind; [ apply silent_disable_walk | intros b ].
    apply silent_bind; [ silent_step | intros _ ].
    intros w'. apply silent_when. apply silent_printf.
Qed.

(** A computation that only appends events other than register accesses
    to the log. *)
Definition only_logs {A : Type} (c : M A) : Prop :=
  forall w, exists tr,
    snd (c w) = with_log (log w ++ tr) w /\ bus_accesses tr = [].

Lemma with_log_same w : with_log (log w ++ []) w = w.
Proof. destruct w. unfold with_log. simpl. rewrite app_nil_r. reflexivity. Qed.

Lemma with_log_twice l1 l2 w :
  with_log (log (with_log (log w ++ l1) w) ++ l2) (with_log (log w ++ l1) w)
  = with_log (log w ++ l1 ++ l2) w.
Proof. unfold with_log. simpl. rewrite app_assoc. reflexivity. Qed.

Lemma only_logs_ret {A : Type} (a : A) : only_logs (ret a).
Proof. intros w. exists []. simpl. rewrite with_log_same. auto. Qed.

Lemma only_logs_bind {A B : Type} (c : M A) (k : A -> M B) :
  only_logs c -> (forall a, only_logs (k a)) -> only_logs (bind c k).
Proof.
  intros Hc Hk w. unfold bind. cbv zeta.
  destruct (Hc w) as (tr1 & E1 & B1).
  destruct (Hk (fst (c w)) (snd (c w))) as (tr2 & E2 & B2).
  exists (tr1 ++ tr2). split.
  - rewrite E2, E1. apply with_log_twice.
  - rewrite bus_accesses_app, B1, B2. reflexivity.
Qed.

Lemma only_logs_emit e : is_bus_access e = false -> only_logs (emit e).
Proof.
  intros H w. exists [e]. split; [reflexivity|].
  unfold bus_accesses. simpl. rewrite H. reflexivity.
Qed.

Lemma only_logs_printf fmt args : only_logs (printf fmt args).
Proof. apply only_logs_emit. reflexivity. Qed.

Lemma only_logs_when b c : only_logs c -> only_logs (when b c).
Proof. intros H. destruct b; [exact H | apply only_logs_ret]. Qed.

Lemma only_logs_debug f c : only_logs c -> only_logs (debug f c).
Proof.
  intros H w. unfold debug.
  destruct (flag_set w f); [apply H | apply (only_logs_ret tt)].
Qed.


(** Running a sequence: the continuation gets the value and the world the
    first computation leaves. *)
Lemma bind_run {A B : Type} (c : M A) (k : A -> M B) (w : world) :
  bind c k w = k (fst (c w)) (snd (c w)).
Proof. reflexivity. Qed.

Lemma run_bind {A B : Type} (c : M A) (k : A -> M B) (w : world)
               (r : B * world) :
  k (fst (c w)) (snd (c w)) = r -> bind c k w = r.
Proof. intros H. exact H. Qed.

Lemma snd_bind {A B : Type} (c : M A) (k : A -> M B) w :
  snd (bind c k w) = snd (k (fst (c w)) (snd (c w))).
Proof. reflexivity. Qed.

Lemma snd_seq {A B : Type} (a : M A) (b : M B) w :
  snd ((a ;; b) w) = snd (b (snd (a w))).
Proof. reflexivity. Qed.

(** [access_timeout] decided on the clock reading it takes. *)
Definition timed_out (ticks tick_start tick_end : Z) : bool :=
  if tick_end <? tick_start then false
  else to_int32 ticks <? to_int32 (tick_end - tick_start).

(** The ISTAT reset bit. *)
Definition rst_set (v : Z) : bool := negb (Z.land v REG_ISTAT_RST =? 0).

(** The k-th value still to come on the bus tape, and on the clock tape. *)
Definition next_bus (w : world) (k : nat) : Z :=
  wrap8 (bus_tape w (k + bus_pos w)%nat).

Definition next_tick (w : world) (k : nat) : Z :=
  wrap64 (tick_tape w (k + tick_pos w)%nat).

Lemma access_timeout_run TPS msg ticks ts w :
  exists tr,
    access_timeout TPS msg ticks ts w
    = (timed_out ticks ts (next_tick w 0),
       with_log (log w ++ EvTicks (next_tick w 0) :: tr)
                (with_tick_pos (S (tick_pos w)) w))
    /\ bus_accesses tr = [].
Proof.
  unfold access_timeout, timed_out.
  unfold bind at 1. cbv zeta.
  change (fst (read_system_ticks w)) with (next_tick w 0).
  set (w1 := snd (read_system_ticks w)).
  assert (K : forall (c : M unit) (b : bool), only_logs c ->
            exists tr, bind c (fun _ => ret b) w1
                       = (b, with_log (log w ++ EvTicks (next_tick w 0) :: tr)
                                (with_tick_pos (S (tick_pos w)) w))
                       /\ bus_accesses tr = []).
  { intros c b Hc. destruct (Hc w1) as (tr & E & B). exists tr. split; [|exact B].
    rewrite (surjective_pairing (bind c (fun _ => ret b) w1)).
    f_equal. change (snd (bind c (fun _ : unit => ret b) w1)) with (snd (c w1)).
    rewrite E. unfold w1, read_system_ticks, with_log, with_tick_pos. simpl.
    rewrite <- app_assoc. reflexivity. }
  destruct (next_tick w 0 <? ts).
  - apply K. apply only_logs_printf.
  - destruct (to_int32 ticks <? to_int32 (next_tick w 0 - ts)).
    + match goal with
      | |- context [bind ?a (fun _ => bind ?b (fun _ => bind ?c (fun _ => ret true)))] =>
          apply (K (bind a (fun _ => bind b (fun _ => c))) true)
      end.
      apply only_logs_bind; [apply only_logs_printf | intros _].
      apply only_logs_bind;
        [apply only_logs_when, only_logs_printf | intros _; apply only_logs_printf].
    + exists []. split; [|reflexivity]. reflexivity.
Qed.

Lemma get_ncrreg8_run reg w :
  get_ncrreg8 reg w
  = (next_bus w 0,
     with_log (log w ++ [EvRead8 (rd_addr w reg) (next_bus w 0)])
              (with_bus_pos (S (bus_pos w)) w)).
Proof. reflexivity. Qed.

Lemma set_ncrreg8_run reg v w :
  set_ncrreg8 reg v w
  = (tt, with_log (log w ++ [EvWrite8 (wr_addr w reg) (wrap8 v)]) w).
Proof. reflexivity. Qed.

(** The polls of the takeover wait: the loop is left at the first round
    [n] in which ISTAT shows RST or the clock shows the timeout, after
    [n + 1] reads of ISTAT and nothing else on the bus. *)
Lemma takeover_wait_run TPS ts :
  forall (n fuel : nat) (w : world),
    (n < fuel)%nat ->
    (forall k, (k < n)%nat ->
       rst_set (next_bus w k) = false
       /\ timed_out 2 ts (next_tick w k) = false) ->
    (rst_set (next_bus w n) = true
     \/ timed_out 2 ts (next_tick w n) = true) ->
    exists w' tr,
      takeover_wait TPS fuel ts w = (true, w')
      /\ a4091_base w' = a4091_base w
      /\ log w' = log w ++ tr
      /\ bus_accesses tr
         = map (fun k => EvRead8 (rd_addr w REG_ISTAT) (next_bus w k))
               (seq 0 (S n)).
Proof.
  induction n as [|n IH]; intros fuel w Hfuel Hquiet Hexit;
    (destruct fuel as [|fuel]; [lia|]).
  - simpl takeover_wait. unfold bind at 1. cbv zeta.
    rewrite get_ncrreg8_run. cbn [fst snd].
    set (w1 := with_log _ _).
    unfold rst_set in Hexit.
    destruct (Z.land (next_bus w 0) REG_ISTAT_RST =? 0) eqn:E.
    + destruct Hexit as [Hexit|Hexit]; [discriminate|].
      unfold bind. cbv zeta.
      destruct (access_timeout_run TPS "ISTAT_RST timeout" 2 ts w1)
        as (tr & R & B).
      rewrite R. cbn [fst snd].
      change (next_tick w1 0) with (next_tick w 0). rewrite Hexit.
      eexists. eexists. split; [reflexivity|]. split; [reflexivity|]. split.
      * simpl. rewrite <- app_assoc. reflexivity.
      * simpl. unfold bus_accesses in *. simpl. rewrite B. reflexivity.
    + eexists. exists [EvRead8 (rd_addr w REG_ISTAT) (next_bus w 0)].
      repeat split.
  - simpl takeover_wait. unfold bind at 1. cbv zeta.
    rewrite get_ncrreg8_run. cbn [fst snd].
    set (w1 := with_log _ _).
    destruct (Hquiet 0%nat ltac:(lia)) as [Hr Ht].
    unfold rst_set in Hr. apply negb_false_iff in Hr. rewrite Hr.
    unfold bind. cbv zeta.
    destruct (access_timeout_run TPS "ISTAT_RST timeout" 2 ts w1)
      as (tr & R & B).
    rewrite R. cbn [fst snd].
    change (next_tick w1 0) with (next_tick w 0). rewrite Ht.
    set (w2 := with_log _ _).
    assert (Nb : forall k, next_bus w2 k = next_bus w (S k)).
    { intros k. unfold next_bus. simpl. rewrite Nat.add_succ_r. reflexivity. }
    assert (Nt : forall k, next_tick w2 k = next_tick w (S k)).
    { intros k. unfold next_tick. simpl. rewrite Nat.add_succ_r. reflexivity. }
    destruct (IH fuel w2) as (w' & tr2 & I1 & I2 & I3 & I4).
    + lia.
    + intros k Hk. rewrite Nb, Nt. apply Hquiet. lia.
    + rewrite Nb, Nt. exact Hexit.
    + exists w'.
      exists ([EvRead8 (rd_addr w REG_ISTAT) (next_bus w 0)]
              ++ (EvTicks (next_tick w 0) :: tr) ++ tr2).
      split; [exact I1|]. split; [rewrite I2; reflexivity|].
      split.
      * rewrite I3. unfold w2, w1. simpl.
        rewrite <- !app_assoc. reflexivity.
      * rewrite !bus_accesses_app, I4.
        change (bus_accesses (EvTicks (next_tick w 0) :: tr))
          with (bus_accesses tr).
        rewrite B.
        change (bus_accesses [EvRead8 (rd_addr w REG_ISTAT) (next_bus w 0)])
          with [EvRead8 (rd_addr w REG_ISTAT) (next_bus w 0)].
        change (seq 0 (S (S n))) with (0%nat :: seq 1 (S n)).
        rewrite <- (seq_shift (S n) 0), map_cons, map_map.
        cbn [app]. f_equal. apply map_ext. intros k. rewrite Nb. reflexivity.
Qed.

Lemma byte_or_rst v : 0 <= v < 256 -> wrap8 (Z.lor v REG_ISTAT_RST) = Z.lor v REG_ISTAT_RST.
Proof.
  intros H.
  assert (C : forall_below 256
            (fun v => wrap8 (Z.lor v REG_ISTAT_RST) =? Z.lor v REG_ISTAT_RST) = true)
    by (vm_compute; reflexivity).
  apply Z.eqb_eq. apply (forall_below_spec 256 _ C). exact H.
Qed.

Lemma byte_clear_rst v :
  0 <= v < 256 -> wrap8 (Z.land v (Z.lnot REG_ISTAT_RST)) = Z.land v 0xBF.
Proof.
  intros H.
  assert (C : forall_below 256
            (fun v => wrap8 (Z.land v (Z.lnot REG_ISTAT_RST)) =? Z.land v 0xBF) = true)
    by (vm_compute; reflexivity).
  apply Z.eqb_eq. apply (forall_below_spec 256 _ C). exact H.
Qed.

Lemma next_bus_range w k : 0 <= next_bus w k < 256.
Proof. apply wrap8_range. Qed.

(** The register accesses of the soft reset when its wait is left in
    round [n]: the saved ISTAT value [v] is read; [v | RST] is written and
    ISTAT read back; [v] is written; [v | RST] is written again; ISTAT is
    polled [n + 1] times; [v & ~RST] is written. *)
Definition soft_reset_accesses (w : world) (n : nat) : list event :=
  let v := next_bus w 0 in
  [EvRead8 (rd_addr w REG_ISTAT) v;
   EvWrite8 (wr_addr w REG_ISTAT) (Z.lor v REG_ISTAT_RST);
   EvRead8 (rd_addr w REG_ISTAT) (next_bus w 1);
   EvWrite8 (wr_addr w REG_ISTAT) v;
   EvWrite8 (wr_addr w REG_ISTAT) (Z.lor v REG_ISTAT_RST)]
  ++ map (fun k => EvRead8 (rd_addr w REG_ISTAT) (next_bus w (2 + k)))
         (seq 0 (S n))
  ++ [EvWrite8 (wr_addr w REG_ISTAT) (Z.land v 0xBF)].

(** Round [n] is the first in which the takeover wait is left: up to it
    ISTAT shows no RST and the clock no timeout. *)
Definition takeover_leaves_at (w : world) (n : nat) : Prop :=
  (forall k, (k < n)%nat ->
     rst_set (next_bus w (2 + k)) = false
     /\ timed_out 2 (next_tick w 0) (next_tick w (1 + k)) = false)
  /\ (rst_set (next_bus w (2 + n)) = true
      \/ timed_out 2 (next_tick w 0) (next_tick w (1 + n)) = true).

Ltac wsimpl :=
  unfold get_ncrreg8, set_ncrreg8, get_ncrreg32, set_ncrreg32, bus_read8,
    bus_write8, bus_read32, bus_write32, emit, modify_save, read_system_ticks;
  cbv zeta;
  unfold with_log, with_save, with_bus_pos, with_tick_pos, with_irq_pos,
    with_irq_log, with_int_servers, with_rand_seed;
  cbn [fst snd ret log a4091_base runtime_flags a4091_save rand_seed
       int_servers isr_alloc bus_tape bus_pos tick_tape tick_pos irq_tape
       irq_pos irq_log].

Ltac wstep := unfold bind at 1; cbv zeta; wsimpl.

Lemma takeover_soft_reset_run TPS :
  forall (n fuel : nat) (w : world),
    (n < fuel)%nat ->
    takeover_leaves_at w n ->
    exists w' tr,
      takeover_soft_reset TPS fuel w = (true, w')
      /\ log w' = log w ++ tr
      /\ bus_accesses tr = soft_reset_accesses w n.
Proof.
  intros n fuel w Hfuel [Hquiet Hexit].
  unfold takeover_soft_reset.
  wstep. wstep.
  unfold bind at 1. cbv zeta.
  match goal with
  | |- context [debug FLAG_DEBUG ?c ?x] =>
      destruct (only_logs_debug FLAG_DEBUG c (only_logs_printf _ _) x)
        as (trd & Ed & Bd); rewrite Ed; clear Ed
  end.
  wsimpl.
  do 5 wstep.
  match goal with
  | |- context [bind (takeover_wait TPS fuel ?t) _ ?x] =>
      set (wd := x); set (ts := t)
  end.
  assert (Ets : ts = next_tick w 0) by reflexivity.
  assert (Nb : forall k, next_bus wd k = next_bus w (2 + k)).
  { intros k. unfold next_bus, wd. cbn [bus_tape bus_pos].
    replace (k + S (S (bus_pos w)))%nat with (2 + k + bus_pos w)%nat by lia.
    reflexivity. }
  assert (Nt : forall k, next_tick wd k = next_tick w (1 + k)).
  { intros k. unfold next_tick, wd. cbn [tick_tape tick_pos].
    replace (k + S (tick_pos w))%nat with (1 + k + tick_pos w)%nat by lia.
    reflexivity. }
  destruct (takeover_wait_run TPS ts n fuel wd Hfuel)
    as (w' & trw & R & Bs & L & A).
  { intros k Hk. rewrite Nb, Nt, Ets. apply Hquiet. exact Hk. }
  { rewrite Nb, Nt, Ets. exact Hexit. }
  unfold bind at 1. cbv zeta. rewrite R. cbn [fst snd].
  unfold bind. cbv zeta. cbn [fst snd ret].
  eexists. eexists. split; [reflexivity|].
  cbn [log]. rewrite L, Bs. unfold wd at 1 2. cbn [log a4091_base].
  split.
  - rewrite <- !app_assoc. reflexivity.
  - rewrite !bus_accesses_app, Bd, A.
    unfold soft_reset_accesses, rd_addr, wr_addr.
    change (a4091_base wd) with (a4091_base w).
    change (wrap8 (bus_tape w (bus_pos w))) with (next_bus w 0).
    rewrite (byte_or_rst _ (next_bus_range w 0)).
    rewrite (byte_clear_rst _ (next_bus_range w 0)).
    rewrite (wrap8_small _ (next_bus_range w 0)).
    cbn [bus_accesses filter is_bus_access app].
    do 5 f_equal. f_equal.
    apply map_ext. intros k. rewrite Nb. reflexivity.
Qed.

Lemma frame_next_bus w w' k : frame w w' 0 0 0 -> next_bus w' k = next_bus w k.
Proof.
  intros F. unfold next_bus.
  rewrite (fr_bus_tape _ _ _ _ _ F), (fr_bus_pos _ _ _ _ _ F). reflexivity.
Qed.

Lemma frame_next_tick w w' k : frame w w' 0 0 0 -> next_tick w' k = next_tick w k.
Proof.
  intros F. unfold next_tick.
  rewrite (fr_tick_tape _ _ _ _ _ F), (fr_tick_pos _ _ _ _ _ F). reflexivity.
Qed.

Lemma frame_soft_reset_accesses w w' n :
  frame w w' 0 0 0 -> soft_reset_accesses w' n = soft_reset_accesses w n.
Proof.
  intros F. unfold soft_reset_accesses, rd_addr, wr_addr.
  rewrite (fr_base _ _ _ _ _ F), !(frame_next_bus w w' _ F).
  cbv zeta.
  rewrite (map_ext
             (fun k => EvRead8 (wrap32 (a4091_base w + A4091_OFFSET_REGISTERS
                                        + REG_ISTAT)) (next_bus w' (2 + k)))
             (fun k => EvRead8 (wrap32 (a4091_base w + A4091_OFFSET_REGISTERS
                                        + REG_ISTAT)) (next_bus w (2 + k))))
    by (intros k; rewrite (frame_next_bus w w' _ F); reflexivity).
  reflexivity.
Qed.

Lemma frame_takeover_leaves_at w w' n :
  frame w w' 0 0 0 -> takeover_leaves_at w n -> takeover_leaves_at w' n.
Proof.
  intros F [Hq He]. split.
  - intros k Hk.
    rewrite (frame_next_bus w w' _ F), !(frame_next_tick w w' _ F).
    apply Hq. exact Hk.
  - rewrite (frame_next_bus w w' _ F), !(frame_next_tick w w' _ F). exact He.
Qed.

(** A computation run after three others starts in the world they leave. *)
Lemma run_after3 {A B C D : Type} (a : M A) (b : M B) (c : M C) (d : M D) w :
  (a ;; b ;; c ;; d) w = d (snd ((a ;; b ;; c) w)).
Proof. reflexivity. Qed.

(** The registration of the cleanup action, the first statement of
    [a4091_state_takeover]. *)
Lemma silent_register_cleanup :
  silent (fun w =>
            when (cleanup_installed (a4091_save w) =? 0)
                 (modify_save (set_cleanup_installed 1) ;; emit EvAtExit) w).
Proof.
  intros w. apply silent_when.
  apply silent_bind; [apply silent_modify | intros _].
  apply silent_emit. reflexivity.
Qed.

Lemma keeps_owned_register_cleanup :
  keeps_owned (fun w =>
            when (cleanup_installed (a4091_save w) =? 0)
                 (modify_save (set_cleanup_installed 1) ;; emit EvAtExit) w).
Proof.
  intros w. apply keeps_owned_when.
  apply keeps_owned_bind; [| intros _; apply keeps_owned_emit].
  apply keeps_owned_modify. intros []. reflexivity.
Qed.

(** C2, as amended.  Every call of [a4091_state_takeover] that performs the
    soft reset (the card is not owned yet) makes its register accesses in
    this order: the read of ISTAT that is saved; the write of the saved
    value with the RST bit set; the read of ISTAT that flushes the write;
    the write of the saved value as it was read, in which RST is clear
    unless ISTAT read with it set; a second write of the saved value with
    RST set; polls of ISTAT until one shows RST set or the 2-tick timeout
    elapses ([n + 1] polls when that happens in round [n]); and last the
    write of the saved value with RST cleared, after which the function
    returns without reading ISTAT again. *)
Theorem takeover_accesses TPS sp hp :
  forall (n fuel : nat) (w : world),
    card_owned (a4091_save w) = 0 ->
    (n < fuel)%nat ->
    takeover_leaves_at w n ->
    exists w' tr,
      a4091_state_takeover TPS sp hp fuel w = (true, w')
      /\ log w' = log w ++ tr
      /\ bus_accesses tr = soft_reset_accesses w n.
Proof.
  intros n fuel w Hown Hfuel Hleave.
  unfold a4091_state_takeover.
  unfold bind at 1. cbv zeta.
  cbv beta.
  set (wA := snd (when (cleanup_installed (a4091_save w) =? 0)
                       (modify_save (set_cleanup_installed 1) ;; emit EvAtExit)
                       w)).
  assert (SA : frame w wA 0 0 0
               /\ exists tr, log wA = log w ++ tr /\ bus_accesses tr = [])
    by apply (silent_register_cleanup w).
  destruct SA as (FA & trA & LA & BA).
  assert (OA : card_owned (a4091_save wA) = card_owned (a4091_save w))
    by apply (keeps_owned_register_cleanup w).
  rewrite OA, Hown. change (0 =? 0) with true. cbv iota.
  set (pre := modify_save (set_card_owned 1) ;;
              a4091_add_local_irq_handler sp hp ;;
              a4091_disable_driver_irq_handler 0).
  assert (Spre : silent pre).
  { unfold pre. apply silent_bind; [apply silent_modify | intros _].
    apply silent_bind; [apply silent_add_local | intros _].
    apply silent_disable_driver. }
  rewrite run_after3.
  change (modify_save (set_card_owned 1) ;;
          a4091_add_local_irq_handler sp hp ;;
          a4091_disable_driver_irq_handler 0) with pre.
  destruct (Spre wA) as (FB & trB & LB & BB).
  set (wB := snd (pre wA)) in *.
  pose proof (frame_trans _ _ _ _ _ _ _ _ _ FA FB) as F.
  change (0 + 0)%nat with 0%nat in F.
  destruct (takeover_soft_reset_run TPS n fuel wB Hfuel
              (frame_takeover_leaves_at w wB n F Hleave))
    as (w' & tr & R & L & A).
  exists w', (trA ++ trB ++ tr). split; [exact R|]. split.
  - rewrite L, LB, LA, <- !app_assoc. reflexivity.
  - rewrite !bus_accesses_app, BA, BB, A.
    apply frame_soft_reset_accesses. exact F.
Qed.

(** A card whose ISTAT reads 0 when the takeover saves it and shows RST on
    every later read, on a clock that stands still. *)
Definition rst_latched_bus : nat -> Z :=
  fun k => match k with O => 0 | S _ => 0x40 end.

Definition rst_latched_world : world :=
  idle_world rst_latched_bus (fun _ => 1000) no_irqs.

Lemma takeover_accesses_witness :
  exists w' tr,
    a4091_state_takeover 50 0x07d00000 0x07c00000 4 rst_latched_world
    = (true, w')
    /\ log w' = log rst_latched_world ++ tr
    /\ bus_accesses tr = soft_reset_accesses rst_latched_world 0.
Proof.
  apply (takeover_accesses 50 0x07d00000 0x07c00000 0 4 rst_latched_world).
  - reflexivity.
  - lia.
  - split.
    + intros k Hk. lia.
    + left. reflexivity.
Defined.

(** What C2 as written asks of the wait: some read of ISTAT shows RST set
    and a later read shows it clear. *)
Definition observes_set_then_clear (acc : list event) : Prop :=
  exists l1 a va l2 b vb l3,
    acc = l1 ++ EvRead8 a va :: l2 ++ EvRead8 b vb :: l3
    /\ rst_set va = true /\ rst_set vb = false.

Definition reads_rst_clear (e : event) : bool :=
  match e with
  | EvRead8 _ v => negb (rst_set v)
  | _ => false
  end.

Fixpoint set_then_clear_b (acc : list event) : bool :=
  match acc with
  | [] => false
  | e :: t =>
      match e with
      | EvRead8 _ v => rst_set v && existsb reads_rst_clear t
      | _ => false
      end || set_then_clear_b t
  end.

Lemma observes_set_then_clear_b acc :
  observes_set_then_clear acc -> set_then_clear_b acc = true.
Proof.
  intros (l1 & a & va & l2 & b & vb & l3 & E & Ha & Hb). subst acc.
  induction l1 as [|e l1 IH]; simpl.
  - rewrite Ha. simpl. apply orb_true_iff. left.
    apply existsb_exists. exists (EvRead8 b vb). split.
    + apply in_or_app. right. left. reflexivity.
    + simpl. rewrite Hb. reflexivity.
  - rewrite IH. apply orb_true_r.
Qed.

(** C2 as written does not hold.  On [rst_latched_world] the takeover
    returns without any timeout (the clock stands still), and its register
    accesses are the seven listed: after the write that clears RST comes a
    second write that sets it, the single poll shows RST set, and the
    function ends with a write, so RST is never observed clear. *)
Lemma takeover_never_observes_rst_clear :
  let r := a4091_state_takeover 50 0x07d00000 0x07c00000 4 rst_latched_world in
  fst r = true
  /\ bus_accesses (log (snd r))
     = [EvRead8 0x40800022 0; EvWrite8 0x40800062 0x40;
        EvRead8 0x40800022 0x40; EvWrite8 0x40800062 0;
        EvWrite8 0x40800062 0x40; EvRead8 0x40800022 0x40;
        EvWrite8 0x40800062 0]
  /\ ~ In (EvPrintf "%s: %d ticks" [PStr "ISTAT_RST timeout"; PInt 0])
          (log (snd r))
  /\ ~ observes_set_then_clear (bus_accesses (log (snd r))).
Proof.
  assert (E : bus_accesses
                (log (snd (a4091_state_takeover 50 0x07d00000 0x07c00000 4
                             rst_latched_world)))
              = [EvRead8 0x40800022 0; EvWrite8 0x40800062 0x40;
                 EvRead8 0x40800022 0x40; EvWrite8 0x40800062 0;
                 EvWrite8 0x40800062 0x40; EvRead8 0x40800022 0x40;
                 EvWrite8 0x40800062 0])
    by (vm_compute; reflexivity).
  cbv zeta. split; [vm_compute; reflexivity|].
  split; [exact E|]. split.
  - vm_compute. intros H. repeat (destruct H as [H|H]; [discriminate H|]).
    exact H.
  - rewrite E. intros H. apply observes_set_then_clear_b in H.
    vm_compute in H. discriminate H.
Qed.

(** ** The interrupt handler over a session *)

(** What happens to the session between the installation of the local
    handler and its removal: the main line marks an interrupt as expected
    by clearing the captured ISTAT (the first statement of
    [execute_script]), or the handler runs. *)
Inductive session_step : Type :=
| MarkExpected
| InterruptTaken (r : irq_regs).

(** The values the handler returns over a run of session steps. *)
Fixpoint session_returns (steps : list session_step) (save : a4091_save_t)
  : list Z :=
  match steps with
  | [] => []
  | MarkExpected :: rest => session_returns rest (set_ireg_istat 0 save)
  | InterruptTaken r :: rest =>
      let '(rc, save', _) := a4091_irq_handler r save in
      rc :: session_returns rest save'
  end.

(** "Handled" for the first interrupt with DIP or SIP set and for no
    other; [seen] tells whether that interrupt is in the past. *)
Fixpoint first_capture_only (steps : list session_step) (seen : bool)
  : list Z :=
  match steps with
  | [] => []
  | MarkExpected :: rest => first_capture_only rest seen
  | InterruptTaken r :: rest =>
      if irq_pending (wrap8 (ir_istat r))
      then (if seen then 0 else 1) :: first_capture_only rest true
      else 0 :: first_capture_only rest seen
  end.

(** "Handled" once per expected interrupt, as C3 is written: the first
    interrupt with DIP or SIP set after each mark is handled, the others
    are not. *)
Fixpoint once_per_mark (steps : list session_step) (armed : bool) : list Z :=
  match steps with
  | [] => []
  | MarkExpected :: rest => once_per_mark rest true
  | InterruptTaken r :: rest =>
      if irq_pending (wrap8 (ir_istat r)) && armed
      then 1 :: once_per_mark rest false
      else 0 :: once_per_mark rest armed
  end.

Lemma session_returns_from_count :
  forall (steps : list session_step) (save : a4091_save_t),
    0 <= intcount save ->
    intcount save + Z.of_nat (List.length steps) < 4294967296 ->
    session_returns steps save
    = first_capture_only steps (negb (intcount save =? 0)).
Proof.
  induction steps as [|st rest IH]; intros save Hlo Hhi; [reflexivity|].
  cbn [List.length] in Hhi. rewrite Nat2Z.inj_succ in Hhi.
  destruct st as [|r]; cbn [session_returns first_capture_only].
  - rewrite IH; [reflexivity | exact Hlo | simpl; lia].
  - unfold a4091_irq_handler.
    destruct (irq_pending (wrap8 (ir_istat r))) eqn:P.
    + cbn [intcount set_intcount set_captured].
      rewrite (wrap32_small (intcount save + 1)) by lia.
      destruct (intcount save =? 0) eqn:Z0.
      * apply Z.eqb_eq in Z0. rewrite Z0. cbn [Z.add Z.eqb Pos.eqb negb].
        f_equal. rewrite IH; cbn [intcount set_intcount]; [|lia|lia].
        reflexivity.
      * apply Z.eqb_neq in Z0.
        assert (N1 : (intcount save + 1 =? 1) = false)
          by (apply Z.eqb_neq; lia).
        rewrite N1. cbn [negb]. f_equal.
        rewrite IH; cbn [intcount set_intcount]; [|lia|lia].
        assert (N0 : (intcount save + 1 =? 0) = false)
          by (apply Z.eqb_neq; lia).
        rewrite N0. reflexivity.
    + f_equal. apply IH; [exact Hlo | lia].
Qed.

Lemma add_local_zeroes_intcount sp hp w :
  intcount (a4091_save (snd (a4091_add_local_irq_handler sp hp w))) = 0.
Proof.
  unfold a4091_add_local_irq_handler, bind, debug. wsimpl.
  match goal with
  | |- context [flag_set ?x ?f] => destruct (flag_set x f)
  end; reflexivity.
Qed.

(** C3, as amended.  In every run of the handler in which ISTAT shows DIP
    or SIP, the four snapshot bytes (ISTAT, SIEN, SSTAT0, DSTAT) are
    captured and the interrupt count goes up by one, and the handler
    answers "handled" (1) exactly when the count becomes 1; in any other
    run it leaves the session alone and answers 0.  So, from the
    installation of the local handler on (which zeroes the count), the
    first interrupt with DIP or SIP set is answered 1 and every other
    run is answered 0, wherever the main line clears the captured ISTAT
    in between. *)
Theorem irq_handler_handled_once :
  (forall (r : irq_regs) (save : a4091_save_t),
     irq_pending (wrap8 (ir_istat r)) = true ->
     let save' := snd (fst (a4091_irq_handler r save)) in
     ireg_istat save' = wrap8 (ir_istat r)
     /\ ireg_sien save' = wrap8 (ir_sien r)
     /\ ireg_sstat0 save' = wrap8 (ir_sstat0 r)
     /\ ireg_dstat save' = wrap8 (ir_dstat r)
     /\ intcount save' = wrap32 (intcount save + 1)
     /\ fst (fst (a4091_irq_handler r save))
        = (if intcount save' =? 1 then 1 else 0))
  /\ (forall (r : irq_regs) (save : a4091_save_t),
        irq_pending (wrap8 (ir_istat r)) = false ->
        fst (a4091_irq_handler r save) = (0, save))
  /\ (forall (sp hp : Z) (w : world) (steps : list session_step),
        Z.of_nat (List.length steps) < 4294967296 ->
        session_returns steps
          (a4091_save (snd (a4091_add_local_irq_handler sp hp w)))
        = first_capture_only steps false).
Proof.
  split; [|split].
  - intros r save P. unfold a4091_irq_handler. rewrite P. cbv zeta.
    destruct (intcount
                (set_intcount
                   (wrap32
                      (intcount
                         (set_captured (wrap8 (ir_istat r)) (wrap8 (ir_sien r))
                            (wrap8 (ir_sstat0 r)) (wrap8 (ir_dstat r)) save) + 1))
                   (set_captured (wrap8 (ir_istat r)) (wrap8 (ir_sien r))
                      (wrap8 (ir_sstat0 r)) (wrap8 (ir_dstat r)) save)) =? 1)
      eqn:E; cbn [fst snd]; cbn [intcount set_intcount set_captured] in E;
      cbn [ireg_istat ireg_sien ireg_sstat0 ireg_dstat intcount set_intcount
           set_captured]; rewrite E; repeat split.
  - intros r save P. unfold a4091_irq_handler. rewrite P. reflexivity.
  - intros sp hp w steps Hlen.
    rewrite session_returns_from_count;
      rewrite add_local_zeroes_intcount; [reflexivity | lia | lia].
Qed.

Definition dip_interrupt : irq_regs := mkIrqRegs 0x01 0 0 0x04.

Lemma irq_handler_handled_once_witness :
  session_returns
    [MarkExpected; InterruptTaken dip_interrupt;
     MarkExpected; InterruptTaken dip_interrupt]
    (a4091_save
       (snd (a4091_add_local_irq_handler 0x07d00000 0x07c00000
               rst_latched_world)))
  = [1; 0].
Proof.
  apply (proj2 (proj2 irq_handler_handled_once) 0x07d00000 0x07c00000
               rst_latched_world
               [MarkExpected; InterruptTaken dip_interrupt;
                MarkExpected; InterruptTaken dip_interrupt]).
  cbn. lia.
Defined.

(** The return values recorded in the handler's log. *)
Definition irq_returns (l : list event) : list Z :=
  flat_map (fun e => match e with EvIrqReturn rc => [rc] | _ => [] end) l.

(** A card on which an interrupt with DIP set is taken before each look of
    the main line at the captured snapshot. *)
Definition dip_world : world :=
  idle_world rst_latched_bus (fun _ => 1000) (fun _ => [dip_interrupt]).

(** C3 as written does not hold.  After a takeover, two SCRIPTS are run;
    each clears the captured ISTAT and each is completed by an interrupt
    with DIP set.  The handler answers 1 to the first and 0 to the second,
    where one "handled" per expected interrupt would be 1 and 1. *)
Lemma handled_only_for_first_interrupt :
  let w1 := snd (a4091_state_takeover 50 0x07d00000 0x07c00000 4 dip_world) in
  let r1 := execute_script 50 last_to_first 4 0x07b00000 w1 in
  let r2 := execute_script 50 last_to_first 4 0x07b00000 (snd r1) in
  let steps := [MarkExpected; InterruptTaken dip_interrupt;
                MarkExpected; InterruptTaken dip_interrupt] in
  fst r1 = Some 0
  /\ fst r2 = Some 0
  /\ irq_returns (irq_log (snd r2)) = [1; 0]
  /\ once_per_mark steps false = [1; 1]
  /\ session_returns steps
       (a4091_save (snd (a4091_add_local_irq_handler 0x07d00000 0x07c00000
                           dip_world)))
     <> once_per_mark steps false.
Proof.
  cbv zeta. repeat split; try (vm_compute; reflexivity).
  vm_compute. intros H. discriminate H.
Qed.

(** ** Waiting for a SCRIPT to complete *)

(** Round [n] of the wait loop is one in which [(count & (p - 1)) == 0]. *)
Definition every (p : Z) (n : nat) : bool := Z.of_nat n mod p =? 0.

(** The number of ISTAT polls made in the rounds before round [k], and the
    number of deadline checks made in them. *)
Fixpoint polls_before (k : nat) : nat :=
  match k with
  | O => O
  | S m => ((if every 8 m then 1 else 0) + polls_before m)%nat
  end.

Fixpoint ticks_before (k : nat) : nat :=
  match k with
  | O => O
  | S m => ((if every 32 m then 1 else 0) + ticks_before m)%nat
  end.

(** The interrupts of a batch as the session sees them: they run only
    while the local interrupt server is installed. *)
Definition deliver (rs : list irq_regs) (save : a4091_save_t) : a4091_save_t :=
  match local_isr save with
  | None => save
  | Some _ => fst (run_irqs rs save)
  end.

(** The session when round [n] starts, and the session when round [n]
    looks at the captured snapshot, for a SCRIPT started in world [w]. *)
Fixpoint save_before (w : world) (n : nat) : a4091_save_t :=
  match n with
  | O => set_ireg_istat 0 (a4091_save w)
  | S m => deliver (irq_tape w (m + irq_pos w)%nat) (save_before w m)
  end.

Definition save_seen (w : world) (n : nat) : a4091_save_t :=
  save_before w (S n).

(** Round [n] polls ISTAT and the value shows ABRT or DIP. *)
Definition polled_done (w : world) (n : nat) : bool :=
  every 8 n && completion (next_bus w (polls_before n)).

(** In round [n] the captured snapshot shows ABRT or DIP. *)
Definition irq_done (w : world) (n : nat) : bool :=
  completion (ireg_istat (save_seen w n)).

(** A completion indication is observed in round [n]. *)
Definition completes_at (w : world) (n : nat) : bool :=
  polled_done w n || irq_done w n.

(** Round [n] consults the clock and more than 30 ticks have gone by since
    the SCRIPT was started. *)
Definition deadline_at (w : world) (n : nat) : bool :=
  every 32 n
  && timed_out 30 (next_tick w 0) (next_tick w (S (ticks_before n))).

(** Nothing happens in round [n]: the loop goes on. *)
Definition quiet (w : world) (n : nat) : bool :=
  negb (completes_at w n) && negb (deadline_at w n).















(** [progress w wk nb nt ni sv acc]: the main line, started in [w], has
    reached [wk] after [nb] bus reads, [nt] readings of the clock and [ni]
    looks at the snapshot; the session is [sv] and the register accesses
    made so far are [acc]. *)
Record progress (w wk : world) (nb nt ni : nat) (sv : a4091_save_t)
                (acc : list event) : Prop := mkProgress {
  pg_frame : frame w wk nb nt ni;
  pg_save  : a4091_save wk = sv;
  pg_log   : exists tr, log wk = log w ++ tr /\ bus_accesses tr = acc
}.

Lemma progress_read8 w wk nb nt ni sv acc reg :
  progress w wk nb nt ni sv acc ->
  fst (get_ncrreg8 reg wk) = next_bus w nb
  /\ progress w (snd (get_ncrreg8 reg wk)) (S nb) nt ni sv
              (acc ++ [EvRead8 (rd_addr w reg) (next_bus w nb)]).
Proof.
  intros [F S (tr & L & A)].
  assert (V : next_bus wk 0 = next_bus w nb).
  { unfold next_bus. rewrite (fr_bus_tape _ _ _ _ _ F), (fr_bus_pos _ _ _ _ _ F).
    reflexivity. }
  rewrite get_ncrreg8_run. cbn [fst snd]. split; [exact V|].
  destruct F as [Fbase Fflags Fbt Ftt Fit Fbp Ftp Fip]. constructor.
  - constructor; cbn; try assumption. rewrite Fbp. reflexivity.
  - exact S.
  - exists (tr ++ [EvRead8 (rd_addr w reg) (next_bus w nb)]). split.
    + cbn [log with_log]. rewrite L, <- app_assoc, V.
      unfold rd_addr. rewrite Fbase. reflexivity.
    + rewrite bus_accesses_app, A. reflexivity.
Qed.

Lemma progress_only_logs {A : Type} (c : M A) w wk nb nt ni sv acc :
  only_logs c ->
  progress w wk nb nt ni sv acc ->
  progress w (snd (c wk)) nb nt ni sv acc.
Proof.
  intros Hc [F S (tr & L & A0)]. destruct (Hc wk) as (tr' & E & B).
  rewrite E. destruct F as [Fbase Fflags Fbt Ftt Fit Fbp Ftp Fip]. constructor.
  - constructor; cbn; assumption.
  - exact S.
  - exists (tr ++ tr'). split.
    + cbn [log with_log]. rewrite L, <- app_assoc. reflexivity.
    + rewrite bus_accesses_app, A0, B. apply app_nil_r.
Qed.

Lemma progress_access_timeout TPS msg ticks ts w wk nb nt ni sv acc :
  progress w wk nb nt ni sv acc ->
  fst (access_timeout TPS msg ticks ts wk) = timed_out ticks ts (next_tick w nt)
  /\ progress w (snd (access_timeout TPS msg ticks ts wk)) nb (S nt) ni sv acc.
Proof.
  intros [F S (tr & L & A)].
  destruct (access_timeout_run TPS msg ticks ts wk) as (tr' & E & B).
  assert (V : next_tick wk 0 = next_tick w nt).
  { unfold next_tick.
    rewrite (fr_tick_tape _ _ _ _ _ F), (fr_tick_pos _ _ _ _ _ F). reflexivity. }
  rewrite E. cbn [fst snd]. rewrite V. split; [reflexivity|].
  destruct F as [Fbase Fflags Fbt Ftt Fit Fbp Ftp Fip]. constructor.
  - constructor; cbn; try assumption. rewrite Ftp. reflexivity.
  - exact S.
  - exists (tr ++ EvTicks (next_tick w nt) :: tr'). split.
    + cbn [log with_log]. rewrite L, <- app_assoc. reflexivity.
    + rewrite bus_accesses_app, A.
      change (bus_accesses (EvTicks (next_tick w nt) :: tr'))
        with (bus_accesses tr').
      rewrite B. apply app_nil_r.
Qed.


Lemma progress_flags w wk nb nt ni sv acc f :
  progress w wk nb nt ni sv acc -> flag_set wk f = flag_set w f.
Proof.
  intros [F _ _]. unfold flag_set. rewrite (fr_flags _ _ _ _ _ F). reflexivity.
Qed.














Lemma quiet_not_completes w n : quiet w n = true -> completes_at w n = false.
Proof.
  unfold quiet. intros H. apply andb_true_iff in H. destruct H as [H _].
  apply negb_true_iff in H. exact H.
Qed.

Lemma quiet_not_deadline w n : quiet w n = true -> deadline_at w n = false.
Proof.
  unfold quiet. intros H. apply andb_true_iff in H. destruct H as [_ H].
  apply negb_true_iff in H. exact H.
Qed.

Lemma first_unquiet_unique w n n' :
  (forall m, (m < n)%nat -> quiet w m = true) -> quiet w n = false ->
  (forall m, (m < n')%nat -> quiet w m = true) -> quiet w n' = false ->
  n = n'.
Proof.
  intros Hb Hn Hb' Hn'.
  destruct (Nat.lt_trichotomy n n') as [L | [E | G]].
  - rewrite (Hb' n L) in Hn. discriminate.
  - exact E.
  - rewrite (Hb n' G) in Hn'. discriminate.
Qed.

(** *** Who reads DSTAT when the wait succeeds *)


















(** The world reached from [dip_world] by a takeover: the local handler is
    installed, and an interrupt with DIP set arrives before each look at
    the snapshot. *)
Definition owned_dip_world : world :=
  snd (a4091_state_takeover 50 0x07d00000 0x07c00000 4 dip_world).



(** [reads_of a l]: the byte reads of address [a] among the events [l]. *)
Definition reads_of (a : Z) (l : list event) : list event :=
  filter (fun e => match e with EvRead8 a' _ => a' =? a | _ => false end) l.

Lemma no_read_of_sound (a : Z) (l : list event) :
  reads_of a l = [] -> forall v, ~ In (EvRead8 a v) l.
Proof.
  intros H v I.
  assert (J : In (EvRead8 a v) (reads_of a l)).
  { unfold reads_of. apply filter_In. split; [exact I|]. apply Z.eqb_refl. }
  rewrite H in J. exact J.
Qed.

(** A success through the snapshot.  On [owned_dip_world] the poll of
    round 0 reads ISTAT as 0x40, the interrupt handler captures an ISTAT
    with DIP set, and the function returns 0 after two register accesses
    of its own, the write of DSP and that one poll of ISTAT; the read of
    DSTAT is the one the handler made. *)
Example success_through_snapshot :
  fst (execute_script 50 last_to_first 4 0x07b00000 owned_dip_world) = Some 0
  /\ bus_accesses
       (appended owned_dip_world
                 (snd (execute_script 50 last_to_first 4 0x07b00000 owned_dip_world)))
     = [EvWrite32 0x4080006c 0x07b00000; EvRead8 0x40800022 0x40]
  /\ (forall v,
        ~ In (EvRead8 (rd_addr owned_dip_world REG_DSTAT) v)
             (appended owned_dip_world
                (snd (execute_script 50 last_to_first 4 0x07b00000 owned_dip_world))))
  /\ irq_log (snd (execute_script 50 last_to_first 4 0x07b00000 owned_dip_world))
     = [EvRead8 0x40800022 0x01; EvRead8 0x40800000 0;
        EvRead8 0x4080000e 0; EvRead8 0x4080000f 0x04; EvIrqReturn 1].
Proof.
  split; [vm_compute; reflexivity|].
  split; [vm_compute; reflexivity|].
  split; [|vm_compute; reflexivity].
  apply no_read_of_sound. vm_compute. reflexivity.
Qed.

(** ** SCSI pin test: the termination power check *)

(** [show_test_state]. *)
Definition show_test_state (name : string) (state : Z) : M unit :=
  if state =? 0 then printf "PASS\n" []
  else
    printf "  %-15s " [PStr name] ;;
    if state =? -1 then ret tt
    else printf "FAIL\n" [].

(** How the first part of [test_scsi_pins] ends: with the return after the
    termination power diagnostic, with the return after the "bus is in
    reset" diagnostic, or by going on to the reset test with the register
    values saved at entry. *)
Inductive pins_start : Type :=
| PinsNoTermPower (rc : Z)
| PinsStuckInReset (rc : Z)
| PinsGoOn (ctest4 scntl0 scntl1 dcntl : Z).

(** [test_scsi_pins] from its entry to the check that the bus is not stuck
    in reset:
<<
    sbdl = get_ncrreg8(REG_SBDL);
    sbcl = get_ncrreg8(REG_SBCL);
    sbcl |= 0x20; // Not sure why, but STRCL_BSY might still be high
    if ((sbcl == 0xff) && (sbdl == 0xff)) {
        if (rc++ == 0)
            printf("\n");
        printf("All SCSI pins low (check term power D309A and F309A/F309B)\n");
        return (rc);
    }
>> *)
Definition test_scsi_pins_start : M pins_start :=
  show_test_state "SCSI pin test:" (-1) ;;
  ctest4 <- get_ncrreg8 REG_CTEST4 ;;
  scntl0 <- get_ncrreg8 REG_SCNTL0 ;;
  scntl1 <- get_ncrreg8 REG_SCNTL1 ;;
  dcntl <- get_ncrreg8 REG_DCNTL ;;
  a4091_reset ;;
  Delay 1 ;;
  sbdl <- get_ncrreg8 REG_SBDL ;;
  sbcl0 <- get_ncrreg8 REG_SBCL ;;
  let sbcl := wrap8 (Z.lor sbcl0 0x20) in
  if (sbcl =? 0xff) && (sbdl =? 0xff) then
    printf "\n" [] ;;
    printf "All SCSI pins low (check term power D309A and F309A/F309B)\n" [] ;;
    ret (PinsNoTermPower 1)
  else
    sstat1 <- get_ncrreg8 REG_SSTAT1 ;;
    if negb (Z.land sstat1 REG_SSTAT1_RST =? 0) then
      printf "\n" [] ;;
      printf "SCSI bus is in reset (check for SCTRL_RST short to GND)\n" [] ;;
      ret (PinsStuckInReset 1)
    else ret (PinsGoOn ctest4 scntl0 scntl1 dcntl).

(** The values SBDL and SBCL are read as: the seventh and the eighth bus
    read of the test. *)
Definition sbdl_read (w : world) : Z := next_bus w 6.
Definition sbcl_read (w : world) : Z := next_bus w 7.

(** The condition under which the test stops for want of termination
    power. *)
Definition no_term_power (w : world) : bool :=
  (Z.lor (sbcl_read w) 0x20 =? 0xff) && (sbdl_read w =? 0xff).

Lemma byte_or_bsy v : 0 <= v < 256 -> wrap8 (Z.lor v 0x20) = Z.lor v 0x20.
Proof.
  intros H.
  assert (C : forall_below 256
            (fun v => wrap8 (Z.lor v 0x20) =? Z.lor v 0x20) = true)
    by (vm_compute; reflexivity).
  apply Z.eqb_eq. apply (forall_below_spec 256 _ C). exact H.
Qed.

Lemma or_bsy_all_ones v :
  0 <= v < 256 -> (Z.lor v 0x20 = 0xff <-> v = 0xff \/ v = 0xdf).
Proof.
  intros H.
  assert (C : forall_below 256
            (fun v => Bool.eqb (Z.lor v 0x20 =? 0xff)
                               ((v =? 0xff) || (v =? 0xdf))) = true)
    by (vm_compute; reflexivity).
  pose proof (forall_below_spec 256 _ C v H) as E. cbv beta in E.
  apply Bool.eqb_prop in E. split.
  - intros L. apply Z.eqb_eq in L. rewrite L in E. symmetry in E.
    apply orb_true_iff in E. destruct E as [E|E]; apply Z.eqb_eq in E; auto.
  - intros [L|L]; subst v; reflexivity.
Qed.

Lemma progress_start w : progress w w 0 0 0 (a4091_save w) [].
Proof.
  constructor; [apply frame_refl | reflexivity |].
  exists []. split; [symmetry; apply app_nil_r | reflexivity].
Qed.

Lemma progress_write8 w wk nb nt ni sv acc reg v :
  progress w wk nb nt ni sv acc ->
  progress w (snd (set_ncrreg8 reg v wk)) nb nt ni sv
           (acc ++ [EvWrite8 (wr_addr w reg) (wrap8 v)]).
Proof.
  intros [F Sv (tr & L & A)].
  rewrite set_ncrreg8_run. cbn [snd].
  destruct F as [Fbase Fflags Fbt Ftt Fit Fbp Ftp Fip]. constructor.
  - constructor; cbn; assumption.
  - exact Sv.
  - exists (tr ++ [EvWrite8 (wr_addr w reg) (wrap8 v)]). split.
    + cbn [log with_log]. rewrite L, <- app_assoc.
      unfold wr_addr. rewrite Fbase. reflexivity.
    + rewrite bus_accesses_app, A. reflexivity.
Qed.

(** The register accesses of [a4091_reset], started after [nb] bus reads. *)
Definition reset_accesses (w : world) (nb : nat) : list event :=
  [EvWrite8 (wr_addr w REG_DCNTL) REG_DCNTL_EA;
   EvWrite8 (wr_addr w REG_ISTAT) REG_ISTAT_RST;
   EvRead8 (rd_addr w REG_ISTAT) (next_bus w nb);
   EvWrite8 (wr_addr w REG_ISTAT) 0;
   EvRead8 (rd_addr w REG_ISTAT) (next_bus w (S nb));
   EvWrite8 (wr_addr w REG_SCID) (BIT 7);
   EvWrite8 (wr_addr w REG_DCNTL) REG_DCNTL_EA;
   EvWrite8 (wr_addr w REG_DWT) 0xff].

Lemma progress_reset w wk nb nt ni sv acc :
  progress w wk nb nt ni sv acc ->
  progress w (snd (a4091_reset wk)) (2 + nb) nt ni sv
           (acc ++ reset_accesses w nb).
Proof.
  intros P. unfold a4091_reset. rewrite !snd_seq.
  pose proof (progress_write8 _ _ _ _ _ _ _ REG_DCNTL REG_DCNTL_EA P) as P1.
  pose proof (progress_write8 _ _ _ _ _ _ _ REG_ISTAT REG_ISTAT_RST P1) as P2.
  destruct (progress_read8 _ _ _ _ _ _ _ REG_ISTAT P2) as [_ P3].
  pose proof (progress_write8 _ _ _ _ _ _ _ REG_ISTAT 0 P3) as P4.
  destruct (progress_read8 _ _ _ _ _ _ _ REG_ISTAT P4) as [_ P5].
  pose proof (progress_write8 _ _ _ _ _ _ _ REG_SCID (BIT 7) P5) as P6.
  pose proof (progress_write8 _ _ _ _ _ _ _ REG_DCNTL REG_DCNTL_EA P6) as P7.
  pose proof (progress_write8 _ _ _ _ _ _ _ REG_DWT 0xff P7) as P8.
  rewrite <- !app_assoc in P8. exact P8.
Qed.

Lemma only_logs_show_test_state name :
  only_logs (show_test_state name (-1)).
Proof.
  unfold show_test_state. change (-1 =? 0) with false.
  change (-1 =? -1) with true. cbv iota.
  apply only_logs_bind; [apply only_logs_printf | intros _; apply only_logs_ret].
Qed.

Lemma test_scsi_pins_start_run w :
  exists (wq : world) (acc : list event),
    progress w wq 8 0 0 (a4091_save w) acc
    /\ test_scsi_pins_start w
       = (if no_term_power w then
            (printf "\n" [] ;;
             printf
               "All SCSI pins low (check term power D309A and F309A/F309B)\n"
               [] ;;
             ret (PinsNoTermPower 1))
          else
            (sstat1 <- get_ncrreg8 REG_SSTAT1 ;;
             if negb (Z.land sstat1 REG_SSTAT1_RST =? 0) then
               printf "\n" [] ;;
               printf
                 "SCSI bus is in reset (check for SCTRL_RST short to GND)\n"
                 [] ;;
               ret (PinsStuckInReset 1)
             else ret (PinsGoOn (next_bus w 0) (next_bus w 1) (next_bus w 2)
                                (next_bus w 3)))) wq.
Proof.
  pose proof (progress_only_logs _ _ _ _ _ _ _ _
                (only_logs_show_test_state "SCSI pin test:")
                (progress_start w)) as P1.
  destruct (progress_read8 _ _ _ _ _ _ _ REG_CTEST4 P1) as [V1 P2].
  destruct (progress_read8 _ _ _ _ _ _ _ REG_SCNTL0 P2) as [V2 P3].
  destruct (progress_read8 _ _ _ _ _ _ _ REG_SCNTL1 P3) as [V3 P4].
  destruct (progress_read8 _ _ _ _ _ _ _ REG_DCNTL P4) as [V4 P5].
  pose proof (progress_reset _ _ _ _ _ _ _ P5) as P6.
  pose proof (progress_only_logs (Delay 1) _ _ _ _ _ _ _
                (only_logs_emit (EvDelay 1) eq_refl) P6) as P7.
  destruct (progress_read8 _ _ _ _ _ _ _ REG_SBDL P7) as [V5 P8].
  destruct (progress_read8 _ _ _ _ _ _ _ REG_SBCL P8) as [V6 P9].
  eexists. eexists. split; [exact P9|].
  unfold test_scsi_pins_start.
  do 9 (apply run_bind; cbv beta).
  rewrite V1, V2, V3, V4, V5, V6. cbv zeta.
  rewrite (byte_or_bsy _ (next_bus_range w _)).
  reflexivity.
Qed.

Lemma no_term_power_iff w :
  no_term_power w = true
  <-> sbdl_read w = 0xff /\ (sbcl_read w = 0xff \/ sbcl_read w = 0xdf).
Proof.
  unfold no_term_power. rewrite andb_true_iff, !Z.eqb_eq.
  rewrite (or_bsy_all_ones (sbcl_read w) (next_bus_range w 7)).
  tauto.
Qed.

(** C9, as amended.  [test_scsi_pins] stops with the termination power
    diagnostic (and returns 1) if and only if SBDL reads 0xFF and SBCL,
    with its BSY bit (0x20) taken as set, reads 0xFF, that is, if SBCL
    reads 0xFF or 0xDF; for every other pair of values it goes on to the
    check that the bus is not stuck in reset, which reads SSTAT1. *)
Theorem scsi_pins_term_power_check :
  forall w : world,
    (fst (test_scsi_pins_start w) = PinsNoTermPower 1
     <-> sbdl_read w = 0xff /\ (sbcl_read w = 0xff \/ sbcl_read w = 0xdf))
    /\ (forall rc, fst (test_scsi_pins_start w) = PinsNoTermPower rc ->
          rc = 1
          /\ exists tr0,
               log (snd (test_scsi_pins_start w))
               = tr0 ++ [EvPrintf
                   "All SCSI pins low (check term power D309A and F309A/F309B)\n"
                   []])
    /\ (fst (test_scsi_pins_start w) <> PinsNoTermPower 1 ->
        exists tr,
          log (snd (test_scsi_pins_start w)) = log w ++ tr
          /\ In (EvRead8 (rd_addr w REG_SSTAT1) (next_bus w 8)) tr).
Proof.
  intros w.
  destruct (test_scsi_pins_start_run w) as (wq & acc & P & E).
  rewrite E. rewrite <- no_term_power_iff.
  destruct (no_term_power w) eqn:N.
  - split; [|split].
    + split; [reflexivity | intros _; reflexivity].
    + intros rc H. cbn in H. injection H as <-. split; [reflexivity|].
      eexists. reflexivity.
    + intros H. exfalso. apply H. reflexivity.
  - destruct (progress_read8 _ _ _ _ _ _ _ REG_SSTAT1 P) as [V P1].
    assert (L1 : exists trq,
               log (snd (get_ncrreg8 REG_SSTAT1 wq))
               = log w ++ trq ++ [EvRead8 (rd_addr w REG_SSTAT1) (next_bus w 8)]).
    { destruct P as [F _ (trq & L & _)]. exists trq.
      rewrite get_ncrreg8_run. cbn [snd log with_log].
      rewrite L, <- app_assoc. unfold rd_addr.
      rewrite (fr_base _ _ _ _ _ F).
      change (next_bus wq 0) with (fst (get_ncrreg8 REG_SSTAT1 wq)).
      rewrite V. reflexivity. }
    destruct L1 as (trq & L1).
    match goal with
    | |- context [fst (bind (get_ncrreg8 REG_SSTAT1) ?k wq)] =>
        set (K := bind (get_ncrreg8 REG_SSTAT1) k wq)
    end.
    assert (HK : (forall rc, fst K <> PinsNoTermPower rc)
                 /\ exists more,
                      log (snd K)
                      = log (snd (get_ncrreg8 REG_SSTAT1 wq)) ++ more).
    { unfold K, bind. cbv zeta.
      destruct (negb (Z.land (fst (get_ncrreg8 REG_SSTAT1 wq))
                             REG_SSTAT1_RST =? 0));
        unfold printf, emit, ret, with_log; cbn [fst snd log].
      - split; [intros rc H; discriminate H|].
        eexists. rewrite <- app_assoc. reflexivity.
      - split; [intros rc H; discriminate H|].
        exists []. symmetry. apply app_nil_r. }
    destruct HK as [HK1 (more & HK2)].
    split; [|split].
    + split; [intros H; exfalso; exact (HK1 1 H) | intros H; discriminate H].
    + intros rc H. exfalso. exact (HK1 rc H).
    + intros _. rewrite HK2, L1.
      exists (trq ++ [EvRead8 (rd_addr w REG_SSTAT1) (next_bus w 8)] ++ more).
      split.
      * rewrite <- !app_assoc. reflexivity.
      * apply in_or_app. right. left. reflexivity.
Qed.

(** A bus on which SBDL reads 0xFF and SBCL reads 0xDF. *)
Definition bsy_low_bus : nat -> Z :=
  fun k => match k with
           | 6%nat => 0xff
           | 7%nat => 0xdf
           | _ => 0
           end.

Definition bsy_low_world : world :=
  idle_world bsy_low_bus (fun _ => 0) no_irqs.

Lemma scsi_pins_term_power_check_witness :
  fst (test_scsi_pins_start bsy_low_world) = PinsNoTermPower 1.
Proof.
  apply (proj2 (proj1 (scsi_pins_term_power_check bsy_low_world))).
  split; [reflexivity | right; reflexivity].
Defined.

(** C9 as written does not hold: with SBDL read as 0xFF and SBCL read as
    0xDF, not both registers read 0xFF, and yet the test stops with the
    termination power diagnostic, without reading SSTAT1. *)
Lemma term_power_abort_with_sbcl_df :
  sbdl_read bsy_low_world = 0xff
  /\ sbcl_read bsy_low_world = 0xdf
  /\ fst (test_scsi_pins_start bsy_low_world) = PinsNoTermPower 1
  /\ ~ (fst (test_scsi_pins_start bsy_low_world) = PinsNoTermPower 1
        <-> sbdl_read bsy_low_world = 0xff /\ sbcl_read bsy_low_world = 0xff)
  /\ (forall v, ~ In (EvRead8 (rd_addr bsy_low_world REG_SSTAT1) v)
                     (log (snd (test_scsi_pins_start bsy_low_world)))).
Proof.
  split; [reflexivity|]. split; [reflexivity|].
  split; [vm_compute; reflexivity|]. split.
  - intros [H _].
    assert (A : fst (test_scsi_pins_start bsy_low_world) = PinsNoTermPower 1)
      by (vm_compute; reflexivity).
    destruct (H A) as [_ B]. vm_compute in B. discriminate B.
  - apply no_read_of_sound. vm_compute. reflexivity.
Qed.

(** ** Register access test: the walking bits *)

(** [check_ncrreg_bits]. *)
Definition check_ncrreg_bits (mode reg : Z) (regname : string) (rbits : Z)
  : M Z :=
  regval <- get_ncrreg8 reg ;;
  if negb (Z.land regval rbits =? 0) then
    let modestr :=
      if mode =? 0 then "reserved"%string else "unexpected"%string in
    printf "%s reg %02x [value %02x] has %s bits set: %02x\n"
           [PStr regname; PInt reg; PInt regval; PStr modestr;
            PInt (Z.land regval rbits)] ;;
    ret 1
  else ret 0.

(** [data_pins], the names of the 32 data lines. *)
Definition data_pins : list string :=
  ["D0"; "D1"; "D2"; "D3"; "D4"; "D5"; "D6"; "D7";
   "D8"; "D9"; "D10"; "D11"; "D12"; "D13"; "D14"; "D15";
   "D16"; "D17"; "D18"; "D19"; "D20"; "D21"; "D22"; "D23";
   "D24"; "D25"; "D26"; "D27"; "D28"; "D29"; "D30"; "D31"]%string.

(** [print_bits]: the names of the bits set in [value], lowest first. *)
Fixpoint print_bits (bits : list string) (value : Z) : M unit :=
  if value =? 0 then ret tt
  else
    match bits with
    | [] => ret tt
    | name :: rest =>
        when (Z.odd value) (printf " %s" [PStr name]) ;;
        print_bits rest (Z.shiftr value 1)
    end.

(** [(patt << 1) | (patt >> 31)] on a [uint32_t]. *)
Definition rotl1 (patt : Z) : Z :=
  wrap32 (Z.lor (wrap32 (Z.shiftl patt 1)) (Z.shiftr patt 31)).

(** The locals of the walking bits test that live across its rounds. *)
Record walk_state : Type := mkWalk {
  ws_rc         : Z;
  ws_stuck_high : Z;
  ws_stuck_low  : Z;
  ws_pins_diff  : Z
}.

(** The report of one miscompare in a round of the walking bits test:
<<
    if (diff != 0) {
        pins_diff |= diff;
        if (rc++ == 0)
            printf("\n");
        if (rc < 8) { printf(...); print_bits(data_pins, diff); printf(")\n"); }
    }
>>
    The result is the new [rc] and the new [pins_diff]. *)
Definition walk_report (fmt : string) (got want rc pins_diff : Z)
  : M (Z * Z) :=
  let diff := Z.lxor got want in
  if diff =? 0 then ret (rc, pins_diff)
  else
    when (rc =? 0) (printf "\n" []) ;;
    when (rc + 1 <? 8)
         (printf fmt [PInt got; PInt want; PInt diff] ;;
          print_bits data_pins diff ;;
          printf ")\n" []) ;;
    ret (rc + 1, Z.lor pins_diff diff).

(** One round of the walking bits loop. *)
Definition walking_round (patt next : Z) (st : walk_state) : M walk_state :=
  set_ncrreg32 REG_SCRATCH patt ;;
  set_ncrreg32 REG_TEMP next ;;
  got_scratch <- get_ncrreg32 REG_SCRATCH ;;
  got_temp <- get_ncrreg32 REG_TEMP ;;
  let stuck_high := Z.land (ws_stuck_high st) (Z.land got_scratch got_temp) in
  let stuck_low :=
    Z.land (ws_stuck_low st) (not32 (Z.lor got_scratch got_temp)) in
  r1 <- walk_report "Reg SCRATCH %08x != %08x (diff %08x"
                    got_scratch patt (ws_rc st) (ws_pins_diff st) ;;
  r2 <- walk_report "Reg TEMP    %08x != %08x (diff %08x"
                    got_temp next (fst r1) (snd r1) ;;
  ret (mkWalk (fst r2) stuck_high stuck_low (snd r2)).

(** [for (rot = 0; rot < 256; rot++, patt = next)], with [rots] rounds
    still to go. *)
Fixpoint walking_loop (rots : nat) (patt : Z) (st : walk_state)
  : M walk_state :=
  match rots with
  | O => ret st
  | S rots' =>
      let next := rotl1 patt in
      st' <- walking_round patt next st ;;
      walking_loop rots' next st'
  end.

(** The walking bits test of [test_register_access], entered with the
    [rc] of the checks before it. *)
Definition walking_bits (rc : Z) : M walk_state :=
  walking_loop 256 0xf0e7c3a5 (mkWalk rc 0xffffffff 0xffffffff 0).

(** The six reserved-bit checks of one pass. *)
Definition reserved_bits_pass (rc : Z) : M Z :=
  r1 <- check_ncrreg_bits 0 REG_SCNTL1 "SCNTL1" (Z.lor (BIT 1) (BIT 0)) ;;
  r2 <- check_ncrreg_bits 0 REG_DSTAT "DSTAT" (BIT 6) ;;
  r3 <- check_ncrreg_bits 0 REG_CTEST0 "CTEST0" (Z.lor (BIT 7) (BIT 1)) ;;
  r4 <- check_ncrreg_bits 0 REG_CTEST0 "CTEST2" (BIT 7) ;;
  r5 <- check_ncrreg_bits 0 REG_ISTAT "ISTAT" (Z.lor (BIT 4) (BIT 2)) ;;
  r6 <- check_ncrreg_bits 0 REG_DIEN "DIEN" (Z.lor (BIT 7) (BIT 6)) ;;
  ret (rc + r1 + r2 + r3 + r4 + r5 + r6).

(** [for (pass = 0; pass < 100; pass++) { ...; if (rc != 0) break; }]. *)
Fixpoint reserved_bits_loop (passes : nat) (rc : Z) : M Z :=
  match passes with
  | O => ret rc
  | S passes' =>
      rc' <- reserved_bits_pass rc ;;
      if negb (rc' =? 0) then ret rc' else reserved_bits_loop passes' rc'
  end.

(** [test_register_access]. *)
Definition test_register_access : M Z :=
  show_test_state "Register test:" (-1) ;;
  rc0 <- reserved_bits_loop 100 0 ;;
  a4091_reset ;;
  r1 <- check_ncrreg_bits 1 REG_ISTAT "ISTAT" 0xff ;;
  r2 <- check_ncrreg_bits 1 REG_DSTAT "DSTAT" 0x7f ;;
  st <- walking_bits (rc0 + r1 + r2) ;;
  let pins_diff :=
    Z.land (ws_pins_diff st)
           (not32 (Z.lor (ws_stuck_high st) (ws_stuck_low st))) in
  when (negb (ws_stuck_high st =? 0))
       (printf "Stuck high: %08x" [PInt (ws_stuck_high st)] ;;
        print_bits data_pins (ws_stuck_high st) ;;
        printf " (check for short to VCC)\n" []) ;;
  when (negb (ws_stuck_low st =? 0))
       (printf "Stuck low: %08x" [PInt (ws_stuck_low st)] ;;
        print_bits data_pins (ws_stuck_low st) ;;
        printf " (check for short to GND)\n" []) ;;
  when (negb (pins_diff =? 0))
       (printf "Floating or bridged: %02x" [PInt pins_diff] ;;
        print_bits data_pins pins_diff ;;
        printf "\n" []) ;;
  show_test_state "Register test:" (ws_rc st) ;;
  ret (ws_rc st).

Definition is_bus_write (e : event) : bool :=
  match e with
  | EvWrite8 _ _ | EvWrite32 _ _ => true
  | _ => false
  end.

(** The register writes among the events of a log. *)
Definition bus_writes (l : list event) : list event := filter is_bus_write l.

Lemma bus_writes_app l1 l2 :
  bus_writes (l1 ++ l2) = bus_writes l1 ++ bus_writes l2.
Proof. apply filter_app. Qed.

Lemma no_accesses_no_writes tr : bus_accesses tr = [] -> bus_writes tr = [].
Proof.
  induction tr as [|e tr IH]; [reflexivity|].
  unfold bus_accesses, bus_writes in *. simpl.
  destruct e; simpl; intros H; try discriminate H; apply IH; exact H.
Qed.

Lemma only_logs_print_bits bits : forall value, only_logs (print_bits bits value).
Proof.
  induction bits as [|name rest IH]; intros value; simpl.
  - destruct (value =? 0); apply only_logs_ret.
  - destruct (value =? 0); [apply only_logs_ret|].
    apply only_logs_bind; [apply only_logs_when, only_logs_printf | intros _].
    apply IH.
Qed.

Lemma only_logs_walk_report fmt got want rc pins_diff :
  only_logs (walk_report fmt got want rc pins_diff).
Proof.
  unfold walk_report. cbv zeta.
  destruct (Z.lxor got want =? 0); [apply only_logs_ret|].
  apply only_logs_bind; [apply only_logs_when, only_logs_printf | intros _].
  apply only_logs_bind; [| intros _; apply only_logs_ret].
  apply only_logs_when.
  apply only_logs_bind; [apply only_logs_printf | intros _].
  apply only_logs_bind; [apply only_logs_print_bits | intros _].
  apply only_logs_printf.
Qed.

(** The patterns written to SCRATCH and to TEMP over [rots] rounds that
    start with [patt]. *)
Fixpoint scratch_patterns (rots : nat) (patt : Z) : list Z :=
  match rots with
  | O => []
  | S rots' => patt :: scratch_patterns rots' (rotl1 patt)
  end.

Definition temp_patterns (rots : nat) (patt : Z) : list Z :=
  scratch_patterns rots (rotl1 patt).

(** The register writes of [rots] rounds of the walking bits loop. *)
Fixpoint walk_writes (w : world) (rots : nat) (patt : Z) : list event :=
  match rots with
  | O => []
  | S rots' =>
      EvWrite32 (wr_addr w REG_SCRATCH) (wrap32 patt)
      :: EvWrite32 (wr_addr w REG_TEMP) (wrap32 (rotl1 patt))
      :: walk_writes w rots' (rotl1 patt)
  end.

Lemma bus_writes_accesses tr : bus_writes (bus_accesses tr) = bus_writes tr.
Proof.
  induction tr as [|e tr IH]; [reflexivity|].
  unfold bus_accesses, bus_writes in *. cbn [filter].
  destruct e; cbn [is_bus_access is_bus_write filter]; rewrite ?IH; reflexivity.
Qed.

(** The k-th long word still to come on the bus tape. *)
Definition next_bus32 (w : world) (k : nat) : Z :=
  wrap32 (bus_tape w (k + bus_pos w)%nat).

Lemma get_ncrreg32_run reg w :
  get_ncrreg32 reg w
  = (next_bus32 w 0,
     with_log (log w ++ [EvRead32 (rd_addr w reg) (next_bus32 w 0)])
              (with_bus_pos (S (bus_pos w)) w)).
Proof. reflexivity. Qed.

Lemma set_ncrreg32_run reg v w :
  set_ncrreg32 reg v w
  = (tt, with_log (log w ++ [EvWrite32 (wr_addr w reg) (wrap32 v)]) w).
Proof. reflexivity. Qed.

Lemma progress_read32 w wk nb nt ni sv acc reg :
  progress w wk nb nt ni sv acc ->
  fst (get_ncrreg32 reg wk) = next_bus32 w nb
  /\ progress w (snd (get_ncrreg32 reg wk)) (S nb) nt ni sv
              (acc ++ [EvRead32 (rd_addr w reg) (next_bus32 w nb)]).
Proof.
  intros [F Sv (tr & L & A)].
  assert (V : next_bus32 wk 0 = next_bus32 w nb).
  { unfold next_bus32.
    rewrite (fr_bus_tape _ _ _ _ _ F), (fr_bus_pos _ _ _ _ _ F).
    reflexivity. }
  rewrite get_ncrreg32_run. cbn [fst snd]. split; [exact V|].
  destruct F as [Fbase Fflags Fbt Ftt Fit Fbp Ftp Fip]. constructor.
  - constructor; cbn; try assumption. rewrite Fbp. reflexivity.
  - exact Sv.
  - exists (tr ++ [EvRead32 (rd_addr w reg) (next_bus32 w nb)]). split.
    + cbn [log with_log]. rewrite L, <- app_assoc, V.
      unfold rd_addr. rewrite Fbase. reflexivity.
    + rewrite bus_accesses_app, A. reflexivity.
Qed.

Lemma progress_write32 w wk nb nt ni sv acc reg v :
  progress w wk nb nt ni sv acc ->
  progress w (snd (set_ncrreg32 reg v wk)) nb nt ni sv
           (acc ++ [EvWrite32 (wr_addr w reg) (wrap32 v)]).
Proof.
  intros [F Sv (tr & L & A)].
  rewrite set_ncrreg32_run. cbn [snd].
  destruct F as [Fbase Fflags Fbt Ftt Fit Fbp Ftp Fip]. constructor.
  - constructor; cbn; assumption.
  - exact Sv.
  - exists (tr ++ [EvWrite32 (wr_addr w reg) (wrap32 v)]). split.
    + cbn [log with_log]. rewrite L, <- app_assoc.
      unfold wr_addr. rewrite Fbase. reflexivity.
    + rewrite bus_accesses_app, A. reflexivity.
Qed.

(** The register accesses of [rots] rounds of the walking bits loop that
    start with [patt] after [nb] bus reads. *)
Fixpoint walk_accesses (w : world) (rots : nat) (patt : Z) (nb : nat)
  : list event :=
  match rots with
  | O => []
  | S rots' =>
      EvWrite32 (wr_addr w REG_SCRATCH) (wrap32 patt)
      :: EvWrite32 (wr_addr w REG_TEMP) (wrap32 (rotl1 patt))
      :: EvRead32 (rd_addr w REG_SCRATCH) (next_bus32 w nb)
      :: EvRead32 (rd_addr w REG_TEMP) (next_bus32 w (S nb))
      :: walk_accesses w rots' (rotl1 patt) (2 + nb)
  end.

Lemma walk_accesses_writes w :
  forall rots patt nb,
    bus_writes (walk_accesses w rots patt nb) = walk_writes w rots patt.
Proof.
  induction rots as [|rots IH]; intros patt nb; [reflexivity|].
  cbn [walk_accesses walk_writes]. unfold bus_writes in *.
  cbn [filter is_bus_write]. rewrite IH. reflexivity.
Qed.

Lemma progress_walking_round patt next st w wk nb nt ni sv acc :
  progress w wk nb nt ni sv acc ->
  progress w (snd (walking_round patt next st wk)) (2 + nb) nt ni sv
           (acc ++ [EvWrite32 (wr_addr w REG_SCRATCH) (wrap32 patt);
                    EvWrite32 (wr_addr w REG_TEMP) (wrap32 next);
                    EvRead32 (rd_addr w REG_SCRATCH) (next_bus32 w nb);
                    EvRead32 (rd_addr w REG_TEMP) (next_bus32 w (S nb))]).
Proof.
  intros P.
  pose proof (progress_write32 _ _ _ _ _ _ _ REG_SCRATCH patt P) as P1.
  pose proof (progress_write32 _ _ _ _ _ _ _ REG_TEMP next P1) as P2.
  destruct (progress_read32 _ _ _ _ _ _ _ REG_SCRATCH P2) as [_ P3].
  destruct (progress_read32 _ _ _ _ _ _ _ REG_TEMP P3) as [_ P4].
  rewrite <- !app_assoc in P4.
  unfold walking_round. do 4 (rewrite snd_bind; cbv beta). cbv zeta.
  apply progress_only_logs; [|exact P4].
  apply only_logs_bind; [apply only_logs_walk_report | intros r1].
  apply only_logs_bind; [apply only_logs_walk_report | intros r2].
  apply only_logs_ret.
Qed.

Lemma progress_walking_loop w nt ni sv :
  forall (rots : nat) (patt : Z) (st : walk_state) (wk : world) (nb : nat)
         (acc : list event),
    progress w wk nb nt ni sv acc ->
    progress w (snd (walking_loop rots patt st wk)) (2 * rots + nb) nt ni sv
             (acc ++ walk_accesses w rots patt nb).
Proof.
  induction rots as [|rots IH]; intros patt st wk nb acc P.
  - cbn [walking_loop walk_accesses ret snd Nat.mul Nat.add].
    rewrite app_nil_r. exact P.
  - cbn [walking_loop walk_accesses]. cbv zeta. rewrite snd_bind.
    replace (2 * S rots + nb)%nat with (2 * rots + (2 + nb))%nat by lia.
    pose proof (IH (rotl1 patt) (fst (walking_round patt (rotl1 patt) st wk))
                   _ _ _ (progress_walking_round patt (rotl1 patt) st
                            _ _ _ _ _ _ _ P)) as P'.
    rewrite <- app_assoc in P'. exact P'.
Qed.

Lemma in_scratch_patterns w v :
  forall rots patt,
    In v (scratch_patterns rots patt) ->
    In (EvWrite32 (wr_addr w REG_SCRATCH) (wrap32 v)) (walk_writes w rots patt).
Proof.
  induction rots as [|rots IH]; intros patt H; [destruct H|].
  cbn [scratch_patterns walk_writes] in *. destruct H as [<-|H].
  - left. reflexivity.
  - right. right. apply IH. exact H.
Qed.

Lemma in_temp_patterns w v :
  forall rots patt,
    In v (temp_patterns rots patt) ->
    In (EvWrite32 (wr_addr w REG_TEMP) (wrap32 v)) (walk_writes w rots patt).
Proof.
  unfold temp_patterns.
  induction rots as [|rots IH]; intros patt H; [destruct H|].
  cbn [scratch_patterns walk_writes] in *. destruct H as [<-|H].
  - right. left. reflexivity.
  - right. right. apply IH. exact H.
Qed.

(** Bit [b] is 1 in some pattern of the list and 0 in some other. *)
Definition driven_both_ways (patterns : list Z) (b : Z) : bool :=
  existsb (fun v => Z.testbit (wrap32 v) b) patterns
  && existsb (fun v => negb (Z.testbit (wrap32 v) b)) patterns.

Lemma walking_patterns_cover :
  forall_below 32
    (fun b => driven_both_ways (scratch_patterns 256 0xf0e7c3a5) b
              && driven_both_ways (temp_patterns 256 0xf0e7c3a5) b) = true.
Proof. vm_compute. reflexivity. Qed.

Lemma in_bus_writes e tr : In e (bus_writes tr) -> In e tr.
Proof. unfold bus_writes. intros H. apply filter_In in H. apply H. Qed.

(** C8.  In the walking bits test the register writes are those of 256
    rounds that start from the pattern 0xF0E7C3A5 and rotate it left by one
    position per round, [patt] going to SCRATCH and its rotation to TEMP;
    and for every bit position [b] of 0..31 some round writes a 1 at [b] to
    SCRATCH and some round a 0, and likewise for TEMP. *)
Theorem walking_bits_coverage :
  forall (w : world) (rc b : Z),
    0 <= b < 32 ->
    exists tr,
      log (snd (walking_bits rc w)) = log w ++ tr
      /\ bus_writes tr = walk_writes w 256 0xf0e7c3a5
      /\ (exists v, In (EvWrite32 (wr_addr w REG_SCRATCH) v) tr
                    /\ Z.testbit v b = true)
      /\ (exists v, In (EvWrite32 (wr_addr w REG_SCRATCH) v) tr
                    /\ Z.testbit v b = false)
      /\ (exists v, In (EvWrite32 (wr_addr w REG_TEMP) v) tr
                    /\ Z.testbit v b = true)
      /\ (exists v, In (EvWrite32 (wr_addr w REG_TEMP) v) tr
                    /\ Z.testbit v b = false).
Proof.
  intros w rc b Hb. unfold walking_bits.
  destruct (progress_walking_loop w 0 0 (a4091_save w) 256 0xf0e7c3a5
              (mkWalk rc 0xffffffff 0xffffffff 0) w 0 [] (progress_start w))
    as [_ _ (tr & L & A)].
  assert (W : bus_writes tr = walk_writes w 256 0xf0e7c3a5).
  { rewrite <- bus_writes_accesses, A. apply walk_accesses_writes. }
  exists tr. split; [exact L|]. split; [exact W|].
  pose proof (forall_below_spec 32 _ walking_patterns_cover b Hb) as C.
  cbv beta in C. unfold driven_both_ways in C.
  apply andb_true_iff in C. destruct C as [Cs Ct].
  apply andb_true_iff in Cs. destruct Cs as [S1 S0].
  apply andb_true_iff in Ct. destruct Ct as [T1 T0].
  apply existsb_exists in S1. destruct S1 as (s1 & Is1 & Bs1).
  apply existsb_exists in S0. destruct S0 as (s0 & Is0 & Bs0).
  apply existsb_exists in T1. destruct T1 as (t1 & It1 & Bt1).
  apply existsb_exists in T0. destruct T0 as (t0 & It0 & Bt0).
  apply negb_true_iff in Bs0. apply negb_true_iff in Bt0.
  repeat split.
  - exists (wrap32 s1). split; [|exact Bs1].
    apply in_bus_writes. rewrite W. apply in_scratch_patterns. exact Is1.
  - exists (wrap32 s0). split; [|exact Bs0].
    apply in_bus_writes. rewrite W. apply in_scratch_patterns. exact Is0.
  - exists (wrap32 t1). split; [|exact Bt1].
    apply in_bus_writes. rewrite W. apply in_temp_patterns. exact It1.
  - exists (wrap32 t0). split; [|exact Bt0].
    apply in_bus_writes. rewrite W. apply in_temp_patterns. exact It0.
Qed.

Lemma walking_bits_coverage_witness :
  exists tr,
    log (snd (walking_bits 0 bsy_low_world)) = log bsy_low_world ++ tr
    /\ bus_writes tr = walk_writes bsy_low_world 256 0xf0e7c3a5
    /\ (exists v, In (EvWrite32 (wr_addr bsy_low_world REG_SCRATCH) v) tr
                  /\ Z.testbit v 31 = true)
    /\ (exists v, In (EvWrite32 (wr_addr bsy_low_world REG_SCRATCH) v) tr
                  /\ Z.testbit v 31 = false)
    /\ (exists v, In (EvWrite32 (wr_addr bsy_low_world REG_TEMP) v) tr
                  /\ Z.testbit v 31 = true)
    /\ (exists v, In (EvWrite32 (wr_addr bsy_low_world REG_TEMP) v) tr
                  /\ Z.testbit v 31 = false).
Proof.
  apply (walking_bits_coverage bsy_low_world 0 31). lia.
Defined.

(** ** DMA FIFO test *)

(** The step of the generator: [rand_seed * 25173 + 13849] on a
    [uint32_t]. *)
Definition rand_next (seed : Z) : Z := wrap32 (seed * 25173 + 13849).

(** [rand32]. *)
Definition rand32 : M Z :=
  fun w => let s := rand_next (rand_seed w) in (s, with_rand_seed s w).

(** [srand32]. *)
Definition srand32 (seed : Z) : M unit :=
  fun w => (tt, with_rand_seed (wrap32 seed) w).

(** [strncmp(name, "UAE", 3) == 0]. *)
Definition starts_with_UAE (name : string) : bool :=
  String.eqb (String.substring 0 3 name) "UAE".

(** [is_running_in_uae]. *)
Definition is_running_in_uae : M bool :=
  fun w => (existsb (fun s => starts_with_UAE (GetNodeName s)) (int_servers w),
            w).

(** The byte lane selected in CTEST4:
    [(ctest4 & ~3) | REG_CTEST4_FBL2 | lane]. *)
Definition select_lane (ctest4 lane : Z) : M unit :=
  set_ncrreg8 REG_CTEST4
    (Z.lor (Z.lor (Z.land ctest4 (Z.lnot 3)) REG_CTEST4_FBL2) lane).

(** What the push loop derives from one random number: the [uint16_t
    rvalue], the byte written to CTEST7 and the byte written to CTEST6. *)
Definition push_rvalue (r : Z) : Z := wrap16 (Z.shiftr r 8).

Definition push_ctest7 (ctest7 r : Z) : Z :=
  wrap8 (Z.lor ctest7 (Z.land (Z.shiftr (push_rvalue r) 5) (BIT 3))).

Definition push_ctest6 (r : Z) : Z := wrap8 (push_rvalue r).

(** What the pop loop derives from one random number: the expected 9-bit
    value [(rand32() >> 8) & (BIT(9) - 1)]. *)
Definition pop_rvalue (r : Z) : Z :=
  wrap16 (Z.land (Z.shiftr r 8) (BIT 9 - 1)).

(** The 9-bit value the pop loop builds from its reads of CTEST6 and
    CTEST2. *)
Definition pop_value (ctest6 ctest2 : Z) : Z :=
  wrap16 (Z.lor ctest6 (wrap16 (Z.shiftl (Z.land ctest2 (BIT 3)) 5))).

(** One byte of the push loop. *)
Definition fifo_push_byte (ctest7 : Z) : M unit :=
  r <- rand32 ;;
  set_ncrreg8 REG_CTEST7 (push_ctest7 ctest7 r) ;;
  set_ncrreg8 REG_CTEST6 (push_rvalue r) ;;
  debug FLAG_DEBUG (printf " %02x" [PInt (Z.land (push_rvalue r) 0x1ff)]).

Fixpoint fifo_push_bytes (n : nat) (ctest7 : Z) : M unit :=
  match n with
  | O => ret tt
  | S n' => fifo_push_byte ctest7 ;; fifo_push_bytes n' ctest7
  end.

Fixpoint fifo_push_lanes (lanes : list Z) (ctest4 ctest7 : Z) : M unit :=
  match lanes with
  | [] => ret tt
  | lane :: rest =>
      select_lane ctest4 lane ;;
      fifo_push_bytes (Z.to_nat NCR_FIFO_SIZE) ctest7 ;;
      fifo_push_lanes rest ctest4 ctest7
  end.

(** The push phase: [srand32(19700119)] and the loop over the four
    lanes. *)
Definition fifo_push (ctest4 ctest7 : Z) : M unit :=
  srand32 19700119 ;;
  fifo_push_lanes [0; 1; 2; 3] ctest4 ctest7.

(** One byte of the pop loop; [rc] and the per-lane [count] go in and
    out. *)
Definition fifo_pop_byte (lane cbyte rc count : Z) : M (Z * Z) :=
  r <- rand32 ;;
  let rvalue := pop_rvalue r in
  ctest6 <- get_ncrreg8 REG_CTEST6 ;;
  ctest2 <- get_ncrreg8 REG_CTEST2 ;;
  let value := pop_value ctest6 ctest2 in
  if value =? rvalue then ret (rc, count)
  else
    let report :=
      when (rc =? 0) (printf "\n" []) ;;
      printf "Lane %d byte %d FIFO got %03x, expected %03x\n"
             [PInt lane; PInt cbyte; PInt value; PInt rvalue] in
    count' <-
      (if Z.land rc (BIT lane) =? 0 then report ;; ret count
       else if count <? 2 then report ;; ret (count + 1)
       else when (count + 1 =? 3) (printf "...\n" []) ;; ret (count + 1)) ;;
    ret (Z.lor rc (BIT lane), count').

(** [for (cbyte = ...; cbyte < NCR_FIFO_SIZE; cbyte++)] of the pop loop,
    with [n] bytes still to go. *)
Fixpoint fifo_pop_bytes (n : nat) (lane cbyte rc count : Z) : M (Z * Z) :=
  match n with
  | O => ret (rc, count)
  | S n' =>
      st <- fifo_pop_byte lane cbyte rc count ;;
      fifo_pop_bytes n' lane (cbyte + 1) (fst st) (snd st)
  end.

Fixpoint fifo_pop_lanes (lanes : list Z) (ctest4 rc : Z) : M Z :=
  match lanes with
  | [] => ret rc
  | lane :: rest =>
      select_lane ctest4 lane ;;
      st <- fifo_pop_bytes (Z.to_nat NCR_FIFO_SIZE) lane 0 rc 0 ;;
      fifo_pop_lanes rest ctest4 (fst st)
  end.

(** The pop phase: [srand32(19700119)] and the loop over the four lanes. *)
Definition fifo_pop (ctest4 rc : Z) : M Z :=
  srand32 19700119 ;;
  fifo_pop_lanes [0; 1; 2; 3] ctest4 rc.

(** The end of [test_dma_fifo], from the label [fail]. *)
Definition fifo_finish (ctest4 rc : Z) : M Z :=
  set_ncrreg8 REG_CTEST4 (Z.land ctest4 (Z.lnot 7)) ;;
  show_test_state "DMA FIFO test:" rc ;;
  ret rc.

(** [test_dma_fifo]. *)
Definition test_dma_fifo : M Z :=
  uae <- is_running_in_uae ;;
  if uae : bool then ret 0
  else
    show_test_state "DMA FIFO test:" (-1) ;;
    a4091_reset ;;
    ctest1 <- get_ncrreg8 REG_CTEST1 ;;
    when (negb (ctest1 =? 0xf0))
         (printf
            "DMA FIFO not empty before test: CTEST1 should be 0xf0, but is 0x%02x\n"
            [PInt ctest1]) ;;
    fun w0 =>
      if negb (ctest1 =? 0xf0) && negb (flag_set w0 FLAG_MORE_DEBUG)
      then (0x0f, w0)
      else
        (dstat <- get_ncrreg8 REG_DSTAT ;;
         let empty := negb (Z.land dstat REG_DSTAT_DFE =? 0) in
         when (negb empty)
              (printf "\n" [] ;;
               printf "DMA FIFO not empty: DSTAT DFE not 1\n" []) ;;
         let rc1 := if empty then 0 else 1 in
         fun w1 =>
           if negb empty && negb (flag_set w1 FLAG_MORE_DEBUG)
           then (0x0f, w1)
           else
             (ctest4 <- get_ncrreg8 REG_CTEST4 ;;
              raw7 <- get_ncrreg8 REG_CTEST7 ;;
              let ctest7 := wrap8 (Z.land raw7 (Z.lnot (BIT 3))) in
              fifo_push ctest4 ctest7 ;;
              dstat2 <- get_ncrreg8 REG_DSTAT ;;
              let empty2 := negb (Z.land dstat2 REG_DSTAT_DFE =? 0) in
              when empty2
                   (when (rc1 =? 0) (printf "\n" []) ;;
                    printf "DMA FIFO is empty: DSTAT DFE not 1\n" []) ;;
              let rc2 := if empty2 then rc1 + 1 else rc1 in
              fun w2 =>
                if empty2 && negb (flag_set w2 FLAG_MORE_DEBUG)
                then (0x0f, w2)
                else
                  (full <- get_ncrreg8 REG_CTEST1 ;;
                   when (negb (full =? 0x0f))
                        (printf
                           "DMA FIFO not full: CTEST1 should be 0x0f, but is 0x%02x\n"
                           [PInt full]) ;;
                   let rc3 := if full =? 0x0f then rc2 else 0xff in
                   fun w3 =>
                     if negb (full =? 0x0f)
                        && negb (flag_set w3 FLAG_MORE_DEBUG)
                     then fifo_finish ctest4 rc3 w3
                     else
                       (rc4 <- fifo_pop ctest4 rc3 ;;
                        last <- get_ncrreg8 REG_CTEST1 ;;
                        when (negb (last =? 0xf0))
                             (printf
                                "\nDMA FIFO not empty after test: CTEST1 should be 0xf0, but is 0x%02x\n"
                                [PInt last]) ;;
                        fifo_finish ctest4
                                    (if last =? 0xf0 then rc4 else 0xff)) w3)
                    w2) w1) w0.

(** The random numbers drawn after seeding with [seed], and the seed left
    after [n] draws. *)
Fixpoint rand_list (seed : Z) (n : nat) : list Z :=
  match n with
  | O => []
  | S n' => rand_next seed :: rand_list (rand_next seed) n'
  end.

Fixpoint rand_iter (n : nat) (seed : Z) : Z :=
  match n with
  | O => seed
  | S n' => rand_iter n' (rand_next seed)
  end.

Lemma land_wrap8_low z m : 0 <= m < 256 -> Z.land (wrap8 z) m = Z.land z m.
Proof.
  intros Hm. unfold wrap8. change 256 with (2 ^ 8).
  rewrite <- Z.land_ones by lia. rewrite <- Z.land_assoc. f_equal.
  change (Z.ones 8) with 255.
  assert (C : forall_below 256 (fun m => Z.land 255 m =? m) = true)
    by (vm_compute; reflexivity).
  apply Z.eqb_eq. apply (forall_below_spec 256 _ C). exact Hm.
Qed.

Lemma land_wrap16_511 z : Z.land (wrap16 z) 511 = Z.land z 511.
Proof.
  unfold wrap16. change 65536 with (2 ^ 16).
  rewrite <- Z.land_ones by lia. rewrite <- Z.land_assoc. reflexivity.
Qed.

Lemma land_511_range z : 0 <= Z.land z 511 < 512.
Proof.
  change 511 with (Z.ones 9). rewrite Z.land_ones by lia.
  apply Z.mod_pos_bound. reflexivity.
Qed.

(** The parity bit that reaches CTEST7 is bit 8 of [rvalue], whatever the
    other bits of CTEST7 are, because bit 3 of [ctest7] was cleared. *)
Lemma push_parity_bit raw7 r :
  Z.land (push_ctest7 (wrap8 (Z.land raw7 (Z.lnot (BIT 3)))) r) (BIT 3)
  = Z.land (Z.shiftr (push_rvalue r) 5) (BIT 3).
Proof.
  unfold push_ctest7. change (BIT 3) with 8.
  rewrite land_wrap8_low by lia.
  rewrite Z.land_lor_distr_l.
  rewrite land_wrap8_low by lia.
  rewrite <- !Z.land_assoc.
  change (Z.land (Z.lnot 8) 8) with 0. change (Z.land 8 8) with 8.
  rewrite Z.land_0_r. reflexivity.
Qed.

Lemma rvalue_nine_bits :
  forall_below 256 (fun h => forall_below 256 (fun l =>
    wrap16 (Z.lor (wrap8 (256 * h + l))
                  (wrap16 (Z.shiftl (Z.land (Z.shiftr (256 * h + l) 5) 8) 5)))
    =? Z.land (256 * h + l) 511)) = true.
Proof. vm_compute. reflexivity. Qed.

(** The 9-bit value the pop loop expects for a random number is the one
    the push loop stored for it: the byte written to CTEST6 with, as bit 8,
    the parity bit written to CTEST7 bit 3. *)
Lemma pushed_is_expected raw7 r :
  pop_value (push_ctest6 r)
            (push_ctest7 (wrap8 (Z.land raw7 (Z.lnot (BIT 3)))) r)
  = pop_rvalue r.
Proof.
  unfold pop_value. rewrite push_parity_bit. unfold push_ctest6, pop_rvalue.
  change (BIT 3) with 8. change (BIT 9 - 1) with 511.
  set (q := push_rvalue r).
  assert (Hq : 0 <= q < 65536) by apply wrap16_range.
  assert (Hh : 0 <= q / 256 < Z.of_nat 256).
  { split; [apply Z.div_pos; lia | apply Z.div_lt_upper_bound; lia]. }
  assert (Hl : 0 <= q mod 256 < Z.of_nat 256)
    by (apply Z.mod_pos_bound; reflexivity).
  pose proof (forall_below_spec 256 _
                (forall_below_spec 256 _ rvalue_nine_bits (q / 256) Hh)
                (q mod 256) Hl) as E.
  cbv beta in E. rewrite <- (Z.div_mod q 256) in E by discriminate.
  apply Z.eqb_eq in E. rewrite E.
  unfold q, push_rvalue. rewrite land_wrap16_511.
  unfold wrap16 at 1. symmetry. apply Z.mod_small.
  pose proof (land_511_range (Z.shiftr r 8)). lia.
Qed.

(** *** The generator along a run *)

Lemma rand32_run w :
  rand32 w
  = (rand_next (rand_seed w), with_rand_seed (rand_next (rand_seed w)) w).
Proof. reflexivity. Qed.

Lemma progress_with_rand_seed w wk nb nt ni sv acc s :
  progress w wk nb nt ni sv acc ->
  progress w (with_rand_seed s wk) nb nt ni sv acc.
Proof.
  intros [[Fbase Fflags Fbt Ftt Fit Fbp Ftp Fip] Sv (tr & L & A)].
  constructor.
  - constructor; assumption.
  - exact Sv.
  - exists tr. split; assumption.
Qed.

Lemma seed_get8 reg w : rand_seed (snd (get_ncrreg8 reg w)) = rand_seed w.
Proof. reflexivity. Qed.

Lemma seed_set8 reg v w : rand_seed (snd (set_ncrreg8 reg v w)) = rand_seed w.
Proof. reflexivity. Qed.

Lemma seed_only_logs {A : Type} (c : M A) w :
  only_logs c -> rand_seed (snd (c w)) = rand_seed w.
Proof. intros H. destruct (H w) as (tr & E & _). rewrite E. reflexivity. Qed.

(** *** The push loop *)

(** The register writes of one pushed byte, and of the bytes pushed for the
    random numbers [rs]. *)
Definition push_byte_writes (w : world) (ctest7 r : Z) : list event :=
  [EvWrite8 (wr_addr w REG_CTEST7) (push_ctest7 ctest7 r);
   EvWrite8 (wr_addr w REG_CTEST6) (push_ctest6 r)].

Definition push_bytes_writes (w : world) (ctest7 : Z) (rs : list Z)
  : list event :=
  flat_map (push_byte_writes w ctest7) rs.

(** The register writes of the push loop over [lanes], started with
    [seed]. *)
Fixpoint push_lanes_writes (w : world) (lanes : list Z) (ctest4 ctest7 seed : Z)
  : list event :=
  match lanes with
  | [] => []
  | lane :: rest =>
      EvWrite8 (wr_addr w REG_CTEST4)
               (wrap8 (Z.lor (Z.lor (Z.land ctest4 (Z.lnot 3)) REG_CTEST4_FBL2)
                             lane))
      :: push_bytes_writes w ctest7 (rand_list seed 16)
      ++ push_lanes_writes w rest ctest4 ctest7 (rand_iter 16 seed)
  end.

Lemma push_ctest7_byte ctest7 r :
  wrap8 (push_ctest7 ctest7 r) = push_ctest7 ctest7 r.
Proof. unfold push_ctest7. apply wrap8_idem. Qed.

Lemma fifo_push_byte_run ctest7 w wk nb nt ni sv acc :
  progress w wk nb nt ni sv acc ->
  progress w (snd (fifo_push_byte ctest7 wk)) nb nt ni sv
           (acc ++ push_byte_writes w ctest7 (rand_next (rand_seed wk)))
  /\ rand_seed (snd (fifo_push_byte ctest7 wk)) = rand_next (rand_seed wk).
Proof.
  intros P. unfold fifo_push_byte.
  do 3 (rewrite snd_bind; cbv beta).
  rewrite rand32_run. cbn [fst snd].
  set (r := rand_next (rand_seed wk)).
  pose proof (progress_with_rand_seed _ _ _ _ _ _ _ r P) as P1.
  pose proof (progress_write8 _ _ _ _ _ _ _ REG_CTEST7
                (push_ctest7 ctest7 r) P1) as P2.
  pose proof (progress_write8 _ _ _ _ _ _ _ REG_CTEST6
                (push_rvalue r) P2) as P3.
  rewrite push_ctest7_byte, <- app_assoc in P3.
  split.
  - apply progress_only_logs; [apply only_logs_debug, only_logs_printf|].
    exact P3.
  - rewrite seed_only_logs by apply only_logs_debug, only_logs_printf.
    reflexivity.
Qed.

Lemma fifo_push_bytes_run ctest7 w nt ni sv :
  forall (n : nat) (wk : world) (nb : nat) (acc : list event),
    progress w wk nb nt ni sv acc ->
    progress w (snd (fifo_push_bytes n ctest7 wk)) nb nt ni sv
             (acc ++ push_bytes_writes w ctest7 (rand_list (rand_seed wk) n))
    /\ rand_seed (snd (fifo_push_bytes n ctest7 wk))
       = rand_iter n (rand_seed wk).
Proof.
  induction n as [|n IH]; intros wk nb acc P.
  - cbn [fifo_push_bytes rand_list rand_iter]. unfold push_bytes_writes.
    cbn [flat_map ret snd]. rewrite app_nil_r. split; [exact P | reflexivity].
  - cbn [fifo_push_bytes rand_list rand_iter]. rewrite snd_seq.
    destruct (fifo_push_byte_run ctest7 _ _ _ _ _ _ _ P) as [P1 S1].
    destruct (IH _ _ _ P1) as [P2 S2].
    rewrite S1 in P2, S2. split; [|exact S2].
    unfold push_bytes_writes in *. cbn [flat_map].
    rewrite app_assoc. exact P2.
Qed.

Lemma fifo_push_lanes_run ctest4 ctest7 w nt ni sv :
  forall (lanes : list Z) (wk : world) (nb : nat) (acc : list event),
    progress w wk nb nt ni sv acc ->
    progress w (snd (fifo_push_lanes lanes ctest4 ctest7 wk)) nb nt ni sv
             (acc ++ push_lanes_writes w lanes ctest4 ctest7 (rand_seed wk)).
Proof.
  induction lanes as [|lane rest IH]; intros wk nb acc P.
  - cbn [fifo_push_lanes push_lanes_writes ret snd]. rewrite app_nil_r.
    exact P.
  - cbn [fifo_push_lanes push_lanes_writes]. rewrite snd_seq, snd_seq.
    unfold select_lane.
    pose proof (progress_write8 _ _ _ _ _ _ _ REG_CTEST4
                  (Z.lor (Z.lor (Z.land ctest4 (Z.lnot 3)) REG_CTEST4_FBL2)
                         lane) P) as P1.
    destruct (fifo_push_bytes_run ctest7 w nt ni sv
                (Z.to_nat NCR_FIFO_SIZE) _ _ _ P1) as [P2 S2].
    pose proof (IH _ _ _ P2) as P3.
    rewrite S2, seed_set8, <- !app_assoc in P3.
    exact P3.
Qed.

Lemma fifo_push_run ctest4 ctest7 w wk nb nt ni sv acc :
  progress w wk nb nt ni sv acc ->
  progress w (snd (fifo_push ctest4 ctest7 wk)) nb nt ni sv
           (acc ++ push_lanes_writes w [0; 1; 2; 3] ctest4 ctest7 19700119).
Proof.
  intros P. unfold fifo_push. rewrite snd_seq.
  exact (fifo_push_lanes_run ctest4 ctest7 w nt ni sv [0; 1; 2; 3] _ _ _
           (progress_with_rand_seed _ _ _ _ _ _ _ (wrap32 19700119) P)).
Qed.

(** *** The pop loop *)

(** The 9-bit values the pop loop expects for the 16 bytes of a lane, when
    the generator stands at [seed] as the lane begins. *)
Definition lane_expected (seed : Z) : list Z :=
  map pop_rvalue (rand_list seed 16).

(** The 9-bit values the push loop stores for the 16 bytes of a lane: the
    byte written to CTEST6 with the parity bit written to CTEST7 bit 3 as
    bit 8. *)
Definition lane_pushed (ctest7 seed : Z) : list Z :=
  map (fun r => pop_value (push_ctest6 r) (push_ctest7 ctest7 r))
      (rand_list seed 16).

(** The [rc] the pop loop leaves after comparing the bytes of a lane with
    the values [expected]: the bit of the lane is set as soon as a value
    read differs.  [reads k] is the k-th value the bus returns. *)
Fixpoint pop_rc (lane : Z) (expected : list Z) (reads : nat -> Z) (rc : Z)
  : Z :=
  match expected with
  | [] => rc
  | e :: rest =>
      pop_rc lane rest (fun k => reads (2 + k)%nat)
             (if pop_value (reads 0%nat) (reads 1%nat) =? e
              then rc else Z.lor rc (BIT lane))
  end.

Fixpoint pop_rc_lanes (lanes : list Z) (seed : Z) (reads : nat -> Z) (rc : Z)
  : Z :=
  match lanes with
  | [] => rc
  | lane :: rest =>
      pop_rc_lanes rest (rand_iter 16 seed) (fun k => reads (32 + k)%nat)
                   (pop_rc lane (lane_expected seed) reads rc)
  end.

Lemma pop_rc_ext lane :
  forall expected reads reads' rc,
    (forall k, reads k = reads' k) ->
    pop_rc lane expected reads rc = pop_rc lane expected reads' rc.
Proof.
  induction expected as [|e rest IH]; intros reads reads' rc H; [reflexivity|].
  cbn [pop_rc]. rewrite !H. apply IH. intros k. apply H.
Qed.

Lemma pop_rc_lanes_ext :
  forall lanes seed reads reads' rc,
    (forall k, reads k = reads' k) ->
    pop_rc_lanes lanes seed reads rc = pop_rc_lanes lanes seed reads' rc.
Proof.
  induction lanes as [|lane rest IH]; intros seed reads reads' rc H;
    [reflexivity|].
  cbn [pop_rc_lanes]. rewrite (pop_rc_ext lane _ reads reads' rc H).
  apply IH. intros k. apply H.
Qed.

Lemma only_logs_pop_report lane cbyte value rvalue rc count :
  only_logs
    (if Z.land rc (BIT lane) =? 0
     then
       (when (rc =? 0) (printf "\n" []) ;;
        printf "Lane %d byte %d FIFO got %03x, expected %03x\n"
               [PInt lane; PInt cbyte; PInt value; PInt rvalue]) ;;
       ret count
     else if count <? 2
     then
       (when (rc =? 0) (printf "\n" []) ;;
        printf "Lane %d byte %d FIFO got %03x, expected %03x\n"
               [PInt lane; PInt cbyte; PInt value; PInt rvalue]) ;;
       ret (count + 1)
     else when (count + 1 =? 3) (printf "...\n" []) ;; ret (count + 1)).
Proof.
  assert (R : only_logs
                (when (rc =? 0) (printf "\n" []) ;;
                 printf "Lane %d byte %d FIFO got %03x, expected %03x\n"
                        [PInt lane; PInt cbyte; PInt value; PInt rvalue])).
  { apply only_logs_bind;
      [apply only_logs_when, only_logs_printf
      | intros _; apply only_logs_printf]. }
  destruct (Z.land rc (BIT lane) =? 0).
  - apply only_logs_bind; [exact R | intros _; apply only_logs_ret].
  - destruct (count <? 2).
    + apply only_logs_bind; [exact R | intros _; apply only_logs_ret].
    + apply only_logs_bind;
        [apply only_logs_when, only_logs_printf
        | intros _; apply only_logs_ret].
Qed.

Lemma fifo_pop_byte_run lane cbyte rc count w wk nb nt ni sv acc :
  progress w wk nb nt ni sv acc ->
  progress w (snd (fifo_pop_byte lane cbyte rc count wk)) (2 + nb) nt ni sv
           (acc ++ [EvRead8 (rd_addr w REG_CTEST6) (next_bus w nb);
                    EvRead8 (rd_addr w REG_CTEST2) (next_bus w (S nb))])
  /\ rand_seed (snd (fifo_pop_byte lane cbyte rc count wk))
     = rand_next (rand_seed wk)
  /\ fst (fst (fifo_pop_byte lane cbyte rc count wk))
     = (if pop_value (next_bus w nb) (next_bus w (S nb))
           =? pop_rvalue (rand_next (rand_seed wk))
        then rc else Z.lor rc (BIT lane)).
Proof.
  intros P. unfold fifo_pop_byte.
  do 3 (rewrite bind_run; cbv beta zeta).
  rewrite rand32_run. cbn [fst snd].
  set (r := rand_next (rand_seed wk)).
  pose proof (progress_with_rand_seed _ _ _ _ _ _ _ r P) as P1.
  destruct (progress_read8 _ _ _ _ _ _ _ REG_CTEST6 P1) as [V1 P2].
  destruct (progress_read8 _ _ _ _ _ _ _ REG_CTEST2 P2) as [V2 P3].
  rewrite V1, V2. rewrite <- app_assoc in P3.
  destruct (pop_value (next_bus w nb) (next_bus w (S nb)) =? pop_rvalue r).
  - cbn [ret fst snd]. split; [exact P3|]. split; reflexivity.
  - rewrite bind_run. cbn [ret fst snd].
    pose proof (only_logs_pop_report lane cbyte
                  (pop_value (next_bus w nb) (next_bus w (S nb)))
                  (pop_rvalue r) rc count) as OL.
    split; [|split].
    + apply progress_only_logs; [exact OL | exact P3].
    + rewrite (seed_only_logs _ _ OL). reflexivity.
    + reflexivity.
Qed.

Lemma fifo_pop_bytes_run lane w nt ni sv :
  forall (n : nat) (cbyte rc count : Z) (wk : world) (nb : nat)
         (acc : list event),
    progress w wk nb nt ni sv acc ->
    exists acc',
      progress w (snd (fifo_pop_bytes n lane cbyte rc count wk))
               (2 * n + nb) nt ni sv acc'
      /\ rand_seed (snd (fifo_pop_bytes n lane cbyte rc count wk))
         = rand_iter n (rand_seed wk)
      /\ fst (fst (fifo_pop_bytes n lane cbyte rc count wk))
         = pop_rc lane (map pop_rvalue (rand_list (rand_seed wk) n))
                  (fun k => next_bus w (nb + k)) rc.
Proof.
  induction n as [|n IH]; intros cbyte rc count wk nb acc P.
  - exists acc. cbn [fifo_pop_bytes ret fst snd Nat.mul Nat.add rand_iter
                     rand_list map pop_rc].
    split; [exact P|]. split; reflexivity.
  - cbn [fifo_pop_bytes rand_iter rand_list map pop_rc].
    rewrite bind_run.
    destruct (fifo_pop_byte_run lane cbyte rc count _ _ _ _ _ _ _ P)
      as (P1 & S1 & R1).
    destruct (IH (cbyte + 1)
                 (fst (fst (fifo_pop_byte lane cbyte rc count wk)))
                 (snd (fst (fifo_pop_byte lane cbyte rc count wk)))
                 _ _ _ P1) as (acc' & P2 & S2 & R2).
    exists acc'. split; [|split].
    + replace (2 * S n + nb)%nat with (2 * n + (2 + nb))%nat by lia.
      exact P2.
    + rewrite S2, S1. reflexivity.
    + rewrite R2, S1, R1.
      replace (nb + 0)%nat with nb by lia.
      replace (nb + 1)%nat with (S nb) by lia.
      apply pop_rc_ext. intros k. f_equal. lia.
Qed.

Lemma fifo_pop_lanes_run ctest4 w nt ni sv :
  forall (lanes : list Z) (rc : Z) (wk : world) (nb : nat) (acc : list event),
    progress w wk nb nt ni sv acc ->
    fst (fifo_pop_lanes lanes ctest4 rc wk)
    = pop_rc_lanes lanes (rand_seed wk) (fun k => next_bus w (nb + k)) rc.
Proof.
  induction lanes as [|lane rest IH]; intros rc wk nb acc P; [reflexivity|].
  cbn [fifo_pop_lanes pop_rc_lanes]. rewrite bind_run. cbv beta.
  rewrite bind_run. unfold select_lane.
  pose proof (progress_write8 _ _ _ _ _ _ _ REG_CTEST4
                (Z.lor (Z.lor (Z.land ctest4 (Z.lnot 3)) REG_CTEST4_FBL2)
                       lane) P) as P1.
  destruct (fifo_pop_bytes_run lane w nt ni sv (Z.to_nat NCR_FIFO_SIZE)
              0 rc 0 _ _ _ P1) as (acc' & P2 & S2 & R2).
  rewrite (IH _ _ _ _ P2), S2, R2, seed_set8.
  change (Z.to_nat NCR_FIFO_SIZE) with 16%nat.
  apply pop_rc_lanes_ext. intros k. f_equal. lia.
Qed.

Lemma fifo_pop_run ctest4 rc w wk nb nt ni sv acc :
  progress w wk nb nt ni sv acc ->
  fst (fifo_pop ctest4 rc wk)
  = pop_rc_lanes [0; 1; 2; 3] 19700119 (fun k => next_bus w (nb + k)) rc.
Proof.
  intros P. unfold fifo_pop. rewrite bind_run.
  exact (fifo_pop_lanes_run ctest4 w nt ni sv [0; 1; 2; 3] rc _ _ _
           (progress_with_rand_seed _ _ _ _ _ _ _ (wrap32 19700119) P)).
Qed.

Lemma pop_value_parity d p p' :
  Z.land p (BIT 3) = Z.land p' (BIT 3) -> pop_value d p = pop_value d p'.
Proof. intros H. unfold pop_value. rewrite H. reflexivity. Qed.

Lemma rand_iter_add a :
  forall b s, rand_iter a (rand_iter b s) = rand_iter (b + a) s.
Proof.
  intros b. induction b as [|b IH]; intros s; [reflexivity|].
  cbn [rand_iter Nat.add]. apply IH.
Qed.

Lemma rand_list_length seed n : List.length (rand_list seed n) = n.
Proof.
  revert seed. induction n as [|n IH]; intros seed; [reflexivity|].
  cbn [rand_list List.length]. rewrite IH. reflexivity.
Qed.

(** Reads that return, byte after byte, what the push loop stored for the
    random numbers [rs]: the data byte from CTEST6, the parity bit in bit 3
    of CTEST2. *)
Definition reads_stored (ctest7 : Z) (rs : list Z) (reads : nat -> Z) : Prop :=
  forall j, (j < List.length rs)%nat ->
    reads (2 * j)%nat = push_ctest6 (nth j rs 0)
    /\ Z.land (reads (2 * j + 1)%nat) (BIT 3)
       = Z.land (push_ctest7 ctest7 (nth j rs 0)) (BIT 3).

Lemma pop_rc_stored raw7 lane :
  forall rs reads rc,
    reads_stored (wrap8 (Z.land raw7 (Z.lnot (BIT 3)))) rs reads ->
    pop_rc lane (map pop_rvalue rs) reads rc = rc.
Proof.
  induction rs as [|r rs IH]; intros reads rc H; [reflexivity|].
  cbn [map pop_rc].
  destruct (H 0%nat) as [H0 H1]; [cbn; lia|].
  cbn [Nat.mul Nat.add nth] in H0, H1.
  rewrite H0, (pop_value_parity _ _ _ H1), pushed_is_expected, Z.eqb_refl.
  apply IH. intros j Hj.
  destruct (H (S j)) as [A B]; [cbn; lia|].
  cbn [nth] in A, B.
  replace (2 + 2 * j)%nat with (2 * S j)%nat by lia.
  replace (2 + (2 * j + 1))%nat with (2 * S j + 1)%nat by lia.
  split; assumption.
Qed.

(** Reads that return what was stored in every lane: the DMA FIFO gives
    back what was pushed into it. *)
Definition fifo_reads_stored (ctest7 seed : Z) (lanes : nat) (reads : nat -> Z)
  : Prop :=
  forall l, (l < lanes)%nat ->
    reads_stored ctest7 (rand_list (rand_iter (16 * l) seed) 16)
                 (fun k => reads (32 * l + k)%nat).

Lemma pop_rc_lanes_stored raw7 :
  forall lanes seed reads rc,
    fifo_reads_stored (wrap8 (Z.land raw7 (Z.lnot (BIT 3)))) seed
                      (List.length lanes) reads ->
    pop_rc_lanes lanes seed reads rc = rc.
Proof.
  induction lanes as [|lane rest IH]; intros seed reads rc H; [reflexivity|].
  cbn [pop_rc_lanes]. unfold lane_expected.
  rewrite (pop_rc_stored raw7 lane).
  - apply IH. intros l Hl j Hj.
    destruct (H (S l)) with (j := j) as [A B].
    + cbn [List.length]. lia.
    + rewrite rand_list_length in *. exact Hj.
    + replace (16 * S l)%nat with (16 + 16 * l)%nat in A, B by lia.
      rewrite <- rand_iter_add in A, B.
      replace (32 * S l + 2 * j)%nat with (32 + (32 * l + 2 * j))%nat in A
        by lia.
      replace (32 * S l + (2 * j + 1))%nat
        with (32 + (32 * l + (2 * j + 1)))%nat in B by lia.
      split; assumption.
  - intros j Hj. destruct (H 0%nat) with (j := j) as [A B].
    + cbn [List.length]. lia.
    + exact Hj.
    + cbn [Nat.mul Nat.add rand_iter] in A, B. split; assumption.
Qed.

(** C7.  In the DMA FIFO test both the push loop and the pop loop seed the
    generator with 19700119 and draw one number per byte, lane after lane.
    The push loop writes, for each number, the low byte of [rand32() >> 8]
    to CTEST6 and bit 8 of it to CTEST7 bit 3; the pop loop compares what
    it reads with [(rand32() >> 8) & 0x1FF] for the same number.  For every
    lane the sequence of 9-bit values expected by the pop loop is the
    sequence of 9-bit values stored by the push loop, so that a FIFO that
    gives back what was stored leaves [rc] as it was. *)
Theorem fifo_expected_is_pushed :
  forall (raw7 ctest4 : Z) (w : world),
    let ctest7 := wrap8 (Z.land raw7 (Z.lnot (BIT 3))) in
    (exists tr,
       log (snd (fifo_push ctest4 ctest7 w)) = log w ++ tr
       /\ bus_accesses tr
          = push_lanes_writes w [0; 1; 2; 3] ctest4 ctest7 19700119)
    /\ (forall rc,
          fst (fifo_pop ctest4 rc w)
          = pop_rc_lanes [0; 1; 2; 3] 19700119 (next_bus w) rc)
    /\ (forall lane : nat,
          lane_pushed ctest7 (rand_iter (16 * lane) 19700119)
          = lane_expected (rand_iter (16 * lane) 19700119))
    /\ (forall rc,
          fifo_reads_stored ctest7 19700119 4 (next_bus w) ->
          fst (fifo_pop ctest4 rc w) = rc).
Proof.
  intros raw7 ctest4 w ctest7.
  assert (Pop : forall rc,
            fst (fifo_pop ctest4 rc w)
            = pop_rc_lanes [0; 1; 2; 3] 19700119 (next_bus w) rc).
  { intros rc. rewrite (fifo_pop_run ctest4 rc w w _ _ _ _ _ (progress_start w)).
    apply pop_rc_lanes_ext. intros k. reflexivity. }
  split; [|split; [|split]].
  - destruct (fifo_push_run ctest4 ctest7 w w _ _ _ _ _ (progress_start w))
      as [_ _ (tr & L & A)].
    exists tr. split; [exact L | exact A].
  - exact Pop.
  - intros lane. unfold lane_pushed, lane_expected.
    apply map_ext. intros r. apply pushed_is_expected.
  - intros rc H. rewrite Pop. apply (pop_rc_lanes_stored raw7). exact H.
Qed.

(** A bus that gives back what the push loop stored with CTEST7 read as 0:
    the data byte on the even reads, the byte written to CTEST7, whose
    bit 3 is the parity bit, on the odd ones. *)
Definition stored_fifo_bus : nat -> Z :=
  fun k =>
    let r := rand_iter (S (Nat.div2 k)) 19700119 in
    if Nat.even k then push_ctest6 r else push_ctest7 0 r.

Definition stored_fifo_world : world :=
  idle_world stored_fifo_bus (fun _ => 0) no_irqs.

Lemma fifo_expected_is_pushed_witness :
  fifo_reads_stored 0 19700119 4 (next_bus stored_fifo_world)
  /\ fst (fifo_pop 0 0 stored_fifo_world) = 0.
Proof.
  assert (H : fifo_reads_stored 0 19700119 4 (next_bus stored_fifo_world)).
  { intros l Hl j Hj. rewrite rand_list_length in Hj.
    do 4 (destruct l as [|l];
          [do 16 (destruct j as [|j]; [vm_compute; split; reflexivity|]);
           exfalso; lia|]).
    exfalso; lia. }
  split; [exact H|].
  exact (proj2 (proj2 (proj2 (fifo_expected_is_pushed 0 0 stored_fifo_world)))
           0 H).
Defined.

(** ** The command line: [a4091_list] and the front of [main] *)

Module Cli.

(** [struct ConfigDev], as far as the program reads it. *)
Record ConfigDev : Type := mkConfigDev {
  cd_Manufacturer : Z;
  cd_Product      : Z;
  cd_BoardAddr    : Z;
  cd_BoardSize    : Z;
  cd_Flags        : Z
}.

(** [struct CurrentBinding], as far as the program prints it; [None] stands
    for a [NULL] string. *)
Record CurrentBinding : Type := mkCurrentBinding {
  cb_FileName      : option string;
  cb_ProductString : option string
}.

(** What the program asks of the system: whether [expansion.library] opens,
    the autoconfig device list [FindConfigDev] walks, and the structure
    [GetCurrentBinding] fills ([None] when it returns less than the size of
    the structure). *)
Record host : Type := mkHost {
  expansion_opens : bool;
  config_devs     : list ConfigDev;
  current_binding : option CurrentBinding
}.

(** The locals of [main] that the options set, with the global
    [runtime_flags]. *)
Record options : Type := mkOptions {
  flag_config   : Z;
  flag_dma      : Z;
  flag_force    : Z;
  flag_loop     : Z;
  flag_kill     : Z;
  flag_list     : Z;
  flag_regs     : Z;
  flag_switches : Z;
  flag_test     : Z;
  test_flags    : Z;
  addr          : Z;
  runtime_flags : Z;
  dma           : list Z
}.

Definition set_flag_config (v : Z) (o : options) : options :=
  mkOptions v (flag_dma o) (flag_force o) (flag_loop o) (flag_kill o)
    (flag_list o) (flag_regs o) (flag_switches o) (flag_test o) (test_flags
    o) (addr o) (runtime_flags o) (dma o).

Definition set_flag_dma (v : Z) (o : options) : options :=
  mkOptions (flag_config o) v (flag_force o) (flag_loop o) (flag_kill o)
    (flag_list o) (flag_regs o) (flag_switches o) (flag_test o) (test_flags
    o) (addr o) (runtime_flags o) (dma o).

Definition set_flag_force (v : Z) (o : options) : options :=
  mkOptions (flag_config o) (flag_dma o) v (flag_loop o) (flag_kill o)
    (flag_list o) (flag_regs o) (flag_switches o) (flag_test o) (test_flags
    o) (addr o) (runtime_flags o) (dma o).

Definition set_flag_loop (v : Z) (o : options) : options :=
  mkOptions (flag_config o) (flag_dma o) (flag_force o) v (flag_kill o)
    (flag_list o) (flag_regs o) (flag_switches o) (flag_test o) (test_flags
    o) (addr o) (runtime_flags o) (dma o).

Definition set_flag_kill (v : Z) (o : options) : options :=
  mkOptions (flag_config o) (flag_dma o) (flag_force o) (flag_loop o) v
    (flag_list o) (flag_regs o) (flag_switches o) (flag_test o) (test_flags
    o) (addr o) (runtime_flags o) (dma o).

Definition set_flag_list (v : Z) (o : options) : options :=
  mkOptions (flag_config o) (flag_dma o) (flag_force o) (flag_loop o)
    (flag_kill o) v (flag_regs o) (flag_switches o) (flag_test o)
    (test_flags o) (addr o) (runtime_flags o) (dma o).

Definition set_flag_regs (v : Z) (o : options) : options :=
  mkOptions (flag_config o) (flag_dma o) (flag_force o) (flag_loop o)
    (flag_kill o) (flag_list o) v (flag_switches o) (flag_test o)
    (test_flags o) (addr o) (runtime_flags o) (dma o).

Definition set_flag_switches (v : Z) (o : options) : options :=
  mkOptions (flag_config o) (flag_dma o) (flag_force o) (flag_loop o)
    (flag_kill o) (flag_list o) (flag_regs o) v (flag_test o) (test_flags o)
    (addr o) (runtime_flags o) (dma o).

Definition set_flag_test (v : Z) (o : options) : options :=
  mkOptions (flag_config o) (flag_dma o) (flag_force o) (flag_loop o)
    (flag_kill o) (flag_list o) (flag_regs o) (flag_switches o) v
    (test_flags o) (addr o) (runtime_flags o) (dma o).

Definition set_test_flags (v : Z) (o : options) : options :=
  mkOptions (flag_config o) (flag_dma o) (flag_force o) (flag_loop o)
    (flag_kill o) (flag_list o) (flag_regs o) (flag_switches o) (flag_test
    o) v (addr o) (runtime_flags o) (dma o).

Definition set_addr (v : Z) (o : options) : options :=
  mkOptions (flag_config o) (flag_dma o) (flag_force o) (flag_loop o)
    (flag_kill o) (flag_list o) (flag_regs o) (flag_switches o) (flag_test
    o) (test_flags o) v (runtime_flags o) (dma o).

Definition set_runtime_flags (v : Z) (o : options) : options :=
  mkOptions (flag_config o) (flag_dma o) (flag_force o) (flag_loop o)
    (flag_kill o) (flag_list o) (flag_regs o) (flag_switches o) (flag_test
    o) (test_flags o) (addr o) v (dma o).

Definition set_dma (v : list Z) (o : options) : options :=
  mkOptions (flag_config o) (flag_dma o) (flag_force o) (flag_loop o)
    (flag_kill o) (flag_list o) (flag_regs o) (flag_switches o) (flag_test
    o) (test_flags o) (addr o) (runtime_flags o) v.

(** How [main] ends, as far as it is followed here: with [exit(code)], in
    undefined behaviour (a [NULL] string handed to [sscanf]), or by going
    on to the card actions with the options and the [rc] so far. *)
Inductive outcome : Type :=
| Exit (code : Z)
| Undefined
| Run (o : options) (rc : Z).

(** The state of the argument loop: the options, [argv] (an argument taken
    by [nextarg] becomes [NULL], here [None]), the index [arg] and what has
    been printed. *)
Record pstate : Type := mkP {
  opts  : options;
  argv  : list (option string);
  arg   : nat;
  p_out : list event
}.

Inductive parsed : Type :=
| Go (s : pstate)
| Stop (r : outcome) (out : list event).

Definition with_opts (f : options -> options) (s : pstate) : pstate :=
  mkP (f (opts s)) (argv s) (arg s) (p_out s).

Definition say (e : event) (s : pstate) : list event := p_out s ++ [e].

Definition expansion_library_name : string := "expansion.library".

Definition usage_format : string :=
  "%s\n\nThis tool will test an installed A4091 SCSI controller for correct operation.\nOptions:\n\t-a  specify card address (slot or physical address): <addr>\n\t-c  decode device autoconfig area\n\t-d  enable debug output\n\t-D  perform DMA from/to Amiga memory: <src> <dst> <len>\n\t-f  ignore fact enforcer is present\n\t-h  display this help text\n\t-k  kill (disable) active C= A4091 device driver\n\t-L  loop until failure\n\t-P  probe and list all detected A4091 cards\n\t-r  display NCR53C710 registers\n\t-s  decode device external switches\n\t-t  test card\n".

(** [nextarg]: the first argument at or after [argnum] that is not [NULL];
    it is set to [NULL] in [argv]. *)
Fixpoint nextarg_from (l : list (option string))
  : option (string * list (option string)) :=
  match l with
  | [] => None
  | Some next :: rest => Some (next, None :: rest)
  | None :: rest =>
      match nextarg_from rest with
      | Some (next, rest') => Some (next, None :: rest')
      | None => None
      end
  end.

Definition nextarg (args : list (option string)) (argnum : nat)
  : option string * list (option string) :=
  match nextarg_from (skipn argnum args) with
  | Some (next, rest') => (Some next, firstn argnum args ++ rest')
  | None => (None, args)
  end.

Definition is_digit (c : ascii) : bool :=
  (48 <=? nat_of_ascii c)%nat && (nat_of_ascii c <=? 57)%nat.

Section Program.

(** Flag bits of [cd_Flags] from the system headers, the text [version + 7]
    (it holds the build date) and the C library's hexadecimal scan:
    [sscanf_hex s] is [Some v] when [sscanf(s, "%x%n", &v, &pos)] returns 1
    with [pos] not 0. *)
Variables CDF_SHUTUP CDF_CONFIGME CDF_BADMEMORY : Z.
Variable version_text : string.
Variable sscanf_hex : string -> option Z.

(** [usage]. *)
Definition usage : event := EvPrintf usage_format [PStr version_text].

(** [FindConfigDev(cdev, ZORRO_MFG_COMMODORE, ZORRO_PROD_A4091)], called
    until it returns [NULL], walks these devices. *)
Definition a4091_devs (h : host) : list ConfigDev :=
  filter (fun d => (cd_Manufacturer d =? ZORRO_MFG_COMMODORE)
                   && (cd_Product d =? ZORRO_PROD_A4091))
         (config_devs h).

(** The line [a4091_list] prints for one card. *)
Definition list_row (h : host) (count : Z) (cdev : ConfigDev) : list event :=
  [EvPrintf "  %-3d   %08x %08lx"
            [PInt count; PInt (wrap32 (cd_BoardAddr cdev));
             PInt (cd_BoardSize cdev)]]
  ++ (if negb (Z.land (cd_Flags cdev) CDF_SHUTUP =? 0)
      then [EvPrintf " ShutUp" []] else [])
  ++ (if negb (Z.land (cd_Flags cdev) CDF_CONFIGME =? 0)
      then [EvPrintf " ConfigMe" []] else [])
  ++ (if negb (Z.land (cd_Flags cdev) CDF_BADMEMORY =? 0)
      then [EvPrintf " BadMemory" []] else [])
  ++ match current_binding h with
     | Some cbind =>
         [EvPrintf " Bound" []]
         ++ match cb_FileName cbind with
            | Some f => [EvPrintf " to %s" [PStr f]]
            | None => []
            end
         ++ match cb_ProductString cbind with
            | Some p => [EvPrintf " prod %s" [PStr p]]
            | None => []
            end
     | None => []
     end
  ++ [EvPrintf "\n" []].

(** The [do ... while (cdev != NULL)] loop of [a4091_list] over the cards
    still to come; the result is [count], [did_header] and the output. *)
Fixpoint list_loop (h : host) (addr : Z) (devs : list ConfigDev)
                   (count did_header : Z) (out : list event)
  : Z * Z * list event :=
  match devs with
  | [] => (count, did_header, out)
  | cdev :: rest =>
      if ((0x10 <? addr) && negb (wrap32 (cd_BoardAddr cdev) =? addr))
         || ((addr <=? 0x10) && negb (count =? addr))
      then list_loop h addr rest (count + 1) did_header out
      else
        let header :=
          if did_header =? 0
          then [EvPrintf "  Index Address  Size     Flags\n" []] else [] in
        let did_header' :=
          if did_header =? 0 then did_header + 1 else did_header in
        list_loop h addr rest (count + 1) did_header'
                  (out ++ header ++ list_row h count cdev)
  end.

(** [a4091_list]: the value returned and the output. *)
Definition a4091_list (h : host) (addr : Z) : Z * list event :=
  if expansion_opens h then
    let '(count, did_header, out) := list_loop h addr (a4091_devs h) 0 0 [] in
    let out' :=
      if count =? 0 then out ++ [EvPrintf "No A4091 cards detected\n" []]
      else if did_header =? 0
           then out ++ [EvPrintf "Specified card %x not detected\n" [PInt addr]]
           else out in
    ((if count =? 0 then 1 else 0), out')
  else
    (1, [EvPrintf "Could not open %s\n" [PStr expansion_library_name]]).

(** The three operands of [-D]: [i] of them are read already. *)
Fixpoint parse_dma (which : list string) (s : pstate) : parsed :=
  match which with
  | [] => Go s
  | name :: rest =>
      match nextarg (argv s) (arg s + 1) with
      | (None, _) =>
          Stop (Exit 1)
               (say (EvPrintf "Command requires <src> <dst> <len>\n" []) s)
      | (Some si, argv') =>
          match sscanf_hex si with
          | Some v =>
              parse_dma rest
                (mkP (set_dma (dma (opts s) ++ [wrap32 v]) (opts s))
                     argv' (arg s) (p_out s))
          | None =>
              Stop (Exit 1)
                   (say (EvPrintf "Invalid DMA %s %s specified\n"
                                  [PStr name; PStr si]) s)
          end
      end
  end.

(** One pass of the [switch] on the option letter [c]; [ptr] is the rest
    of the argument from that letter on. *)
Definition parse_letter (c : ascii) (ptr : string) (s : pstate) : parsed :=
  if is_digit c then
    Go (with_opts (fun o => set_test_flags
                    (Z.lor (test_flags o)
                           (BIT (Z.of_nat (nat_of_ascii c) - 48))) o) s)
  else if (c =? "a")%char then
    let arg' := S (arg s) in
    if (List.length (argv s) <=? arg')%nat then
      Stop (Exit 1) (say (EvPrintf "You must specify an address\n" []) s)
    else
      match nth arg' (argv s) None with
      | None => Stop Undefined (p_out s)
      | Some a =>
          match sscanf_hex a with
          | Some v =>
              Go (mkP (set_addr (wrap32 v) (opts s)) (argv s) arg' (p_out s))
          | None =>
              Stop (Exit 1)
                   (say (EvPrintf "Invalid card address %s specified\n"
                                  [PStr ptr]) s)
          end
      end
  else if (c =? "c")%char then Go (with_opts (set_flag_config 1) s)
  else if (c =? "d")%char then
    Go (with_opts
          (fun o =>
             if negb (Z.land (runtime_flags o) FLAG_DEBUG =? 0)
             then set_runtime_flags (Z.lor (runtime_flags o) FLAG_MORE_DEBUG) o
             else set_runtime_flags (Z.lor (runtime_flags o) FLAG_DEBUG) o)
          s)
  else if (c =? "D")%char then
    parse_dma ["src"; "dst"; "len"]%string
              (with_opts (fun o => set_dma [] (set_flag_dma 1 o)) s)
  else if (c =? "h")%char then Stop (Exit 0) (say usage s)
  else if (c =? "f")%char then Go (with_opts (set_flag_force 1) s)
  else if (c =? "k")%char then Go (with_opts (set_flag_kill 1) s)
  else if (c =? "L")%char then Go (with_opts (set_flag_loop 1) s)
  else if (c =? "P")%char then Go (with_opts (set_flag_list 1) s)
  else if (c =? "r")%char then Go (with_opts (set_flag_regs 1) s)
  else if (c =? "s")%char then Go (with_opts (set_flag_switches 1) s)
  else if (c =? "t")%char then Go (with_opts (set_flag_test 1) s)
  else
    Stop (Exit 1) (p_out s ++ [EvPrintf "Unknown -%s\n" [PStr ptr]; usage]).

(** The [while] loop over the letters that follow the dash. *)
Fixpoint parse_letters (ptr : string) (s : pstate) : parsed :=
  match ptr with
  | EmptyString => Go s
  | String c rest =>
      match parse_letter c ptr s with
      | Go s' => parse_letters rest s'
      | stop => stop
      end
  end.

(** [for (arg = 1; arg < argc; arg++)], entered with [arg] set.  Every
    round moves [arg] on, so that [argc] rounds are enough; [fuel] counts
    them. *)
Fixpoint parse_args (fuel : nat) (s : pstate) : parsed :=
  match fuel with
  | O => Go s
  | S fuel' =>
      if (List.length (argv s) <=? arg s)%nat then Go s
      else
        match nth (arg s) (argv s) None with
        | None => parse_args fuel' (mkP (opts s) (argv s) (S (arg s)) (p_out s))
        | Some ptr =>
            match ptr with
            | String "-" letters =>
                match parse_letters letters s with
                | Go s' =>
                    parse_args fuel'
                      (mkP (opts s') (argv s') (S (arg s')) (p_out s'))
                | stop => stop
                end
            | _ =>
                Stop (Exit 1)
                     (p_out s ++ [EvPrintf "Unknown argument %s\n" [PStr ptr];
                                  usage])
            end
        end
  end.

Definition initial_options : options :=
  mkOptions 0 0 0 0 0 0 0 0 0 0 0 0 [].

(** [main] up to the point where the card actions begin:
<<
    if (flag_list)
        rc += a4091_list(addr);

    if (!(flag_config | flag_dma | flag_regs | flag_switches | flag_test |
          flag_kill)) {
        if (flag_list)
            exit(rc);
        usage();
        exit(1);
    }
>> *)
Definition main (h : host) (args : list (option string))
  : outcome * list event :=
  match parse_args (List.length args) (mkP initial_options args 1 []) with
  | Stop r out => (r, out)
  | Go s =>
      let o := opts s in
      let listed :=
        if negb (flag_list o =? 0) then a4091_list h (addr o) else (0, []) in
      let rc := 0 + fst listed in
      let out := p_out s ++ snd listed in
      if Z.lor (Z.lor (Z.lor (Z.lor (Z.lor (flag_config o) (flag_dma o))
                                     (flag_regs o))
                              (flag_switches o))
                       (flag_test o))
               (flag_kill o) =? 0
      then
        if negb (flag_list o =? 0) then (Exit rc, out)
        else (Exit 1, out ++ [usage])
      else (Run o rc, out)
  end.

(** The options left by the single argument [-P]. *)
Lemma parse_probe (prog : option string) :
  parse_args 2 (mkP initial_options [prog; Some "-P"%string] 1 [])
  = Go (mkP (set_flag_list 1 initial_options) [prog; Some "-P"%string] 2 []).
Proof. reflexivity. Qed.

Lemma a4091_list_no_cards (h : host) (a : Z) :
  a4091_devs h = [] ->
  a4091_list h a
  = if expansion_opens h
    then (1, [EvPrintf "No A4091 cards detected\n" []])
    else (1, [EvPrintf "Could not open %s\n" [PStr expansion_library_name]]).
Proof.
  intros H. unfold a4091_list. rewrite H. reflexivity.
Qed.

(** C10, as amended.  Invoked with only [-P] on a system with no A4091
    card, the program exits with code 1: when [expansion.library] opens it
    prints "No A4091 cards detected" and nothing else, [a4091_list] returns
    [count == 0], which is 1, and [main] exits with that value; when the
    library does not open it prints "Could not open expansion.library" and
    exits with code 1 as well. *)
Theorem probe_without_cards :
  forall (h : host) (prog : option string),
    a4091_devs h = [] ->
    fst (main h [prog; Some "-P"%string]) = Exit 1
    /\ (expansion_opens h = true ->
        snd (main h [prog; Some "-P"%string])
        = [EvPrintf "No A4091 cards detected\n" []])
    /\ (expansion_opens h = false ->
        snd (main h [prog; Some "-P"%string])
        = [EvPrintf "Could not open %s\n" [PStr "expansion.library"]]).
Proof.
  intros h prog H. unfold main.
  change (List.length [prog; Some "-P"%string]) with 2%nat.
  rewrite parse_probe.
  cbn [opts p_out flag_list set_flag_list initial_options addr flag_config
       flag_dma flag_regs flag_switches flag_test flag_kill].
  change (negb (1 =? 0)) with true. cbv iota.
  rewrite (a4091_list_no_cards h 0 H).
  destruct (expansion_opens h); cbn.
  - repeat split; try reflexivity; intros E; discriminate E.
  - repeat split; try reflexivity; intros E; discriminate E.
Qed.

End Program.

(** A system with one Zorro card that is not an A4091. *)
Definition other_card : ConfigDev := mkConfigDev 0x0202 0x0050 0x40000000 0x1000000 0.

Definition host_without_a4091 : host := mkHost true [other_card] None.

Definition no_scan : string -> option Z := fun _ => None.

Lemma probe_without_cards_witness :
  fst (main 1 2 4 "A4091 0.4" no_scan host_without_a4091
            [Some "a4091"%string; Some "-P"%string]) = Exit 1.
Proof.
  apply (probe_without_cards 1 2 4 "A4091 0.4" no_scan host_without_a4091
           (Some "a4091"%string)).
  reflexivity.
Defined.

(** C10 as written does not hold: with only [-P] and no A4091 card the
    program prints "No A4091 cards detected" and exits with code 1, not
    0. *)
Lemma probe_without_cards_exits_1 :
  main 1 2 4 "A4091 0.4" no_scan host_without_a4091
       [Some "a4091"%string; Some "-P"%string]
  = (Exit 1, [EvPrintf "No A4091 cards detected\n" []])
  /\ fst (main 1 2 4 "A4091 0.4" no_scan host_without_a4091
               [Some "a4091"%string; Some "-P"%string]) <> Exit 0.
Proof.
  split; [reflexivity|].
  intros H. vm_compute in H. discriminate H.
Qed.

End Cli.

(** ** DMA copy test: the protection grid *)

Module DmaCopy.

Definition DMA_LEN_BIT : Z := 12.
Definition dma_len : Z := Eval cbv in BIT DMA_LEN_BIT.
Definition BF_FLAG_COPY    : Z := 0x01.
Definition BF_FLAG_CORRUPT : Z := 0x02.

(** [typedef uint32_t addrs_array[32]; addrs_array *bf_addr;] and
    [uint8_t bf_flags[32][32]]: a value for every pair of indexes.  The
    source uses indexes from 12 to 31 only. *)
Definition grid : Type := Z -> Z -> Z.

Definition grid_zero : grid := fun _ _ => 0.

Definition grid_set (g : grid) (i j v : Z) : grid :=
  fun i' j' => if (i' =? i) && (j' =? j) then v else g i' j'.

(** What the test asks of the memory of the machine. *)
Inductive hevent : Type :=
| HAllocAbs (byteSize location result : Z)
| HAllocMem (byteSize requirements result : Z)
| HMemset (p v len : Z)
| HMemcpy (dst src len : Z).

(** The memory of the machine, a byte per address; the results of the
    calls of the system allocator still to come (0 is [NULL]); the calls
    made so far; and the locals of [test_dma_copy] the grid lives in. *)
Record state : Type := mkState {
  mem        : Z -> Z;
  alloc_tape : nat -> Z;
  alloc_pos  : nat;
  trace      : list hevent;
  bf_addr    : grid;
  bf_mem     : grid;
  bf_flags   : grid;
  bf_copies  : Z;
  bf_buffers : Z
}.

Definition set_mem (v : Z -> Z) (s : state) : state :=
  mkState v (alloc_tape s) (alloc_pos s) (trace s) (bf_addr s) (bf_mem s)
    (bf_flags s) (bf_copies s) (bf_buffers s).

Definition set_alloc_pos (v : nat) (s : state) : state :=
  mkState (mem s) (alloc_tape s) v (trace s) (bf_addr s) (bf_mem s)
    (bf_flags s) (bf_copies s) (bf_buffers s).

Definition set_trace (v : list hevent) (s : state) : state :=
  mkState (mem s) (alloc_tape s) (alloc_pos s) v (bf_addr s) (bf_mem s)
    (bf_flags s) (bf_copies s) (bf_buffers s).

Definition set_bf_addr (v : grid) (s : state) : state :=
  mkState (mem s) (alloc_tape s) (alloc_pos s) (trace s) v (bf_mem s)
    (bf_flags s) (bf_copies s) (bf_buffers s).

Definition set_bf_mem (v : grid) (s : state) : state :=
  mkState (mem s) (alloc_tape s) (alloc_pos s) (trace s) (bf_addr s) v
    (bf_flags s) (bf_copies s) (bf_buffers s).

Definition set_bf_flags (v : grid) (s : state) : state :=
  mkState (mem s) (alloc_tape s) (alloc_pos s) (trace s) (bf_addr s) (bf_mem
    s) v (bf_copies s) (bf_buffers s).

Definition set_bf_copies (v : Z) (s : state) : state :=
  mkState (mem s) (alloc_tape s) (alloc_pos s) (trace s) (bf_addr s) (bf_mem
    s) (bf_flags s) v (bf_buffers s).

Definition set_bf_buffers (v : Z) (s : state) : state :=
  mkState (mem s) (alloc_tape s) (alloc_pos s) (trace s) (bf_addr s) (bf_mem
    s) (bf_flags s) (bf_copies s) v.

Definition note (e : hevent) (s : state) : state :=
  set_trace (trace s ++ [e]) s.

(** [AllocAbs(byteSize, location)] and [AllocMem(byteSize, requirements)]:
    the system decides. *)
Definition AllocAbs (byteSize location : Z) (s : state) : Z * state :=
  let r := wrap32 (alloc_tape s (alloc_pos s)) in
  (r, note (HAllocAbs byteSize location r) (set_alloc_pos (S (alloc_pos s)) s)).

Definition AllocMem (byteSize requirements : Z) (s : state) : Z * state :=
  let r := wrap32 (alloc_tape s (alloc_pos s)) in
  (r, note (HAllocMem byteSize requirements r)
           (set_alloc_pos (S (alloc_pos s)) s)).

(** [memset(p, v, len)] and [memcpy(dst, src, len)]. *)
Definition memset (p v len : Z) (s : state) : state :=
  note (HMemset p v len)
       (set_mem (fun a => if (p <=? a) && (a <? p + len) then wrap8 v
                          else mem s a) s).

Definition memcpy (dst src len : Z) (s : state) : state :=
  note (HMemcpy dst src len)
       (set_mem (fun a => if (dst <=? a) && (a <? dst + len)
                          then mem s (src + (a - dst))
                          else mem s a) s).

(** [for (i = lo; i < hi; i++) body], with [n] rounds still to go. *)
Fixpoint for_loop {St : Type} (n : nat) (i : Z) (body : Z -> St -> St)
                  (s : St) : St :=
  match n with
  | O => s
  | S n' => for_loop n' (i + 1) body (body i s)
  end.

Definition for_range {St : Type} (lo hi : Z) (body : Z -> St -> St) (s : St)
  : St :=
  for_loop (Z.to_nat (hi - lo)) lo body s.

Section Test.

(** [MEMF_PUBLIC], from the system headers. *)
Variable MEMF_PUBLIC : Z.

(** The body of the loops that build the grid:
<<
    if (bit1 == bit2)
        bf_addr[bit1][bit2] = ((uint32_t) dst) ^ BIT(bit1);
    else
        bf_addr[bit1][bit2] = ((uint32_t) dst) ^ BIT(bit1) ^ BIT(bit2);
    bf_mem[bit1][bit2] =
        (uint32_t) AllocAbs(dma_len, (APTR) bf_addr[bit1][bit2]);
    if (bf_mem[bit1][bit2] == 0) {
        bf_mem[bit1][bit2] = (uint32_t) AllocMem(dma_len, MEMF_PUBLIC);
        bf_flags[bit1][bit2] |= BF_FLAG_COPY;
        bf_copies++;
    } else {
        memset((APTR) bf_mem[bit1][bit2], 0, dma_len);
        bf_buffers++;
    }
>> *)
Definition protect_entry (dst bit1 bit2 : Z) (s : state) : state :=
  let a :=
    if bit1 =? bit2 then wrap32 (Z.lxor dst (BIT bit1))
    else wrap32 (Z.lxor (Z.lxor dst (BIT bit1)) (BIT bit2)) in
  let s1 := set_bf_addr (grid_set (bf_addr s) bit1 bit2 a) s in
  let r := AllocAbs dma_len (bf_addr s1 bit1 bit2) s1 in
  let s2 := set_bf_mem (grid_set (bf_mem (snd r)) bit1 bit2 (fst r)) (snd r) in
  if bf_mem s2 bit1 bit2 =? 0 then
    let m := AllocMem dma_len MEMF_PUBLIC s2 in
    let s3 :=
      set_bf_mem (grid_set (bf_mem (snd m)) bit1 bit2 (fst m)) (snd m) in
    let s4 :=
      set_bf_flags
        (grid_set (bf_flags s3) bit1 bit2
                  (wrap8 (Z.lor (bf_flags s3 bit1 bit2) BF_FLAG_COPY))) s3 in
    set_bf_copies (bf_copies s4 + 1) s4
  else
    let s3 := memset (bf_mem s2 bit1 bit2) 0 dma_len s2 in
    set_bf_buffers (bf_buffers s3 + 1) s3.

(** [for (bit1 = DMA_LEN_BIT; bit1 < 32; bit1++)
       for (bit2 = bit1; bit2 < 32; bit2++) ...]. *)
Definition protect_grid (dst : Z) (s : state) : state :=
  for_range DMA_LEN_BIT 32
    (fun bit1 => for_range bit1 32 (fun bit2 => protect_entry dst bit1 bit2))
    s.

(** The loop that runs after [dma_init_siop(); Forbid();]:
<<
    if (bf_flags[bit1][bit2] & BF_FLAG_COPY) {
        memcpy((APTR)bf_mem[bit1][bit2], (APTR)bf_addr[bit1][bit2], dma_len);
    }
>> *)
Definition capture_entry (bit1 bit2 : Z) (s : state) : state :=
  if negb (Z.land (bf_flags s bit1 bit2) BF_FLAG_COPY =? 0)
  then memcpy (bf_mem s bit1 bit2) (bf_addr s bit1 bit2) dma_len s
  else s.

Definition capture_copies (s : state) : state :=
  for_range DMA_LEN_BIT 32
    (fun bit1 => for_range bit1 32 (fun bit2 => capture_entry bit1 bit2)) s.

(** The state the grid is built from: [bf_flags] cleared by [memset], the
    two arrays allocated with [MEMF_CLEAR]. *)
Definition grid_start (m : Z -> Z) (tape : nat -> Z) : state :=
  mkState m tape 0 [] grid_zero grid_zero grid_zero 0 0.

(** *** The pairs the loops run through *)

Fixpoint zrange (i : Z) (n : nat) : list Z :=
  match n with
  | O => []
  | S n' => i :: zrange (i + 1) n'
  end.

(** The pairs [(bit1, bit2)] in the order of the two nested loops. *)
Definition grid_pairs : list (Z * Z) :=
  flat_map (fun b1 => map (pair b1) (zrange b1 (Z.to_nat (32 - b1))))
           (zrange DMA_LEN_BIT (Z.to_nat (32 - DMA_LEN_BIT))).

Lemma for_loop_fold {St : Type} (body : Z -> St -> St) :
  forall n i s,
    for_loop n i body s = fold_left (fun s k => body k s) (zrange i n) s.
Proof.
  induction n as [|n IH]; intros i s; [reflexivity|].
  cbn [for_loop zrange fold_left]. apply IH.
Qed.

Lemma fold_left_pairs {St : Type} (f : Z -> Z -> St -> St) (b1 : Z) :
  forall l s,
    fold_left (fun s k => f b1 k s) l s
    = fold_left (fun s p => f (fst p) (snd p) s) (map (pair b1) l) s.
Proof.
  induction l as [|k l IH]; intros s; [reflexivity|].
  cbn [map fold_left fst snd]. apply IH.
Qed.

Lemma nested_loops_fold {St : Type} (body : Z -> Z -> St -> St) (s : St) :
  for_range DMA_LEN_BIT 32 (fun b1 => for_range b1 32 (body b1)) s
  = fold_left (fun s p => body (fst p) (snd p) s) grid_pairs s.
Proof.
  unfold for_range, grid_pairs. rewrite for_loop_fold.
  generalize (zrange DMA_LEN_BIT (Z.to_nat (32 - DMA_LEN_BIT))) as l.
  intros l. revert s.
  induction l as [|b1 l IH]; intros s; [reflexivity|].
  cbn [fold_left flat_map]. rewrite fold_left_app, IH.
  f_equal. rewrite for_loop_fold. apply fold_left_pairs.
Qed.

Lemma in_zrange : forall n i k, In k (zrange i n) <-> i <= k < i + Z.of_nat n.
Proof.
  induction n as [|n IH]; intros i k.
  - cbn. lia.
  - cbn [zrange In]. rewrite IH. lia.
Qed.

Lemma in_grid_pairs b1 b2 :
  In (b1, b2) grid_pairs <-> (12 <= b1 /\ b1 <= b2 /\ b2 <= 31).
Proof.
  unfold grid_pairs, DMA_LEN_BIT. rewrite in_flat_map. split.
  - intros (x & Hx & Hp). apply in_map_iff in Hp.
    destruct Hp as (y & E & Hy). injection E as <- <-.
    apply in_zrange in Hx. apply in_zrange in Hy. lia.
  - intros H. exists b1. split.
    + apply in_zrange. lia.
    + apply in_map_iff. exists b2. split; [reflexivity|].
      apply in_zrange. lia.
Qed.

Fixpoint distinct_pairs (l : list (Z * Z)) : bool :=
  match l with
  | [] => true
  | p :: rest =>
      negb (existsb (fun q => (fst q =? fst p) && (snd q =? snd p)) rest)
      && distinct_pairs rest
  end.

Lemma distinct_pairs_NoDup l : distinct_pairs l = true -> NoDup l.
Proof.
  induction l as [|p rest IH]; intros H; [constructor|].
  cbn [distinct_pairs] in H. apply andb_true_iff in H. destruct H as [H1 H2].
  constructor; [|apply IH; exact H2].
  intros I. apply negb_true_iff in H1.
  assert (E : existsb (fun q => (fst q =? fst p) && (snd q =? snd p)) rest
              = true).
  { apply existsb_exists. exists p. split; [exact I|].
    rewrite !Z.eqb_refl. reflexivity. }
  rewrite E in H1. discriminate H1.
Qed.

Lemma grid_pairs_NoDup : NoDup grid_pairs.
Proof. apply distinct_pairs_NoDup. vm_compute. reflexivity. Qed.

(** *** Addresses that differ in one or two bits *)

(** The address recorded for a pair, as the loop body computes it. *)
Definition flip_addr (dst bit1 bit2 : Z) : Z :=
  if bit1 =? bit2 then wrap32 (Z.lxor dst (BIT bit1))
  else wrap32 (Z.lxor (Z.lxor dst (BIT bit1)) (BIT bit2)).

(** [a] differs from [dst] in the bits [b1] and [b2] (in one bit when they
    are the same) and in no other. *)
Definition differs_at (dst a b1 b2 : Z) : Prop :=
  forall b, 0 <= b ->
    Z.testbit a b = xorb (Z.testbit dst b) ((b =? b1) || (b =? b2)).

Lemma BIT_small x : 0 <= x <= 31 -> BIT x = 2 ^ x.
Proof.
  intros H. unfold BIT. rewrite Z.shiftl_1_l. apply wrap32_small. split.
  - apply Z.pow_nonneg. lia.
  - change 4294967296 with (2 ^ 32). apply Z.pow_lt_mono_r; lia.
Qed.

Lemma BIT_testbit x b :
  0 <= x <= 31 -> 0 <= b -> Z.testbit (BIT x) b = (b =? x).
Proof.
  intros Hx Hb. rewrite BIT_small, Z.pow2_bits_eqb by lia. apply Z.eqb_sym.
Qed.

Lemma wrap32_testbit z b :
  0 <= b -> Z.testbit (wrap32 z) b = (b <? 32) && Z.testbit z b.
Proof.
  intros Hb. unfold wrap32. change 4294967296 with (2 ^ 32).
  destruct (b <? 32) eqn:E.
  - apply Z.ltb_lt in E. rewrite Z.mod_pow2_bits_low by lia. reflexivity.
  - apply Z.ltb_ge in E. rewrite Z.mod_pow2_bits_high by lia. reflexivity.
Qed.

Lemma uint32_high_bits z b :
  0 <= z < 4294967296 -> 32 <= b -> Z.testbit z b = false.
Proof.
  intros Hz Hb. rewrite <- (wrap32_small z Hz), wrap32_testbit by lia.
  apply Z.ltb_ge in Hb. rewrite Hb. reflexivity.
Qed.

Lemma flip_differs dst b1 b2 :
  0 <= dst < 4294967296 -> 0 <= b1 <= 31 -> 0 <= b2 <= 31 ->
  differs_at dst (flip_addr dst b1 b2) b1 b2.
Proof.
  intros Hd H1 H2 b Hb. unfold flip_addr.
  assert (Hh : (b <? 32) = false -> Z.testbit dst b = false).
  { intros L. apply Z.ltb_ge in L. apply uint32_high_bits; assumption. }
  destruct (b1 =? b2) eqn:E.
  - apply Z.eqb_eq in E. subst b2.
    rewrite wrap32_testbit, Z.lxor_spec, BIT_testbit by lia.
    destruct (b <? 32) eqn:L.
    + destruct (b =? b1); destruct (Z.testbit dst b); reflexivity.
    + rewrite (Hh eq_refl). apply Z.ltb_ge in L.
      destruct (Z.eqb_spec b b1); [lia | reflexivity].
  - apply Z.eqb_neq in E.
    rewrite wrap32_testbit, !Z.lxor_spec, !BIT_testbit by lia.
    destruct (b <? 32) eqn:L.
    + destruct (Z.eqb_spec b b1); destruct (Z.eqb_spec b b2);
        destruct (Z.testbit dst b); try reflexivity; lia.
    + rewrite (Hh eq_refl). apply Z.ltb_ge in L.
      destruct (Z.eqb_spec b b1); destruct (Z.eqb_spec b b2);
        try reflexivity; lia.
Qed.

Lemma differs_at_unique dst a a' b1 b2 :
  differs_at dst a b1 b2 -> differs_at dst a' b1 b2 -> a = a'.
Proof.
  intros H H'. apply Z.bits_inj'. intros b Hb.
  rewrite (H b Hb), (H' b Hb). reflexivity.
Qed.

Lemma flip_unwrapped dst b1 b2 :
  0 <= dst < 4294967296 -> 0 <= b1 <= 31 -> 0 <= b2 <= 31 ->
  flip_addr dst b1 b2
  = if b1 =? b2 then Z.lxor dst (BIT b1)
    else Z.lxor (Z.lxor dst (BIT b1)) (BIT b2).
Proof.
  intros Hd H1 H2.
  apply (differs_at_unique dst _ _ b1 b2); [apply flip_differs; assumption|].
  intros b Hb. destruct (b1 =? b2) eqn:E.
  - apply Z.eqb_eq in E. subst b2.
    rewrite Z.lxor_spec, BIT_testbit by lia.
    destruct (b =? b1); reflexivity.
  - apply Z.eqb_neq in E.
    rewrite !Z.lxor_spec, !BIT_testbit by lia.
    destruct (Z.eqb_spec b b1); destruct (Z.eqb_spec b b2);
      destruct (Z.testbit dst b); try reflexivity; lia.
Qed.

(** *** One entry of the grid *)

Ltac proj_simpl :=
  cbn [mem alloc_tape alloc_pos trace bf_addr bf_mem bf_flags bf_copies
       bf_buffers set_mem set_alloc_pos set_trace set_bf_addr set_bf_mem
       set_bf_flags set_bf_copies set_bf_buffers note AllocAbs AllocMem
       memset memcpy fst snd].

Lemma grid_set_same g i j v : grid_set g i j v i j = v.
Proof. unfold grid_set. rewrite !Z.eqb_refl. reflexivity. Qed.

Lemma grid_set_other g i j v i' j' :
  (i', j') <> (i, j) -> grid_set g i j v i' j' = g i' j'.
Proof.
  intros H. unfold grid_set.
  destruct (Z.eqb_spec i' i); destruct (Z.eqb_spec j' j);
    try reflexivity.
  subst. exfalso. apply H. reflexivity.
Qed.

(** The entry [(i, j)] is the same in [s'] as in [s]. *)
Definition same_entry (i j : Z) (s s' : state) : Prop :=
  bf_addr s' i j = bf_addr s i j
  /\ bf_mem s' i j = bf_mem s i j
  /\ bf_flags s' i j = bf_flags s i j.

(** [s'] comes after [s]: the calls made are still there, and a byte that
    was zero is still zero. *)
Definition grows (s s' : state) : Prop :=
  (exists tr, trace s' = trace s ++ tr)
  /\ (forall a, mem s a = 0 -> mem s' a = 0).

Lemma same_entry_refl i j s : same_entry i j s s.
Proof. repeat split. Qed.

Lemma same_entry_trans i j s1 s2 s3 :
  same_entry i j s1 s2 -> same_entry i j s2 s3 -> same_entry i j s1 s3.
Proof.
  intros (A1 & M1 & F1) (A2 & M2 & F2).
  repeat split; congruence.
Qed.

Lemma grows_refl s : grows s s.
Proof.
  split; [exists []; symmetry; apply app_nil_r | intros a H; exact H].
Qed.

Lemma grows_trans s1 s2 s3 : grows s1 s2 -> grows s2 s3 -> grows s1 s3.
Proof.
  intros [(t1 & T1) Z1] [(t2 & T2) Z2]. split.
  - exists (t1 ++ t2). rewrite T2, T1, app_assoc. reflexivity.
  - intros a H. apply Z2, Z1, H.
Qed.

Lemma grows_In s s' e : grows s s' -> In e (trace s) -> In e (trace s').
Proof.
  intros [(tr & T) _] H. rewrite T. apply in_or_app. left. exact H.
Qed.

Lemma protect_entry_other dst b1 b2 i j s :
  (i, j) <> (b1, b2) -> same_entry i j s (protect_entry dst b1 b2 s).
Proof.
  intros H. unfold protect_entry, same_entry. cbv zeta.
  match goal with |- context [if ?c then _ else _] => destruct c end;
    proj_simpl; rewrite ?(grid_set_other _ _ _ _ _ _ H); repeat split.
Qed.

Lemma protect_entry_grows dst b1 b2 s : grows s (protect_entry dst b1 b2 s).
Proof.
  unfold protect_entry, grows. cbv zeta.
  match goal with |- context [if ?c then _ else _] => destruct c end;
    proj_simpl.
  - split; [|intros a H; exact H].
    eexists. rewrite <- app_assoc. reflexivity.
  - split.
    + eexists. rewrite <- app_assoc. reflexivity.
    + intros a H.
      match goal with |- context [if ?c then _ else _] => destruct c end;
        [reflexivity | exact H].
Qed.

(** The entry was reserved at the address the allocator returned for it,
    and the block is zero. *)
Definition reserved (s : state) (b1 b2 : Z) : Prop :=
  exists r,
    r <> 0
    /\ In (HAllocAbs dma_len (bf_addr s b1 b2) r) (trace s)
    /\ bf_mem s b1 b2 = r
    /\ bf_flags s b1 b2 = 0
    /\ In (HMemset r 0 dma_len) (trace s)
    /\ (forall k, 0 <= k < dma_len -> mem s (r + k) = 0).

(** The reservation failed, a buffer was asked for instead, and the entry
    is flagged as a copy.  What [AllocMem] returned is in the entry
    unchecked: [buf] is 0 when it had no memory. *)
Definition fallback (s : state) (b1 b2 : Z) : Prop :=
  In (HAllocAbs dma_len (bf_addr s b1 b2) 0) (trace s)
  /\ exists buf,
       In (HAllocMem dma_len MEMF_PUBLIC buf) (trace s)
       /\ bf_mem s b1 b2 = buf
       /\ bf_flags s b1 b2 = BF_FLAG_COPY.

Lemma protect_entry_sets dst b1 b2 s :
  bf_flags s b1 b2 = 0 ->
  bf_addr (protect_entry dst b1 b2 s) b1 b2 = flip_addr dst b1 b2
  /\ (reserved (protect_entry dst b1 b2 s) b1 b2
      \/ fallback (protect_entry dst b1 b2 s) b1 b2).
Proof.
  intros F. unfold protect_entry. cbv zeta. proj_simpl.
  rewrite !grid_set_same.
  set (r := wrap32 (alloc_tape s (alloc_pos s))).
  destruct (Z.eqb_spec r 0) as [E|E].
  - proj_simpl. rewrite !grid_set_same. split; [reflexivity|].
    right. unfold fallback. proj_simpl. rewrite !grid_set_same. split.
    + rewrite <- E. apply in_or_app. left. apply in_or_app. right.
      left. reflexivity.
    + eexists. split; [apply in_or_app; right; left; reflexivity|].
      split; [reflexivity|].
      rewrite F. reflexivity.
  - proj_simpl. rewrite !grid_set_same. split; [reflexivity|].
    left. exists r. proj_simpl. rewrite !grid_set_same.
    split; [exact E|]. split.
    { apply in_or_app. left. apply in_or_app. right. left. reflexivity. }
    split; [reflexivity|]. split; [exact F|]. split.
    { apply in_or_app. right. left. reflexivity. }
    intros k Hk.
    destruct (Z.leb_spec r (r + k)); destruct (Z.ltb_spec (r + k) (r + dma_len));
      try reflexivity; lia.
Qed.

Lemma reserved_kept s s' b1 b2 :
  same_entry b1 b2 s s' -> grows s s' -> reserved s b1 b2 -> reserved s' b1 b2.
Proof.
  intros (A & M & F) G (r & R0 & I1 & Bm & Bf & I2 & Zr).
  exists r. rewrite A, M, F.
  repeat split; try assumption.
  - apply (grows_In s s' _ G I1).
  - apply (grows_In s s' _ G I2).
  - intros k Hk. apply (proj2 G). apply Zr. exact Hk.
Qed.

Lemma fallback_kept s s' b1 b2 :
  same_entry b1 b2 s s' -> grows s s' -> fallback s b1 b2 -> fallback s' b1 b2.
Proof.
  intros (A & M & F) G (I1 & buf & I2 & Bm & Bf).
  unfold fallback. rewrite A, M, F. split.
  - apply (grows_In s s' _ G I1).
  - exists buf. repeat split; try assumption.
    apply (grows_In s s' _ G I2).
Qed.

(** *** The whole grid *)

Definition protect_pairs (dst : Z) (l : list (Z * Z)) (s : state) : state :=
  fold_left (fun s p => protect_entry dst (fst p) (snd p) s) l s.

Lemma protect_pairs_other dst i j :
  forall l s, ~ In (i, j) l -> same_entry i j s (protect_pairs dst l s).
Proof.
  induction l as [|p l IH]; intros s H; [apply same_entry_refl|].
  unfold protect_pairs. cbn [fold_left].
  apply same_entry_trans with (s2 := protect_entry dst (fst p) (snd p) s).
  - apply protect_entry_other. intros E. apply H. left.
    destruct p. cbn [fst snd]. symmetry. exact E.
  - apply IH. intros I. apply H. right. exact I.
Qed.

Lemma protect_pairs_grows dst :
  forall l s, grows s (protect_pairs dst l s).
Proof.
  induction l as [|p l IH]; intros s; [apply grows_refl|].
  unfold protect_pairs. cbn [fold_left].
  apply grows_trans with (s2 := protect_entry dst (fst p) (snd p) s).
  - apply protect_entry_grows.
  - apply IH.
Qed.

Lemma protect_pairs_entry dst b1 b2 l s :
  NoDup l -> In (b1, b2) l -> bf_flags s b1 b2 = 0 ->
  bf_addr (protect_pairs dst l s) b1 b2 = flip_addr dst b1 b2
  /\ (reserved (protect_pairs dst l s) b1 b2
      \/ fallback (protect_pairs dst l s) b1 b2).
Proof.
  intros N I F.
  destruct (in_split _ _ I) as (l1 & l2 & E). subst l.
  pose proof (NoDup_remove_2 _ _ _ N) as Out.
  assert (O1 : ~ In (b1, b2) l1)
    by (intros X; apply Out, in_or_app; left; exact X).
  assert (O2 : ~ In (b1, b2) l2)
    by (intros X; apply Out, in_or_app; right; exact X).
  unfold protect_pairs. rewrite fold_left_app. cbn [fold_left fst snd].
  fold (protect_pairs dst l1 s).
  set (sb := protect_pairs dst l1 s).
  fold (protect_pairs dst l2 (protect_entry dst b1 b2 sb)).
  destruct (protect_pairs_other dst b1 b2 l1 s O1) as (_ & _ & Fb).
  fold sb in Fb. rewrite F in Fb.
  destruct (protect_entry_sets dst b1 b2 sb Fb) as [A D].
  pose proof (protect_pairs_other dst b1 b2 l2
                (protect_entry dst b1 b2 sb) O2) as K.
  pose proof (protect_pairs_grows dst l2 (protect_entry dst b1 b2 sb)) as G.
  split.
  - rewrite (proj1 K). exact A.
  - destruct D as [D|D].
    + left. apply (reserved_kept _ _ _ _ K G D).
    + right. apply (fallback_kept _ _ _ _ K G D).
Qed.

(** *** The copies taken before the transfers *)

Definition capture_pairs (l : list (Z * Z)) (s : state) : state :=
  fold_left (fun s p => capture_entry (fst p) (snd p) s) l s.

Lemma capture_entry_grids b1 b2 s :
  bf_addr (capture_entry b1 b2 s) = bf_addr s
  /\ bf_mem (capture_entry b1 b2 s) = bf_mem s
  /\ bf_flags (capture_entry b1 b2 s) = bf_flags s
  /\ exists tr, trace (capture_entry b1 b2 s) = trace s ++ tr.
Proof.
  unfold capture_entry.
  destruct (negb (Z.land (bf_flags s b1 b2) BF_FLAG_COPY =? 0)); proj_simpl.
  - repeat split. eexists. reflexivity.
  - repeat split. exists []. symmetry. apply app_nil_r.
Qed.

Lemma capture_pairs_grids :
  forall l s,
    bf_addr (capture_pairs l s) = bf_addr s
    /\ bf_mem (capture_pairs l s) = bf_mem s
    /\ bf_flags (capture_pairs l s) = bf_flags s
    /\ exists tr, trace (capture_pairs l s) = trace s ++ tr.
Proof.
  induction l as [|p l IH]; intros s.
  - repeat split. exists []. symmetry. apply app_nil_r.
  - unfold capture_pairs. cbn [fold_left].
    fold (capture_pairs l (capture_entry (fst p) (snd p) s)).
    destruct (IH (capture_entry (fst p) (snd p) s)) as (A & M & F & tr & T).
    destruct (capture_entry_grids (fst p) (snd p) s) as (A1 & M1 & F1 & tr1 & T1).
    rewrite A, M, F, T, A1, M1, F1, T1. repeat split.
    exists (tr1 ++ tr). rewrite app_assoc. reflexivity.
Qed.

Lemma capture_pairs_copies b1 b2 :
  forall l s,
    In (b1, b2) l ->
    Z.land (bf_flags s b1 b2) BF_FLAG_COPY <> 0 ->
    In (HMemcpy (bf_mem s b1 b2) (bf_addr s b1 b2) dma_len)
       (trace (capture_pairs l s)).
Proof.
  induction l as [|p l IH]; intros s I C; [destruct I|].
  unfold capture_pairs. cbn [fold_left].
  fold (capture_pairs l (capture_entry (fst p) (snd p) s)).
  destruct (capture_entry_grids (fst p) (snd p) s) as (A1 & M1 & F1 & _).
  destruct I as [E|I].
  - subst p. cbn [fst snd] in *.
    destruct (capture_pairs_grids l (capture_entry b1 b2 s))
      as (_ & _ & _ & tr & T).
    rewrite T. apply in_or_app. left.
    unfold capture_entry. apply Z.eqb_neq in C. rewrite C.
    proj_simpl. apply in_or_app. right. left. reflexivity.
  - rewrite <- A1, <- M1. apply IH; [exact I|]. rewrite F1. exact C.
Qed.

(** The grid as the code builds it.  With [dma_len] 4096 the loops of
    [test_dma_copy] run through the pairs [(bit1, bit2)] with
    [12 <= bit1 <= bit2 <= 31] and through no other.  For each of them the
    address recorded is [dst ^ BIT(bit1)] when the two are the same and
    [dst ^ BIT(bit1) ^ BIT(bit2)] otherwise; it differs from [dst] in the
    bits [bit1] and [bit2] and in no other, and every address that differs
    from [dst] in one or two bits of 12..31 is the one recorded for some
    pair.  Each entry is either reserved with [AllocAbs] (the result is
    not [NULL]), in which case the block returned is zeroed and the entry
    is not flagged, or, when [AllocAbs] returns [NULL], given what
    [AllocMem] returns, be it a buffer or [NULL], and flagged as a copy;
    the loop that comes after [dma_init_siop] and [Forbid] then copies the
    contents at the recorded address to where that pointer points.  The
    entries outside the grid stay as they were, zero. *)
Theorem protection_grid :
  forall (dst : Z) (m : Z -> Z) (tape : nat -> Z),
    0 <= dst < 4294967296 ->
    let s := protect_grid dst (grid_start m tape) in
    (forall bit1 bit2,
        12 <= bit1 -> bit1 <= bit2 -> bit2 <= 31 ->
        bf_addr s bit1 bit2
        = (if bit1 =? bit2 then Z.lxor dst (BIT bit1)
           else Z.lxor (Z.lxor dst (BIT bit1)) (BIT bit2))
        /\ differs_at dst (bf_addr s bit1 bit2) bit1 bit2
        /\ (reserved s bit1 bit2
            \/ (fallback s bit1 bit2
                /\ In (HMemcpy (bf_mem s bit1 bit2) (bf_addr s bit1 bit2)
                               dma_len)
                      (trace (capture_copies s)))))
    /\ (forall i j,
          ~ (12 <= i /\ i <= j /\ j <= 31) ->
          bf_addr s i j = 0 /\ bf_mem s i j = 0 /\ bf_flags s i j = 0)
    /\ (forall a,
          (exists b1 b2,
              12 <= b1 /\ b1 <= b2 /\ b2 <= 31 /\ differs_at dst a b1 b2)
          <-> (exists b1 b2,
                  12 <= b1 /\ b1 <= b2 /\ b2 <= 31 /\ bf_addr s b1 b2 = a)).
Proof.
  intros dst m tape Hd s.
  assert (Es : s = protect_pairs dst grid_pairs (grid_start m tape)).
  { exact (nested_loops_fold (protect_entry dst) (grid_start m tape)). }
  assert (Entry : forall bit1 bit2,
             12 <= bit1 -> bit1 <= bit2 -> bit2 <= 31 ->
             bf_addr s bit1 bit2 = flip_addr dst bit1 bit2
             /\ (reserved s bit1 bit2 \/ fallback s bit1 bit2)).
  { intros bit1 bit2 H1 H2 H3. rewrite Es.
    apply protect_pairs_entry;
      [apply grid_pairs_NoDup | apply in_grid_pairs; lia | reflexivity]. }
  split; [|split].
  - intros bit1 bit2 H1 H2 H3.
    destruct (Entry bit1 bit2 H1 H2 H3) as [A D].
    split; [|split].
    + rewrite A. apply flip_unwrapped; lia.
    + rewrite A. apply flip_differs; lia.
    + destruct D as [D|D]; [left; exact D|].
      right. split; [exact D|].
      replace (capture_copies s) with (capture_pairs grid_pairs s)
        by (symmetry; exact (nested_loops_fold capture_entry s)).
      apply (capture_pairs_copies bit1 bit2 grid_pairs s).
      * apply in_grid_pairs. lia.
      * destruct D as (_ & buf & _ & _ & F). rewrite F. discriminate.
  - intros i j H. rewrite Es.
    destruct (protect_pairs_other dst i j grid_pairs (grid_start m tape))
      as (A & M & F).
    + intros I. apply H. apply in_grid_pairs. exact I.
    + rewrite A, M, F. repeat split.
  - intros a. split.
    + intros (b1 & b2 & H1 & H2 & H3 & D). exists b1, b2.
      repeat split; try assumption.
      destruct (Entry b1 b2 H1 H2 H3) as [A _]. rewrite A.
      apply (differs_at_unique dst _ _ b1 b2); [|exact D].
      apply flip_differs; lia.
    + intros (b1 & b2 & H1 & H2 & H3 & E). exists b1, b2.
      repeat split; try assumption.
      destruct (Entry b1 b2 H1 H2 H3) as [A _]. rewrite <- E, A.
      apply flip_differs; lia.
Qed.

End Test.

(** An allocator that refuses every second request and grants the others
    at addresses of its own. *)
Definition sample_tape : nat -> Z :=
  fun k => if Nat.even k then 0 else 0x07e00000 + 4096 * Z.of_nat k.

Lemma protection_grid_witness :
  0 <= 0x07d01000 < 4294967296
  /\ bf_addr (protect_grid 1 0x07d01000 (grid_start (fun _ => 0xff) sample_tape))
             12 13
     = Z.lxor (Z.lxor 0x07d01000 (BIT 12)) (BIT 13).
Proof.
  assert (H : 0 <= 0x07d01000 < 4294967296) by lia.
  split; [exact H|].
  destruct (protection_grid 1 0x07d01000 (fun _ => 0xff) sample_tape H)
    as [E _].
  destruct (E 12 13) as [A _]; [lia | lia | lia |].
  exact A.
Defined.

(** An allocator that refuses every [AllocAbs] and has memory for twenty
    buffers: the calls come in pairs, an [AllocAbs] and the [AllocMem]
    that follows its failure. *)
Definition short_tape : nat -> Z :=
  fun k => if Nat.even k then 0
           else if (k <? 40)%nat then 0x07e00000 + 4096 * Z.of_nat k
           else 0.

(** A memory whose bytes differ from place to place. *)
Definition patterned : Z -> Z := fun a => a mod 251.

(** C5, where the code departs from it.  With [dst] at 0x07d01000 and the
    allocator of [short_tape], the entry for the pair (13, 13), the
    twenty-first of the grid, records the address [dst ^ BIT(13)], its
    [AllocAbs] is refused and its [AllocMem] returns [NULL].  The code
    does not look at that result: the entry holds the [NULL] pointer and
    is flagged as a copy all the same, and the loop that takes the copies
    calls [memcpy] with address 0 as the destination, which overwrites
    the memory there (the byte at address 4, for one) instead of filling a
    fallback buffer.  The entry is neither reserved nor backed by a
    buffer. *)
Lemma fallback_without_buffer :
  let dst := 0x07d01000 in
  let s := protect_grid 1 dst (grid_start patterned short_tape) in
  bf_addr s 13 13 = Z.lxor dst (BIT 13)
  /\ nth_error (trace s) 40 = Some (HAllocAbs dma_len (Z.lxor dst (BIT 13)) 0)
  /\ nth_error (trace s) 41 = Some (HAllocMem dma_len 1 0)
  /\ bf_mem s 13 13 = 0
  /\ bf_flags s 13 13 = BF_FLAG_COPY
  /\ In (HMemcpy 0 (Z.lxor dst (BIT 13)) dma_len) (trace (capture_copies s))
  /\ mem (capture_copies s) 4 <> mem s 4
  /\ ~ reserved s 13 13
  /\ ~ (exists buf, buf <> 0 /\ bf_mem s 13 13 = buf).
Proof.
  cbv zeta.
  set (s := protect_grid 1 0x07d01000 (grid_start patterned short_tape)).
  assert (M : bf_mem s 13 13 = 0) by (vm_compute; reflexivity).
  split; [vm_compute; reflexivity|].
  split; [vm_compute; reflexivity|].
  split; [vm_compute; reflexivity|].
  split; [exact M|].
  split; [vm_compute; reflexivity|].
  split.
  { apply (nth_error_In _ 440). vm_compute. reflexivity. }
  split; [vm_compute; discriminate|].
  split.
  - intros (r & R0 & _ & Bm & _). rewrite M in Bm. apply R0. symmetry.
    exact Bm.
  - intros (buf & B0 & Bm). rewrite M in Bm. apply B0. symmetry. exact Bm.
Qed.

End DmaCopy.

(** * More of the program *)

(** ** Parity of a byte *)

(** [calc_parity]:
<<
    data ^= (data >> 4);
    data ^= (data >> 2);
    data ^= (data >> 1);
    return (!(data & 1));
>>
    [data] is a [uint8_t]. *)
Definition calc_parity (data : Z) : Z :=
  let d0 := wrap8 data in
  let d1 := wrap8 (Z.lxor d0 (Z.shiftr d0 4)) in
  let d2 := wrap8 (Z.lxor d1 (Z.shiftr d1 2)) in
  let d3 := wrap8 (Z.lxor d2 (Z.shiftr d2 1)) in
  if Z.land d3 1 =? 0 then 1 else 0.

(** The number of bits set among the [n] low bits of [v]. *)
Fixpoint bits_set (n : nat) (v : Z) : Z :=
  match n with
  | O => 0
  | S k => (if Z.testbit v (Z.of_nat k) then 1 else 0) + bits_set k v
  end.

Lemma calc_parity_bytes :
  forall_below 256
    (fun d => Z.odd (bits_set 8 d + calc_parity d)
              && ((calc_parity d =? 0) || (calc_parity d =? 1))) = true.
Proof. vm_compute. reflexivity. Qed.

(** [calc_parity] gives the odd parity bit of its argument: with it, the
    number of bits set in the byte and the parity bit together is odd.
    The argument is narrowed to a byte first, as a [uint8_t] parameter
    is. *)
Theorem calc_parity_is_odd_parity :
  forall data : Z,
    Z.odd (bits_set 8 (wrap8 data) + calc_parity data) = true
    /\ (calc_parity data = 0 \/ calc_parity data = 1)
    /\ (calc_parity data = 1 <-> Z.even (bits_set 8 (wrap8 data)) = true).
Proof.
  intros data.
  assert (E : calc_parity data = calc_parity (wrap8 data)).
  { unfold calc_parity. rewrite wrap8_idem. reflexivity. }
  pose proof (forall_below_spec 256 _ calc_parity_bytes (wrap8 data)
                (wrap8_range data)) as H.
  cbv beta in H. apply andb_true_iff in H. destruct H as [Ho Hr].
  rewrite <- E in Ho, Hr.
  assert (R : calc_parity data = 0 \/ calc_parity data = 1).
  { apply orb_true_iff in Hr. destruct Hr as [Hr|Hr];
      apply Z.eqb_eq in Hr; auto. }
  split; [exact Ho|]. split; [exact R|].
  rewrite Z.odd_add in Ho. rewrite <- Z.negb_odd.
  destruct R as [R|R]; rewrite R in Ho |- *; cbn [Z.odd] in Ho.
  - rewrite xorb_false_r in Ho. rewrite Ho. split; discriminate.
  - rewrite xorb_true_r in Ho. apply negb_true_iff in Ho. rewrite Ho.
    split; reflexivity.
Qed.

(** ** What [get_creg] depends on *)

(** The card presents the byte [v] of an autoconfig register at offset
    [r]: the high nibble of [v] inverted in the upper four bits of the byte
    at [r], its low nibble inverted in the upper four bits of the byte at
    [r + 0x100]. *)
Definition presents (m : Autoconfig.bus) (base r v : Z) : Prop :=
  Autoconfig.raw_hi m base r / 16 = 15 - v / 16
  /\ Autoconfig.raw_lo m base r / 16 = 15 - v mod 16.

Lemma get_creg_by_nibbles m base r :
  Autoconfig.get_creg m base r
  = 16 * (15 - Autoconfig.raw_hi m base r / 16)
    + (15 - Autoconfig.raw_lo m base r / 16).
Proof.
  unfold Autoconfig.get_creg, Autoconfig.raw_hi, Autoconfig.raw_lo,
    A4091_OFFSET_AUTOCONFIG.
  rewrite Z.add_0_r.
  set (h := Autoconfig.ADDR8 m (base + r)).
  set (l := Autoconfig.ADDR8 m (base + r + 256)).
  assert (Hh : 0 <= h < 256) by apply wrap8_range.
  assert (Hl : 0 <= l < 256) by apply wrap8_range.
  fold (not8 h). fold (not8 l).
  rewrite (not8_byte h Hh), (not8_byte l Hl).
  rewrite (Autoconfig.hi_nibble_arith h Hh), (Autoconfig.lo_nibble_arith l Hl).
  assert (Hq : 0 <= h / 16 < 16)
    by (split; [apply Z.div_pos; lia | apply Z.div_lt_upper_bound; lia]).
  assert (Hr : 0 <= l / 16 < 16)
    by (split; [apply Z.div_pos; lia | apply Z.div_lt_upper_bound; lia]).
  rewrite Autoconfig.nibble_join by lia.
  apply wrap8_small. lia.
Qed.

(** [get_creg] gives back the byte the card presents, whatever the lower
    four bits of the two bus bytes are; two cards whose two bus bytes agree
    in their upper four bits read the same. *)
Theorem get_creg_decodes_presented_byte :
  forall (m : Autoconfig.bus) (base r v : Z),
    0 <= v < 256 ->
    presents m base r v ->
    Autoconfig.get_creg m base r = v
    /\ forall m' : Autoconfig.bus,
         Autoconfig.raw_hi m' base r / 16 = Autoconfig.raw_hi m base r / 16 ->
         Autoconfig.raw_lo m' base r / 16 = Autoconfig.raw_lo m base r / 16 ->
         Autoconfig.get_creg m' base r = v.
Proof.
  intros m base r v Hv [Hh Hl].
  assert (D : v = 16 * (v / 16) + v mod 16) by (apply Z.div_mod; lia).
  split.
  - rewrite get_creg_by_nibbles, Hh, Hl. lia.
  - intros m' Eh El. rewrite get_creg_by_nibbles, Eh, El, Hh, Hl. lia.
Qed.

(** A card that presents the product number 0x54 of the A4091 at offset
    4, with the unused bits of the two bus bytes read as ones. *)
Definition product_bus : Autoconfig.bus :=
  fun a => if a =? 0x40000004 then 0xaf
           else if a =? 0x40000104 then 0xbf else 0xff.

Lemma get_creg_decodes_presented_byte_witness :
  Autoconfig.get_creg product_bus 0x40000000 4 = 0x54.
Proof.
  refine (proj1 (get_creg_decodes_presented_byte
                   product_bus 0x40000000 4 0x54 _ _)).
  - lia.
  - split; reflexivity.
Defined.

(** ** The verdict of [access_timeout] *)

(** [access_timeout] reads the clock once and compares the time since
    [tick_start] with [ticks] as two [int]s.  With [e] the time elapsed:
    a clock that went backwards is never a timeout; for [e] below [2^31]
    the verdict is [e > ticks]; an [e] of [2^31] up to [2^32 - 1] ticks
    reads as a negative [int] and is no timeout, however small [ticks] is.
    No verdict touches the bus. *)
Theorem access_timeout_verdict :
  forall (TPS : Z) (msg : string) (ticks tick_start : Z) (w : world),
    0 <= ticks < 2147483648 ->
    let e := next_tick w 0 - tick_start in
    let r := access_timeout TPS msg ticks tick_start w in
    (e < 0 -> fst r = false)
    /\ (0 <= e < 2147483648 -> fst r = (ticks <? e))
    /\ (2147483648 <= e < 4294967296 -> fst r = false)
    /\ tick_pos (snd r) = S (tick_pos w)
    /\ bus_accesses (appended w (snd r)) = [].
Proof.
  intros TPS msg ticks ts w Ht e r.
  destruct (access_timeout_run TPS msg ticks ts w) as (tr & E & B).
  subst r. rewrite E. cbn [fst snd].
  assert (Tk : to_int32 ticks = ticks).
  { unfold to_int32. rewrite wrap32_small by lia.
    destruct (ticks <? 2147483648) eqn:C; [reflexivity|].
    apply Z.ltb_ge in C. lia. }
  unfold timed_out. fold e.
  repeat split.
  - intros He. destruct (next_tick w 0 <? ts) eqn:C; [reflexivity|].
    apply Z.ltb_ge in C. unfold e in He. lia.
  - intros He. destruct (next_tick w 0 <? ts) eqn:C.
    + apply Z.ltb_lt in C. unfold e in He. lia.
    + rewrite Tk. unfold to_int32. rewrite wrap32_small by lia.
      destruct (e <? 2147483648) eqn:C2; [reflexivity|].
      apply Z.ltb_ge in C2. lia.
  - intros He. destruct (next_tick w 0 <? ts) eqn:C; [reflexivity|].
    rewrite Tk. unfold to_int32. rewrite wrap32_small by lia.
    destruct (e <? 2147483648) eqn:C2.
    + apply Z.ltb_lt in C2. lia.
    + apply Z.ltb_ge. lia.
  - unfold appended. destruct w; cbn.
    rewrite skipn_app, skipn_all, Nat.sub_diag. cbn.
    exact B.
Qed.

(** A clock that reads 100, then 2^31 + 100. *)
Definition long_wait_world : world :=
  idle_world (fun _ => 0) (fun k => match k with O => 2147483748 | _ => 0 end)
             no_irqs.

Lemma access_timeout_verdict_witness :
  fst (access_timeout 50 "wait" 10 100 long_wait_world) = false.
Proof.
  refine (proj1 (proj2 (proj2
            (access_timeout_verdict 50 "wait" 10 100 long_wait_world _))) _).
  - lia.
  - vm_compute. split; [discriminate | reflexivity].
Defined.

(** ** The bit names [print_bits] prints *)

(** The names, out of [bits], of the bits set in [value], from bit [bit]
    up. *)
Definition set_bit_names (bits : list string) (bit : nat) (value : Z)
  : list string :=
  map snd (filter (fun p => Z.testbit value (Z.of_nat (fst p)))
                  (combine (seq bit (List.length bits)) bits)).

Lemma shiftr_zero_no_bits v k :
  0 <= v -> Z.shiftr v (Z.of_nat k) = 0 ->
  forall i, (k <= i)%nat -> Z.testbit v (Z.of_nat i) = false.
Proof.
  intros Hv Hs i Hi.
  replace (Z.of_nat i) with (Z.of_nat (i - k) + Z.of_nat k) by lia.
  rewrite <- Z.shiftr_spec by lia. rewrite Hs. apply Z.bits_0.
Qed.

Lemma set_bit_names_none bits : forall k v,
  (forall i, (k <= i)%nat -> Z.testbit v (Z.of_nat i) = false) ->
  set_bit_names bits k v = [].
Proof.
  unfold set_bit_names.
  induction bits as [|name rest IH]; intros k v H; [reflexivity|].
  cbn [List.length seq combine filter fst].
  rewrite (H k) by lia. apply IH. intros i Hi. apply H. lia.
Qed.

Lemma print_bits_from bits : forall k v w,
  0 <= v ->
  print_bits bits (Z.shiftr v (Z.of_nat k)) w
  = (tt, with_log (log w ++ map (fun name => EvPrintf " %s" [PStr name])
                                (set_bit_names bits k v)) w).
Proof.
  induction bits as [|name rest IH]; intros k v w Hv.
  - cbn. rewrite with_log_same. destruct (Z.shiftr v (Z.of_nat k) =? 0);
      reflexivity.
  - cbn [print_bits].
    destruct (Z.shiftr v (Z.of_nat k) =? 0) eqn:C.
    + apply Z.eqb_eq in C.
      rewrite (set_bit_names_none (name :: rest) k v
                 (shiftr_zero_no_bits v k Hv C)).
      cbn. rewrite with_log_same. reflexivity.
    + rewrite Z.shiftr_shiftr by lia.
      replace (Z.of_nat k + 1) with (Z.of_nat (S k)) by lia.
      rewrite bind_run.
      assert (O : Z.odd (Z.shiftr v (Z.of_nat k)) = Z.testbit v (Z.of_nat k)).
      { rewrite <- Z.bit0_odd, Z.shiftr_spec by lia. f_equal. }
      rewrite O. unfold set_bit_names.
      cbn [List.length seq combine filter fst].
      destruct (Z.testbit v (Z.of_nat k)); cbn [when].
      * unfold printf, emit. cbn [fst snd]. rewrite IH by exact Hv.
        unfold set_bit_names. cbn [map snd].
        f_equal. destruct w; unfold with_log; cbn.
        rewrite <- app_assoc. reflexivity.
      * unfold ret. cbn [fst snd]. apply IH. exact Hv.
Qed.

(** [print_bits] prints, one [" %s"] each and lowest bit first, the names
    of exactly the bits set in [value], and does nothing else; [value]
    has no bit set beyond the table of names. *)
Theorem print_bits_names :
  forall (bits : list string) (value : Z) (w : world),
    0 <= value < 2 ^ Z.of_nat (List.length bits) ->
    print_bits bits value w
    = (tt, with_log (log w ++ map (fun name => EvPrintf " %s" [PStr name])
                                  (set_bit_names bits 0 value)) w).
Proof.
  intros bits value w [Hv _].
  exact (print_bits_from bits 0 value w Hv).
Qed.

Lemma print_bits_names_witness :
  log (snd (print_bits ["a"; "b"; "c"; "d"]%string 0x0a
              (idle_world (fun _ => 0) (fun _ => 0) no_irqs)))
  = [EvPrintf " %s" [PStr "b"]; EvPrintf " %s" [PStr "d"]].
Proof.
  rewrite (print_bits_names ["a"; "b"; "c"; "d"]%string 0x0a
             (idle_world (fun _ => 0) (fun _ => 0) no_irqs)).
  - reflexivity.
  - cbn. lia.
Defined.

(** ** Computations that only print *)

(** [prints c a tr]: from every state, [c] returns [a], appends exactly
    [tr] to the log and changes nothing else. *)
Definition prints {A : Type} (c : M A) (a : A) (tr : list event) : Prop :=
  forall w, c w = (a, with_log (log w ++ tr) w).

Lemma prints_ret {A : Type} (a : A) : prints (ret a) a [].
Proof. intros w. unfold ret. rewrite with_log_same. reflexivity. Qed.

Lemma prints_emit e : prints (emit e) tt [e].
Proof. intros w. reflexivity. Qed.

Lemma prints_printf fmt args : prints (printf fmt args) tt [EvPrintf fmt args].
Proof. intros w. reflexivity. Qed.

Lemma prints_bind {A B : Type} (c : M A) (k : A -> M B) a b t1 t2 :
  prints c a t1 -> prints (k a) b t2 -> prints (bind c k) b (t1 ++ t2).
Proof.
  intros Hc Hk w. rewrite bind_run, Hc. cbn [fst snd]. rewrite Hk.
  f_equal. destruct w; unfold with_log; cbn. rewrite app_assoc. reflexivity.
Qed.

Lemma appended_with_log w tr w' :
  log w' = log w ++ tr -> appended w w' = tr.
Proof.
  intros E. unfold appended. rewrite E, skipn_app, skipn_all, Nat.sub_diag.
  reflexivity.
Qed.

Ltac prints_step :=
  first [ apply prints_printf | apply prints_emit | apply prints_ret
        | eapply prints_bind ].

(** ** The DIP switch report *)

(** [show_dip]: the column is taken from bit 7 for every switch. *)
Definition show_dip (switches bit : Z) : M unit :=
  printf "  SW %d %s  "
         [PInt (bit + 1);
          PStr (if Z.land switches (BIT 7) =? 0 then "On" else "Off")].

(** [!!(x)]. *)
Definition truth (x : Z) : Z := if x =? 0 then 0 else 1.

(** The report [decode_switches] prints for the switch byte. *)
Definition switch_report (switches : Z) : M Z :=
  printf "A4091 Rear-access DIP switches\n" [] ;;
  show_dip switches 7 ;;
  printf "SCSI LUNs %s\n"
         [PStr (if Z.land switches (BIT 7) =? 0 then "Disabled"
                else "Enabled")] ;;
  show_dip switches 6 ;;
  (if Z.land switches (BIT 6) =? 0
   then printf "External Termination Only\n" []
   else printf "Internal Termination On\n" []) ;;
  show_dip switches 5 ;;
  printf "%s SCSI Mode\n"
         [PStr (if Z.land switches (BIT 5) =? 0 then "Asynchronous"
                else "Synchronous")] ;;
  show_dip switches 4 ;;
  printf "%s Spinup\n"
         [PStr (if Z.land switches (BIT 4) =? 0 then "Long" else "Short")] ;;
  show_dip switches 3 ;;
  printf "SCSI%s Bus Mode\n"
         [PStr (if Z.land switches (BIT 3) =? 0 then "-1 Standard"
                else "-2 Fast")] ;;
  show_dip switches 2 ;;
  printf "ADR2=%d\n" [PInt (truth (Z.land switches 4))] ;;
  show_dip switches 1 ;;
  printf "ADR1=%d\n" [PInt (truth (Z.land switches 2))] ;;
  show_dip switches 0 ;;
  printf "ADR0=%d  Controller Host ID=%x\n"
         [PInt (Z.land switches 1); PInt (Z.land switches 7)] ;;
  ret 0.

(** [decode_switches]. *)
Definition decode_switches : M Z :=
  fun w =>
    (switches <- bus_read8 (a4091_base w + A4091_OFFSET_SWITCHES) ;;
     switch_report switches) w.

(** The lines of the On/Off column. *)
Definition is_sw_column (e : event) : bool :=
  match e with
  | EvPrintf fmt _ => String.eqb fmt "  SW %d %s  "
  | _ => false
  end.

(** Switch [n] (1 to 8) of the switch byte is off when bit [n - 1] is set. *)
Definition sw_state (switches n : Z) : string :=
  if Z.testbit switches (n - 1) then "Off" else "On".

Lemma switch_report_prints sw :
  exists tr,
    prints (switch_report sw) 0 tr
    /\ bus_accesses tr = []
    /\ filter is_sw_column tr
       = map (fun n => EvPrintf "  SW %d %s  "
                         [PInt n;
                          PStr (if Z.land sw (BIT 7) =? 0 then "On"
                                else "Off")])
             [8; 7; 6; 5; 4; 3; 2; 1]
    /\ last tr (EvDelay 0)
       = EvPrintf "ADR0=%d  Controller Host ID=%x\n"
                  [PInt (Z.land sw 1); PInt (Z.land sw 7)].
Proof.
  unfold switch_report, show_dip.
  destruct (Z.land sw (BIT 6) =? 0);
    (eexists; split; [repeat prints_step | repeat split; reflexivity]).
Qed.

Lemma land_bit7 v :
  0 <= v < 256 -> (Z.land v (BIT 7) =? 0) = negb (Z.testbit v 7).
Proof.
  intros Hv.
  assert (C : forall_below 256
                (fun v => Bool.eqb (Z.land v (BIT 7) =? 0)
                                   (negb (Z.testbit v 7))) = true)
    by (vm_compute; reflexivity).
  apply Bool.eqb_prop. exact (forall_below_spec 256 _ C v Hv).
Qed.

(** [decode_switches] reads the switch byte once, at the card base plus
    0x8c0003, and returns 0.  Its On/Off column shows the state of switch 8
    on all eight lines, whatever the other switches are; the host ID of the
    last line is the low three bits of the byte. *)
Theorem decode_switches_column :
  forall w : world,
    let sw := next_bus w 0 in
    let r := decode_switches w in
    fst r = 0
    /\ bus_accesses (appended w (snd r))
       = [EvRead8 (wrap32 (a4091_base w + A4091_OFFSET_SWITCHES)) sw]
    /\ filter is_sw_column (appended w (snd r))
       = map (fun n => EvPrintf "  SW %d %s  " [PInt n; PStr (sw_state sw 8)])
             [8; 7; 6; 5; 4; 3; 2; 1]
    /\ last (appended w (snd r)) (EvDelay 0)
       = EvPrintf "ADR0=%d  Controller Host ID=%x\n"
                  [PInt (sw mod 2); PInt (sw mod 8)].
Proof.
  intros w sw r.
  destruct (switch_report_prints sw) as (tr & P & B & C & L).
  assert (Hsw : 0 <= sw < 256) by apply wrap8_range.
  assert (E : r = (0, with_log
                        (log w ++ EvRead8 (wrap32 (a4091_base w
                                                   + A4091_OFFSET_SWITCHES)) sw
                                :: tr)
                        (with_bus_pos (S (bus_pos w)) w))).
  { subst r. unfold decode_switches. rewrite bind_run.
    unfold bus_read8 at 2. cbn [fst snd].
    unfold bus_read8. cbn [fst snd].
    change (wrap8 (bus_tape w (bus_pos w))) with sw.
    rewrite P. f_equal. destruct w; unfold with_log, with_bus_pos; cbn.
    rewrite <- app_assoc. reflexivity. }
  rewrite E. cbn [fst snd].
  rewrite (appended_with_log w
             (EvRead8 (wrap32 (a4091_base w + A4091_OFFSET_SWITCHES)) sw :: tr)).
  2:{ destruct w; reflexivity. }
  split; [reflexivity|]. split.
  { unfold bus_accesses in *. cbn [filter is_bus_access]. rewrite B.
    reflexivity. }
  split.
  { cbn [filter is_sw_column]. rewrite C. unfold sw_state.
    change (8 - 1) with 7. rewrite (land_bit7 sw Hsw).
    destruct (Z.testbit sw 7); reflexivity. }
  assert (N : tr <> []).
  { intros Z0. rewrite Z0 in C. discriminate C. }
  destruct tr as [|e tr']; [contradiction|].
  change (last (?a :: e :: tr') ?d) with (last (e :: tr') d).
  rewrite L.
  change 1 with (Z.ones 1); change 7 with (Z.ones 3).
  rewrite !Z.land_ones by lia. reflexivity.
Qed.

(** ** The autoconfig report *)

(** [reports base c a tr]: on a card at [base], [c] returns [a], appends
    exactly [tr] to the log and changes nothing else. *)
Definition reports {A : Type} (base : Z) (c : M A) (a : A) (tr : list event)
  : Prop :=
  forall w, a4091_base w = base -> c w = (a, with_log (log w ++ tr) w).

Lemma prints_reports {A : Type} base (c : M A) a tr :
  prints c a tr -> reports base c a tr.
Proof. intros H w _. apply H. Qed.

Lemma reports_ret {A : Type} base (a : A) : reports base (ret a) a [].
Proof. apply prints_reports, prints_ret. Qed.

Lemma reports_printf base fmt args :
  reports base (printf fmt args) tt [EvPrintf fmt args].
Proof. apply prints_reports, prints_printf. Qed.

Lemma reports_bind {A B : Type} base (c : M A) (k : A -> M B) a b t1 t2 :
  reports base c a t1 -> reports base (k a) b t2 ->
  reports base (bind c k) b (t1 ++ t2).
Proof.
  intros Hc Hk w Hw. rewrite bind_run, (Hc w Hw). cbn [fst snd].
  rewrite Hk by (destruct w; exact Hw).
  f_equal. destruct w; unfold with_log; cbn. rewrite app_assoc. reflexivity.
Qed.

Lemma reports_if {A : Type} base (b : bool) (c1 c2 : M A) a1 a2 t1 t2 :
  reports base c1 a1 t1 -> reports base c2 a2 t2 ->
  reports base (if b then c1 else c2)
          (if b then a1 else a2) (if b then t1 else t2).
Proof. intros H1 H2. destruct b; assumption. Qed.

Lemma reports_when base (b : bool) c t :
  reports base c tt t -> reports base (when b c) tt (if b then t else []).
Proof.
  intros H. destruct b; [exact H | apply reports_ret].
Qed.

Ltac reports_step :=
  lazymatch goal with
  | |- reports _ (bind _ _) _ _ =>
      eapply reports_bind; [reports_step | cbv beta zeta; reports_step]
  | |- reports _ (printf _ _) _ _ => apply reports_printf
  | |- reports _ (ret _) _ _ => apply reports_ret
  | |- reports _ (when _ _) _ _ => apply reports_when; reports_step
  | |- reports _ (if _ then _ else _) _ _ => apply reports_if; reports_step
  | |- _ => eauto with reports
  end.

Create HintDb reports.

(** [z2_config_sizes], [z3_config_sizes] and [config_subsizes]. *)
Definition z2_config_sizes : list string :=
  ["8 MB"; "64 KB"; "128 KB"; "256 KB"; "512KB"; "1MB"; "2MB"; "4MB"]%string.

Definition z3_config_sizes : list string :=
  ["16 MB"; "32 MB"; "64 MB"; "128 MB"; "256 MB"; "512 MB"; "1 GB";
   "RSVD"]%string.

Definition config_subsizes : list string :=
  ["Same-as-Physical"; "Automatically-sized"; "64 KB"; "128 KB";
   "256 KB"; "512 KB"; "1MB"; "2MB";
   "4MB"; "6MB"; "8MB"; "10MB"; "12MB"; "14MB"; "Rsvd1"; "Rsvd2"]%string.

(** [names[i]]. *)
Definition name_at (names : list string) (i : Z) : string :=
  nth (Z.to_nat i) names EmptyString.

(** The values [first], [first + 4], ... up to [last] that a loop
    [for (byte = first; byte <= last; byte += 4)] goes through. *)
Definition count_up (first last : Z) : list Z :=
  map (fun k => first + 4 * Z.of_nat k)
      (seq 0 (Z.to_nat ((last - first) / 4 + 1))).

Section Decode.

(** The autoconfig area of the card as the bus shows it. *)
Variable m : Autoconfig.bus.

(** [get_creg] on the card the program has selected. *)
Definition get_creg (reg : Z) : M Z :=
  fun w => (Autoconfig.get_creg m (a4091_base w) reg, w).

(** [show_creg_value]. *)
Definition show_creg_value (reg value : Z) : M unit :=
  printf "   %02x   %02x" [PInt reg; PInt value].

(** [show_creg]. *)
Definition show_creg (reg : Z) : M Z :=
  value <- get_creg reg ;;
  show_creg_value reg value ;;
  ret value.

(** [autoconfig_reserved]. *)
Definition autoconfig_reserved (reg : Z) : M Z :=
  value <- get_creg reg ;;
  if negb (value =? 0) then
    show_creg_value reg value ;;
    printf " Reserved: should be 0x00\n" [] ;;
    ret 1
  else ret 0.

(** [for (byte = ...) rc += autoconfig_reserved(byte);] over the offsets
    [regs]. *)
Fixpoint reserved_sweep (regs : list Z) (rc : Z) : M Z :=
  match regs with
  | [] => ret rc
  | byte :: rest =>
      r <- autoconfig_reserved byte ;;
      reserved_sweep rest (rc + r)
  end.

(** The serial number loop of [decode_autoconfig], from [byte] on. *)
Fixpoint serial_loop (n : nat) (byte value32 : Z) : M unit :=
  match n with
  | O => ret tt
  | S n' =>
      if byte <? 4 then
        let value32 := wrap32 (Z.shiftl value32 8) in
        v <- show_creg (0x18 + byte * 4) ;;
        let value32 := Z.lor value32 v in
        printf " Serial number byte %d" [PInt byte] ;;
        when (byte =? 3) (printf "   Serial=0x%08x" [PInt value32]) ;;
        printf "\n" [] ;;
        serial_loop n' (byte + 1) value32
      else ret tt
  end.

(** [decode_autoconfig]. *)
Definition decode_autoconfig : M Z :=
  let rc := 0 in
  printf "A4091 Autoconfig area\n  Reg Data Decode\n" [] ;;
  v0 <- show_creg 0x00 ;;
  let value := not8 v0 in
  let type := Z.shiftr value 6 in
  let is_z3 := type =? 2 in
  (if (type =? 0) || (type =? 1) then printf " Zorro_Reserved" []
   else if type =? 2 then printf " ZorroIII" []
   else if type =? 3 then printf " ZorroII" []
   else ret tt) ;;
  when (negb (Z.land value (BIT 5) =? 0)) (printf " Memory" []) ;;
  z3_sizes <- (if is_z3
               then v <- get_creg 0x08 ;; ret (negb (Z.land v (BIT 5) =? 0))
               else ret false) ;;
  let sizes := if z3_sizes then z3_config_sizes else z2_config_sizes in
  printf " Size=%s" [PStr (name_at sizes (Z.land value 0x7))] ;;
  let is_autoboot := negb (Z.land value (BIT 4) =? 0) in
  when is_autoboot (printf " Autoboot" []) ;;
  when (negb (Z.land value (BIT 3) =? 0)) (printf " Link-to-next" []) ;;
  printf "\n" [] ;;
  product <- show_creg 0x04 ;;
  printf " Product=0x%02x\n" [PInt (Z.land product 0xff)] ;;
  r <- autoconfig_reserved 0x0c ;;
  let rc := rc + r in
  value <- show_creg 0x08 ;;
  rc <- (if is_z3 then
           if negb (Z.land value (BIT 7) =? 0) then
             printf " Device-Memory" [] ;; ret (rc + 1)
           else
             printf " Device-IO" [] ;; ret rc
         else
           let rc := rc + 1 in
           (if negb (Z.land value (BIT 7) =? 0)
            then printf " Fit-ZorroII" []
            else printf " Fit-anywhere" []) ;;
           ret rc) ;;
  when (negb (Z.land value (BIT 5) =? 0)) (printf " NoShutup" []) ;;
  when (is_z3 && (Z.land value (BIT 4) =? 0)) (printf " Invalid_RSVD" []) ;;
  when (negb (Z.land value (BIT 5) =? 0)) (printf " SizeExt" []) ;;
  printf " %s\n" [PStr (name_at config_subsizes (Z.land value 0x0f))] ;;
  r <- autoconfig_reserved 0x0c ;;
  let rc := if negb (r =? 0) then 1 else rc in
  hi <- show_creg 0x10 ;;
  let value32 := wrap32 (Z.shiftl hi 8) in
  printf " Mfg Number high byte\n" [] ;;
  lo <- show_creg 0x14 ;;
  let value32 := Z.lor value32 lo in
  printf " Mfg Number low byte    Manufacturer=0x%04x\n" [PInt value32] ;;
  serial_loop 4 0 0 ;;
  when is_autoboot
       (hi <- show_creg 0x28 ;;
        let value32 := wrap32 (Z.shiftl hi 8) in
        printf " Option ROM vector high\n" [] ;;
        lo <- show_creg 0x2c ;;
        let value32 := Z.lor value32 lo in
        printf " Option ROM vector low  Offset=0x%04x\n" [PInt value32]) ;;
  rc <- reserved_sweep (count_up 0x30 0x3c) rc ;;
  rc <- reserved_sweep (count_up 0x52 0x7c) rc ;;
  ret rc.

(** *** What the report returns *)

Variable base : Z.

(** The register [reg] of the card at [base]. *)
Definition creg (reg : Z) : Z := Autoconfig.get_creg m base reg.

Lemma reports_get_creg reg : reports base (get_creg reg) (creg reg) [].
Proof.
  intros w Hw. unfold get_creg. rewrite Hw, with_log_same. reflexivity.
Qed.

Hint Resolve reports_get_creg : reports.

Lemma reports_show_creg reg :
  reports base (show_creg reg) (creg reg)
          [EvPrintf "   %02x   %02x" [PInt reg; PInt (creg reg)]].
Proof.
  unfold show_creg, show_creg_value.
  change [EvPrintf "   %02x   %02x" [PInt reg; PInt (creg reg)]]
    with ([] ++ [EvPrintf "   %02x   %02x" [PInt reg; PInt (creg reg)]] ++ []).
  reports_step.
Qed.

Hint Resolve reports_show_creg : reports.

(** One when the reserved register reads other than zero. *)
Definition reserved_set (reg : Z) : Z := if creg reg =? 0 then 0 else 1.

Lemma reports_autoconfig_reserved reg :
  exists tr, reports base (autoconfig_reserved reg) (reserved_set reg) tr.
Proof.
  unfold autoconfig_reserved, reserved_set, show_creg_value.
  destruct (creg reg =? 0) eqn:C; eexists;
    (eapply reports_bind;
     [apply reports_get_creg | cbv beta; fold (creg reg); rewrite C]);
    cbv beta iota delta [negb]; reports_step.
Qed.

Fixpoint reserved_count (regs : list Z) : Z :=
  match regs with
  | [] => 0
  | r :: rest => reserved_set r + reserved_count rest
  end.

Lemma reports_reserved_sweep regs : forall rc,
  exists tr, reports base (reserved_sweep regs rc) (rc + reserved_count regs) tr.
Proof.
  induction regs as [|r rest IH]; intros rc; cbn [reserved_sweep reserved_count].
  - exists []. rewrite Z.add_0_r. apply reports_ret.
  - destruct (reports_autoconfig_reserved r) as (t1 & H1).
    destruct (IH (rc + reserved_set r)) as (t2 & H2).
    exists (t1 ++ t2). rewrite Z.add_assoc.
    eapply reports_bind; [exact H1 | exact H2].
Qed.

Lemma reports_serial_loop n : forall byte value32,
  exists tr, reports base (serial_loop n byte value32) tt tr.
Proof.
  induction n as [|n IH]; intros byte value32; cbn [serial_loop].
  - eexists. apply reports_ret.
  - destruct (byte <? 4); [| eexists; apply reports_ret].
    cbv zeta.
    destruct (IH (byte + 1)
                (Z.lor (wrap32 (Z.shiftl value32 8)) (creg (24 + byte * 4))))
      as (t & H).
    eexists.
    eapply reports_bind; [apply reports_show_creg | cbv beta].
    eapply reports_bind; [apply reports_printf |].
    eapply reports_bind; [apply reports_when, reports_printf |].
    eapply reports_bind; [apply reports_printf |].
    exact H.
Qed.

(** The card type field says Zorro III. *)
Definition type_z3 : bool := Z.shiftr (not8 (creg 0x00)) 6 =? 2.

(** What [decode_autoconfig] counts before it sweeps the reserved
    registers. *)
Definition flags_rc : Z :=
  if negb (reserved_set 0x0c =? 0) then 1
  else if type_z3
       then (if negb (Z.land (creg 0x08) (BIT 7) =? 0) then 1 else 0)
       else 1.

Lemma decode_autoconfig_returns :
  exists tr,
    reports base decode_autoconfig
            (flags_rc + reserved_count (count_up 0x30 0x3c)
             + reserved_count (count_up 0x52 0x7c)) tr.
Proof.
  destruct (reports_autoconfig_reserved 0x0c) as (tA & HA).
  destruct (reports_serial_loop 4 0 0) as (tS & HS).
  destruct (reports_reserved_sweep (count_up 0x30 0x3c) flags_rc) as (t1 & H1).
  destruct (reports_reserved_sweep (count_up 0x52 0x7c)
              (flags_rc + reserved_count (count_up 0x30 0x3c))) as (t2 & H2).
  assert (HX : exists a tr,
             reports base decode_autoconfig a tr
             /\ a = flags_rc + reserved_count (count_up 0x30 0x3c)
                    + reserved_count (count_up 0x52 0x7c)).
  2:{ destruct HX as (a & tr & R & E). exists tr. rewrite <- E. exact R. }
  unfold decode_autoconfig. cbv zeta.
  eexists. eexists. split.
  - eapply reports_bind; [apply reports_printf |].
    eapply reports_bind; [apply reports_show_creg | cbv beta].
    fold type_z3.
    eapply reports_bind; [reports_step |].
    eapply reports_bind; [reports_step |].
    eapply reports_bind; [reports_step | cbv beta].
    eapply reports_bind; [reports_step |].
    eapply reports_bind; [reports_step |].
    eapply reports_bind; [reports_step |].
    eapply reports_bind; [reports_step |].
    eapply reports_bind; [apply reports_show_creg | cbv beta].
    eapply reports_bind; [reports_step |].
    eapply reports_bind; [exact HA | cbv beta].
    eapply reports_bind; [apply reports_show_creg | cbv beta].
    eapply reports_bind; [reports_step | cbv beta].
    eapply reports_bind; [reports_step |].
    eapply reports_bind; [reports_step |].
    eapply reports_bind; [reports_step |].
    eapply reports_bind; [reports_step |].
    eapply reports_bind; [exact HA | cbv beta].
    eapply reports_bind; [apply reports_show_creg | cbv beta].
    eapply reports_bind; [reports_step |].
    eapply reports_bind; [apply reports_show_creg | cbv beta].
    eapply reports_bind; [reports_step |].
    eapply reports_bind; [exact HS |].
    eapply reports_bind; [reports_step |].
    match goal with
    | |- reports _ (bind (reserved_sweep _ ?rc) _) _ _ =>
        assert (Erc : rc = flags_rc)
    end.
    { unfold flags_rc. destruct (reserved_set 12 =? 0) eqn:C; cbn [negb].
      - apply Z.eqb_eq in C. rewrite C.
        destruct type_z3; [|reflexivity].
        destruct (Z.land (creg 8) (BIT 7) =? 0); reflexivity.
      - reflexivity. }
    rewrite Erc.
    eapply reports_bind; [exact H1 | cbv beta].
    eapply reports_bind; [exact H2 | cbv beta].
    apply reports_ret.
  - reflexivity.
Qed.

End Decode.

Lemma reserved_count_bounds m base regs :
  0 <= reserved_count m base regs <= Z.of_nat (List.length regs).
Proof.
  induction regs as [|r rest IH]; cbn [reserved_count List.length]; [lia|].
  unfold reserved_set. destruct (creg m base r =? 0); lia.
Qed.

Lemma reserved_count_zero m base regs :
  reserved_count m base regs = 0
  <-> forall r, In r regs -> Autoconfig.get_creg m base r = 0.
Proof.
  induction regs as [|r rest IH]; cbn [reserved_count In].
  - split; [intros _ r [] | reflexivity].
  - pose proof (reserved_count_bounds m base rest) as B.
    unfold reserved_set. fold (creg m base r).
    destruct (creg m base r =? 0) eqn:C.
    + apply Z.eqb_eq in C. rewrite Z.add_0_l, IH. split.
      * intros H x [<-|Hx]; [exact C | apply H, Hx].
      * intros H x Hx. apply H. right. exact Hx.
    + apply Z.eqb_neq in C. split; [lia|].
      intros H. exfalso. apply C. apply H. left. reflexivity.
Qed.

(** The offsets [decode_autoconfig] sweeps as reserved after the
    decoded registers. *)
Definition swept_reserved : list Z :=
  [0x30; 0x34; 0x38; 0x3c;
   0x52; 0x56; 0x5a; 0x5e; 0x62; 0x66; 0x6a; 0x6e; 0x72; 0x76; 0x7a].

Lemma swept_reserved_loops :
  count_up 0x30 0x3c ++ count_up 0x52 0x7c = swept_reserved.
Proof. reflexivity. Qed.

Lemma reserved_count_app m base l1 l2 :
  reserved_count m base (l1 ++ l2)
  = reserved_count m base l1 + reserved_count m base l2.
Proof.
  induction l1 as [|r rest IH]; cbn [reserved_count app]; [reflexivity|].
  rewrite IH. lia.
Qed.

(** [decode_autoconfig] returns 0 exactly for a card whose type field
    says Zorro III, whose register 0x08 has bit 7 clear, whose register
    0x0c reads zero and whose registers 0x30 to 0x3c and 0x52, 0x56, ...,
    0x7a read zero; it never returns more than 16, and with register 0x0c
    other than zero it returns one plus the number of the swept registers
    that are not zero, whatever the type of the card. *)
Theorem decode_autoconfig_rc :
  forall (m : Autoconfig.bus) (w : world),
    let reg := Autoconfig.get_creg m (a4091_base w) in
    let rc := fst (decode_autoconfig m w) in
    (rc = 0 <->
       Z.shiftr (not8 (reg 0x00)) 6 = 2
       /\ Z.land (reg 0x08) 0x80 = 0
       /\ reg 0x0c = 0
       /\ forall r, In r swept_reserved -> reg r = 0)
    /\ 0 <= rc <= 16
    /\ (reg 0x0c <> 0 ->
        rc = 1 + reserved_count m (a4091_base w) swept_reserved).
Proof.
  intros m w reg rc.
  destruct (decode_autoconfig_returns m (a4091_base w)) as (tr & R).
  assert (E : rc = flags_rc m (a4091_base w)
                   + reserved_count m (a4091_base w) swept_reserved).
  { subst rc. rewrite (R w eq_refl). cbn [fst].
    rewrite <- swept_reserved_loops, reserved_count_app. lia. }
  pose proof (reserved_count_bounds m (a4091_base w) swept_reserved) as B.
  change (Z.of_nat (List.length swept_reserved)) with 15 in B.
  pose proof (reserved_count_zero m (a4091_base w) swept_reserved) as Z0.
  fold reg in Z0.
  set (cnt := reserved_count m (a4091_base w) swept_reserved) in *.
  assert (F : flags_rc m (a4091_base w)
              = if negb (reg 0x0c =? 0) then 1
                else if Z.shiftr (not8 (reg 0x00)) 6 =? 2
                     then (if negb (Z.land (reg 0x08) 0x80 =? 0) then 1 else 0)
                     else 1).
  { unfold flags_rc, reserved_set, type_z3, creg. fold reg.
    destruct (reg 12 =? 0); reflexivity. }
  rewrite E, F. clear E F R.
  destruct (reg 12 =? 0) eqn:C12; cbn [negb];
    [apply Z.eqb_eq in C12 | apply Z.eqb_neq in C12].
  - destruct (Z.shiftr (not8 (reg 0)) 6 =? 2) eqn:CT;
      [apply Z.eqb_eq in CT | apply Z.eqb_neq in CT].
    + destruct (Z.land (reg 8) 128 =? 0) eqn:C8; cbn [negb];
        [apply Z.eqb_eq in C8 | apply Z.eqb_neq in C8].
      * split; [|split; [lia | intros H; contradiction]].
        split.
        -- intros H. repeat split; try assumption. apply Z0. lia.
        -- intros (_ & _ & _ & H). apply Z0 in H. lia.
      * split; [|split; [lia | intros H; contradiction]].
        split; [lia | intros (_ & H & _); contradiction].
    + split; [|split; [lia | intros H; contradiction]].
      split; [lia | intros (H & _); contradiction].
  - split; [|split; [lia | intros _; reflexivity]].
    split; [lia | intros (_ & _ & H & _); contradiction].
Qed.

(** ** The register dump *)

(** [bitdesc_t] tables. *)
Definition bits_scntl0 : list string :=
  ["TRG"; "AAP"; "EPG"; "EPC"; "WATN/"; "START"; "ARB0"; "ARB1"]%string.
Definition bits_scntl1 : list string :=
  ["RES0"; "RES1"; "AESP"; "RST"; "CON"; "FSR"; "ADB"; "EXC"]%string.
Definition bits_sien : list string :=
  ["PAR"; "RST/"; "UDC"; "SGE"; "SEL"; "STO"; "FCMP"; "M/A"]%string.
Definition bits_sbcl : list string :=
  ["I/O"; "C/D"; "MSG"; "ATN"; "SEL"; "BSY"; "ACK"; "REQ"]%string.
Definition bits_dstat : list string :=
  ["IID"; "WTD"; "SIR"; "SSI"; "ABRT"; "RF"; "RES6"; "DFE"]%string.
Definition bits_sstat0 : list string :=
  ["PAR"; "RST/"; "UDC"; "SGE"; "SEL"; "STO"; "FCMP"; "M/A"]%string.
Definition bits_sstat1 : list string :=
  ["SDP/"; "RST/"; "WOA"; "LOA"; "AIP"; "OLF"; "ORF"; "ILF"]%string.
Definition bits_sstat2 : list string :=
  ["I/O"; "C/D"; "MSG"; "SDP"; "FF0"; "FF1"; "FF2"; "FF3"]%string.
Definition bits_ctest0 : list string :=
  ["DDIR"; "RES1"; "ERF"; "HSC"; "EAN"; "GRP"; "BTD"; "RES7"]%string.
Definition bits_ctest2 : list string :=
  ["DACK"; "DREQ"; "TEOP"; "DFP"; "SFP"; "SOFF"; "SIGP"; "RES7"]%string.
Definition bits_ctest4 : list string :=
  ["FBL0"; "FBL1"; "FBL2"; "SFWR"; "SLBE"; "SZM"; "ZMOD"; "MUX"]%string.
Definition bits_ctest5 : list string :=
  ["DACK"; "DREQ"; "EOP"; "DDIR"; "MASR"; "ROFF"; "BBCK"; "ADCK"]%string.
Definition bits_ctest7 : list string :=
  ["DIFF"; "TT1"; "EVP"; "DFP"; "NOTIME"; "SC0"; "SC1"; "CDIS"]%string.
Definition bits_istat : list string :=
  ["DIP"; "SIP"; "RSV2"; "CON"; "RSV4"; "SIOP"; "RST"; "ABRT"]%string.
Definition bits_ctest8 : list string :=
  ["SM"; "FM"; "CLF"; "FLF"; "V0"; "V1"; "V2"; "V3"]%string.
Definition bits_dmode : list string :=
  ["MAN"; "U0"; "FAM"; "PD"; "FC1"; "FC2"; "BL0"; "BL1"]%string.
Definition bits_dien : list string :=
  ["HD"; "WTD"; "SIR"; "SSI"; "ABRT"; "BF"; "RES6"; "RES7"]%string.
Definition bits_dcntl : list string :=
  ["COM"; "FA"; "STD"; "LLM"; "SSM"; "EA"; "CF0"; "CF1"]%string.

(** [ncr_regdefs_t]; a [reg_bits] left out of an initializer is [NULL]. *)
Record ncr_regdefs_t : Type := mkRegdef {
  reg_loc  : Z;
  reg_size : Z;
  show     : Z;
  pad      : Z;
  reg_name : string;
  reg_desc : string;
  reg_bits : option (list string)
}.

(** [ncr_regdefs]. *)
Definition ncr_regdefs : list ncr_regdefs_t :=
  [ mkRegdef 0x03 1 1 0 "SCNTL0" "SCSI control 0" (Some bits_scntl0);
    mkRegdef 0x02 1 1 0 "SCNTL1" "SCSI control 1" (Some bits_scntl1);
    mkRegdef 0x01 1 1 0 "SDID" "SCSI destination ID" None;
    mkRegdef 0x00 1 1 0 "SIEN" "SCSI IRQ enable" (Some bits_sien);
    mkRegdef 0x07 1 1 0 "SCID" "SCSI chip ID" None;
    mkRegdef 0x06 1 1 0 "SXFER" "SCSI transfer" None;
    mkRegdef 0x05 1 1 0 "SODL" "SCSI output data latch" None;
    mkRegdef 0x04 1 1 0 "SOCL" "SCSI output control latch" (Some bits_sbcl);
    mkRegdef 0x0b 1 1 0 "SFBR" "SCSI first byte received" None;
    mkRegdef 0x0a 1 1 0 "SIDL" "SCSI input data latch" None;
    mkRegdef 0x09 1 1 0 "SBDL" "SCSI bus data lines" None;
    mkRegdef 0x08 1 1 0 "SBCL" "SCSI bus contol lines" (Some bits_sbcl);
    mkRegdef 0x0f 1 1 0 "DSTAT" "DMA status" (Some bits_dstat);
    mkRegdef 0x0e 1 1 0 "SSTAT0" "SCSI status 0" (Some bits_sstat0);
    mkRegdef 0x0d 1 1 0 "SSTAT1" "SCSI status 1" (Some bits_sstat1);
    mkRegdef 0x0c 1 1 0 "SSTAT2" "SCSI status 2" (Some bits_sstat2);
    mkRegdef 0x10 4 1 0 "DSA" "Data structure address" None;
    mkRegdef 0x17 1 1 0 "CTEST0" "Chip test 0" (Some bits_ctest0);
    mkRegdef 0x16 1 1 0 "CTEST1" "Chip test 1 7-4=FIFO_Empty 3-0=FIFO_Full"
             None;
    mkRegdef 0x15 1 1 0 "CTEST2" "Chip test 2" (Some bits_ctest2);
    mkRegdef 0x14 1 0 0 "CTEST3" "Chip test 3 SCSI FIFO" None;
    mkRegdef 0x1b 1 1 0 "CTEST4" "Chip test 4" (Some bits_ctest4);
    mkRegdef 0x1a 1 1 0 "CTEST5" "Chip test 5" (Some bits_ctest5);
    mkRegdef 0x19 1 0 0 "CTEST6" "Chip test 6 DMA FIFO" None;
    mkRegdef 0x18 1 1 0 "CTEST7" "Chip test 7" (Some bits_ctest7);
    mkRegdef 0x1c 4 1 0 "TEMP" "Temporary Stack" None;
    mkRegdef 0x23 1 1 0 "DFIFO" "DMA FIFO" None;
    mkRegdef 0x22 1 1 0 "ISTAT" "Interrupt Status" (Some bits_istat);
    mkRegdef 0x21 1 1 0 "CTEST8" "Chip test 8" (Some bits_ctest8);
    mkRegdef 0x20 1 1 0 "LCRC" "Longitudinal parity" None;
    mkRegdef 0x25 3 1 0 "DBC" "DMA byte counter" None;
    mkRegdef 0x24 1 1 0 "DCMD" "DMA command" None;
    mkRegdef 0x28 4 1 0 "DNAD" "DMA next address for data" None;
    mkRegdef 0x2c 4 1 0 "DSP" "DMA SCRIPTS pointer" None;
    mkRegdef 0x30 4 1 0 "DSPS" "DMA SCRIPTS pointer save" None;
    mkRegdef 0x34 4 1 0 "SCRATCH" "General purpose scratch pad" None;
    mkRegdef 0x3b 1 1 0 "DMODE" "DMA mode" (Some bits_dmode);
    mkRegdef 0x3a 1 1 0 "DIEN" "DMA interrupt enable" (Some bits_dien);
    mkRegdef 0x39 1 1 0 "DWT" "DMA watchdog timer" None;
    mkRegdef 0x38 1 1 0 "DCNTL" "DMA control" (Some bits_dcntl);
    mkRegdef 0x3c 4 1 0 "ADDER" "Sum output of internal adder" None ].

Definition REG_CTEST3 : Z := 0x14.

(** The value [decode_registers] takes for one entry of the table. *)
Definition read_regdef (d : ncr_regdefs_t) : M Z :=
  if reg_size d =? 1 then get_ncrreg8 (reg_loc d)
  else
    value <- get_ncrreg32 (Z.land (reg_loc d) (Z.lnot 3)) ;;
    ret (Z.land value (Z.shiftr 0xffffffff (Z.land (reg_loc d) 3 * 8))).

(** One round of the loop of [decode_registers]. *)
Definition decode_register (d : ncr_regdefs_t) : M unit :=
  if show d =? 0 then ret tt
  else
    printf "   %02x " [PInt (reg_loc d)] ;;
    value <- read_regdef d ;;
    let fmt := if reg_size d =? 1 then "      %0*x"%string
               else if reg_size d =? 2 then "    %0*x"%string
               else if reg_size d =? 3 then "  %0*x"%string
               else "%0*x"%string in
    printf fmt [PInt (reg_size d * 2); PInt value] ;;
    printf "  %-8s %s" [PStr (reg_name d); PStr (reg_desc d)] ;;
    match reg_bits d with
    | Some bits => print_bits bits value
    | None => ret tt
    end ;;
    printf "\n" [].

Fixpoint decode_register_loop (defs : list ncr_regdefs_t) : M unit :=
  match defs with
  | [] => ret tt
  | d :: rest => decode_register d ;; decode_register_loop rest
  end.

(** [decode_registers]. *)
Definition decode_registers : M Z :=
  printf "  Reg    Value  Name     Description\n" [] ;;
  decode_register_loop ncr_regdefs ;;
  ret 0.

(** The read of the entry [d], as the [k]-th read of a run started in
    [w]. *)
Definition regdef_read (w : world) (k : nat) (d : ncr_regdefs_t) : event :=
  if reg_size d =? 1
  then EvRead8 (rd_addr w (reg_loc d)) (next_bus w k)
  else EvRead32 (rd_addr w (Z.land (reg_loc d) (Z.lnot 3))) (next_bus32 w k).

Fixpoint regdef_reads (w : world) (k : nat) (defs : list ncr_regdefs_t)
  : list event :=
  match defs with
  | [] => []
  | d :: rest =>
      if show d =? 0 then regdef_reads w k rest
      else regdef_read w k d :: regdef_reads w (S k) rest
  end.

(** The number of entries shown. *)
Definition shown (defs : list ncr_regdefs_t) : nat :=
  List.length (filter (fun d => negb (show d =? 0)) defs).

Lemma progress_decode_register d w wk nb nt ni sv acc :
  progress w wk nb nt ni sv acc ->
  progress w (snd (decode_register d wk))
           (shown [d] + nb) nt ni sv (acc ++ regdef_reads w nb [d]).
Proof.
  intros P. unfold decode_register, shown, regdef_reads.
  cbn [filter]. destruct (show d =? 0); cbn [negb List.length Nat.add].
  - rewrite app_nil_r. exact P.
  - rewrite snd_seq.
    pose proof (progress_only_logs
                  (printf "   %02x " [PInt (reg_loc d)]) _ _ _ _ _ _ _
                  (only_logs_printf _ _) P) as P1.
    set (w1 := snd (printf "   %02x " [PInt (reg_loc d)] wk)) in *.
    rewrite snd_bind.
    assert (R : progress w (snd (read_regdef d w1)) (S nb) nt ni sv
                         (acc ++ [regdef_read w nb d])).
    { unfold read_regdef, regdef_read. destruct (reg_size d =? 1).
      - apply (progress_read8 _ _ _ _ _ _ _ (reg_loc d) P1).
      - rewrite snd_bind.
        apply (progress_only_logs _ _ _ _ _ _ _ _ (only_logs_ret _)).
        apply (progress_read32 _ _ _ _ _ _ _ _ P1). }
    apply progress_only_logs; [| exact R].
    apply only_logs_bind; [apply only_logs_printf | intros _].
    apply only_logs_bind; [apply only_logs_printf | intros _].
    apply only_logs_bind; [| intros _; apply only_logs_printf].
    destruct (reg_bits d); [apply only_logs_print_bits | apply only_logs_ret].
Qed.

Lemma shown_cons d defs : shown (d :: defs) = (shown [d] + shown defs)%nat.
Proof.
  unfold shown. cbn [filter]. destruct (negb (show d =? 0)); reflexivity.
Qed.

Lemma regdef_reads_cons w k d defs :
  regdef_reads w k (d :: defs)
  = regdef_reads w k [d] ++ regdef_reads w (shown [d] + k) defs.
Proof.
  unfold shown. cbn [regdef_reads filter].
  destruct (show d =? 0); reflexivity.
Qed.

Lemma progress_decode_register_loop defs : forall w wk nb nt ni sv acc,
  progress w wk nb nt ni sv acc ->
  progress w (snd (decode_register_loop defs wk))
           (shown defs + nb) nt ni sv (acc ++ regdef_reads w nb defs).
Proof.
  induction defs as [|d rest IH]; intros w wk nb nt ni sv acc P.
  - cbn. rewrite app_nil_r. exact P.
  - cbn [decode_register_loop]. rewrite snd_seq.
    rewrite shown_cons, regdef_reads_cons, app_assoc.
    replace (shown [d] + shown rest + nb)%nat
      with (shown rest + (shown [d] + nb))%nat by lia.
    apply IH. apply progress_decode_register. exact P.
Qed.

(** The event [e] is an access that covers the byte at bus address [a]. *)
Definition covers (e : event) (a : Z) : bool :=
  match e with
  | EvRead8 b _ | EvWrite8 b _ => b =? a
  | EvRead32 b _ | EvWrite32 b _ => (b <=? a) && (a <? b + 4)
  | _ => false
  end.

Definition is_bus_read (e : event) : bool :=
  match e with
  | EvRead8 _ _ | EvRead32 _ _ => true
  | _ => false
  end.

(** The entry [d] keeps clear of the register at [reg]. *)
Definition clear_of (reg : Z) (d : ncr_regdefs_t) : bool :=
  (0 <=? reg_loc d) && (reg_loc d <? 64)
  && if reg_size d =? 1 then negb (reg_loc d =? reg)
     else negb ((Z.land (reg_loc d) (Z.lnot 3) <=? reg)
                && (reg <? Z.land (reg_loc d) (Z.lnot 3) + 4)).

Lemma regdef_read_clear w k d reg :
  0 <= reg < 64 -> clear_of reg d = true ->
  covers (regdef_read w k d) (rd_addr w reg) = false
  /\ is_bus_read (regdef_read w k d) = true.
Proof.
  intros Hreg C. unfold clear_of in C.
  apply andb_true_iff in C. destruct C as [B C].
  apply andb_true_iff in B. destruct B as [B1 B2].
  apply Z.leb_le in B1. apply Z.ltb_lt in B2.
  unfold regdef_read, rd_addr, wrap32.
  set (base := a4091_base w + A4091_OFFSET_REGISTERS).
  destruct (reg_size d =? 1); cbn [covers is_bus_read]; (split; [|reflexivity]).
  - apply negb_true_iff, Z.eqb_neq in C. apply Z.eqb_neq. intros E.
    pose proof (Z.div_mod (base + reg_loc d) 4294967296 ltac:(lia)) as D1.
    pose proof (Z.div_mod (base + reg) 4294967296 ltac:(lia)) as D2.
    lia.
  - set (al := Z.land (reg_loc d) (Z.lnot 3)) in *.
    assert (Hal : 0 <= al <= reg_loc d).
    { unfold al. change (Z.lnot 3) with (-4).
      assert (K : forall_below 64
                (fun l => (0 <=? Z.land l (-4)) && (Z.land l (-4) <=? l)) = true)
        by (vm_compute; reflexivity).
      pose proof (forall_below_spec 64 _ K (reg_loc d) ltac:(lia)) as K1.
      cbv beta in K1. apply andb_true_iff in K1. destruct K1 as [K1 K2].
      apply Z.leb_le in K1. apply Z.leb_le in K2. lia. }
    apply negb_true_iff in C.
    pose proof (Z.div_mod (base + al) 4294967296 ltac:(lia)) as D1.
    pose proof (Z.div_mod (base + reg) 4294967296 ltac:(lia)) as D2.
    pose proof (Z.mod_pos_bound (base + al) 4294967296 ltac:(lia)) as M1.
    pose proof (Z.mod_pos_bound (base + reg) 4294967296 ltac:(lia)) as M2.
    apply andb_false_iff. apply andb_false_iff in C.
    destruct C as [C|C]; [apply Z.leb_gt in C | apply Z.ltb_ge in C].
    + destruct (Z.leb_spec ((base + al) mod 4294967296)
                           ((base + reg) mod 4294967296)); [|left; reflexivity].
      right. apply Z.ltb_ge. lia.
    + destruct (Z.leb_spec ((base + al) mod 4294967296)
                           ((base + reg) mod 4294967296)); [|left; reflexivity].
      right. apply Z.ltb_ge. lia.
Qed.

Lemma regdef_reads_clear w reg defs : forall k,
  0 <= reg < 64 ->
  forallb (fun d => (show d =? 0) || clear_of reg d) defs = true ->
  forall e, In e (regdef_reads w k defs) ->
    covers e (rd_addr w reg) = false /\ is_bus_read e = true.
Proof.
  induction defs as [|d rest IH]; intros k Hreg H e He; [destruct He|].
  cbn [forallb] in H. apply andb_true_iff in H. destruct H as [Hd Hr].
  cbn [regdef_reads] in He. destruct (show d =? 0).
  - exact (IH k Hreg Hr e He).
  - cbn [orb] in Hd. destruct He as [<-|He].
    + apply regdef_read_clear; assumption.
    + exact (IH (S k) Hreg Hr e He).
Qed.

Lemma regdef_reads_length w defs : forall k,
  List.length (regdef_reads w k defs) = shown defs.
Proof.
  induction defs as [|d rest IH]; intros k; [reflexivity|].
  rewrite shown_cons. unfold shown at 1. cbn [regdef_reads filter].
  destruct (show d =? 0); cbn [negb List.length Nat.add]; rewrite IH;
    reflexivity.
Qed.

(** [decode_registers] returns 0 after 39 register reads, one for each
    entry of the table marked safe to show and in the order of the table,
    and no write.  None of the reads covers CTEST3 or CTEST6, the two
    windows on the SCSI and the DMA FIFO, neither as a byte nor as part of
    a long word. *)
Theorem decode_registers_reads :
  forall w : world,
    let r := decode_registers w in
    let acc := bus_accesses (appended w (snd r)) in
    fst r = 0
    /\ acc = regdef_reads w 0 ncr_regdefs
    /\ List.length acc = 39%nat
    /\ forall e, In e acc ->
         is_bus_read e = true
         /\ covers e (rd_addr w REG_CTEST3) = false
         /\ covers e (rd_addr w REG_CTEST6) = false.
Proof.
  intros w r acc.
  assert (P : progress w (snd r) (shown ncr_regdefs) 0 0 (a4091_save w)
                       (regdef_reads w 0 ncr_regdefs)).
  { subst r. unfold decode_registers. rewrite snd_seq, snd_seq.
    apply (progress_only_logs _ _ _ _ _ _ _ _ (only_logs_ret 0)).
    pose proof (progress_only_logs
                  (printf "  Reg    Value  Name     Description\n" [])
                  _ _ _ _ _ _ _ (only_logs_printf _ _) (progress_start w)) as P0.
    pose proof (progress_decode_register_loop ncr_regdefs _ _ _ _ _ _ _ P0)
      as P1.
    rewrite Nat.add_0_r, app_nil_l in P1. exact P1. }
  assert (A : acc = regdef_reads w 0 ncr_regdefs).
  { destruct P as [_ _ (tr & L & B)]. subst acc.
    rewrite (appended_with_log w tr _ L). exact B. }
  split.
  { subst r. unfold decode_registers.
    rewrite bind_run. cbn [snd]. rewrite bind_run. reflexivity. }
  split; [exact A|]. rewrite A. split.
  { rewrite regdef_reads_length. reflexivity. }
  intros e He.
  destruct (regdef_reads_clear w REG_CTEST3 ncr_regdefs 0
              ltac:(unfold REG_CTEST3; lia) ltac:(vm_compute; reflexivity) e He)
    as [C3 R].
  destruct (regdef_reads_clear w REG_CTEST6 ncr_regdefs 0
              ltac:(unfold REG_CTEST6; lia) ltac:(vm_compute; reflexivity) e He)
    as [C6 _].
  auto.
Qed.

(** ** Takeover, then restore: the interrupt-server chain *)

(** What takeover and restore do to the chain and to the session's two
    node pointers depends on, and changes, only this part of the state. *)
Definition chain_view : Type :=
  (list Interrupt * Z * Z * Z * option Interrupt * option Interrupt)%type.

Definition view_of (w : world) : chain_view :=
  (int_servers w, isr_alloc w, cleanup_installed (a4091_save w),
   card_owned (a4091_save w),
   local_isr (a4091_save w), driver_isr (a4091_save w)).

(** [acts c F]: [c] changes the view by [F]. *)
Definition acts {A : Type} (c : M A) (F : chain_view -> chain_view) : Prop :=
  forall w, view_of (snd (c w)) = F (view_of w).

Definition keeps_chain {A : Type} (c : M A) : Prop := acts c (fun v => v).

Lemma acts_bind {A B : Type} (c : M A) (k : A -> M B) F G :
  acts c F -> (forall a, acts (k a) G) -> acts (bind c k) (fun v => G (F v)).
Proof. intros Hc Hk w. rewrite snd_bind, Hk, Hc. reflexivity. Qed.

Lemma keeps_chain_bind {A B : Type} (c : M A) (k : A -> M B) :
  keeps_chain c -> (forall a, keeps_chain (k a)) -> keeps_chain (bind c k).
Proof. intros Hc Hk. exact (acts_bind c k _ _ Hc Hk). Qed.

Lemma keeps_chain_ret {A : Type} (a : A) : keeps_chain (ret a).
Proof. intros w. reflexivity. Qed.

Lemma keeps_chain_emit e : keeps_chain (emit e).
Proof. intros w. reflexivity. Qed.

Lemma keeps_chain_printf fmt args : keeps_chain (printf fmt args).
Proof. apply keeps_chain_emit. Qed.

Lemma keeps_chain_when b c : keeps_chain c -> keeps_chain (when b c).
Proof. intros H. destruct b; [exact H | apply keeps_chain_ret]. Qed.

Lemma keeps_chain_debug f c : keeps_chain c -> keeps_chain (debug f c).
Proof.
  intros H w. unfold debug. destruct (flag_set w f); [apply H | reflexivity].
Qed.

Lemma keeps_chain_get8 reg : keeps_chain (get_ncrreg8 reg).
Proof. intros w. reflexivity. Qed.

Lemma keeps_chain_set8 reg v : keeps_chain (set_ncrreg8 reg v).
Proof. intros w. reflexivity. Qed.

Lemma keeps_chain_ticks : keeps_chain read_system_ticks.
Proof. intros w. reflexivity. Qed.

Lemma keeps_chain_access_timeout TPS msg ticks ts :
  keeps_chain (access_timeout TPS msg ticks ts).
Proof.
  intros w. destruct (access_timeout_run TPS msg ticks ts w) as (tr & E & _).
  rewrite E. reflexivity.
Qed.

Lemma keeps_chain_modify f :
  (forall s, cleanup_installed (f s) = cleanup_installed s
             /\ card_owned (f s) = card_owned s
             /\ local_isr (f s) = local_isr s
             /\ driver_isr (f s) = driver_isr s) ->
  keeps_chain (modify_save f).
Proof.
  intros H w. unfold view_of, modify_save. cbn [snd].
  destruct (H (a4091_save w)) as (H0 & H1 & H2 & H3).
  destruct w; cbn in *. rewrite H0, H1, H2, H3. reflexivity.
Qed.

Create HintDb chain.
#[local] Hint Resolve keeps_chain_ret keeps_chain_emit keeps_chain_printf
  keeps_chain_when keeps_chain_debug keeps_chain_get8 keeps_chain_set8
  keeps_chain_ticks keeps_chain_access_timeout : chain.

Ltac chain_step :=
  first [ apply keeps_chain_bind; [| intros ? ]
        | apply keeps_chain_modify; intros []; repeat split; reflexivity
        | solve [ auto with chain ] ].

Lemma keeps_chain_reset : keeps_chain a4091_reset.
Proof. unfold a4091_reset. repeat chain_step. Qed.

Lemma keeps_chain_takeover_wait TPS ts fuel :
  keeps_chain (takeover_wait TPS fuel ts).
Proof.
  induction fuel as [|fuel IH]; cbn [takeover_wait]; [apply keeps_chain_ret|].
  apply keeps_chain_bind; [apply keeps_chain_get8 | intros v].
  destruct (Z.land v REG_ISTAT_RST =? 0); [| apply keeps_chain_ret].
  apply keeps_chain_bind; [apply keeps_chain_access_timeout | intros expired].
  destruct expired; [apply keeps_chain_ret | exact IH].
Qed.

Lemma keeps_chain_soft_reset TPS fuel :
  keeps_chain (takeover_soft_reset TPS fuel).
Proof.
  unfold takeover_soft_reset.
  apply keeps_chain_bind; [apply keeps_chain_get8 | intros v].
  apply keeps_chain_bind; [chain_step | intros _].
  apply keeps_chain_bind; [chain_step | intros _].
  apply keeps_chain_bind; [chain_step | intros _].
  apply keeps_chain_bind; [chain_step | intros _].
  apply keeps_chain_bind; [chain_step | intros _].
  apply keeps_chain_bind; [chain_step | intros _].
  apply keeps_chain_bind; [chain_step | intros ts].
  apply keeps_chain_bind; [apply keeps_chain_takeover_wait | intros left].
  destruct left; repeat chain_step.
Qed.

(** The named driver of the card. *)
Definition is_driver (s : Interrupt) : bool :=
  String.eqb (GetNodeName s) "NCR SCSI".

(** [RemIntServer] on a chain. *)
Definition remove_node (node : Interrupt) (chain : list Interrupt)
  : list Interrupt :=
  filter (fun n => negb (is_ptr n =? is_ptr node)) chain.

(** The chain and the saved driver node after the walk of
    [a4091_disable_driver_irq_handler] over [l]. *)
Fixpoint walk_chain (l chain : list Interrupt) : list Interrupt :=
  match l with
  | [] => chain
  | s :: rest =>
      if is_driver s then walk_chain rest (remove_node s chain)
      else walk_chain rest chain
  end.

Fixpoint walk_saved (l : list Interrupt) (d : option Interrupt)
  : option Interrupt :=
  match l with
  | [] => d
  | s :: rest =>
      if is_driver s then walk_saved rest (Some s) else walk_saved rest d
  end.

Lemma acts_disable_walk l : forall suspended,
  acts (disable_walk l suspended)
       (fun '(ch, al, ci, co, li, di) =>
          (walk_chain l ch, al, ci, co, li, walk_saved l di)).
Proof.
  induction l as [|s rest IH]; intros suspended w.
  - reflexivity.
  - cbn [disable_walk walk_chain walk_saved]. rewrite snd_seq.
    assert (D : keeps_chain
              (debug FLAG_DEBUG
                 (emit EvEnable ;;
                  printf "  %08x %08x %08x %s\n"
                         [PInt (wrap32 (is_Code s)); PInt (wrap32 (is_Data s));
                          PInt (wrap32 (is_ptr s)); PStr (GetNodeName s)] ;;
                  emit EvDisable)))
      by repeat chain_step.
    specialize (D w). set (w1 := snd (debug _ _ w)) in *.
    fold (is_driver s). destruct (is_driver s).
    + rewrite snd_seq, snd_seq, IH. unfold keeps_chain in D.
      unfold view_of in *. cbn [snd modify_save RemIntServer emit
        int_servers isr_alloc a4091_save with_save with_int_servers with_log
        cleanup_installed card_owned local_isr driver_isr set_driver_isr].
      inversion D as [[D1 D2 D3 D4 D5 D6]]. reflexivity.
    + rewrite IH, D. reflexivity.
Qed.

Lemma acts_disable_driver verbose :
  acts (a4091_disable_driver_irq_handler verbose)
       (fun '(ch, al, ci, co, li, di) =>
          (walk_chain ch ch, al, ci, co, li, walk_saved ch di)).
Proof.
  intros w. unfold a4091_disable_driver_irq_handler.
  destruct (int_servers w) as [|s0 rest] eqn:E.
  - unfold view_of. cbn [snd]. rewrite E. reflexivity.
  - rewrite snd_seq, snd_bind, snd_seq.
    set (wd := snd (disable_walk (s0 :: rest) false (snd (emit EvDisable w)))).
    set (b := fst (disable_walk (s0 :: rest) false (snd (emit EvDisable w)))).
    assert (K : view_of (snd (when (b && (flag_set (snd (emit EvEnable wd))
                                                   FLAG_DEBUG
                                          || negb (verbose =? 0)))
                                   (printf
                                      "Suspended NCR SCSI driver IRQ handler\n"
                                      [])
                                   (snd (emit EvEnable wd))))
                = view_of wd).
    { rewrite (keeps_chain_when _ _ (keeps_chain_printf _ _)).
      apply keeps_chain_emit. }
    etransitivity; [exact K|].
    unfold wd. rewrite acts_disable_walk.
    unfold view_of. cbn [snd emit int_servers isr_alloc a4091_save with_log].
    rewrite E. reflexivity.
Qed.

Lemma acts_add_local sp hp :
  acts (a4091_add_local_irq_handler sp hp)
       (fun '(ch, al, ci, co, li, di) =>
          let node := mkInterrupt al A4091_INTPRI (Some "A4091 test"%string)
                                  sp hp in
          (Enqueue node ch, al, ci, co,
           (if al =? 0 then None else Some node), di)).
Proof.
  intros w. unfold a4091_add_local_irq_handler.
  rewrite snd_seq. set (w1 := snd (modify_save (set_intcount 0) w)).
  assert (V1 : view_of w1 = view_of w) by (destruct w; reflexivity).
  assert (A1 : isr_alloc w1 = isr_alloc w) by (destruct w; reflexivity).
  rewrite snd_seq, snd_seq, snd_seq.
  set (node := mkInterrupt (isr_alloc w1) A4091_INTPRI
                           (Some "A4091 test"%string) sp hp).
  set (held := if isr_alloc w1 =? 0 then None else Some node).
  set (w2 := snd (modify_save (set_local_isr held)
                    (snd (emit (EvAllocMem (isr_alloc w1)) w1)))).
  assert (V2 : view_of w2
               = (int_servers w, isr_alloc w,
                  cleanup_installed (a4091_save w), card_owned (a4091_save w),
                  held, driver_isr (a4091_save w)))
    by (destruct w; reflexivity).
  set (w3 := snd (debug FLAG_DEBUG
                    (printf "my irq handler=%x %x\n"
                            [PInt (wrap32 sp); PInt (wrap32 (isr_alloc w1))])
                    w2)).
  assert (V3 : view_of w3 = view_of w2)
    by (apply keeps_chain_debug, keeps_chain_printf).
  rewrite V2 in V3. unfold view_of in V3 |- *.
  inversion V3 as [[C1 C2 C3 C4 C5 C6]].
  unfold AddIntServer, emit. cbn [snd int_servers isr_alloc a4091_save
    with_log with_int_servers]. rewrite C1, C2, C3, C4, C5, C6.
  unfold held, node. rewrite A1. reflexivity.
Qed.

Lemma acts_enable_driver :
  acts a4091_enable_driver_irq_handler
       (fun '(ch, al, ci, co, li, di) =>
          match di with
          | Some node => (Enqueue node ch, al, ci, co, li, None)
          | None => (ch, al, ci, co, li, di)
          end).
Proof.
  intros w. unfold a4091_enable_driver_irq_handler, view_of.
  destruct (driver_isr (a4091_save w)) as [node|] eqn:E.
  - rewrite snd_seq.
    set (w1 := snd (debug FLAG_DEBUG
                      (printf "Restoring NCR SCSI driver IRQ handler\n" []) w)).
    assert (V1 : view_of w1 = view_of w)
      by (apply keeps_chain_debug, keeps_chain_printf).
    unfold view_of in V1. inversion V1 as [[C1 C2 C3 C4 C5 C6]].
    rewrite snd_seq. unfold AddIntServer, emit, modify_save.
    cbn [snd int_servers isr_alloc a4091_save with_log with_int_servers
         with_save cleanup_installed card_owned local_isr driver_isr
         set_driver_isr].
    rewrite C1, C2, C3, C4, C5. reflexivity.
  - cbn [snd]. rewrite E. reflexivity.
Qed.

Lemma acts_remove_local :
  acts a4091_remove_local_irq_handler
       (fun '(ch, al, ci, co, li, di) =>
          match li with
          | Some node => (remove_node node ch, al, ci, co, None, di)
          | None => (ch, al, ci, co, li, di)
          end).
Proof.
  intros w. unfold a4091_remove_local_irq_handler, view_of.
  destruct (local_isr (a4091_save w)) as [node|] eqn:E.
  - destruct w; reflexivity.
  - cbn [snd]. rewrite E. reflexivity.
Qed.

(** The local node of a takeover that starts with [al] as the next
    allocation. *)
Definition local_node (sp hp al : Z) : Interrupt :=
  mkInterrupt al A4091_INTPRI (Some "A4091 test"%string) sp hp.

Lemma takeover_view TPS sp hp fuel w :
  card_owned (a4091_save w) = 0 ->
  view_of (snd (a4091_state_takeover TPS sp hp fuel w))
  = (let node := local_node sp hp (isr_alloc w) in
     let l := Enqueue node (int_servers w) in
     (walk_chain l l, isr_alloc w,
      (if cleanup_installed (a4091_save w) =? 0 then 1
       else cleanup_installed (a4091_save w)),
      1, (if isr_alloc w =? 0 then None else Some node),
      walk_saved l (driver_isr (a4091_save w)))).
Proof.
  intros Hown. unfold a4091_state_takeover. rewrite snd_seq.
  set (wA := snd (when (cleanup_installed (a4091_save w) =? 0)
                       (modify_save (set_cleanup_installed 1) ;; emit EvAtExit)
                       w)).
  assert (VA : view_of wA
               = (int_servers w, isr_alloc w,
                  (if cleanup_installed (a4091_save w) =? 0 then 1
                   else cleanup_installed (a4091_save w)),
                  card_owned (a4091_save w),
                  local_isr (a4091_save w), driver_isr (a4091_save w))).
  { unfold wA. destruct (cleanup_installed (a4091_save w) =? 0);
      destruct w; reflexivity. }
  assert (OA : card_owned (a4091_save wA) = 0).
  { pose proof (f_equal (fun v : chain_view => snd (fst (fst v))) VA) as C.
    unfold view_of in C. cbn [fst snd] in C. rewrite C. exact Hown. }
  rewrite OA. change (0 =? 0) with true. cbv iota.
  rewrite snd_seq, snd_seq, snd_seq.
  rewrite (keeps_chain_soft_reset TPS fuel).
  rewrite (acts_disable_driver 0), (acts_add_local sp hp).
  set (w1 := snd (modify_save (set_card_owned 1) wA)).
  assert (V1 : view_of w1
               = (int_servers w, isr_alloc w,
                  (if cleanup_installed (a4091_save w) =? 0 then 1
                   else cleanup_installed (a4091_save w)),
                  1, local_isr (a4091_save w), driver_isr (a4091_save w))).
  { unfold view_of in VA |- *. inversion VA as [[C1 C2 C3 C4 C5 C6]].
    unfold w1, modify_save. cbn [snd int_servers isr_alloc a4091_save
      with_save cleanup_installed card_owned local_isr driver_isr
      set_card_owned].
    rewrite C1, C2, C5, C6. reflexivity. }
  rewrite V1. reflexivity.
Qed.

Lemma restore_view w :
  card_owned (a4091_save w) <> 0 ->
  view_of (snd (a4091_state_restore w))
  = (let ch := match driver_isr (a4091_save w) with
               | Some node => Enqueue node (int_servers w)
               | None => int_servers w
               end in
     (match local_isr (a4091_save w) with
      | Some node => remove_node node ch
      | None => ch
      end, isr_alloc w, cleanup_installed (a4091_save w), 0, None, None)).
Proof.
  intros Hown. unfold a4091_state_restore.
  apply Z.eqb_neq in Hown. rewrite Hown.
  rewrite snd_seq, snd_seq, snd_seq, snd_seq.
  match goal with
  | |- view_of (snd (?c ?x)) = _ =>
      assert (K : view_of (snd (c x)) = view_of x)
  end.
  { apply keeps_chain_when, keeps_chain_printf. }
  rewrite K. clear K.
  rewrite acts_remove_local, acts_enable_driver, keeps_chain_reset.
  unfold view_of, modify_save.
  cbn [snd int_servers isr_alloc a4091_save with_save cleanup_installed
       card_owned local_isr driver_isr set_card_owned].
  destruct (driver_isr (a4091_save w)), (local_isr (a4091_save w));
    reflexivity.
Qed.

(** *** The chain as a list *)

(** The chain is kept in descending priority. *)
Fixpoint descending (l : list Interrupt) : bool :=
  match l with
  | [] => true
  | n :: t => forallb (fun k => ln_Pri k <=? ln_Pri n) t && descending t
  end.

Lemma filter_twice {A : Type} (p q : A -> bool) l :
  filter p (filter q l) = filter (fun x => q x && p x) l.
Proof.
  induction l as [|x t IH]; [reflexivity|]. cbn [filter].
  destruct (q x); cbn [filter andb]; rewrite IH; reflexivity.
Qed.

Lemma filter_all {A : Type} (p : A -> bool) l :
  (forall x, In x l -> p x = true) -> filter p l = l.
Proof.
  induction l as [|x t IH]; intros H; [reflexivity|]. cbn [filter].
  rewrite (H x (or_introl eq_refl)), IH; [reflexivity|].
  intros y Hy. apply H. right. exact Hy.
Qed.

(** The walk removes the nodes that share their address with a driver
    node of the list walked. *)
Definition hit (l : list Interrupt) (n : Interrupt) : bool :=
  existsb (fun s => is_driver s && (is_ptr n =? is_ptr s)) l.

Lemma walk_chain_filter l : forall chain,
  walk_chain l chain = filter (fun n => negb (hit l n)) chain.
Proof.
  induction l as [|s rest IH]; intros chain.
  - cbn. symmetry. apply filter_all. reflexivity.
  - cbn [walk_chain]. unfold hit. cbn [existsb]. fold (hit rest).
    destruct (is_driver s); cbn [andb orb].
    + rewrite IH. unfold remove_node. rewrite filter_twice.
      apply filter_ext. intros n. rewrite negb_orb. reflexivity.
    + apply IH.
Qed.

Lemma walk_saved_last l : forall d,
  walk_saved l d = match rev (filter is_driver l) with
                   | [] => d
                   | s :: _ => Some s
                   end.
Proof.
  induction l as [|s rest IH]; intros d; [reflexivity|].
  cbn [walk_saved filter]. destruct (is_driver s); [|apply IH].
  rewrite IH. cbn [rev]. destruct (rev (filter is_driver rest)); reflexivity.
Qed.

Lemma same_ptr_same_node l n s :
  NoDup (map is_ptr l) -> In n l -> In s l -> is_ptr n = is_ptr s -> n = s.
Proof.
  induction l as [|x t IH]; intros ND Hn Hs E; [destruct Hn|].
  cbn [map] in ND. inversion ND as [|? ? Hx ND']; subst.
  destruct Hn as [<-|Hn], Hs as [<-|Hs].
  - reflexivity.
  - exfalso. apply Hx. rewrite E. apply in_map. exact Hs.
  - exfalso. apply Hx. rewrite <- E. apply in_map. exact Hn.
  - apply IH; assumption.
Qed.

Lemma walk_chain_self l :
  NoDup (map is_ptr l) ->
  walk_chain l l = filter (fun n => negb (is_driver n)) l.
Proof.
  intros ND. rewrite walk_chain_filter. apply filter_ext_in. intros n Hn.
  f_equal. unfold hit. destruct (is_driver n) eqn:Dn.
  - apply existsb_exists. exists n. split; [exact Hn|].
    rewrite Dn, Z.eqb_refl. reflexivity.
  - destruct (existsb _ l) eqn:Ex; [|reflexivity].
    apply existsb_exists in Ex. destruct Ex as (s & Hs & C).
    apply andb_true_iff in C. destruct C as [Ds Ep]. apply Z.eqb_eq in Ep.
    rewrite (same_ptr_same_node l n s ND Hn Hs Ep) in Dn. congruence.
Qed.

Lemma Enqueue_in x l n : In n (Enqueue x l) <-> n = x \/ In n l.
Proof.
  induction l as [|y t IH]; cbn [Enqueue].
  - cbn. intuition congruence.
  - destruct (ln_Pri y <? ln_Pri x); cbn [In]; [intuition congruence|].
    rewrite IH. intuition congruence.
Qed.

Lemma filter_Enqueue_out p x l :
  p x = false -> filter p (Enqueue x l) = filter p l.
Proof.
  intros Hx. induction l as [|y t IH]; cbn [Enqueue filter].
  - rewrite Hx. reflexivity.
  - destruct (ln_Pri y <? ln_Pri x); cbn [filter].
    + rewrite Hx. reflexivity.
    + rewrite IH. reflexivity.
Qed.

Lemma Enqueue_front x l :
  (forall k, In k l -> ln_Pri k < ln_Pri x) -> Enqueue x l = x :: l.
Proof.
  intros H. destruct l as [|y t]; [reflexivity|]. cbn [Enqueue].
  assert (C : (ln_Pri y <? ln_Pri x) = true)
    by (apply Z.ltb_lt, H; left; reflexivity).
  rewrite C. reflexivity.
Qed.

Lemma filter_Enqueue_in p x l :
  descending l = true -> p x = true ->
  filter p (Enqueue x l) = Enqueue x (filter p l).
Proof.
  intros D Hx. induction l as [|y t IH]; cbn [Enqueue filter].
  - rewrite Hx. reflexivity.
  - cbn [descending] in D. apply andb_true_iff in D. destruct D as [Dy Dt].
    destruct (ln_Pri y <? ln_Pri x) eqn:C.
    + cbn [filter]. rewrite Hx. symmetry. apply Enqueue_front.
      intros k Hk.
      assert (Hk' : In k (y :: t)).
      { change (if p y then y :: filter p t else filter p t)
          with (filter p (y :: t)) in Hk.
        apply filter_In in Hk. apply Hk. }
      apply Z.ltb_lt in C. destruct Hk' as [<-|Hk']; [exact C|].
      rewrite forallb_forall in Dy. specialize (Dy k Hk').
      apply Z.leb_le in Dy. lia.
    + cbn [filter]. rewrite (IH Dt).
      destruct (p y); [|reflexivity]. cbn [Enqueue]. rewrite C. reflexivity.
Qed.

Lemma descending_filter p l :
  descending l = true -> descending (filter p l) = true.
Proof.
  induction l as [|y t IH]; intros D; [reflexivity|].
  cbn [descending] in D. apply andb_true_iff in D. destruct D as [Dy Dt].
  cbn [filter]. destruct (p y); [|exact (IH Dt)].
  cbn [descending]. rewrite (IH Dt), andb_true_r.
  apply forallb_forall. intros k Hk. apply filter_In in Hk.
  rewrite forallb_forall in Dy. apply Dy, Hk.
Qed.

Lemma descending_Enqueue x l :
  descending l = true -> descending (Enqueue x l) = true.
Proof.
  induction l as [|y t IH]; intros D; [reflexivity|].
  pose proof D as D0.
  cbn [descending] in D. apply andb_true_iff in D. destruct D as [Dy Dt].
  cbn [Enqueue]. destruct (ln_Pri y <? ln_Pri x) eqn:C.
  - cbn [descending] in D0 |- *. rewrite D0, andb_true_r.
    apply Z.ltb_lt in C. cbn [forallb].
    apply andb_true_iff. split; [apply Z.leb_le; lia|].
    apply forallb_forall. intros k Hk.
    rewrite forallb_forall in Dy. specialize (Dy k Hk).
    apply Z.leb_le in Dy. apply Z.leb_le. lia.
  - cbn [descending]. rewrite (IH Dt), andb_true_r.
    apply forallb_forall. intros k Hk. apply Enqueue_in in Hk.
    apply Z.ltb_ge in C. destruct Hk as [->|Hk]; [apply Z.leb_le; lia|].
    rewrite forallb_forall in Dy. apply Dy, Hk.
Qed.

(** The chain a takeover followed by a restore leaves. *)
Definition chain_after (chain : list Interrupt) : list Interrupt :=
  match rev (filter is_driver chain) with
  | [] => chain
  | d :: _ => Enqueue d (filter (fun n => negb (is_driver n)) chain)
  end.

Lemma round_trip_chain sp hp al chain :
  NoDup (map is_ptr chain) ->
  ~ In al (map is_ptr chain) ->
  descending chain = true ->
  let node := local_node sp hp al in
  let l := Enqueue node chain in
  remove_node node
    match walk_saved l None with
    | Some d => Enqueue d (walk_chain l l)
    | None => walk_chain l l
    end
  = chain_after chain.
Proof.
  intros ND Fresh D node l.
  assert (Nd : is_driver node = false) by reflexivity.
  assert (NDl : NoDup (map is_ptr l)).
  { unfold l. clear D. induction chain as [|y t IH]; cbn [Enqueue map].
    - constructor; [intros [] | constructor].
    - cbn [map] in ND, Fresh. inversion ND as [|? ? Hy ND']; subst.
      assert (Ft : ~ In al (map is_ptr t)) by (intros H; apply Fresh; right; exact H).
      destruct (ln_Pri y <? ln_Pri node).
      + cbn [map]. constructor; [exact Fresh | exact ND].
      + cbn [map]. constructor; [| exact (IH ND' Ft)].
        intros H. apply in_map_iff in H. destruct H as (k & Ek & Hk).
        apply Enqueue_in in Hk. destruct Hk as [->|Hk].
        * apply Fresh. left. symmetry. exact Ek.
        * apply Hy. rewrite <- Ek. apply in_map. exact Hk. }
  rewrite (walk_chain_self l NDl), walk_saved_last.
  unfold l. rewrite (filter_Enqueue_out is_driver node chain Nd).
  rewrite (filter_Enqueue_in (fun n => negb (is_driver n)) node chain D)
    by (rewrite Nd; reflexivity).
  assert (Out : forall k, In k chain ->
                  negb (is_ptr k =? is_ptr node) = true).
  { intros k Hk. apply negb_true_iff, Z.eqb_neq. intros E. apply Fresh.
    change (is_ptr node) with al in E. rewrite <- E. apply in_map. exact Hk. }
  assert (Self : negb (is_ptr node =? is_ptr node) = false)
    by (rewrite Z.eqb_refl; reflexivity).
  unfold chain_after, remove_node.
  destruct (rev (filter is_driver chain)) as [|d ds] eqn:R.
  - rewrite (filter_Enqueue_out _ node _ Self).
    assert (Nodrv : filter is_driver chain = []).
    { destruct (filter is_driver chain) as [|a t] eqn:F; [reflexivity|].
      apply (f_equal (@List.length _)) in R. rewrite length_rev in R.
      discriminate R. }
    rewrite (filter_all _ chain).
    + apply filter_all. exact Out.
    + intros k Hk. destruct (is_driver k) eqn:Dk; [|reflexivity].
      assert (In k (filter is_driver chain))
        by (apply filter_In; split; assumption).
      rewrite Nodrv in H. destruct H.
    - assert (Hd : In d chain).
      { assert (In d (rev (filter is_driver chain)))
          by (rewrite R; left; reflexivity).
        apply in_rev in H. apply filter_In in H. apply H. }
      rewrite filter_Enqueue_in.
      + rewrite (filter_Enqueue_out _ node _ Self).
        f_equal. apply filter_all. intros k Hk. apply filter_In in Hk.
        apply Out, Hk.
      + apply descending_Enqueue, descending_filter, D.
      + apply Out, Hd.
Qed.

(** A takeover of a card that is not owned, followed by a restore, leaves
    the session without owner and without saved nodes, the local server
    out of the chain and the nodes that are not called NCR SCSI in their
    places.  Of the nodes called NCR SCSI, which the takeover takes out
    one and all, only the last of the chain is put back, by priority.
    The chain is the one of the system: no two nodes at one address, none
    at the address of the next allocation, and priorities descending; and
    [AllocMem] has memory for the node of the local server (the source
    does not check its result). *)
Theorem takeover_restore_chain :
  forall (TPS sp hp : Z) (fuel : nat) (w : world),
    card_owned (a4091_save w) = 0 ->
    local_isr (a4091_save w) = None ->
    driver_isr (a4091_save w) = None ->
    NoDup (map is_ptr (int_servers w)) ->
    ~ In (isr_alloc w) (map is_ptr (int_servers w)) ->
    descending (int_servers w) = true ->
    isr_alloc w <> 0 ->
    fst (a4091_state_takeover TPS sp hp fuel w) = true ->
    let w' := snd (a4091_state_restore
                     (snd (a4091_state_takeover TPS sp hp fuel w))) in
    int_servers w' = chain_after (int_servers w)
    /\ card_owned (a4091_save w') = 0
    /\ local_isr (a4091_save w') = None
    /\ driver_isr (a4091_save w') = None.
Proof.
  intros TPS sp hp fuel w Hown Hloc Hdrv ND Fresh D Got _ w'.
  pose proof (takeover_view TPS sp hp fuel w Hown) as VT.
  set (w1 := snd (a4091_state_takeover TPS sp hp fuel w)) in *.
  cbv zeta in VT. unfold view_of in VT.
  apply Z.eqb_neq in Got. rewrite Got in VT.
  pose proof (f_equal (fun v : chain_view => fst (fst (fst (fst (fst v)))))
                VT) as C1.
  pose proof (f_equal (fun v : chain_view => snd (fst (fst v))) VT) as C3.
  pose proof (f_equal (fun v : chain_view => snd (fst v)) VT) as C4.
  pose proof (f_equal (fun v : chain_view => snd v) VT) as C5.
  cbn [fst snd] in C1, C3, C4, C5. clear VT.
  assert (O1 : card_owned (a4091_save w1) <> 0) by (rewrite C3; discriminate).
  pose proof (restore_view w1 O1) as VR. fold w' in VR.
  cbv zeta in VR. unfold view_of in VR.
  rewrite C1, C4, C5, Hdrv in VR.
  pose proof (f_equal (fun v : chain_view => fst (fst (fst (fst (fst v)))))
                VR) as E1.
  pose proof (f_equal (fun v : chain_view => snd (fst (fst v))) VR) as E3.
  pose proof (f_equal (fun v : chain_view => snd (fst v)) VR) as E4.
  pose proof (f_equal (fun v : chain_view => snd v) VR) as E5.
  cbn [fst snd] in E1, E3, E4, E5. clear VR.
  split; [| split; [exact E3 | split; [exact E4 | exact E5]]].
  rewrite E1.
  exact (round_trip_chain sp hp (isr_alloc w) (int_servers w) ND Fresh D).
Qed.

Lemma takeover_restore_chain_witness :
  int_servers (snd (a4091_state_restore
                      (snd (a4091_state_takeover 50 0x07d00000 0x07c00000 4
                              rst_latched_world))))
  = [ncr_scsi_server].
Proof.
  refine (proj1 (takeover_restore_chain 50 0x07d00000 0x07c00000 4
                   rst_latched_world _ _ _ _ _ _ _ _)).
  - reflexivity.
  - reflexivity.
  - reflexivity.
  - repeat constructor. intros [].
  - cbn. intros [H|[]]. discriminate H.
  - reflexivity.
  - discriminate.
  - vm_compute. reflexivity.
Defined.

(** Two cards' drivers in the chain: the takeover takes both out, the
    restore puts back the second only. *)
Definition second_scsi_server : Interrupt :=
  mkInterrupt 0x07f00200 20 (Some "NCR SCSI"%string) 0x07f00300 0x00f80000.

Example first_driver_not_restored :
  chain_after [ncr_scsi_server; second_scsi_server] = [second_scsi_server].
Proof. reflexivity. Qed.

(** ** A takeover after a takeover *)

Lemma takeover_marks TPS sp hp fuel w :
  let w1 := snd (a4091_state_takeover TPS sp hp fuel w) in
  cleanup_installed (a4091_save w1) <> 0 /\ card_owned (a4091_save w1) <> 0.
Proof.
  intros w1.
  assert (NZ : (if cleanup_installed (a4091_save w) =? 0 then 1
                else cleanup_installed (a4091_save w)) <> 0).
  { destruct (cleanup_installed (a4091_save w) =? 0) eqn:C;
      [discriminate | apply Z.eqb_neq in C; exact C]. }
  destruct (Z.eq_dec (card_owned (a4091_save w)) 0) as [Hown|Hown].
  - pose proof (takeover_view TPS sp hp fuel w Hown) as V. fold w1 in V.
    cbv zeta in V. unfold view_of in V.
    pose proof (f_equal (fun v : chain_view => snd (fst (fst (fst v)))) V)
      as C1.
    pose proof (f_equal (fun v : chain_view => snd (fst (fst v))) V) as C2.
    cbn [fst snd] in C1, C2. rewrite C1, C2.
    split; [exact NZ | discriminate].
  - subst w1. unfold a4091_state_takeover. rewrite snd_seq.
    set (wA := snd (when (cleanup_installed (a4091_save w) =? 0)
                         (modify_save (set_cleanup_installed 1) ;;
                          emit EvAtExit) w)).
    assert (VA : cleanup_installed (a4091_save wA)
                 = (if cleanup_installed (a4091_save w) =? 0 then 1
                    else cleanup_installed (a4091_save w))
                 /\ card_owned (a4091_save wA) = card_owned (a4091_save w)).
    { unfold wA. destruct (cleanup_installed (a4091_save w) =? 0);
        destruct w; split; reflexivity. }
    destruct VA as [V1 V2].
    apply Z.eqb_neq in Hown. rewrite V2, Hown. cbn [snd].
    rewrite V1, V2. apply Z.eqb_neq in Hown. split; assumption.
Qed.

(** Whatever the state, a call of [a4091_state_takeover] leaves the card
    owned and the cleanup registered, and a further call is then without
    effect: no second registration with [atexit], no second local server,
    no register access, no waiting. *)
Theorem takeover_again :
  forall (TPS sp hp : Z) (fuel fuel' : nat) (w : world),
    let w1 := snd (a4091_state_takeover TPS sp hp fuel w) in
    cleanup_installed (a4091_save w1) <> 0
    /\ card_owned (a4091_save w1) <> 0
    /\ a4091_state_takeover TPS sp hp fuel' w1 = (true, w1).
Proof.
  intros TPS sp hp fuel fuel' w w1.
  destruct (takeover_marks TPS sp hp fuel w) as [Hc Ho]. fold w1 in Hc, Ho.
  split; [exact Hc|]. split; [exact Ho|].
  unfold a4091_state_takeover. rewrite bind_run.
  apply Z.eqb_neq in Hc, Ho. rewrite Hc. cbn [when ret fst snd].
  rewrite Ho. reflexivity.
Qed.

(** ** Finding and listing the cards, taking arguments *)

Module Cards.

Import Cli.

(** The loop of [a4091_find] over the cards still to come; [addr] starts
    as [-1]. *)
Fixpoint find_loop (devs : list ConfigDev) (pos count : Z) : Z :=
  match devs with
  | [] => wrap32 (-1)
  | cdev :: rest =>
      if pos =? count then wrap32 (cd_BoardAddr cdev)
      else find_loop rest pos (count + 1)
  end.

(** [a4091_find]: the value returned and the output. *)
Definition a4091_find (h : host) (pos : Z) : Z * list event :=
  if expansion_opens h then (find_loop (a4091_devs h) pos 0, [])
  else (wrap32 (-1),
        [EvPrintf "Could not open %s\n" [PStr expansion_library_name]]).

Section Listing.

Variables CDF_SHUTUP CDF_CONFIGME CDF_BADMEMORY : Z.


Definition list_header : event :=
  EvPrintf "  Index Address  Size     Flags\n" [].

Lemma find_loop_index devs : forall pos count,
  0 <= count <= pos ->
  find_loop devs pos count
  = match nth_error devs (Z.to_nat (pos - count)) with
    | Some cdev => wrap32 (cd_BoardAddr cdev)
    | None => 0xffffffff
    end.
Proof.
  induction devs as [|cdev rest IH]; intros pos count H; cbn [find_loop].
  - destruct (Z.to_nat (pos - count)); reflexivity.
  - destruct (pos =? count) eqn:E.
    + apply Z.eqb_eq in E. subst. rewrite Z.sub_diag. reflexivity.
    + apply Z.eqb_neq in E. rewrite IH by lia.
      replace (Z.to_nat (pos - count)) with (S (Z.to_nat (pos - (count + 1))))
        by lia.
      reflexivity.
Qed.

Lemma list_loop_index h addr devs : forall count dh out,
  addr <= 0x10 -> 0 <= count ->
  list_loop CDF_SHUTUP CDF_CONFIGME CDF_BADMEMORY h addr devs count dh out
  = match (if count <=? addr
           then nth_error devs (Z.to_nat (addr - count)) else None) with
    | Some cdev =>
        (count + Z.of_nat (List.length devs),
         (if dh =? 0 then dh + 1 else dh),
         out ++ (if dh =? 0 then [list_header] else [])
             ++ list_row CDF_SHUTUP CDF_CONFIGME CDF_BADMEMORY h addr cdev)
    | None => (count + Z.of_nat (List.length devs), dh, out)
    end.
Proof.
  induction devs as [|cdev rest IH]; intros count dh out Ha Hc.
  - cbn [Cli.list_loop List.length]. rewrite Z.add_0_r.
    destruct (count <=? addr); [destruct (Z.to_nat (addr - count))|];
      reflexivity.
  - cbn [Cli.list_loop List.length].
    assert (A1 : (0x10 <? addr) = false) by (apply Z.ltb_ge; lia).
    assert (A2 : (addr <=? 0x10) = true) by (apply Z.leb_le; lia).
    rewrite A1, A2. cbn [andb orb].
    replace (count + Z.of_nat (S (List.length rest)))
      with (count + 1 + Z.of_nat (List.length rest)) by lia.
    destruct (count =? addr) eqn:E; cbn [negb].
    + apply Z.eqb_eq in E. subst count.
      rewrite IH by lia.
      assert (L1 : (addr + 1 <=? addr) = false) by (apply Z.leb_gt; lia).
      rewrite L1, Z.leb_refl, Z.sub_diag. cbn [Z.to_nat nth_error].
      reflexivity.
    + apply Z.eqb_neq in E. rewrite IH by lia.
      destruct (count <=? addr) eqn:L.
      * apply Z.leb_le in L.
        assert (L1 : (count + 1 <=? addr) = true) by (apply Z.leb_le; lia).
        rewrite L1.
        replace (Z.to_nat (addr - count))
          with (S (Z.to_nat (addr - (count + 1)))) by lia.
        reflexivity.
      * apply Z.leb_gt in L.
        assert (L1 : (count + 1 <=? addr) = false) by (apply Z.leb_gt; lia).
        rewrite L1. reflexivity.
Qed.

Lemma list_loop_count h addr devs : forall count dh out,
  fst (fst (list_loop CDF_SHUTUP CDF_CONFIGME CDF_BADMEMORY h addr devs count dh out))
  = count + Z.of_nat (List.length devs).
Proof.
  induction devs as [|cdev rest IH]; intros count dh out;
    cbn [Cli.list_loop List.length].
  - cbn. lia.
  - destruct (_ || _); rewrite IH; lia.
Qed.

Lemma list_loop_no_match h addr devs : forall count dh out,
  0x10 < addr ->
  (forall cdev, In cdev devs -> wrap32 (cd_BoardAddr cdev) <> addr) ->
  list_loop CDF_SHUTUP CDF_CONFIGME CDF_BADMEMORY h addr devs count dh out
  = (count + Z.of_nat (List.length devs), dh, out).
Proof.
  induction devs as [|cdev rest IH]; intros count dh out Ha Hn;
    cbn [Cli.list_loop List.length].
  - rewrite Z.add_0_r. reflexivity.
  - assert (A1 : (0x10 <? addr) = true) by (apply Z.ltb_lt; lia).
    assert (A2 : (wrap32 (cd_BoardAddr cdev) =? addr) = false)
      by (apply Z.eqb_neq, Hn; left; reflexivity).
    rewrite A1, A2. cbn [andb negb orb].
    rewrite IH; [| exact Ha | intros c Hc; apply Hn; right; exact Hc].
    f_equal. f_equal. lia.
Qed.

Lemma nat_zero_eqb (n : nat) : (Z.of_nat n =? 0) = (n =? 0)%nat.
Proof. destruct n; reflexivity. Qed.

Lemma a4091_list_index (h : host) (addr : Z) :
  expansion_opens h = true -> 0 <= addr <= 0x10 ->
  snd (a4091_list CDF_SHUTUP CDF_CONFIGME CDF_BADMEMORY h addr)
  = match nth_error (a4091_devs h) (Z.to_nat addr) with
    | Some cdev =>
        list_header
        :: list_row CDF_SHUTUP CDF_CONFIGME CDF_BADMEMORY h addr cdev
    | None =>
        if (List.length (a4091_devs h) =? 0)%nat
        then [EvPrintf "No A4091 cards detected\n" []]
        else [EvPrintf "Specified card %x not detected\n" [PInt addr]]
    end.
Proof.
  intros Ho Ha. unfold Cli.a4091_list. rewrite Ho.
  rewrite list_loop_index by lia.
  assert (L : (0 <=? addr) = true) by (apply Z.leb_le; lia).
  rewrite L, Z.sub_0_r, Z.add_0_l.
  destruct (nth_error (a4091_devs h) (Z.to_nat addr)) as [cdev|] eqn:N.
  - assert (Hl : (List.length (a4091_devs h) =? 0)%nat = false).
    { destruct (a4091_devs h);
        [destruct (Z.to_nat addr); discriminate N | reflexivity]. }
    rewrite nat_zero_eqb, Hl. reflexivity.
  - rewrite nat_zero_eqb.
    destruct (List.length (a4091_devs h) =? 0)%nat; reflexivity.
Qed.

(** [a4091_list] returns 0 whenever the system has an A4091, also when
    the card asked for is not among them.  Asked for an index (an [addr]
    up to 0x10, 0 when none was given) it prints the header and the row of
    the card at that index and of no other card; when there is no card at
    that index, or at the address asked for, it prints one line that says
    so. *)
Theorem a4091_list_selection :
  forall (h : host) (addr : Z),
    expansion_opens h = true ->
    let devs := a4091_devs h in
    let r := a4091_list CDF_SHUTUP CDF_CONFIGME CDF_BADMEMORY h addr in
    fst r = (if (List.length devs =? 0)%nat then 1 else 0)
    /\ (0 <= addr <= 0x10 ->
        snd r = match nth_error devs (Z.to_nat addr) with
                | Some cdev => list_header :: list_row CDF_SHUTUP CDF_CONFIGME CDF_BADMEMORY h addr cdev
                | None =>
                    if (List.length devs =? 0)%nat
                    then [EvPrintf "No A4091 cards detected\n" []]
                    else [EvPrintf "Specified card %x not detected\n"
                                   [PInt addr]]
                end)
    /\ (0x10 < addr ->
        (forall cdev, In cdev devs -> wrap32 (cd_BoardAddr cdev) <> addr) ->
        snd r = if (List.length devs =? 0)%nat
                then [EvPrintf "No A4091 cards detected\n" []]
                else [EvPrintf "Specified card %x not detected\n"
                               [PInt addr]]).
Proof.
  intros h addr Ho devs r.
  assert (Z0 : forall n : nat,
             (Z.of_nat n =? 0) = (n =? 0)%nat).
  { intros n. destruct n; reflexivity. }
  split; [|split].
  - subst r. unfold Cli.a4091_list. rewrite Ho. fold devs.
    pose proof (list_loop_count h addr devs 0 0 []) as C.
    destruct (list_loop CDF_SHUTUP CDF_CONFIGME CDF_BADMEMORY h addr devs 0 0 []) as [[count dh] out].
    cbn [fst snd] in C |- *. rewrite C, Z.add_0_l. rewrite Z0.
    reflexivity.
  - intros Ha. subst r devs. apply a4091_list_index; assumption.
  - intros Ha Hn. subst r. unfold Cli.a4091_list. rewrite Ho. fold devs.
    rewrite (list_loop_no_match h addr devs 0 0 [] Ha Hn).
    rewrite Z.add_0_l, Z0.
    destruct (List.length devs =? 0)%nat; reflexivity.
Qed.

(** [a4091_find] gives the address of the card at index [pos], the very
    address [a4091_list] prints in the row it shows for that index, and
    0xffffffff when there is no card at that index or when
    [expansion.library] does not open. *)
Theorem a4091_find_by_index :
  forall (h : host) (pos : Z),
    0 <= pos ->
    (expansion_opens h = true ->
     match nth_error (a4091_devs h) (Z.to_nat pos) with
     | Some cdev =>
         fst (a4091_find h pos) = wrap32 (cd_BoardAddr cdev)
         /\ (pos <= 0x10 ->
             exists size rest,
               snd (a4091_list CDF_SHUTUP CDF_CONFIGME CDF_BADMEMORY h pos)
               = list_header
                 :: EvPrintf "  %-3d   %08x %08lx"
                             [PInt pos; PInt (fst (a4091_find h pos)); size]
                 :: rest)
     | None => fst (a4091_find h pos) = 0xffffffff
     end)
    /\ (expansion_opens h = false -> fst (a4091_find h pos) = 0xffffffff).
Proof.
  intros h pos Hp. split.
  - intros Ho. unfold a4091_find. rewrite Ho. cbn [fst].
    rewrite find_loop_index by lia. rewrite Z.sub_0_r.
    destruct (nth_error (a4091_devs h) (Z.to_nat pos)) as [cdev|] eqn:N;
      [|reflexivity].
    split; [reflexivity|]. intros Hi.
    rewrite (a4091_list_index h pos Ho) by lia. rewrite N.
    unfold Cli.list_row. cbn [app]. eexists. eexists. reflexivity.
  - intros Ho. unfold a4091_find. rewrite Ho. reflexivity.
Qed.

End Listing.

(** A system with two A4091 cards. *)
Definition two_cards : host :=
  mkHost true [mkConfigDev 0x0202 0x0054 0x40000000 0x1000000 0;
               mkConfigDev 0x0202 0x0050 0x42000000 0x1000000 0;
               mkConfigDev 0x0202 0x0054 0x44000000 0x1000000 0] None.

Lemma a4091_list_selection_witness :
  a4091_list 1 2 4 two_cards 0
  = (0, [EvPrintf "  Index Address  Size     Flags\n" [];
         EvPrintf "  %-3d   %08x %08lx" [PInt 0; PInt 0x40000000;
                                           PInt 0x1000000];
         EvPrintf "\n" []]).
Proof.
  pose proof (a4091_list_selection 1 2 4 two_cards 0 eq_refl) as H.
  cbv zeta in H. destruct H as (H1 & H2 & _).
  specialize (H2 ltac:(lia)).
  rewrite (surjective_pairing (a4091_list 1 2 4 two_cards 0)), H1, H2.
  reflexivity.
Defined.

Lemma a4091_find_by_index_witness :
  fst (a4091_find two_cards 1) = 0x44000000.
Proof.
  pose proof (a4091_find_by_index 1 2 4 two_cards 1 ltac:(lia)) as [H _].
  specialize (H eq_refl). cbn [nth_error Z.to_nat Pos.to_nat] in H.
  exact (proj1 H).
Defined.

End Cards.

Module Args.

Import Cli.

Lemma nextarg_from_spec (l : list (option string)) :
  match nextarg_from l with
  | Some (next, l') =>
      exists k, (k < List.length l)%nat
        /\ nth k l None = Some next
        /\ (forall j, (j < k)%nat -> nth j l None = None)
        /\ List.length l' = List.length l
        /\ forall j, nth j l' None = if (j =? k)%nat then None
                                     else nth j l None
  | None => forall j, nth j l None = None
  end.
Proof.
  induction l as [|a rest IH]; cbn [nextarg_from].
  - intros j. destruct j; reflexivity.
  - destruct a as [next|].
    + exists 0%nat. cbn [List.length nth]. repeat split; try lia.
      intros j. destruct j; reflexivity.
    + destruct (nextarg_from rest) as [[next rest']|].
      * destruct IH as (k & Hk & Hn & Hb & Hl & Hr).
        exists (S k). cbn [List.length nth]. repeat split.
        -- lia.
        -- exact Hn.
        -- intros j Hj. destruct j; [reflexivity | apply Hb; lia].
        -- rewrite Hl. reflexivity.
        -- intros j. destruct j; [reflexivity | apply Hr].
      * intros j. destruct j; [reflexivity | apply IH].
Qed.

(** [nextarg] returns the first argument at or after [argnum] that has
    not been taken yet and marks that one argument, and no other, as
    taken; when every argument from [argnum] on has been taken, or
    [argnum] is past the end, it returns [NULL] and leaves [argv] as it
    is. *)
Theorem nextarg_first_pending :
  forall (args : list (option string)) (argnum : nat),
    match nextarg args argnum with
    | (Some next, args') =>
        exists k, (argnum <= k < List.length args)%nat
          /\ nth k args None = Some next
          /\ (forall j, (argnum <= j < k)%nat -> nth j args None = None)
          /\ List.length args' = List.length args
          /\ forall j, nth j args' None = if (j =? k)%nat then None
                                          else nth j args None
    | (None, args') =>
        args' = args
        /\ forall j, (argnum <= j)%nat -> nth j args None = None
    end.
Proof.
  intros args argnum. unfold nextarg.
  pose proof (nextarg_from_spec (skipn argnum args)) as H.
  destruct (nextarg_from (skipn argnum args)) as [[next rest']|].
  - destruct H as (k & Hk & Hn & Hb & Hl & Hr).
    rewrite length_skipn in Hk.
    assert (La : (argnum <= List.length args)%nat) by lia.
    assert (Lf : List.length (firstn argnum args) = argnum)
      by (rewrite length_firstn; lia).
    assert (Sk : forall j, nth j (skipn argnum args) None
                           = nth (argnum + j) args None).
    { intros j. rewrite <- (firstn_skipn argnum args) at 2.
      rewrite app_nth2 by lia. rewrite Lf. f_equal. lia. }
    exists (argnum + k)%nat. repeat split.
    + lia.
    + lia.
    + rewrite <- Sk. exact Hn.
    + intros j Hj. replace j with (argnum + (j - argnum))%nat by lia.
      rewrite <- Sk. apply Hb. lia.
    + rewrite length_app, Lf, Hl, length_skipn. lia.
    + intros j. destruct (Nat.lt_ge_cases j argnum) as [Hj|Hj].
      * rewrite app_nth1 by lia.
        assert (E : (j =? argnum + k)%nat = false) by (apply Nat.eqb_neq; lia).
        rewrite E. rewrite <- (firstn_skipn argnum args) at 2.
        rewrite app_nth1 by lia. reflexivity.
      * rewrite app_nth2 by lia. rewrite Lf, Hr, Sk.
        replace (argnum + (j - argnum))%nat with j by lia.
        destruct (Nat.eqb_spec (j - argnum) k) as [E|E];
          destruct (Nat.eqb_spec j (argnum + k)) as [E'|E'];
          try reflexivity; lia.
  - split; [reflexivity|]. intros j Hj.
    destruct (Nat.lt_ge_cases j (List.length args)) as [Hl|Hl].
    + rewrite <- (firstn_skipn argnum args).
      assert (Lf : List.length (firstn argnum args) = argnum)
        by (rewrite length_firstn; lia).
      rewrite app_nth2 by lia. apply H.
    + apply nth_overflow. exact Hl.
Qed.

End Args.

(** ** The register test and CTEST2 *)

(** [avoids reg c]: no access of [c] covers the register [reg], neither
    where it is read nor where it is written. *)
Definition avoids {A : Type} (reg : Z) (c : M A) : Prop :=
  forall w,
    a4091_base (snd (c w)) = a4091_base w
    /\ exists tr,
         log (snd (c w)) = log w ++ tr
         /\ forall e, In e tr ->
              covers e (rd_addr w reg) = false
              /\ covers e (wr_addr w reg) = false.

Lemma avoids_ret {A : Type} reg (a : A) : avoids reg (ret a).
Proof.
  intros w. split; [reflexivity|]. exists []. split.
  - cbn. rewrite app_nil_r. reflexivity.
  - intros e [].
Qed.

Lemma avoids_bind {A B : Type} reg (c : M A) (k : A -> M B) :
  avoids reg c -> (forall a, avoids reg (k a)) -> avoids reg (bind c k).
Proof.
  intros Hc Hk w. rewrite snd_bind.
  destruct (Hc w) as (B1 & t1 & L1 & C1).
  destruct (Hk (fst (c w)) (snd (c w))) as (B2 & t2 & L2 & C2).
  split; [congruence|]. exists (t1 ++ t2). split.
  - rewrite L2, L1, app_assoc. reflexivity.
  - intros e He. apply in_app_or in He. destruct He as [He|He].
    + apply C1, He.
    + unfold rd_addr, wr_addr in *. rewrite <- B1. apply C2, He.
Qed.

Lemma not_bus_not_covering tr :
  bus_accesses tr = [] -> forall e a, In e tr -> covers e a = false.
Proof.
  intros H e a He.
  destruct (is_bus_access e) eqn:B.
  - assert (I : In e (bus_accesses tr)) by (apply filter_In; split; assumption).
    rewrite H in I. destruct I.
  - destruct e; try reflexivity; discriminate B.
Qed.

Lemma avoids_only_logs {A : Type} reg (c : M A) :
  only_logs c -> avoids reg c.
Proof.
  intros H w. destruct (H w) as (tr & E & B). rewrite E.
  split; [reflexivity|]. exists tr. split; [reflexivity|].
  intros e He. split; apply (not_bus_not_covering tr B); exact He.
Qed.

(** An access of [size] bytes at offset [o] of a block does not cover the
    byte at offset [t] when [t] is not one of its bytes, wherever in the
    32-bit address space the block lies. *)
Lemma far_offsets base o t size :
  0 <= o < 65536 -> 0 <= t < 65536 -> 0 < size <= 4 ->
  ~ (o <= t < o + size) ->
  ~ (wrap32 (base + o) <= wrap32 (base + t) < wrap32 (base + o) + size).
Proof.
  intros Ho Ht Hs Hn. unfold wrap32.
  pose proof (Z.div_mod (base + o) 4294967296 ltac:(lia)) as D1.
  pose proof (Z.div_mod (base + t) 4294967296 ltac:(lia)) as D2.
  pose proof (Z.mod_pos_bound (base + o) 4294967296 ltac:(lia)) as M1.
  pose proof (Z.mod_pos_bound (base + t) 4294967296 ltac:(lia)) as M2.
  lia.
Qed.

(** Where a register access at offset [o] of the register block, [size]
    bytes wide, keeps clear of the register [reg]: of its read address and
    of its write address. *)
Definition apart (o size reg : Z) : bool :=
  (0 <=? o) && (o <? 256) && (0 <=? reg) && (reg <? 64)
  && negb ((o <=? reg) && (reg <? o + size))
  && negb ((o <=? 0x40 + reg) && (0x40 + reg <? o + size)).

Lemma within_false o t size :
  (o <=? t) && (t <? o + size) = false -> ~ (o <= t < o + size).
Proof.
  intros H [K1 K2]. apply andb_false_iff in H.
  destruct H as [H|H]; [apply Z.leb_gt in H | apply Z.ltb_ge in H]; lia.
Qed.

Lemma apart_spec o size reg :
  apart o size reg = true ->
  0 <= o < 256 /\ 0 <= reg < 64
  /\ ~ (o <= reg < o + size) /\ ~ (o <= 0x40 + reg < o + size).
Proof.
  unfold apart. intros H.
  repeat (apply andb_true_iff in H; destruct H as [H ?]).
  apply negb_true_iff in H0, H1.
  apply Z.leb_le in H. apply Z.ltb_lt in H4. apply Z.leb_le in H3.
  apply Z.ltb_lt in H2.
  repeat split; try lia; apply within_false; assumption.
Qed.

Lemma apart_covers8 w o reg a :
  apart o 1 reg = true ->
  a = wrap32 (a4091_base w + A4091_OFFSET_REGISTERS + o) ->
  (a =? rd_addr w reg) = false /\ (a =? wr_addr w reg) = false.
Proof.
  intros H ->. destruct (apart_spec o 1 reg H) as (Ho & Hr & N1 & N2).
  unfold rd_addr, wr_addr.
  set (base := a4091_base w + A4091_OFFSET_REGISTERS).
  pose proof (far_offsets base o reg 1 ltac:(lia) ltac:(lia) ltac:(lia) N1)
    as F1.
  pose proof (far_offsets base o (0x40 + reg) 1
                ltac:(lia) ltac:(lia) ltac:(lia) N2) as F2.
  replace (base + (64 + reg)) with (base + 64 + reg) in F2 by lia.
  split; apply Z.eqb_neq; intros E.
  - apply F1. rewrite E. lia.
  - apply F2. rewrite E. lia.
Qed.

Lemma apart_covers32 w o reg a :
  apart o 4 reg = true ->
  a = wrap32 (a4091_base w + A4091_OFFSET_REGISTERS + o) ->
  ((a <=? rd_addr w reg) && (rd_addr w reg <? a + 4)) = false
  /\ ((a <=? wr_addr w reg) && (wr_addr w reg <? a + 4)) = false.
Proof.
  intros H ->. destruct (apart_spec o 4 reg H) as (Ho & Hr & N1 & N2).
  unfold rd_addr, wr_addr.
  set (base := a4091_base w + A4091_OFFSET_REGISTERS).
  pose proof (far_offsets base o reg 4 ltac:(lia) ltac:(lia) ltac:(lia) N1)
    as F1.
  pose proof (far_offsets base o (0x40 + reg) 4
                ltac:(lia) ltac:(lia) ltac:(lia) N2) as F2.
  replace (base + (64 + reg)) with (base + 64 + reg) in F2 by lia.
  split.
  - destruct (_ && _) eqn:C; [|reflexivity]. exfalso. apply F1.
    apply andb_true_iff in C. destruct C as [C1 C2].
    apply Z.leb_le in C1. apply Z.ltb_lt in C2. lia.
  - destruct (_ && _) eqn:C; [|reflexivity]. exfalso. apply F2.
    apply andb_true_iff in C. destruct C as [C1 C2].
    apply Z.leb_le in C1. apply Z.ltb_lt in C2. lia.
Qed.

Lemma avoids_get8 reg r : apart r 1 reg = true -> avoids reg (get_ncrreg8 r).
Proof.
  intros H w. rewrite get_ncrreg8_run. cbn [snd].
  split; [reflexivity|]. eexists. split; [reflexivity|].
  intros e [<-|[]]. cbn [covers]. apply (apart_covers8 w r reg); [exact H|].
  reflexivity.
Qed.

Lemma avoids_set8 reg r v :
  apart (0x40 + r) 1 reg = true -> avoids reg (set_ncrreg8 r v).
Proof.
  intros H w. rewrite set_ncrreg8_run. cbn [snd].
  split; [reflexivity|]. eexists. split; [reflexivity|].
  intros e [<-|[]]. cbn [covers].
  apply (apart_covers8 w (0x40 + r) reg); [exact H|].
  unfold wr_addr. f_equal. lia.
Qed.

Lemma avoids_get32 reg r : apart r 4 reg = true -> avoids reg (get_ncrreg32 r).
Proof.
  intros H w. rewrite get_ncrreg32_run. cbn [snd].
  split; [reflexivity|]. eexists. split; [reflexivity|].
  intros e [<-|[]]. cbn [covers]. apply (apart_covers32 w r reg); [exact H|].
  reflexivity.
Qed.

Lemma avoids_set32 reg r v :
  apart (0x40 + r) 4 reg = true -> avoids reg (set_ncrreg32 r v).
Proof.
  intros H w. rewrite set_ncrreg32_run. cbn [snd].
  split; [reflexivity|]. eexists. split; [reflexivity|].
  intros e [<-|[]]. cbn [covers].
  apply (apart_covers32 w (0x40 + r) reg); [exact H|].
  unfold wr_addr. f_equal. lia.
Qed.

Lemma avoids_check reg mode r name rbits :
  apart r 1 reg = true -> avoids reg (check_ncrreg_bits mode r name rbits).
Proof.
  intros H. unfold check_ncrreg_bits.
  apply avoids_bind; [apply avoids_get8, H | intros v].
  destruct (negb (Z.land v rbits =? 0)); [|apply avoids_ret].
  apply avoids_only_logs.
  apply only_logs_bind; [apply only_logs_printf | intros _; apply only_logs_ret].
Qed.

Lemma avoids_reserved_bits_loop passes : forall rc,
  avoids REG_CTEST2 (reserved_bits_loop passes rc).
Proof.
  induction passes as [|passes IH]; intros rc; cbn [reserved_bits_loop].
  - apply avoids_ret.
  - apply avoids_bind.
    + unfold reserved_bits_pass.
      repeat (apply avoids_bind; [apply avoids_check; reflexivity | intros ?]).
      apply avoids_ret.
    + intros rc'. destruct (negb (rc' =? 0)); [apply avoids_ret | apply IH].
Qed.

Lemma avoids_reset : avoids REG_CTEST2 a4091_reset.
Proof.
  unfold a4091_reset.
  repeat (apply avoids_bind;
          [first [apply avoids_set8; reflexivity
                 | apply avoids_get8; reflexivity] | intros ?]).
  apply avoids_set8. reflexivity.
Qed.

Lemma avoids_walking_loop rots : forall patt st,
  avoids REG_CTEST2 (walking_loop rots patt st).
Proof.
  induction rots as [|rots IH]; intros patt st; cbn [walking_loop].
  - apply avoids_ret.
  - cbv zeta. apply avoids_bind; [| intros st'; apply IH].
    unfold walking_round.
    apply avoids_bind; [apply avoids_set32; reflexivity | intros _].
    apply avoids_bind; [apply avoids_set32; reflexivity | intros _].
    apply avoids_bind; [apply avoids_get32; reflexivity | intros s].
    apply avoids_bind; [apply avoids_get32; reflexivity | intros t].
    apply avoids_only_logs. cbv zeta.
    apply only_logs_bind; [apply only_logs_walk_report | intros r1].
    apply only_logs_bind; [apply only_logs_walk_report | intros r2].
    apply only_logs_ret.
Qed.

Lemma only_logs_show_test_state_any name state :
  only_logs (show_test_state name state).
Proof.
  unfold show_test_state. destruct (state =? 0); [apply only_logs_printf|].
  apply only_logs_bind; [apply only_logs_printf | intros _].
  destruct (state =? -1); [apply only_logs_ret | apply only_logs_printf].
Qed.

(** [test_register_access] never touches CTEST2: none of its register
    accesses, byte or long word, read or write, covers the register at
    0x15.  The reserved-bit check it reports under the name CTEST2 reads
    CTEST0. *)
Theorem register_test_skips_ctest2 :
  forall w : world,
    exists tr,
      log (snd (test_register_access w)) = log w ++ tr
      /\ (forall e, In e tr ->
            covers e (rd_addr w REG_CTEST2) = false
            /\ covers e (wr_addr w REG_CTEST2) = false)
      /\ forall v, ~ In (EvRead8 (rd_addr w REG_CTEST2) v) tr.
Proof.
  intros w.
  assert (A : avoids REG_CTEST2 test_register_access).
  { unfold test_register_access.
    apply avoids_bind;
      [apply avoids_only_logs, only_logs_show_test_state_any | intros _].
    apply avoids_bind; [apply avoids_reserved_bits_loop | intros rc0].
    apply avoids_bind; [apply avoids_reset | intros _].
    apply avoids_bind; [apply avoids_check; reflexivity | intros r1].
    apply avoids_bind; [apply avoids_check; reflexivity | intros r2].
    apply avoids_bind;
      [exact (avoids_walking_loop 256 0xf0e7c3a5
                (mkWalk (rc0 + r1 + r2) 0xffffffff 0xffffffff 0))
      | intros st].
    apply avoids_only_logs. cbv zeta.
    apply only_logs_bind.
    { apply only_logs_when.
      apply only_logs_bind; [apply only_logs_printf | intros _].
      apply only_logs_bind; [apply only_logs_print_bits | intros _].
      apply only_logs_printf. }
    intros _. apply only_logs_bind.
    { apply only_logs_when.
      apply only_logs_bind; [apply only_logs_printf | intros _].
      apply only_logs_bind; [apply only_logs_print_bits | intros _].
      apply only_logs_printf. }
    intros _. apply only_logs_bind.
    { apply only_logs_when.
      apply only_logs_bind; [apply only_logs_printf | intros _].
      apply only_logs_bind; [apply only_logs_print_bits | intros _].
      apply only_logs_printf. }
    intros _.
    apply only_logs_bind;
      [apply only_logs_show_test_state_any | intros _; apply only_logs_ret]. }
  destruct (A w) as (_ & tr & L & C).
  exists tr. split; [exact L|]. split; [exact C|].
  intros v I. destruct (C _ I) as [C1 _]. cbn [covers] in C1.
  rewrite Z.eqb_refl in C1. discriminate C1.
Qed.

(** ** The register test on a card that works *)

(** [reached w wk nb]: a run without clock or interrupt, started in [w],
    has come to [wk] after [nb] bus reads. *)
Definition reached (w wk : world) (nb : nat) : Prop :=
  exists acc, progress w wk nb 0 0 (a4091_save w) acc.

Lemma bind_result {A B : Type} (c : M A) (k : A -> M B) w a w' :
  c w = (a, w') -> bind c k w = k a w'.
Proof. intros H. rewrite bind_run, H. reflexivity. Qed.

Lemma reached_start w : reached w w 0.
Proof. exists []. apply progress_start. Qed.

Lemma reached_only_logs {A : Type} (c : M A) w wk nb :
  only_logs c -> reached w wk nb -> reached w (snd (c wk)) nb.
Proof.
  intros H [acc P]. exists acc. apply progress_only_logs; assumption.
Qed.

Lemma check_clean mode reg name rbits w wk nb :
  reached w wk nb ->
  Z.land (next_bus w nb) rbits = 0 ->
  exists wk',
    check_ncrreg_bits mode reg name rbits wk = (0, wk')
    /\ reached w wk' (S nb).
Proof.
  intros [acc P] H.
  destruct (progress_read8 _ _ _ _ _ _ _ reg P) as [V P1].
  exists (snd (get_ncrreg8 reg wk)). split.
  - unfold check_ncrreg_bits. rewrite bind_run, V, H. reflexivity.
  - eexists. exact P1.
Qed.

(** The six reads of a pass of the reserved-bit checks, from the [n]-th
    read on, show no reserved bit set. *)
Definition clean_pass (w : world) (n : nat) : Prop :=
  Z.land (next_bus w n) (Z.lor (BIT 1) (BIT 0)) = 0
  /\ Z.land (next_bus w (1 + n)) (BIT 6) = 0
  /\ Z.land (next_bus w (2 + n)) (Z.lor (BIT 7) (BIT 1)) = 0
  /\ Z.land (next_bus w (3 + n)) (BIT 7) = 0
  /\ Z.land (next_bus w (4 + n)) (Z.lor (BIT 4) (BIT 2)) = 0
  /\ Z.land (next_bus w (5 + n)) (Z.lor (BIT 7) (BIT 6)) = 0.

Lemma reserved_bits_pass_clean w wk n :
  reached w wk n -> clean_pass w n ->
  exists wk', reserved_bits_pass 0 wk = (0, wk') /\ reached w wk' (6 + n).
Proof.
  intros R (H1 & H2 & H3 & H4 & H5 & H6). unfold reserved_bits_pass.
  destruct (check_clean 0 REG_SCNTL1 "SCNTL1" _ w wk n R H1) as (w1 & E1 & R1).
  destruct (check_clean 0 REG_DSTAT "DSTAT" _ w w1 _ R1 H2) as (w2 & E2 & R2).
  destruct (check_clean 0 REG_CTEST0 "CTEST0" _ w w2 _ R2 H3)
    as (w3 & E3 & R3).
  destruct (check_clean 0 REG_CTEST0 "CTEST2" _ w w3 _ R3 H4)
    as (w4 & E4 & R4).
  destruct (check_clean 0 REG_ISTAT "ISTAT" _ w w4 _ R4 H5) as (w5 & E5 & R5).
  destruct (check_clean 0 REG_DIEN "DIEN" _ w w5 _ R5 H6) as (w6 & E6 & R6).
  exists w6. split; [|exact R6].
  rewrite (bind_result _ _ _ _ _ E1). rewrite (bind_result _ _ _ _ _ E2).
  rewrite (bind_result _ _ _ _ _ E3). rewrite (bind_result _ _ _ _ _ E4).
  rewrite (bind_result _ _ _ _ _ E5). rewrite (bind_result _ _ _ _ _ E6).
  reflexivity.
Qed.

Lemma reserved_bits_loop_clean w : forall passes wk n,
  reached w wk n ->
  (forall p, (p < passes)%nat -> clean_pass w (6 * p + n)) ->
  exists wk',
    reserved_bits_loop passes 0 wk = (0, wk')
    /\ reached w wk' (6 * passes + n).
Proof.
  induction passes as [|passes IH]; intros wk n R H.
  - exists wk. split; [reflexivity | exact R].
  - cbn [reserved_bits_loop].
    destruct (reserved_bits_pass_clean w wk n R (H 0%nat ltac:(lia)))
      as (w1 & E1 & R1).
    rewrite (bind_result _ _ _ _ _ E1). cbn [Z.eqb negb].
    destruct (IH w1 (6 + n)%nat R1) as (w2 & E2 & R2).
    { intros p Hp. replace (6 * p + (6 + n))%nat with (6 * S p + n)%nat by lia.
      apply H. lia. }
    exists w2. split; [exact E2|].
    replace (6 * S passes + n)%nat with (6 * passes + (6 + n))%nat by lia.
    exact R2.
Qed.

(** The state of the walking bits test after [rots] rounds in which both
    registers read back what was written. *)
Fixpoint walk_good (rots : nat) (patt : Z) (st : walk_state) : walk_state :=
  match rots with
  | O => st
  | S rots' =>
      let next := rotl1 patt in
      walk_good rots' next
        (mkWalk (ws_rc st)
                (Z.land (ws_stuck_high st) (Z.land patt next))
                (Z.land (ws_stuck_low st) (not32 (Z.lor patt next)))
                (ws_pins_diff st))
  end.

Lemma walk_report_same fmt v rc pins_diff :
  walk_report fmt v v rc pins_diff = ret (rc, pins_diff).
Proof. unfold walk_report. cbv zeta. rewrite Z.lxor_nilpotent. reflexivity. Qed.

Lemma walking_round_good w wk nb patt next st :
  reached w wk nb ->
  next_bus32 w nb = patt -> next_bus32 w (S nb) = next ->
  exists wk',
    walking_round patt next st wk
    = (mkWalk (ws_rc st)
              (Z.land (ws_stuck_high st) (Z.land patt next))
              (Z.land (ws_stuck_low st) (not32 (Z.lor patt next)))
              (ws_pins_diff st), wk')
    /\ reached w wk' (2 + nb).
Proof.
  intros [acc P] H1 H2.
  pose proof (progress_write32 _ _ _ _ _ _ _ REG_SCRATCH patt P) as P1.
  pose proof (progress_write32 _ _ _ _ _ _ _ REG_TEMP next P1) as P2.
  destruct (progress_read32 _ _ _ _ _ _ _ REG_SCRATCH P2) as [V3 P3].
  destruct (progress_read32 _ _ _ _ _ _ _ REG_TEMP P3) as [V4 P4].
  eexists. split; [| eexists; exact P4].
  unfold walking_round.
  rewrite bind_run. cbv beta. rewrite bind_run. cbv beta.
  rewrite bind_run. cbv beta. rewrite V3, H1.
  rewrite bind_run. cbv beta. rewrite V4, H2. cbv zeta.
  rewrite walk_report_same, bind_run. cbn [ret fst snd].
  rewrite walk_report_same, bind_run. reflexivity.
Qed.

Lemma walking_loop_good w : forall rots patt st wk nb,
  reached w wk nb ->
  (forall k, (k < rots)%nat ->
     next_bus32 w (2 * k + nb) = nth k (scratch_patterns rots patt) 0
     /\ next_bus32 w (S (2 * k + nb)) = nth k (temp_patterns rots patt) 0) ->
  exists wk',
    walking_loop rots patt st wk = (walk_good rots patt st, wk')
    /\ reached w wk' (2 * rots + nb).
Proof.
  induction rots as [|rots IH]; intros patt st wk nb R H.
  - exists wk. split; [reflexivity | exact R].
  - cbn [walking_loop walk_good]. cbv zeta.
    destruct (H 0%nat ltac:(lia)) as [H1 H2].
    cbn [Nat.mul Nat.add nth scratch_patterns temp_patterns] in H1, H2.
    unfold temp_patterns in H2. cbn [scratch_patterns nth] in H2.
    destruct (walking_round_good w wk nb patt (rotl1 patt) st R H1 H2)
      as (w1 & E1 & R1).
    rewrite (bind_result _ _ _ _ _ E1).
    destruct (IH (rotl1 patt)
                 (mkWalk (ws_rc st)
                    (Z.land (ws_stuck_high st) (Z.land patt (rotl1 patt)))
                    (Z.land (ws_stuck_low st)
                            (not32 (Z.lor patt (rotl1 patt))))
                    (ws_pins_diff st)) w1 (2 + nb)%nat R1)
      as (w2 & E2 & R2).
    { intros k Hk. destruct (H (S k) ltac:(lia)) as [K1 K2].
      unfold temp_patterns in *. cbn [scratch_patterns nth] in K1, K2.
      replace (2 * k + (2 + nb))%nat with (2 * S k + nb)%nat by lia.
      split; assumption. }
    exists w2. split; [exact E2|].
    replace (2 * S rots + nb)%nat with (2 * rots + (2 + nb))%nat by lia.
    exact R2.
Qed.

Lemma walk_good_all_rounds :
  walk_good 256 0xf0e7c3a5 (mkWalk 0 0xffffffff 0xffffffff 0)
  = mkWalk 0 0 0 0.
Proof. vm_compute. reflexivity. Qed.

(** A card that passes the register test: in each of the 100 passes the
    six registers read show no reserved bit; after the reset (whose two
    reads of ISTAT may show anything) ISTAT reads zero and DSTAT shows at
    most bit 7; and in each of the 256 rounds SCRATCH and TEMP read back
    what was just written. *)
Definition good_register_card (w : world) : Prop :=
  (forall p, (p < 100)%nat -> clean_pass w (6 * p))
  /\ Z.land (next_bus w 602) 0xff = 0
  /\ Z.land (next_bus w 603) 0x7f = 0
  /\ forall k, (k < 256)%nat ->
       next_bus32 w (2 * k + 604)
       = nth k (scratch_patterns 256 0xf0e7c3a5) 0
       /\ next_bus32 w (S (2 * k + 604))
          = nth k (temp_patterns 256 0xf0e7c3a5) 0.

(** On such a card [test_register_access] returns 0 after 1116 bus
    reads and its last output is PASS. *)
Theorem register_test_passes :
  forall w : world,
    good_register_card w ->
    fst (test_register_access w) = 0
    /\ reached w (snd (test_register_access w)) 1116
    /\ exists tr, log (snd (test_register_access w))
                  = log w ++ tr ++ [EvPrintf "PASS\n" []].
Proof.
  intros w (Hres & Hi & Hd & Hwalk).
  assert (E : exists wk tr,
             test_register_access w
             = (0, with_log (log wk ++ [EvPrintf "PASS\n" []]) wk)
             /\ reached w wk 1116 /\ log wk = log w ++ tr).
  { unfold test_register_access.
    pose proof (reached_only_logs (show_test_state "Register test:" (-1))
                  w w 0 (only_logs_show_test_state _) (reached_start w)) as R0.
    rewrite bind_run. cbv beta.
    set (w0 := snd (show_test_state "Register test:" (-1) w)) in *.
    destruct (reserved_bits_loop_clean w 100 w0 0 R0) as (w1 & E1 & R1).
    { intros p Hp. rewrite Nat.add_0_r. apply Hres, Hp. }
    rewrite (bind_result _ _ _ _ _ E1).
    rewrite bind_run. cbv beta.
    assert (R2 : reached w (snd (a4091_reset w1)) 602).
    { destruct R1 as [acc P]. eexists.
      exact (progress_reset _ _ _ _ _ _ _ P). }
    set (w2 := snd (a4091_reset w1)) in *.
    destruct (check_clean 1 REG_ISTAT "ISTAT" 0xff w w2 602 R2 Hi)
      as (w3 & E3 & R3).
    rewrite (bind_result _ _ _ _ _ E3).
    destruct (check_clean 1 REG_DSTAT "DSTAT" 0x7f w w3 603 R3 Hd)
      as (w4 & E4 & R4).
    rewrite (bind_result _ _ _ _ _ E4).
    change (0 + 0 + 0) with 0.
    destruct (walking_loop_good w 256 0xf0e7c3a5
                (mkWalk 0 0xffffffff 0xffffffff 0) w4 604 R4 Hwalk)
      as (w5 & E5 & R5).
    unfold walking_bits. rewrite (bind_result _ _ _ _ _ E5).
    rewrite walk_good_all_rounds.
    cbn [ws_rc ws_stuck_high ws_stuck_low ws_pins_diff].
    change (Z.land 0 (not32 (Z.lor 0 0))) with 0.
    change (negb (0 =? 0)) with false. cbn [when].
    rewrite bind_run. cbn [ret fst snd].
    rewrite bind_run. cbn [ret fst snd].
    rewrite bind_run. cbn [ret fst snd].
    rewrite bind_run. cbn [ret fst snd].
    exists w5.
    destruct R5 as [acc [F S5 (tr & L5 & A5)]].
    exists tr. split; [reflexivity|]. split; [|exact L5].
    exists acc. constructor; [exact F | exact S5 |].
    exists tr. split; assumption. }
  destruct E as (wk & tr & E & R & L). rewrite E. cbn [fst snd].
  split; [reflexivity|]. split.
  - apply (reached_only_logs (printf "PASS\n" []) w wk 1116
             (only_logs_printf _ _) R).
  - exists tr. cbn [log with_log]. rewrite L, app_assoc. reflexivity.
Qed.

(** A card of that kind: registers that read zero, and SCRATCH and TEMP
    that return the patterns of the walk in the order they are written. *)
Fixpoint walk_values (rots : nat) (patt : Z) : list Z :=
  match rots with
  | O => []
  | S rots' => patt :: rotl1 patt :: walk_values rots' (rotl1 patt)
  end.

Definition walked : list Z := Eval cbv in walk_values 256 0xf0e7c3a5.

Definition good_card_tape (k : nat) : Z :=
  if (k <? 604)%nat then 0 else nth (k - 604) walked 0.

Definition good_register_world : world :=
  idle_world good_card_tape (fun _ => 0) no_irqs.

Lemma register_test_passes_witness :
  fst (test_register_access good_register_world) = 0.
Proof.
  refine (proj1 (register_test_passes good_register_world _)).
  assert (Z0 : forall n, (n < 604)%nat -> next_bus good_register_world n = 0).
  { intros n Hn. unfold next_bus, good_register_world, idle_world.
    cbn [bus_tape bus_pos]. unfold good_card_tape.
    rewrite Nat.add_0_r.
    destruct (Nat.ltb_spec n 604) as [_|K]; [reflexivity | lia]. }
  split; [|split; [|split]].
  - intros p Hp. unfold clean_pass.
    rewrite !Z0 by lia. repeat split; reflexivity.
  - rewrite Z0 by lia. reflexivity.
  - rewrite Z0 by lia. reflexivity.
  - intros k Hk.
    assert (C : forallb
                  (fun k =>
                     (next_bus32 good_register_world (2 * k + 604)
                      =? nth k (scratch_patterns 256 0xf0e7c3a5) 0)
                     && (next_bus32 good_register_world (S (2 * k + 604))
                         =? nth k (temp_patterns 256 0xf0e7c3a5) 0))
                  (seq 0 256) = true)
      by (vm_compute; reflexivity).
    rewrite forallb_forall in C.
    specialize (C k ltac:(apply in_seq; lia)).
    apply andb_true_iff in C. destruct C as [C1 C2].
    apply Z.eqb_eq in C1, C2. split; assumption.
Defined.

(** ** The test dispatcher *)

Module TestCard.

(** The eight tests [test_card] can run, each with the value it returns. *)
Record tests : Type := mkTests {
  test_device_access   : M Z;
  test_register_access : M Z;
  test_dma_fifo        : M Z;
  test_scsi_fifo       : M Z;
  test_dma             : M Z;
  test_dma_copy        : M Z;
  test_dma_copy_perf   : M Z;
  test_scsi_pins       : M Z
}.

(** How a call of [test_card] ends: it returns [rc], it leaves the program
    through [exit(code)], or its takeover is still waiting. *)
Inductive ending : Type :=
| Returned (rc : Z)
| Exited (code : Z)
| Unfinished.

Section Card.

(** The clock rate, the addresses of the session and of the handler, the
    rounds granted to the wait of the takeover, and what
    [SetSignal(0, 0) & SIGBREAKF_CTRL_C] gives, not zero being [true]. *)
Variables TICKS_PER_SECOND a4091_save_ptr a4091_irq_handler_ptr : Z.
Variable fuel : nat.
Variable ctrl_c : M bool.

(** [check_break]; [true] stands for the [exit(1)]. *)
Definition check_break : M bool :=
  hit <- ctrl_c ;;
  if hit : bool then printf "^C Abort\n" [] ;; ret true else ret false.

(** [if ((rc == 0) && (test_flags & BIT(bit))) rc = test();]. *)
Definition guarded (test_flags bit rc : Z) (test : M Z) : M Z :=
  if (rc =? 0) && negb (Z.land test_flags (BIT bit) =? 0) then test
  else ret rc.

(** [check_break();] and what follows it. *)
Definition after_break (rest : M ending) : M ending :=
  stop <- check_break ;;
  if stop : bool then ret (Exited 1) else rest.

(** [test_card]. *)
Definition test_card (t : tests) (test_flags : Z) : M ending :=
  let rc := 0 in
  let test_flags := if test_flags =? 0 then wrap32 (-1) else test_flags in
  taken <- a4091_state_takeover TICKS_PER_SECOND a4091_save_ptr
                                a4091_irq_handler_ptr fuel ;;
  if taken : bool then
    rc <- guarded test_flags 0 rc (test_device_access t) ;;
    after_break (
    rc <- guarded test_flags 1 rc (test_register_access t) ;;
    after_break (
    rc <- guarded test_flags 2 rc (test_dma_fifo t) ;;
    after_break (
    rc <- guarded test_flags 3 rc (test_scsi_fifo t) ;;
    after_break (
    rc <- guarded test_flags 4 rc (test_dma t) ;;
    after_break (
    rc <- guarded test_flags 5 rc (test_dma_copy t) ;;
    after_break (
    rc <- guarded test_flags 6 rc (test_dma_copy_perf t) ;;
    after_break (
    rc <- guarded test_flags 7 rc (test_scsi_pins t) ;;
    a4091_state_restore ;;
    ret (Returned rc))))))))
  else ret Unfinished.

(** The tests in the order of their bits. *)
Definition slots (t : tests) : list (M Z) :=
  [test_device_access t; test_register_access t; test_dma_fifo t;
   test_scsi_fifo t; test_dma t; test_dma_copy t; test_dma_copy_perf t;
   test_scsi_pins t].

Definition slot (t : tests) (k : nat) : M Z := nth k (slots t) (ret 0).

(** The flags [test_card] goes by. *)
Definition effective (test_flags : Z) : Z :=
  if test_flags =? 0 then wrap32 (-1) else test_flags.

(** The tests from bit [bit] on, as [test_card] runs them. *)
Fixpoint run_tests (test_flags bit : Z) (ts : list (M Z)) (rc : Z)
  : M ending :=
  match ts with
  | [] => a4091_state_restore ;; ret (Returned rc)
  | test :: rest =>
      after_break (rc' <- guarded test_flags bit rc test ;;
                   run_tests test_flags (bit + 1) rest rc')
  end.

Lemma test_card_runs t test_flags :
  test_card t test_flags
  = (taken <- a4091_state_takeover TICKS_PER_SECOND a4091_save_ptr
                                   a4091_irq_handler_ptr fuel ;;
     if taken : bool then
       rc <- guarded (effective test_flags) 0 0 (test_device_access t) ;;
       run_tests (effective test_flags) 1 (tl (slots t)) rc
     else ret Unfinished).
Proof. reflexivity. Qed.

Lemma after_break_ext (a b : M ending) w :
  (forall w', a w' = b w') -> after_break a w = after_break b w.
Proof.
  intros H. unfold after_break. rewrite !bind_run.
  destruct (fst (check_break w)); [reflexivity | apply H].
Qed.

Lemma bind_ext {A B : Type} (c : M A) (k k' : A -> M B) w :
  (forall a w', k a w' = k' a w') -> bind c k w = bind c k' w.
Proof. intros H. rewrite !bind_run. apply H. Qed.

(** After a failure the tests still to come are not run. *)
Lemma run_tests_failed test_flags : forall ts ts' bit rc w,
  rc <> 0 -> List.length ts = List.length ts' ->
  run_tests test_flags bit ts rc w = run_tests test_flags bit ts' rc w.
Proof.
  induction ts as [|a ts IH]; intros ts' bit rc w Hrc Hl;
    destruct ts' as [|a' ts']; try discriminate Hl; [reflexivity|].
  cbn [run_tests]. apply after_break_ext. intros w'.
  unfold guarded. apply Z.eqb_neq in Hrc. rewrite Hrc. cbn [andb].
  rewrite !bind_run. cbn [ret fst snd]. apply IH.
  - apply Z.eqb_neq. exact Hrc.
  - cbn [List.length] in Hl. lia.
Qed.

(** A test whose bit is clear is not run. *)
Lemma run_tests_unselected test_flags : forall ts ts' bit rc w (k : nat),
  Z.land test_flags (BIT (bit + Z.of_nat k)) = 0 ->
  List.length ts = List.length ts' ->
  (forall i, i <> k -> nth i ts' (ret 0) = nth i ts (ret 0)) ->
  run_tests test_flags bit ts rc w = run_tests test_flags bit ts' rc w.
Proof.
  induction ts as [|a ts IH]; intros ts' bit rc w k Hb Hl Hs;
    destruct ts' as [|a' ts']; try discriminate Hl; [reflexivity|].
  cbn [run_tests]. apply after_break_ext. intros w'.
  destruct k as [|k].
  - rewrite Z.add_0_r in Hb.
    assert (G : forall x, guarded test_flags bit rc x = ret rc).
    { intros x. unfold guarded. rewrite Hb. cbn [Z.eqb negb].
      rewrite andb_false_r. reflexivity. }
    rewrite !G, !bind_run. cbn [ret fst snd].
    assert (E : ts' = ts).
    { apply nth_ext with (d := ret 0) (d' := ret 0).
      - cbn [List.length] in Hl. lia.
      - intros n _. exact (Hs (S n) ltac:(lia)). }
    rewrite E. reflexivity.
  - assert (Ea : a' = a) by exact (Hs 0%nat ltac:(lia)).
    rewrite Ea. apply bind_ext. intros rc' w''.
    apply (IH ts' (bit + 1) rc' w'' k).
    + replace (bit + 1 + Z.of_nat k) with (bit + Z.of_nat (S k)) by lia.
      exact Hb.
    + cbn [List.length] in Hl. lia.
    + intros i Hi. exact (Hs (S i) ltac:(lia)).
Qed.

(** A selected test that fails ends the run of the tests. *)
Lemma run_tests_stops test_flags : forall ts ts' bit rc w (k : nat),
  Z.land test_flags (BIT (bit + Z.of_nat k)) <> 0 ->
  (forall w', fst (nth k ts (ret 0) w') <> 0) ->
  List.length ts = List.length ts' ->
  (forall i, (i <= k)%nat -> nth i ts' (ret 0) = nth i ts (ret 0)) ->
  run_tests test_flags bit ts rc w = run_tests test_flags bit ts' rc w.
Proof.
  induction ts as [|a ts IH]; intros ts' bit rc w k Hb Hf Hl Hs;
    destruct ts' as [|a' ts']; try discriminate Hl; [reflexivity|].
  cbn [run_tests]. apply after_break_ext. intros w'.
  assert (Ea : a' = a) by exact (Hs 0%nat ltac:(lia)).
  rewrite Ea.
  destruct k as [|k].
  - rewrite Z.add_0_r in Hb. cbn [nth] in Hf.
    rewrite !bind_run.
    apply run_tests_failed; [| cbn [List.length] in Hl; lia].
    unfold guarded. apply Z.eqb_neq in Hb. rewrite Hb. cbn [negb].
    rewrite andb_true_r.
    destruct (rc =? 0) eqn:C; [apply Hf|].
    cbn [ret fst]. apply Z.eqb_neq. exact C.
  - apply bind_ext. intros rc' w''.
    apply (IH ts' (bit + 1) rc' w'' k).
    + replace (bit + 1 + Z.of_nat k) with (bit + Z.of_nat (S k)) by lia.
      exact Hb.
    + exact Hf.
    + cbn [List.length] in Hl. lia.
    + intros i Hi. exact (Hs (S i) ltac:(lia)).
Qed.

(** [n] checks for Control-C and the restore: what is left of
    [test_card] when no test is run. *)
Fixpoint idle_run (n : nat) (rc : Z) : M ending :=
  match n with
  | O => a4091_state_restore ;; ret (Returned rc)
  | S n' => after_break (idle_run n' rc)
  end.

Lemma run_tests_idle test_flags : forall ts bit rc w,
  (forall i, (i < List.length ts)%nat ->
     Z.land test_flags (BIT (bit + Z.of_nat i)) = 0) ->
  run_tests test_flags bit ts rc w = idle_run (List.length ts) rc w.
Proof.
  induction ts as [|a ts IH]; intros bit rc w H; [reflexivity|].
  cbn [run_tests List.length idle_run]. apply after_break_ext. intros w'.
  assert (G : guarded test_flags bit rc a = ret rc).
  { unfold guarded. pose proof (H 0%nat ltac:(cbn; lia)) as H0.
    rewrite Z.add_0_r in H0. rewrite H0. cbn [Z.eqb negb].
    rewrite andb_false_r. reflexivity. }
  rewrite G, bind_run. cbn [ret fst snd]. apply IH.
  intros i Hi. replace (bit + 1 + Z.of_nat i) with (bit + Z.of_nat (S i)) by lia.
  apply H. cbn [List.length]. lia.
Qed.

Lemma slot_tail t i : nth i (tl (slots t)) (ret 0) = slot t (S i).
Proof. reflexivity. Qed.

Lemma low_bit_clear test_flags (k : nat) :
  (k < 8)%nat -> Z.land test_flags 0xff = 0 ->
  Z.land test_flags (BIT (Z.of_nat k)) = 0.
Proof.
  intros Hk H.
  assert (E : BIT (Z.of_nat k) = Z.land 0xff (BIT (Z.of_nat k))).
  { do 8 (destruct k as [|k]; [reflexivity|]). lia. }
  rewrite E, Z.land_assoc, H. reflexivity.
Qed.

(** Which tests [test_card] runs.  A test whose bit is clear in the
    flags (all bits count as set when the flags are zero) is not run: the
    outcome is the same with any other test in its place.  A selected test
    that fails is the last one run: the outcome is the same with any other
    tests after it.  Flags that are not zero and have none of the bits 0
    to 7 run no test at all, and the call returns 0 unless it is
    interrupted. *)
Theorem test_card_selection :
  forall (t t' : tests) (test_flags : Z) (w : world) (k : nat),
    (k < 8)%nat ->
    (Z.land (effective test_flags) (BIT (Z.of_nat k)) = 0 ->
     (forall i, i <> k -> slot t' i = slot t i) ->
     test_card t test_flags w = test_card t' test_flags w)
    /\ (Z.land (effective test_flags) (BIT (Z.of_nat k)) <> 0 ->
        (forall w', fst (slot t k w') <> 0) ->
        (forall i, (i <= k)%nat -> slot t' i = slot t i) ->
        test_card t test_flags w = test_card t' test_flags w)
    /\ (test_flags <> 0 -> Z.land test_flags 0xff = 0 ->
        test_card t test_flags w
        = test_card (mkTests (ret 1) (ret 1) (ret 1) (ret 1)
                             (ret 1) (ret 1) (ret 1) (ret 1)) test_flags w
        /\ ((forall w', fst (ctrl_c w') = false) ->
            fst (test_card t test_flags w) = Returned 0
            \/ fst (test_card t test_flags w) = Unfinished)).
Proof.
  intros t t' test_flags w k Hk.
  assert (Len : forall a b : tests,
             List.length (tl (slots a)) = List.length (tl (slots b)))
    by reflexivity.
  split; [|split].
  - intros Hb Hs. rewrite !test_card_runs. apply bind_ext.
    intros taken w1. destruct taken; [|reflexivity].
    destruct k as [|k].
    + assert (G : forall x, guarded (effective test_flags) 0 0 x = ret 0).
      { intros x. unfold guarded. change (Z.of_nat 0) with 0 in Hb.
        rewrite Hb. reflexivity. }
      rewrite !G, !bind_run. cbn [ret fst snd].
      assert (E : tl (slots t') = tl (slots t)).
      { apply nth_ext with (d := ret 0) (d' := ret 0); [apply Len|].
        intros n _. rewrite !slot_tail. apply Hs. lia. }
      rewrite E. reflexivity.
    + assert (E0 : test_device_access t' = test_device_access t)
        by exact (Hs 0%nat ltac:(lia)).
      rewrite E0. apply bind_ext. intros rc w2.
      apply (run_tests_unselected _ _ _ 1 rc w2 k).
      * replace (1 + Z.of_nat k) with (Z.of_nat (S k)) by lia. exact Hb.
      * apply Len.
      * intros i Hi. rewrite !slot_tail. apply Hs. lia.
  - intros Hb Hf Hs. rewrite !test_card_runs. apply bind_ext.
    intros taken w1. destruct taken; [|reflexivity].
    assert (E0 : test_device_access t' = test_device_access t)
      by exact (Hs 0%nat ltac:(lia)).
    rewrite E0.
    destruct k as [|k].
    + rewrite !bind_run. apply run_tests_failed; [| apply Len].
      unfold guarded. change (Z.of_nat 0) with 0 in Hb.
      apply Z.eqb_neq in Hb. rewrite Hb. cbn [Z.eqb negb andb].
      apply (Hf w1).
    + apply bind_ext. intros rc w2.
      apply (run_tests_stops _ _ _ 1 rc w2 k).
      * replace (1 + Z.of_nat k) with (Z.of_nat (S k)) by lia. exact Hb.
      * intros w'. rewrite slot_tail. apply Hf.
      * apply Len.
      * intros i Hi. rewrite !slot_tail. apply Hs. lia.
  - intros Hnz Hlow.
    assert (Eff : effective test_flags = test_flags).
    { unfold effective. apply Z.eqb_neq in Hnz. rewrite Hnz. reflexivity. }
    assert (G : forall (bit : nat) rc x, (bit < 8)%nat ->
               guarded test_flags (Z.of_nat bit) rc x = ret rc).
    { intros bit rc x Hbit. unfold guarded.
      rewrite (low_bit_clear test_flags bit Hbit Hlow). cbn [Z.eqb negb].
      rewrite andb_false_r. reflexivity. }
    assert (R : forall u : tests,
               test_card u test_flags w
               = (taken <- a4091_state_takeover TICKS_PER_SECOND a4091_save_ptr
                                                a4091_irq_handler_ptr fuel ;;
                  if taken : bool then
                    after_break (after_break (after_break (after_break
                    (after_break (after_break (after_break
                       (a4091_state_restore ;; ret (Returned 0))))))))
                  else ret Unfinished) w).
    { intros u. rewrite test_card_runs, Eff. apply bind_ext.
      intros taken w1. destruct taken; [|reflexivity].
      rewrite (G 0%nat) by lia. rewrite bind_run. cbn [ret fst snd].
      exact (run_tests_idle test_flags (tl (slots u)) 1 0 w1
               ltac:(intros i Hi; cbn [List.length slots tl] in Hi;
                     replace (1 + Z.of_nat i) with (Z.of_nat (S i)) by lia;
                     apply low_bit_clear; [lia | exact Hlow])). }
    split; [rewrite (R t), (R (mkTests _ _ _ _ _ _ _ _)); reflexivity|].
    intros Hc. rewrite (R t). rewrite bind_run.
    destruct (fst (a4091_state_takeover _ _ _ _ w)); [|right; reflexivity].
    left.
    assert (B : forall (rest : M ending) w',
               fst (after_break rest w')
               = fst (rest (snd (check_break w')))).
    { intros rest w'. unfold after_break. rewrite bind_run.
      assert (F : fst (check_break w') = false).
      { unfold check_break. rewrite bind_run, Hc. reflexivity. }
      rewrite F. reflexivity. }
    rewrite !B. reflexivity.
Qed.

(** The end of the program after [exit]: what [atexit] registered is
    called. *)
Definition exit_program : M unit :=
  fun w =>
    when (negb (cleanup_installed (a4091_save w) =? 0)) a4091_cleanup w.

(** The state a call of [test_card] leaves for the rest of the system:
    the one it returns in, or the one the program ends in. *)
Definition state_left (r : ending * world) : world :=
  match fst r with
  | Exited _ => snd (exit_program (snd r))
  | _ => snd r
  end.

Lemma keeps_chain_check_break : keeps_chain ctrl_c -> keeps_chain check_break.
Proof.
  intros H. unfold check_break.
  apply keeps_chain_bind; [exact H | intros hit].
  destruct hit; [|apply keeps_chain_ret].
  apply keeps_chain_bind; [apply keeps_chain_printf | intros _].
  apply keeps_chain_ret.
Qed.

Lemma keeps_chain_guarded test_flags bit rc test :
  keeps_chain test -> keeps_chain (guarded test_flags bit rc test).
Proof.
  intros H. unfold guarded.
  destruct (_ && _); [exact H | apply keeps_chain_ret].
Qed.

(** A step that makes no register access keeps the place reached on the
    tapes and the accesses made so far. *)
Lemma progress_silent {A : Type} (c : M A) w wk nb nt ni sv acc :
  silent c ->
  progress w wk nb nt ni sv acc ->
  progress w (snd (c wk)) nb nt ni (a4091_save (snd (c wk))) acc.
Proof.
  intros S [F _ (tr & L & B)]. destruct (S wk) as [F' (tr' & L' & B')].
  constructor.
  - exact (frame_trans _ _ _ _ _ _ _ _ _ F F').
  - reflexivity.
  - exists (tr ++ tr'). split.
    + rewrite L', L, app_assoc. reflexivity.
    + rewrite bus_accesses_app, B, B'. apply app_nil_r.
Qed.

Lemma silent_enable_driver : silent a4091_enable_driver_irq_handler.
Proof.
  intros w. unfold a4091_enable_driver_irq_handler.
  destruct (driver_isr (a4091_save w)) as [node|].
  - assert (S : silent
                  (debug FLAG_DEBUG
                     (printf "Restoring NCR SCSI driver IRQ handler\n" []) ;;
                   AddIntServer A4091_IRQ node ;;
                   modify_save (set_driver_isr None)))
      by (repeat silent_step).
    apply (S w).
  - apply (silent_ret tt w).
Qed.

Lemma silent_remove_local : silent a4091_remove_local_irq_handler.
Proof.
  intros w. unfold a4091_remove_local_irq_handler.
  destruct (local_isr (a4091_save w)) as [node|].
  - assert (S : silent
                  (RemIntServer A4091_IRQ node ;;
                   emit (EvFreeMem (is_ptr node)) ;;
                   modify_save (set_local_isr None)))
      by (repeat silent_step).
    apply (S w).
  - apply (silent_ret tt w).
Qed.

(** The register accesses of a restore that finds the card owned are
    those of [a4091_reset]. *)
Lemma restore_resets w0 :
  card_owned (a4091_save w0) <> 0 ->
  exists tr,
    log (snd (a4091_state_restore w0)) = log w0 ++ tr
    /\ bus_accesses tr = reset_accesses w0 0.
Proof.
  intros Hown. unfold a4091_state_restore.
  apply Z.eqb_neq in Hown. rewrite Hown.
  rewrite snd_seq.
  pose proof (progress_silent (modify_save (set_card_owned 0)) _ _ _ _ _ _ _
                (silent_modify _) (progress_start w0)) as P1.
  set (w1 := snd (modify_save (set_card_owned 0) w0)) in *.
  rewrite snd_seq.
  pose proof (progress_reset _ _ _ _ _ _ _ P1) as P2.
  set (w2 := snd (a4091_reset w1)) in *.
  rewrite snd_seq.
  pose proof (progress_silent _ _ _ _ _ _ _ _ silent_enable_driver P2) as P3.
  set (w3 := snd (a4091_enable_driver_irq_handler w2)) in *.
  rewrite snd_seq.
  pose proof (progress_silent _ _ _ _ _ _ _ _ silent_remove_local P3) as P4.
  set (w4 := snd (a4091_remove_local_irq_handler w3)) in *.
  assert (S5 : silent
                 (when (negb (intcount (a4091_save w4) =? 0)
                        && flag_set w4 FLAG_DEBUG)
                       (printf
                          "Interrupt count=%d ISTAT=%02x SSTAT0=%02x DSTAT=%02x SIEN=%02x\n"
                          [PInt (intcount (a4091_save w4));
                           PInt (ireg_istat (a4091_save w4));
                           PInt (ireg_sstat0 (a4091_save w4));
                           PInt (ireg_dstat (a4091_save w4));
                           PInt (ireg_sien (a4091_save w4))])))
    by (apply silent_when, silent_printf).
  pose proof (progress_silent _ _ _ _ _ _ _ _ S5 P4) as P5.
  destruct P5 as [_ _ (tr & L & B)].
  exists tr. split; [exact L | exact B].
Qed.

(** The tests and the signal checks done, the call ends in a restore of
    a card that is still owned: the one [test_card] makes before it
    returns, or the one the registered cleanup makes after [exit]. *)
Lemma run_tests_released test_flags : forall ts bit rc w,
  keeps_chain ctrl_c ->
  (forall test, In test ts -> keeps_chain test) ->
  exists w0,
    view_of w0 = view_of w
    /\ fst (run_tests test_flags bit ts rc w) <> Unfinished
    /\ (cleanup_installed (a4091_save w) <> 0 ->
        state_left (run_tests test_flags bit ts rc w)
        = snd (a4091_state_restore w0)).
Proof.
  induction ts as [|a ts IH]; intros bit rc w Hc Ht.
  - exists w. cbn [run_tests]. unfold state_left. rewrite bind_run.
    cbn [ret fst snd]. split; [reflexivity|]. split; [discriminate|].
    intros _. reflexivity.
  - cbn [run_tests]. unfold after_break. rewrite bind_run.
    pose proof (keeps_chain_check_break Hc w) as K.
    set (w1 := snd (check_break w)) in *.
    destruct (fst (check_break w)).
    + exists w1. split; [exact K|]. cbn [ret fst snd].
      split; [discriminate|]. intros Hi.
      unfold state_left, exit_program. cbn [ret fst snd].
      assert (N : negb (cleanup_installed (a4091_save w1) =? 0) = true).
      { apply negb_true_iff, Z.eqb_neq.
        pose proof (f_equal (fun v : chain_view => snd (fst (fst (fst v)))) K)
          as C.
        unfold view_of in C. cbn [fst snd] in C. rewrite C. exact Hi. }
      rewrite N. reflexivity.
    + rewrite bind_run.
      pose proof (keeps_chain_guarded test_flags bit rc a
                    (Ht a (or_introl eq_refl)) w1) as G.
      set (w2 := snd (guarded test_flags bit rc a w1)) in *.
      destruct (IH (bit + 1) (fst (guarded test_flags bit rc a w1)) w2 Hc
                   (fun x Hx => Ht x (or_intror Hx)))
        as (w0 & V & Fin & St).
      exists w0. split; [rewrite V, G; exact K|]. split; [exact Fin|].
      intros Hi. apply St.
      pose proof (f_equal (fun v : chain_view => snd (fst (fst (fst v))))
                    (eq_trans G K)) as C.
      unfold view_of in C. cbn [fst snd] in C. rewrite C. exact Hi.
Qed.

(** However a call of [test_card] ends, the card is released.  The call
    ends in a run of [a4091_state_restore] on the card still owned: the
    one before the return, or, after an [exit] on Control-C, the one the
    cleanup makes that the takeover registered.  That restore resets the
    chip, its register accesses being those of [a4091_reset], and leaves
    the session without owner and without saved nodes, the local server
    out of the chain and the driver's server back in it: the chain is the
    one a takeover followed at once by a restore leaves.  The tests and
    the signal check leave the chain and the session's ownership, saved
    nodes and registration alone, and the chain is the one of the system
    as the call begins. *)
Theorem test_card_releases :
  forall (t : tests) (test_flags : Z) (w : world),
    keeps_chain ctrl_c ->
    (forall test, In test (slots t) -> keeps_chain test) ->
    card_owned (a4091_save w) = 0 ->
    local_isr (a4091_save w) = None ->
    driver_isr (a4091_save w) = None ->
    NoDup (map is_ptr (int_servers w)) ->
    ~ In (isr_alloc w) (map is_ptr (int_servers w)) ->
    descending (int_servers w) = true ->
    isr_alloc w <> 0 ->
    fst (test_card t test_flags w) <> Unfinished ->
    let w' := state_left (test_card t test_flags w) in
    int_servers w' = chain_after (int_servers w)
    /\ card_owned (a4091_save w') = 0
    /\ local_isr (a4091_save w') = None
    /\ driver_isr (a4091_save w') = None
    /\ exists w0 tr,
         card_owned (a4091_save w0) <> 0
         /\ w' = snd (a4091_state_restore w0)
         /\ log w' = log w0 ++ tr
         /\ bus_accesses tr = reset_accesses w0 0.
Proof.
  intros t test_flags w Hc Ht Hown Hloc Hdrv ND Fresh D Got Hfin w'.
  unfold w'. clear w'.
  rewrite test_card_runs in Hfin |- *. rewrite bind_run in Hfin |- *.
  pose proof (takeover_view TICKS_PER_SECOND a4091_save_ptr
                a4091_irq_handler_ptr fuel w Hown) as VT.
  set (w1 := snd (a4091_state_takeover _ _ _ fuel w)) in *.
  destruct (fst (a4091_state_takeover _ _ _ fuel w));
    [| exfalso; apply Hfin; reflexivity].
  rewrite bind_run.
  pose proof (keeps_chain_guarded (effective test_flags) 0 0 _
                (Ht _ (or_introl eq_refl)) w1) as G.
  set (w2 := snd (guarded (effective test_flags) 0 0
                          (test_device_access t) w1)) in *.
  destruct (run_tests_released (effective test_flags) (tl (slots t)) 1
              (fst (guarded (effective test_flags) 0 0
                            (test_device_access t) w1)) w2 Hc
              (fun x Hx => Ht x (or_intror Hx)))
    as (w0 & V & _ & St).
  assert (V0 : view_of w0 = view_of w1) by (rewrite V; exact G).
  cbv zeta in VT. rewrite <- V0 in VT. unfold view_of in VT.
  apply Z.eqb_neq in Got. rewrite Got in VT.
  pose proof (f_equal (fun v : chain_view => fst (fst (fst (fst (fst v)))))
                VT) as C1.
  pose proof (f_equal (fun v : chain_view => snd (fst (fst (fst v)))) VT)
    as C2.
  pose proof (f_equal (fun v : chain_view => snd (fst (fst v))) VT) as C3.
  pose proof (f_equal (fun v : chain_view => snd (fst v)) VT) as C4.
  pose proof (f_equal (fun v : chain_view => snd v) VT) as C5.
  cbn [fst snd] in C1, C2, C3, C4, C5. clear VT.
  assert (O0 : card_owned (a4091_save w0) <> 0) by (rewrite C3; discriminate).
  assert (I2 : cleanup_installed (a4091_save w2) <> 0).
  { pose proof (f_equal (fun v : chain_view => snd (fst (fst (fst v)))) V)
      as C.
    unfold view_of in C. cbn [fst snd] in C. rewrite <- C, C2.
    destruct (cleanup_installed (a4091_save w) =? 0) eqn:E;
      [discriminate | apply Z.eqb_neq in E; exact E]. }
  rewrite (St I2).
  pose proof (restore_view w0 O0) as VR.
  cbv zeta in VR. unfold view_of in VR.
  rewrite C1, C4, C5, Hdrv in VR.
  pose proof (f_equal (fun v : chain_view => fst (fst (fst (fst (fst v)))))
                VR) as E1.
  pose proof (f_equal (fun v : chain_view => snd (fst (fst v))) VR) as E3.
  pose proof (f_equal (fun v : chain_view => snd (fst v)) VR) as E4.
  pose proof (f_equal (fun v : chain_view => snd v) VR) as E5.
  cbn [fst snd] in E1, E3, E4, E5. clear VR.
  split; [| split; [exact E3 | split; [exact E4 | split; [exact E5|]]]].
  - rewrite E1.
    exact (round_trip_chain a4091_save_ptr a4091_irq_handler_ptr
             (isr_alloc w) (int_servers w) ND Fresh D).
  - destruct (restore_resets w0 O0) as (tr & L & B).
    exists w0, tr. split; [exact O0|]. split; [reflexivity|].
    split; [exact L | exact B].
Qed.

End Card.

(** Tests that pass without touching the card, but for the register test,
    which fails. *)
Definition register_fails : tests :=
  mkTests (ret 0) (ret 3) (ret 0) (ret 0) (ret 0) (ret 0) (ret 0) (ret 0).

Definition then_others_fail : tests :=
  mkTests (ret 0) (ret 3) (ret 5) (ret 5) (ret 5) (ret 5) (ret 5) (ret 5).

Lemma test_card_selection_witness :
  test_card 50 0x07d00000 0x07c00000 4 (ret false) register_fails 0
            rst_latched_world
  = test_card 50 0x07d00000 0x07c00000 4 (ret false) then_others_fail 0
              rst_latched_world
  /\ fst (test_card 50 0x07d00000 0x07c00000 4 (ret false) register_fails 0
                    rst_latched_world) = Returned 3.
Proof.
  split.
  - refine (proj1 (proj2 (test_card_selection 50 0x07d00000 0x07c00000 4
                            (ret false) register_fails then_others_fail 0
                            rst_latched_world 1 _)) _ _ _).
    + lia.
    + discriminate.
    + intros w'. discriminate.
    + intros i Hi. destruct i as [|[|i]]; [reflexivity | reflexivity | lia].
  - vm_compute. reflexivity.
Defined.

Lemma test_card_releases_witness :
  int_servers
    (state_left
       (test_card 50 0x07d00000 0x07c00000 4 (ret true) register_fails 2
                  rst_latched_world))
  = [ncr_scsi_server]
  /\ fst (test_card 50 0x07d00000 0x07c00000 4 (ret true) register_fails 2
                    rst_latched_world) = Exited 1.
Proof.
  split.
  - refine (proj1 (test_card_releases 50 0x07d00000 0x07c00000 4 (ret true)
                     register_fails 2 rst_latched_world
                     _ _ _ _ _ _ _ _ _ _)).
    + intros w. reflexivity.
    + intros test Ht w. cbn in Ht.
      repeat (destruct Ht as [<-|Ht]; [reflexivity|]). destruct Ht.
    + reflexivity.
    + reflexivity.
    + reflexivity.
    + repeat constructor. intros [].
    + cbn. intros [H|[]]. discriminate H.
    + reflexivity.
    + discriminate.
    + vm_compute. discriminate.
  - vm_compute. reflexivity.
Defined.

End TestCard.

(** ** Memory helpers of the DMA tests *)

Module Memory.

(** The long word at [a] of a memory that holds a byte per address: the
    68k stores the most significant byte first. *)
Definition read32 (m : Z -> Z) (a : Z) : Z :=
  wrap8 (m a) * 16777216 + wrap8 (m (a + 1)) * 65536
  + wrap8 (m (a + 2)) * 256 + wrap8 (m (a + 3)).

(** [while (len-- > 0) if ( *(addr++) != 0) return (1);] with [words]
    long words still to look at. *)
Fixpoint mem_not_zero_loop (m : Z -> Z) (words : nat) (addr : Z) : Z :=
  match words with
  | O => 0
  | S words' =>
      if negb (read32 m addr =? 0) then 1
      else mem_not_zero_loop m words' (addr + 4)
  end.

(** [mem_not_zero]: [len >>= 2] on a [uint]. *)
Definition mem_not_zero (m : Z -> Z) (paddr len : Z) : Z :=
  mem_not_zero_loop m (Z.to_nat (Z.shiftr (wrap32 len) 2)) (wrap32 paddr).

Lemma read32_zero m a :
  read32 m a = 0
  <-> wrap8 (m a) = 0 /\ wrap8 (m (a + 1)) = 0
      /\ wrap8 (m (a + 2)) = 0 /\ wrap8 (m (a + 3)) = 0.
Proof.
  unfold read32.
  pose proof (wrap8_range (m a)). pose proof (wrap8_range (m (a + 1))).
  pose proof (wrap8_range (m (a + 2))). pose proof (wrap8_range (m (a + 3))).
  lia.
Qed.

Lemma mem_not_zero_loop_spec m : forall words addr,
  (mem_not_zero_loop m words addr = 0
   <-> forall a, addr <= a < addr + 4 * Z.of_nat words -> wrap8 (m a) = 0)
  /\ (mem_not_zero_loop m words addr = 0
      \/ mem_not_zero_loop m words addr = 1).
Proof.
  induction words as [|words IH]; intros addr; cbn [mem_not_zero_loop].
  - split; [|left; reflexivity]. split; [intros _ a Ha; lia | reflexivity].
  - destruct (read32 m addr =? 0) eqn:E; cbn [negb].
    + apply Z.eqb_eq, read32_zero in E. destruct E as (E0 & E1 & E2 & E3).
      destruct (IH (addr + 4)) as [I1 I2]. split; [|exact I2].
      rewrite I1. split.
      * intros H a Ha.
        destruct (Z.eq_dec a addr) as [->|]; [exact E0|].
        destruct (Z.eq_dec a (addr + 1)) as [->|]; [exact E1|].
        destruct (Z.eq_dec a (addr + 2)) as [->|]; [exact E2|].
        destruct (Z.eq_dec a (addr + 3)) as [->|]; [exact E3|].
        apply H. lia.
      * intros H a Ha. apply H. lia.
    + split; [|right; reflexivity]. split; [discriminate|].
      intros H. exfalso. apply Z.eqb_neq in E. apply E. apply read32_zero.
      repeat split; apply H; lia.
Qed.

(** [mem_not_zero] returns 0 when every byte of the whole long words of
    the block is zero and 1 otherwise; the one to three bytes that are
    left when [len] is not a multiple of four are not looked at. *)
Theorem mem_not_zero_whole_words :
  forall (m : Z -> Z) (paddr len : Z),
    0 <= paddr < 4294967296 -> 0 <= len < 4294967296 ->
    paddr + len <= 4294967296 ->
    (mem_not_zero m paddr len = 0
     <-> forall a, paddr <= a < paddr + 4 * (len / 4) -> wrap8 (m a) = 0)
    /\ (mem_not_zero m paddr len = 0 \/ mem_not_zero m paddr len = 1)
    /\ forall m' : Z -> Z,
         (forall a, paddr <= a < paddr + 4 * (len / 4) -> m' a = m a) ->
         mem_not_zero m' paddr len = mem_not_zero m paddr len.
Proof.
  intros m paddr len Hp Hl Hfit.
  assert (W : forall x, mem_not_zero x paddr len
                        = mem_not_zero_loop x (Z.to_nat (len / 4)) paddr).
  { intros x. unfold mem_not_zero.
    rewrite !wrap32_small by lia. rewrite Z.shiftr_div_pow2 by lia.
    reflexivity. }
  assert (N : Z.of_nat (Z.to_nat (len / 4)) = len / 4)
    by (apply Z2Nat.id, Z.div_pos; lia).
  destruct (mem_not_zero_loop_spec m (Z.to_nat (len / 4)) paddr) as [S1 S2].
  rewrite N in S1. rewrite !W. split; [exact S1|]. split; [exact S2|].
  intros m' Hm.
  destruct (mem_not_zero_loop_spec m' (Z.to_nat (len / 4)) paddr)
    as [T1 T2].
  rewrite N in T1.
  destruct S2 as [S2|S2], T2 as [T2|T2]; try congruence.
  - exfalso. assert (K : mem_not_zero_loop m' (Z.to_nat (len / 4)) paddr = 0).
    { apply T1. intros a Ha. rewrite Hm by exact Ha.
      apply (proj1 S1 S2). exact Ha. }
    congruence.
  - exfalso. assert (K : mem_not_zero_loop m (Z.to_nat (len / 4)) paddr = 0).
    { apply S1. intros a Ha. rewrite <- Hm by exact Ha.
      apply (proj1 T1 T2). exact Ha. }
    congruence.
Qed.

(** A block of six bytes at 0x1000 whose last byte is 0xff: the test
    looks at the first long word only. *)
Definition tail_byte_set : Z -> Z := fun a => if a =? 0x1005 then 0xff else 0.

Lemma mem_not_zero_whole_words_witness :
  mem_not_zero tail_byte_set 0x1000 6 = 0.
Proof.
  apply (proj1 (mem_not_zero_whole_words tail_byte_set 0x1000 6
                  ltac:(lia) ltac:(lia) ltac:(lia))).
  intros a Ha. change (6 / 4) with 1 in Ha. unfold tail_byte_set.
  destruct (Z.eqb_spec a 0x1005) as [E|_]; [lia | reflexivity].
Defined.

(** What [AllocMem_aligned] asks of the system. *)
Inductive aevent : Type :=
| AForbid
| APermit
| AAllocMem (byteSize requirements result : Z)
| AFreeMem (memoryBlock byteSize : Z)
| AAllocAbs (byteSize location result : Z).

(** [AllocMem_aligned]: the value returned and the calls made, [got]
    being what [AllocMem] returns and [abs] what [AllocAbs] returns; 0 is
    [NULL]. *)
Definition AllocMem_aligned (MEMF_PUBLIC got abs len alignment : Z)
  : Z * list aevent :=
  let size := wrap32 (len + alignment) in
  let addr := wrap32 got in
  if negb (addr =? 0) then
    let location :=
      Z.land (wrap32 (wrap32 (addr + alignment) - 1))
             (not32 (wrap32 (alignment - 1))) in
    (wrap32 abs,
     [AForbid; AAllocMem size MEMF_PUBLIC addr; AFreeMem addr size;
      AAllocAbs len location (wrap32 abs); APermit])
  else
    (addr, [AForbid; AAllocMem size MEMF_PUBLIC addr; APermit]).

Lemma align_up x k :
  0 <= x -> 0 <= k < 32 -> x + 2 ^ k <= 4294967296 ->
  Z.land (x + 2 ^ k - 1) (not32 (2 ^ k - 1))
  = 2 ^ k * ((x + 2 ^ k - 1) / 2 ^ k).
Proof.
  intros Hx Hk Hfit.
  assert (P : 0 < 2 ^ k) by (apply Z.pow_pos_nonneg; lia).
  assert (P32 : 2 ^ k <= 2 ^ 31) by (apply Z.pow_le_mono_r; lia).
  set (y := x + 2 ^ k - 1).
  assert (Hy : 0 <= y < 2 ^ 32) by (unfold y; change (2 ^ 32) with 4294967296; lia).
  unfold not32, wrap32. change 4294967296 with (2 ^ 32).
  rewrite <- Z.land_ones by lia.
  replace (2 ^ k - 1) with (Z.ones k) by (rewrite Z.ones_equiv; lia).
  assert (Y : Z.land y (Z.ones 32) = y).
  { rewrite Z.land_ones by lia. apply Z.mod_small. exact Hy. }
  rewrite (Z.land_comm (Z.lnot (Z.ones k))), Z.land_assoc, Y.
  rewrite <- Z.ldiff_land.
  rewrite Z.ldiff_ones_r by lia.
  rewrite Z.shiftl_mul_pow2, Z.shiftr_div_pow2 by lia. lia.
Qed.

(** [AllocMem_aligned] asks [AllocAbs] for a block that starts at a
    multiple of [alignment], not below the block [AllocMem] had just
    returned and was given back, and lies inside it; when [AllocMem]
    fails, it frees and asks for nothing and returns [NULL].  Either way
    the calls are made between [Forbid] and [Permit].  [alignment] is a
    power of two and the first block lies in the address space. *)
Theorem AllocMem_aligned_inside :
  forall (MEMF_PUBLIC got abs len k : Z),
    0 <= k < 32 -> 0 < len -> 0 < got ->
    got + len + 2 ^ k <= 4294967296 ->
    exists location,
      snd (AllocMem_aligned MEMF_PUBLIC got abs len (2 ^ k))
      = [AForbid; AAllocMem (len + 2 ^ k) MEMF_PUBLIC got;
         AFreeMem got (len + 2 ^ k);
         AAllocAbs len location (wrap32 abs); APermit]
      /\ location mod 2 ^ k = 0
      /\ got <= location < got + 2 ^ k
      /\ location + len <= got + (len + 2 ^ k)
      /\ fst (AllocMem_aligned MEMF_PUBLIC got abs len (2 ^ k)) = wrap32 abs
      /\ AllocMem_aligned MEMF_PUBLIC 0 abs len (2 ^ k)
         = (0, [AForbid; AAllocMem (len + 2 ^ k) MEMF_PUBLIC 0; APermit]).
Proof.
  intros MP got abs len k Hk Hl Hg Hfit.
  assert (P : 0 < 2 ^ k) by (apply Z.pow_pos_nonneg; lia).
  pose proof (align_up got k ltac:(lia) Hk) as A.
  remember (2 ^ k) as al eqn:Eal.
  specialize (A ltac:(lia)).
  unfold AllocMem_aligned.
  rewrite (wrap32_small got) by lia.
  rewrite (wrap32_small (len + al)) by lia.
  rewrite (wrap32_small (got + al)) by lia.
  rewrite (wrap32_small (got + al - 1)) by lia.
  rewrite (wrap32_small (al - 1)) by lia.
  assert (G : (got =? 0) = false) by (apply Z.eqb_neq; lia).
  rewrite G. cbn [negb fst snd]. rewrite A.
  set (q := (got + al - 1) / al).
  exists (al * q). split; [reflexivity|].
  pose proof (Z.div_mod (got + al - 1) al ltac:(lia)) as D.
  pose proof (Z.mod_pos_bound (got + al - 1) al P) as M.
  fold q in D.
  split; [rewrite Z.mul_comm; apply Z.mod_mul; lia|].
  split; [lia|]. split; [lia|]. split; reflexivity.
Qed.

Lemma AllocMem_aligned_inside_witness :
  snd (AllocMem_aligned 1 0x07e00123 0x07e00130 0x1000 16)
  = [AForbid; AAllocMem 0x1010 1 0x07e00123; AFreeMem 0x07e00123 0x1010;
     AAllocAbs 0x1000 0x07e00130 0x07e00130; APermit].
Proof.
  destruct (AllocMem_aligned_inside 1 0x07e00123 0x07e00130 0x1000 4
              ltac:(lia) ltac:(lia) ltac:(lia) ltac:(cbn; lia))
    as (location & E & _).
  reflexivity.
Defined.

End Memory.

(** ** Initializing the SIOP for DMA *)

Definition REG_DMODE       : Z := 0x3b.
Definition REG_DMODE_FC2   : Z := Eval cbv in BIT 5.
Definition REG_DMODE_BLE3  : Z := Eval cbv in Z.lor (BIT 6) (BIT 7).
Definition REG_DCNTL_COM   : Z := Eval cbv in BIT 0.
Definition REG_DCNTL_CFD2  : Z := 0.
Definition REG_DSTAT_ABRT  : Z := Eval cbv in BIT 4.
Definition REG_CTEST4_CDIS : Z := Eval cbv in BIT 7.

Section Siop.

Variable TICKS_PER_SECOND : Z.

(** The wait of [a4091_abort]:
<<
    while ((get_ncrreg8(REG_DSTAT) & REG_DSTAT_ABRT) == 0)
        if (access_timeout("DSTAT_ABRT timeout", 2, tick_start))
            break;
>>
    [true] when the loop is left within [fuel] rounds. *)
Fixpoint abort_wait (fuel : nat) (tick_start : Z) : M bool :=
  match fuel with
  | O => ret false
  | S fuel' =>
      v <- get_ncrreg8 REG_DSTAT ;;
      if Z.land v REG_DSTAT_ABRT =? 0 then
        expired <- access_timeout TICKS_PER_SECOND "DSTAT_ABRT timeout" 2
                                  tick_start ;;
        if expired : bool then ret true else abort_wait fuel' tick_start
      else ret true
  end.

(** [a4091_abort]. *)
Definition a4091_abort (fuel : nat) : M bool :=
  istat <- get_ncrreg8 REG_ISTAT ;;
  set_ncrreg8 REG_ISTAT (Z.lor istat REG_ISTAT_ABRT) ;;
  _ <- get_ncrreg8 REG_ISTAT ;;
  tick_start <- read_system_ticks ;;
  abort_wait fuel tick_start.

(** The last loop of [dma_init_siop]:
<<
    while (((istat = get_ncrreg8(REG_ISTAT)) & 0x03) != 0) {
        if (istat & REG_ISTAT_SIP) (void) get_ncrreg8(REG_SSTAT0);
        if (istat & REG_ISTAT_DIP) (void) get_ncrreg8(REG_DSTAT);
        if (istat & (REG_ISTAT_DIP | REG_ISTAT_SIP)) Delay(1);
    }
>>
    [true] when the loop is left within [fuel] rounds. *)
Fixpoint clear_pending (fuel : nat) : M bool :=
  match fuel with
  | O => ret false
  | S fuel' =>
      istat <- get_ncrreg8 REG_ISTAT ;;
      if Z.land istat 0x03 =? 0 then ret true
      else
        when (negb (Z.land istat REG_ISTAT_SIP =? 0))
             (_ <- get_ncrreg8 REG_SSTAT0 ;; ret tt) ;;
        when (negb (Z.land istat REG_ISTAT_DIP =? 0))
             (_ <- get_ncrreg8 REG_DSTAT ;; ret tt) ;;
        when (negb (Z.land istat (Z.lor REG_ISTAT_DIP REG_ISTAT_SIP) =? 0))
             (Delay 1) ;;
        clear_pending fuel'
  end.

(** [dma_init_siop], with [burst_mode] the constant 8 it is in the
    source; [true] when it returns within the rounds granted to its two
    loops. *)
Definition dma_init_siop (fuel_abort fuel_clear : nat) : M bool :=
  debug FLAG_MORE_DEBUG (printf "Initializing SIOP\n" []) ;;
  aborted <- a4091_abort fuel_abort ;;
  if aborted : bool then
    a4091_reset ;;
    set_ncrreg8 REG_DCNTL (Z.lor REG_DCNTL_CFD2 REG_DCNTL_COM) ;;
    set_ncrreg8 REG_DMODE (Z.lor REG_DMODE_BLE3 REG_DMODE_FC2) ;;
    ctest7 <- get_ncrreg8 REG_CTEST7 ;;
    set_ncrreg8 REG_CTEST7 (Z.lor ctest7 REG_CTEST4_CDIS) ;;
    clear_pending fuel_clear
  else ret false.

(** [ahead c]: [c] leaves the bus tape as it is and does not step back on
    it. *)
Definition ahead {A : Type} (c : M A) : Prop :=
  forall w, bus_tape (snd (c w)) = bus_tape w
            /\ (bus_pos w <= bus_pos (snd (c w)))%nat.

Lemma ahead_ret {A : Type} (a : A) : ahead (ret a).
Proof. intros w. split; [reflexivity | apply Nat.le_refl]. Qed.

Lemma ahead_bind {A B : Type} (c : M A) (k : A -> M B) :
  ahead c -> (forall a, ahead (k a)) -> ahead (bind c k).
Proof.
  intros Hc Hk w. rewrite snd_bind.
  destruct (Hc w) as [T1 P1].
  destruct (Hk (fst (c w)) (snd (c w))) as [T2 P2].
  split; [congruence | lia].
Qed.

Lemma ahead_only_logs {A : Type} (c : M A) : only_logs c -> ahead c.
Proof.
  intros H w. destruct (H w) as (tr & E & _). rewrite E.
  split; [reflexivity | apply Nat.le_refl].
Qed.

Lemma ahead_get8 reg : ahead (get_ncrreg8 reg).
Proof. intros w. split; [reflexivity | cbn; lia]. Qed.

Lemma ahead_set8 reg v : ahead (set_ncrreg8 reg v).
Proof. intros w. split; [reflexivity | apply Nat.le_refl]. Qed.

Lemma ahead_ticks : ahead read_system_ticks.
Proof. intros w. split; [reflexivity | apply Nat.le_refl]. Qed.

Lemma ahead_access_timeout msg ticks ts :
  ahead (access_timeout TICKS_PER_SECOND msg ticks ts).
Proof.
  intros w.
  destruct (access_timeout_run TICKS_PER_SECOND msg ticks ts w)
    as (tr & E & _).
  rewrite E. split; [reflexivity | apply Nat.le_refl].
Qed.

Lemma ahead_abort_wait ts : forall fuel, ahead (abort_wait fuel ts).
Proof.
  induction fuel as [|fuel IH]; cbn [abort_wait]; [apply ahead_ret|].
  apply ahead_bind; [apply ahead_get8 | intros v].
  destruct (Z.land v REG_DSTAT_ABRT =? 0); [| apply ahead_ret].
  apply ahead_bind; [apply ahead_access_timeout | intros expired].
  destruct expired; [apply ahead_ret | exact IH].
Qed.

Lemma ahead_reset : ahead a4091_reset.
Proof.
  unfold a4091_reset.
  repeat (apply ahead_bind;
          [first [apply ahead_set8 | apply ahead_get8] | intros ?]).
  apply ahead_set8.
Qed.

(** Every read still to come shows an interrupt pending. *)
Definition always_pending (w : world) : Prop :=
  forall k, Z.land (next_bus w k) 0x03 <> 0.

Lemma always_pending_ahead w w' :
  bus_tape w' = bus_tape w -> (bus_pos w <= bus_pos w')%nat ->
  always_pending w -> always_pending w'.
Proof.
  intros T P H k. unfold next_bus. rewrite T.
  replace (k + bus_pos w')%nat
    with ((k + (bus_pos w' - bus_pos w)) + bus_pos w)%nat by lia.
  apply H.
Qed.

Lemma clear_pending_stuck : forall fuel w,
  always_pending w -> fst (clear_pending fuel w) = false.
Proof.
  induction fuel as [|fuel IH]; intros w H; [reflexivity|].
  cbn [clear_pending]. rewrite bind_run.
  change (fst (get_ncrreg8 REG_ISTAT w)) with (next_bus w 0).
  pose proof (H 0%nat) as H0. apply Z.eqb_neq in H0. rewrite H0.
  set (istat := next_bus w 0).
  match goal with
  | |- fst ((?a ;; ?b ;; ?c ;; clear_pending fuel) ?x) = false =>
      assert (A : ahead (a ;; b ;; c))
  end.
  { apply ahead_bind.
    { destruct (negb _); [|apply ahead_ret].
      apply ahead_bind; [apply ahead_get8 | intros _; apply ahead_ret]. }
    intros _. apply ahead_bind.
    { destruct (negb _); [|apply ahead_ret].
      apply ahead_bind; [apply ahead_get8 | intros _; apply ahead_ret]. }
    intros _. destruct (negb _); [|apply ahead_ret].
    apply ahead_only_logs. apply only_logs_emit. reflexivity. }
  rewrite bind_run, bind_run, bind_run.
  apply IH.
  assert (G : ahead (get_ncrreg8 REG_ISTAT)) by apply ahead_get8.
  destruct (G w) as [T0 P0].
  set (w0 := snd (get_ncrreg8 REG_ISTAT w)) in *.
  destruct (A w0) as [T1 P1].
  apply (always_pending_ahead w); [| | exact H].
  - rewrite <- T0. exact T1.
  - exact (Nat.le_trans _ _ _ P0 P1).
Qed.

Lemma progress_ticks w wk nb nt ni sv acc :
  progress w wk nb nt ni sv acc ->
  progress w (snd (read_system_ticks wk)) nb (S nt) ni sv acc.
Proof.
  intros [[Fb Ff Fbt Ftt Fit Fbp Ftp Fip] Sv (tr & L & A)].
  unfold read_system_ticks. cbn [snd]. constructor.
  - constructor; cbn [a4091_base runtime_flags bus_tape tick_tape irq_tape
                      bus_pos tick_pos irq_pos with_log with_tick_pos];
      try assumption.
    rewrite Ftp. reflexivity.
  - exact Sv.
  - exists (tr ++ [EvTicks (wrap64 (tick_tape wk (tick_pos wk)))]). split.
    + cbn [log with_log]. rewrite L, <- app_assoc. reflexivity.
    + rewrite bus_accesses_app, A. apply app_nil_r.
Qed.

Lemma ahead_abort fuel : ahead (a4091_abort fuel).
Proof.
  unfold a4091_abort.
  apply ahead_bind; [apply ahead_get8 | intros istat].
  apply ahead_bind; [apply ahead_set8 | intros _].
  apply ahead_bind; [apply ahead_get8 | intros _].
  apply ahead_bind; [apply ahead_ticks | intros ts].
  apply ahead_abort_wait.
Qed.

(** [dma_init_siop] has no way out of its last loop while the card shows
    an interrupt pending: if bit 0 or bit 1 is set in every byte the bus
    returns (as on a bus that floats high, where every read gives 0xff),
    the call does not return, however many rounds it is given.  On a card
    that shows the abort at once and no interrupt pending, it returns
    after the first round of each loop. *)
Theorem dma_init_siop_no_way_out :
  forall w : world,
    (always_pending w ->
     forall fuel_abort fuel_clear,
       fst (dma_init_siop fuel_abort fuel_clear w) = false)
    /\ (Z.land (next_bus w 2) REG_DSTAT_ABRT <> 0 ->
        Z.land (next_bus w 6) 0x03 = 0 ->
        forall fuel_abort fuel_clear,
          fst (dma_init_siop (S fuel_abort) (S fuel_clear) w) = true).
Proof.
  intros w. split.
  - intros H fa fc. unfold dma_init_siop. rewrite bind_run, bind_run.
    set (w0 := snd (debug FLAG_MORE_DEBUG (printf "Initializing SIOP\n" []) w)).
    assert (A0 : ahead (debug FLAG_MORE_DEBUG
                          (printf "Initializing SIOP\n" [])))
      by (apply ahead_only_logs, only_logs_debug, only_logs_printf).
    destruct (A0 w) as [T0 P0]. fold w0 in T0, P0.
    destruct (ahead_abort fa w0) as [T1 P1].
    set (w1 := snd (a4091_abort fa w0)) in *.
    destruct (fst (a4091_abort fa w0)); [|reflexivity].
    rewrite bind_run, bind_run, bind_run, bind_run, bind_run.
    apply clear_pending_stuck.
    match goal with
    | |- always_pending (snd (?s3 (snd (?g (snd (?s2 (snd (?s1 (snd (?r w1)))))))))) =>
        assert (A : ahead (r ;; s1 ;; s2 ;; _ <- g ;; s3))
    end.
    { apply ahead_bind; [apply ahead_reset | intros _].
      apply ahead_bind; [apply ahead_set8 | intros _].
      apply ahead_bind; [apply ahead_set8 | intros _].
      apply ahead_bind; [apply ahead_get8 | intros _].
      apply ahead_set8. }
    destruct (A w1) as [T2 P2].
    apply (always_pending_ahead w); [| | exact H].
    + rewrite <- T0, <- T1. exact T2.
    + exact (Nat.le_trans _ _ _ P0 (Nat.le_trans _ _ _ P1 P2)).
  - intros Ha Hc fa fc. unfold dma_init_siop. rewrite bind_run.
    pose proof (progress_only_logs
                  (debug FLAG_MORE_DEBUG (printf "Initializing SIOP\n" []))
                  w w 0 0 0 (a4091_save w) []
                  (only_logs_debug _ _ (only_logs_printf _ _))
                  (progress_start w)) as P0.
    set (w0 := snd (debug FLAG_MORE_DEBUG (printf "Initializing SIOP\n" []) w))
      in *.
    destruct (progress_read8 _ _ _ _ _ _ _ REG_ISTAT P0) as [V1 P1].
    set (w1 := snd (get_ncrreg8 REG_ISTAT w0)) in *.
    pose proof (progress_write8 _ _ _ _ _ _ _ REG_ISTAT
                  (Z.lor (next_bus w 0) REG_ISTAT_ABRT) P1) as P2.
    set (w2 := snd (set_ncrreg8 REG_ISTAT
                      (Z.lor (next_bus w 0) REG_ISTAT_ABRT) w1)) in *.
    destruct (progress_read8 _ _ _ _ _ _ _ REG_ISTAT P2) as [V3 P3].
    set (w3 := snd (get_ncrreg8 REG_ISTAT w2)) in *.
    pose proof (progress_ticks _ _ _ _ _ _ _ P3) as P4.
    set (w4 := snd (read_system_ticks w3)) in *.
    destruct (progress_read8 _ _ _ _ _ _ _ REG_DSTAT P4) as [V5 P5].
    set (w5 := snd (get_ncrreg8 REG_DSTAT w4)) in *.
    assert (EA : a4091_abort (S fa) w0 = (true, w5)).
    { unfold a4091_abort. rewrite bind_run, V1. fold w1.
      rewrite bind_run. fold w2. rewrite bind_run. fold w3.
      rewrite bind_run. fold w4. cbn [abort_wait].
      rewrite bind_run, V5. fold w5.
      apply Z.eqb_neq in Ha. rewrite Ha. reflexivity. }
    rewrite (bind_result _ _ _ _ _ EA).
    pose proof (progress_reset _ _ _ _ _ _ _ P5) as P6.
    cbn [Nat.add] in P6.
    set (w6 := snd (a4091_reset w5)) in *.
    rewrite bind_run. fold w6.
    pose proof (progress_write8 _ _ _ _ _ _ _ REG_DCNTL
                  (Z.lor REG_DCNTL_CFD2 REG_DCNTL_COM) P6) as P7.
    rewrite bind_run.
    set (w7 := snd (set_ncrreg8 REG_DCNTL
                      (Z.lor REG_DCNTL_CFD2 REG_DCNTL_COM) w6)) in *.
    pose proof (progress_write8 _ _ _ _ _ _ _ REG_DMODE
                  (Z.lor REG_DMODE_BLE3 REG_DMODE_FC2) P7) as P8.
    rewrite bind_run.
    set (w8 := snd (set_ncrreg8 REG_DMODE
                      (Z.lor REG_DMODE_BLE3 REG_DMODE_FC2) w7)) in *.
    destruct (progress_read8 _ _ _ _ _ _ _ REG_CTEST7 P8) as [V9 P9].
    rewrite bind_run, V9.
    set (w9 := snd (get_ncrreg8 REG_CTEST7 w8)) in *.
    pose proof (progress_write8 _ _ _ _ _ _ _ REG_CTEST7
                  (Z.lor (next_bus w 5) REG_CTEST4_CDIS) P9) as P10.
    rewrite bind_run.
    set (w10 := snd (set_ncrreg8 REG_CTEST7
                       (Z.lor (next_bus w 5) REG_CTEST4_CDIS) w9)) in *.
    destruct (progress_read8 _ _ _ _ _ _ _ REG_ISTAT P10) as [V11 _].
    cbn [clear_pending]. rewrite bind_run, V11, Hc. reflexivity.
Qed.

End Siop.

(** A bus that floats high: every read gives 0xff. *)
Definition floating_world : world :=
  idle_world (fun _ => 0xff) (fun _ => 0) no_irqs.

Lemma dma_init_siop_no_way_out_witness :
  fst (dma_init_siop 50 3 1000 floating_world) = false.
Proof.
  refine (proj1 (dma_init_siop_no_way_out 50 floating_world) _ 3%nat 1000%nat).
  intros k. discriminate.
Defined.

(** ** SCSI pin test: the walk on the control lines *)

Definition scsi_control_pins : list string :=
  ["SCTRL_IO"; "SCTRL_CD"; "SCTRL_MSG"; "SCTRL_ATN";
   "SCTRL_SEL"; "SCTRL_BSY"; "SCTRL_ACK"; "SCTRL_REQ"]%string.

Section ControlWalk.

(** The loops of the pin test start with [bit = -1], for which [BIT(bit)]
    shifts by a negative count: the value of that shift is not defined by
    the language and is left open here. *)
Variable shift_by_minus_one : Z.

Definition BIT_from_minus_one (bit : Z) : Z :=
  if bit <? 0 then shift_by_minus_one else BIT bit.

(** [uint8_t dout = BIT(bit); if (pass == 1) dout = (uint8_t) ~dout;]. *)
Definition control_dout (pass bit : Z) : Z :=
  let dout := wrap8 (BIT_from_minus_one bit) in
  if pass =? 1 then not8 dout else dout.

(** The rounds the control walk leaves out. *)
Definition control_skipped (dout : Z) : bool :=
  (dout =? 0x80) || (dout =? 0x40) || (dout =? 0xf7)
  || negb (Z.land dout (BIT 3) =? 0).

(** One round of the walk on SOCL and SBCL. *)
Definition control_round (pass bit : Z) (st : walk_state) : M walk_state :=
  let dout := control_dout pass bit in
  if control_skipped dout then ret st
  else
    set_ncrreg8 REG_SOCL dout ;;
    din <- get_ncrreg8 REG_SBCL ;;
    let stuck_high := Z.land (ws_stuck_high st) din in
    let stuck_low := Z.land (ws_stuck_low st) (not32 din) in
    let diff := wrap8 (Z.lxor din dout) in
    if negb (diff =? 0) then
      let pins_diff := Z.lor (ws_pins_diff st) diff in
      when (ws_rc st =? 0) (printf "\n" []) ;;
      let rc := ws_rc st + 1 in
      when (rc <=? 8)
           (printf "SCSI control %02x != expected %02x (diff %02x"
                   [PInt din; PInt dout; PInt diff] ;;
            print_bits scsi_control_pins diff ;;
            printf ")\n" []) ;;
      ret (mkWalk rc stuck_high stuck_low pins_diff)
    else ret (mkWalk (ws_rc st) stuck_high stuck_low (ws_pins_diff st)).

(** [for (bit = ...; bit < 8; bit++)] over the bits still to come. *)
Fixpoint control_bits (pass : Z) (bits : list Z) (st : walk_state)
  : M walk_state :=
  match bits with
  | [] => ret st
  | bit :: rest =>
      st' <- control_round pass bit st ;;
      control_bits pass rest st'
  end.

(** The walk on the control lines, entered with the [rc] so far. *)
Definition control_walk (rc : Z) : M walk_state :=
  st <- control_bits 0 [-1; 0; 1; 2; 3; 4; 5; 6; 7] (mkWalk rc 0xff 0xff 0) ;;
  control_bits 1 [-1; 0; 1; 2; 3; 4; 5; 6; 7] st.

(** The accesses of a round that starts after [nb] bus reads, and the
    number of its reads. *)
Definition round_accesses (w : world) (nb : nat) (pass bit : Z)
  : list event :=
  if control_skipped (control_dout pass bit) then []
  else [EvWrite8 (wr_addr w REG_SOCL) (control_dout pass bit);
        EvRead8 (rd_addr w REG_SBCL) (next_bus w nb)].

Definition round_reads (pass bit : Z) : nat :=
  if control_skipped (control_dout pass bit) then 0%nat else 1%nat.

Fixpoint bits_accesses (w : world) (nb : nat) (pass : Z) (bits : list Z)
  : list event :=
  match bits with
  | [] => []
  | bit :: rest =>
      round_accesses w nb pass bit
      ++ bits_accesses w (round_reads pass bit + nb) pass rest
  end.

Fixpoint bits_reads (pass : Z) (bits : list Z) : nat :=
  match bits with
  | [] => 0%nat
  | bit :: rest => (bits_reads pass rest + round_reads pass bit)%nat
  end.

Lemma control_dout_byte pass bit :
  wrap8 (control_dout pass bit) = control_dout pass bit.
Proof.
  unfold control_dout, not8. cbv zeta. destruct (pass =? 1); apply wrap8_idem.
Qed.

Lemma control_round_run pass bit st w wk nb nt ni sv acc :
  progress w wk nb nt ni sv acc ->
  progress w (snd (control_round pass bit st wk))
           (round_reads pass bit + nb) nt ni sv
           (acc ++ round_accesses w nb pass bit).
Proof.
  intros P. unfold control_round, round_reads, round_accesses. cbv zeta.
  destruct (control_skipped (control_dout pass bit)).
  - cbn [ret snd Nat.add]. rewrite app_nil_r. exact P.
  - pose proof (progress_write8 _ _ _ _ _ _ _ REG_SOCL
                  (control_dout pass bit) P) as P1.
    rewrite control_dout_byte in P1.
    destruct (progress_read8 _ _ _ _ _ _ _ REG_SBCL P1) as [_ P2].
    rewrite <- app_assoc in P2. cbn [app] in P2.
    rewrite snd_seq, snd_bind.
    apply progress_only_logs; [|exact P2].
    destruct (negb _); [|apply only_logs_ret].
    apply only_logs_bind; [apply only_logs_when, only_logs_printf | intros _].
    apply only_logs_bind; [| intros _; apply only_logs_ret].
    apply only_logs_when.
    apply only_logs_bind; [apply only_logs_printf | intros _].
    apply only_logs_bind; [apply only_logs_print_bits | intros _].
    apply only_logs_printf.
Qed.

Lemma control_bits_run pass w nt ni sv : forall bits st wk nb acc,
  progress w wk nb nt ni sv acc ->
  progress w (snd (control_bits pass bits st wk))
           (bits_reads pass bits + nb) nt ni sv
           (acc ++ bits_accesses w nb pass bits).
Proof.
  induction bits as [|bit rest IH]; intros st wk nb acc P.
  - cbn. rewrite app_nil_r. exact P.
  - cbn [control_bits bits_accesses bits_reads]. rewrite snd_bind.
    rewrite app_assoc.
    replace (bits_reads pass rest + round_reads pass bit + nb)%nat
      with (bits_reads pass rest + (round_reads pass bit + nb))%nat by lia.
    apply IH. apply control_round_run. exact P.
Qed.

(** The values the walk may write to SOCL in its rounds with [bit] from
    0 to 7: one line driven, and that line not SEL, ACK or REQ. *)
Definition driven_alone : list Z := [0x01; 0x02; 0x04; 0x10; 0x20].

Lemma bits_accesses_cons w nb pass bit rest :
  bits_accesses w nb pass (bit :: rest)
  = round_accesses w nb pass bit
    ++ bits_accesses w (round_reads pass bit + nb) pass rest.
Proof. reflexivity. Qed.

Lemma writes_of_ones w nb :
  bus_writes (bits_accesses w nb 0 [0; 1; 2; 3; 4; 5; 6; 7])
  = map (EvWrite8 (wr_addr w REG_SOCL)) driven_alone.
Proof. reflexivity. Qed.

Lemma writes_of_zeros w nb :
  bus_writes (bits_accesses w nb 1 [0; 1; 2; 3; 4; 5; 6; 7]) = [].
Proof. reflexivity. Qed.

(** The walk on the control lines writes nothing but SOCL, never a
    value with the SEL bit set and never 0x80, 0x40 or 0xf7.  Its
    walking-zero pass leaves out every one of the rounds for bits 0 to 7,
    so that no pattern with a single line released is ever driven: apart
    from the two rounds of the shift by -1, the writes of the whole walk
    are the five patterns 0x01, 0x02, 0x04, 0x10 and 0x20. *)
Theorem control_walk_writes :
  forall (rc : Z) (w : world),
    let writes := bus_writes (appended w (snd (control_walk rc w))) in
    (forall e, In e writes ->
       exists v, e = EvWrite8 (wr_addr w REG_SOCL) v
                 /\ Z.land v (BIT 3) = 0
                 /\ v <> 0x80 /\ v <> 0x40 /\ v <> 0xf7)
    /\ (forall bit st, 0 <= bit <= 7 -> control_round 1 bit st = ret st)
    /\ writes
       = bus_writes (round_accesses w 0 0 (-1))
         ++ map (EvWrite8 (wr_addr w REG_SOCL)) driven_alone
         ++ bus_writes (round_accesses w 0 1 (-1)).
Proof.
  intros rc w writes.
  assert (W : writes
              = bus_writes (round_accesses w 0 0 (-1))
                ++ map (EvWrite8 (wr_addr w REG_SOCL)) driven_alone
                ++ bus_writes (round_accesses w 0 1 (-1))).
  { subst writes. unfold control_walk.
    pose proof (control_bits_run 0 w 0 0 (a4091_save w)
                  [-1; 0; 1; 2; 3; 4; 5; 6; 7] (mkWalk rc 0xff 0xff 0)
                  w 0 [] (progress_start w)) as P1.
    rewrite snd_bind.
    set (w1 := snd (control_bits 0 [-1; 0; 1; 2; 3; 4; 5; 6; 7]
                      (mkWalk rc 0xff 0xff 0) w)) in *.
    pose proof (control_bits_run 1 w 0 0 (a4091_save w)
                  [-1; 0; 1; 2; 3; 4; 5; 6; 7]
                  (fst (control_bits 0 [-1; 0; 1; 2; 3; 4; 5; 6; 7]
                          (mkWalk rc 0xff 0xff 0) w))
                  w1 _ _ P1) as P2.
    destruct P2 as [_ _ (tr & L & A)].
    rewrite (appended_with_log w tr _ L).
    rewrite <- bus_writes_accesses, A. cbn [app].
    rewrite bus_writes_app.
    rewrite (bits_accesses_cons w _ 0 (-1)), (bits_accesses_cons w _ 1 (-1)).
    rewrite !bus_writes_app.
    rewrite writes_of_ones, writes_of_zeros, app_nil_r.
    unfold round_accesses.
    destruct (control_skipped (control_dout 0 (-1)));
      destruct (control_skipped (control_dout 1 (-1))); reflexivity. }
  split; [|split; [|exact W]].
  - intros e He. rewrite W in He.
    assert (K : forall pass bit e',
               In e' (bus_writes (round_accesses w 0 pass bit)) ->
               exists v, e' = EvWrite8 (wr_addr w REG_SOCL) v
                         /\ control_skipped v = false).
    { intros pass bit e' H. unfold round_accesses in H.
      destruct (control_skipped (control_dout pass bit)) eqn:S;
        [destruct H|].
      cbn in H. destruct H as [<-|[]]. eexists. split; [reflexivity|exact S]. }
    assert (Fin : forall v, control_skipped v = false ->
                    Z.land v (BIT 3) = 0 /\ v <> 0x80 /\ v <> 0x40
                    /\ v <> 0xf7).
    { intros v S. unfold control_skipped in S.
      apply orb_false_iff in S. destruct S as [S S3].
      apply orb_false_iff in S. destruct S as [S S2].
      apply orb_false_iff in S. destruct S as [S0 S1].
      apply negb_false_iff, Z.eqb_eq in S3.
      apply Z.eqb_neq in S0, S1, S2. auto. }
    apply in_app_or in He. destruct He as [He|He].
    + destruct (K _ _ _ He) as (v & -> & S). exists v.
      split; [reflexivity | apply Fin, S].
    + apply in_app_or in He. destruct He as [He|He].
      * cbn in He.
        repeat (destruct He as [<-|He];
                [eexists; split; [reflexivity | apply Fin; reflexivity]|]).
        destruct He.
      * destruct (K _ _ _ He) as (v & -> & S). exists v.
        split; [reflexivity | apply Fin, S].
  - intros bit st Hb.
    assert (C : forall_below 8
                  (fun b => control_skipped (control_dout 1 b)) = true)
      by reflexivity.
    pose proof (forall_below_spec 8 _ C bit ltac:(lia)) as S.
    unfold control_round. cbv zeta. cbv beta in S. rewrite S. reflexivity.
Qed.

End ControlWalk.

(** ** The device access test *)

Module DeviceAccess.

(** [zorro_expected_regs]. *)
Definition zorro_expected_regs : list Z := [0x6f; 0x54; 0x30; 0x00; 0x02; 0x02].

Definition NUM_ZORRO_EXPECTED_REGS : nat := 6.

(** The locals of [test_device_access] that the loops change. *)
Record seen : Type := mkSeen {
  rc : Z;
  saw_correct : list Z;
  saw_incorrect : list Z
}.

(** [a[i] = v]. *)
Fixpoint store (i : nat) (v : Z) (a : list Z) {struct a} : list Z :=
  match a, i with
  | [], _ => []
  | _ :: t, O => v :: t
  | h :: t, S i => h :: store i v t
  end.

(** What [goto fail] leaves the loops with, or the locals at their end. *)
Inductive outcome : Type :=
| Go (s : seen)
| Fail.

(** [get_creg] on the live bus: the two nibbles are read one after the
    other.
<<
    uint8_t hi = ~*ADDR8(a4091_base + A4091_OFFSET_AUTOCONFIG + reg);
    uint8_t lo = ~*ADDR8(a4091_base + A4091_OFFSET_AUTOCONFIG + reg + 0x100);
    return ((hi & 0xf0) | (lo >> 4));
>> *)
Definition get_creg (reg : Z) : M Z :=
  fun w =>
    (raw_hi <- bus_read8 (a4091_base w + A4091_OFFSET_AUTOCONFIG + reg) ;;
     raw_lo <- bus_read8
                 (a4091_base w + A4091_OFFSET_AUTOCONFIG + reg + 0x100) ;;
     let hi := not8 raw_hi in
     let lo := not8 raw_lo in
     ret (wrap8 (Z.lor (Z.land hi 0xf0) (Z.shiftr lo 4)))) w.

(** [(void) *ADDR32(a4091_base + offset)]. *)
Definition touch32 (offset : Z) : M unit :=
  fun w => (bus_read32 (a4091_base w + offset) ;; ret tt) w.

Section Test.

Variable TICKS_PER_SECOND : Z.

(** The body of the inner loop of [test_device_access]. *)
Definition check_reg (tick_start : Z) (i : nat) (s : seen) : M outcome :=
  regval <- get_creg (Z.of_nat i * 4) ;;
  late <- access_timeout TICKS_PER_SECOND
            "\n53C710 loop access timeout" 4 tick_start ;;
  if late then ret Fail
  else if regval =? nth i zorro_expected_regs 0 then
    ret (Go (mkSeen (rc s) (store i 1 (saw_correct s)) (saw_incorrect s)))
  else if nth i (saw_incorrect s) 0 =? 0 then
    when (rc s =? 0) (printf "\n" []) ;;
    printf "    Reg %02x  %02x != expected %02x (diff %02x)\n"
           [PInt (Z.of_nat i * 4); PInt regval;
            PInt (nth i zorro_expected_regs 0);
            PInt (Z.lxor regval (nth i zorro_expected_regs 0))] ;;
    ret (Go (mkSeen (to_int32 (rc s + 1)) (saw_correct s)
                    (store i 1 (saw_incorrect s))))
  else ret (Go s).

(** [for (i = ...; i < NUM_ZORRO_EXPECTED_REGS; i++)], with [n] registers
    still to read. *)
Fixpoint regs_loop (n i : nat) (tick_start : Z) (s : seen) : M outcome :=
  match n with
  | O => ret (Go s)
  | S n =>
      o <- check_reg tick_start i s ;;
      match o with
      | Fail => ret Fail
      | Go s => regs_loop n (S i) tick_start s
      end
  end.

(** [for (pass = ...; pass < 100; pass++)], with [n] passes to go. *)
Fixpoint pass_loop (n : nat) (s : seen) : M outcome :=
  match n with
  | O => ret (Go s)
  | S n =>
      tick_start <- read_system_ticks ;;
      o <- regs_loop NUM_ZORRO_EXPECTED_REGS 0 tick_start s ;;
      match o with
      | Fail => ret Fail
      | Go s => pass_loop n s
      end
  end.

(** [test_device_access] up to the label [fail]: the value of [rc]
    there. *)
Definition device_access_checks : M Z :=
  tick_start <- read_system_ticks ;;
  touch32 A4091_OFFSET_ROM ;;
  late <- access_timeout TICKS_PER_SECOND "ROM access timeout" 2 tick_start ;;
  late <- (if late then
             touch32 A4091_OFFSET_ROM ;;
             access_timeout TICKS_PER_SECOND "ROM access timeout" 2 tick_start
           else ret false) ;;
  if late then ret 1
  else
    touch32 A4091_OFFSET_REGISTERS ;;
    late <- access_timeout TICKS_PER_SECOND
              "\n53C710 access timeout" 2 tick_start ;;
    if late then ret 1
    else
      o <- pass_loop 100
             (mkSeen 0 (repeat 0 NUM_ZORRO_EXPECTED_REGS)
                     (repeat 0 NUM_ZORRO_EXPECTED_REGS)) ;;
      match o with
      | Fail => ret 1
      | Go s => ret (rc s)
      end.

(** [test_device_access]. *)
Definition test_device_access : M Z :=
  show_test_state "Device access:" (-1) ;;
  rc <- device_access_checks ;;
  show_test_state "Device access:" rc ;;
  ret rc.

(** *** Running the test on a card that answers in time *)

(** [at_read w wk nb nt]: the run started in [w] has come to [wk] after
    [nb] bus reads and [nt] readings of the clock. *)
Definition at_read (w wk : world) (nb nt : nat) : Prop :=
  exists acc, progress w wk nb nt 0 (a4091_save w) acc.

Lemma at_read_start w : at_read w w 0 0.
Proof. exists []. apply progress_start. Qed.

Lemma at_read_only_logs {A : Type} (c : M A) w wk nb nt :
  only_logs c -> at_read w wk nb nt -> at_read w (snd (c wk)) nb nt.
Proof.
  intros H [acc P]. exists acc. apply progress_only_logs; assumption.
Qed.

Lemma at_read_bus8 a w wk nb nt :
  at_read w wk nb nt ->
  exists wk', bus_read8 a wk = (next_bus w nb, wk')
              /\ at_read w wk' (S nb) nt.
Proof.
  intros [acc P].
  pose (reg := a - a4091_base wk - A4091_OFFSET_REGISTERS).
  assert (E : bus_read8 a wk = get_ncrreg8 reg wk).
  { unfold get_ncrreg8, reg. f_equal. ring. }
  destruct (progress_read8 _ _ _ _ _ _ _ reg P) as [V P1].
  exists (snd (bus_read8 a wk)). split.
  - rewrite (surjective_pairing (bus_read8 a wk)). f_equal.
    rewrite E. exact V.
  - rewrite E. eexists. exact P1.
Qed.

Lemma at_read_touch32 offset w wk nb nt :
  at_read w wk nb nt -> at_read w (snd (touch32 offset wk)) (S nb) nt.
Proof.
  intros [acc P].
  pose (reg := offset - A4091_OFFSET_REGISTERS).
  assert (E : snd (touch32 offset wk) = snd (get_ncrreg32 reg wk)).
  { unfold touch32, get_ncrreg32, reg. rewrite snd_seq. cbn [ret snd].
    f_equal. f_equal. ring. }
  destruct (progress_read32 _ _ _ _ _ _ _ reg P) as [_ P1].
  rewrite E. eexists. exact P1.
Qed.

Lemma at_read_ticks w wk nb nt :
  at_read w wk nb nt ->
  exists wk', read_system_ticks wk = (next_tick w nt, wk')
              /\ at_read w wk' nb (S nt).
Proof.
  intros [acc P]. exists (snd (read_system_ticks wk)). split.
  - rewrite (surjective_pairing (read_system_ticks wk)). f_equal.
    destruct P as [F _ _]. unfold read_system_ticks, next_tick. cbn [fst].
    rewrite (fr_tick_tape _ _ _ _ _ F), (fr_tick_pos _ _ _ _ _ F).
    reflexivity.
  - exists acc. apply progress_ticks. exact P.
Qed.

Lemma at_read_access_timeout msg ticks ts w wk nb nt :
  at_read w wk nb nt ->
  exists wk',
    access_timeout TICKS_PER_SECOND msg ticks ts wk
    = (timed_out ticks ts (next_tick w nt), wk')
    /\ at_read w wk' nb (S nt).
Proof.
  intros [acc P].
  destruct (progress_access_timeout TICKS_PER_SECOND msg ticks ts
              _ _ _ _ _ _ _ P) as [V P1].
  exists (snd (access_timeout TICKS_PER_SECOND msg ticks ts wk)). split.
  - rewrite (surjective_pairing (access_timeout _ msg ticks ts wk)).
    f_equal. exact V.
  - exists acc. exact P1.
Qed.

(** What [get_creg] makes of the two bytes that come at positions [b] and
    [b + 1] of the bus tape. *)
Definition creg_at (w : world) (b : nat) : Z :=
  wrap8 (Z.lor (Z.land (not8 (next_bus w b)) 0xf0)
               (Z.shiftr (not8 (next_bus w (S b))) 4)).

Lemma get_creg_run reg w wk nb nt :
  at_read w wk nb nt ->
  exists wk', get_creg reg wk = (creg_at w nb, wk')
              /\ at_read w wk' (S (S nb)) nt.
Proof.
  intros P. unfold get_creg.
  destruct (at_read_bus8 (a4091_base wk + A4091_OFFSET_AUTOCONFIG + reg)
              _ _ _ _ P) as (w1 & E1 & P1).
  rewrite (bind_result _ _ _ _ _ E1).
  destruct (at_read_bus8
              (a4091_base wk + A4091_OFFSET_AUTOCONFIG + reg + 0x100)
              _ _ _ _ P1) as (w2 & E2 & P2).
  rewrite (bind_result _ _ _ _ _ E2).
  exists w2. split; [reflexivity | exact P2].
Qed.

(** The locals after the inner loop body has seen [regval] for register
    [i]. *)
Definition note (i : nat) (regval : Z) (s : seen) : seen :=
  if regval =? nth i zorro_expected_regs 0 then
    mkSeen (rc s) (store i 1 (saw_correct s)) (saw_incorrect s)
  else if nth i (saw_incorrect s) 0 =? 0 then
    mkSeen (to_int32 (rc s + 1)) (saw_correct s)
           (store i 1 (saw_incorrect s))
  else s.

Lemma check_reg_run ts i s w wk nb nt :
  at_read w wk nb nt ->
  timed_out 4 ts (next_tick w nt) = false ->
  exists wk',
    check_reg ts i s wk = (Go (note i (creg_at w nb) s), wk')
    /\ at_read w wk' (S (S nb)) (S nt).
Proof.
  intros P T. unfold check_reg.
  destruct (get_creg_run (Z.of_nat i * 4) _ _ _ _ P) as (w1 & E1 & P1).
  rewrite (bind_result _ _ _ _ _ E1).
  destruct (at_read_access_timeout "\n53C710 loop access timeout" 4 ts
              _ _ _ _ P1) as (w2 & E2 & P2).
  rewrite (bind_result _ _ _ _ _ E2), T.
  unfold note.
  destruct (creg_at w nb =? nth i zorro_expected_regs 0).
  - exists w2. split; [reflexivity | exact P2].
  - destruct (nth i (saw_incorrect s) 0 =? 0).
    + match goal with
      | |- context [bind ?a (fun _ => bind ?b (fun _ => ret ?v))] =>
          exists (snd (bind a (fun _ => b) w2)); split;
          [ reflexivity
          | apply at_read_only_logs; [|exact P2];
            apply only_logs_bind;
            [ apply only_logs_when, only_logs_printf
            | intros _; apply only_logs_printf ] ]
      end.
    + exists w2. split; [reflexivity | exact P2].
Qed.

(** The locals after [n] registers from [i] on, read from tape position
    [b] on. *)
Fixpoint noted_regs (w : world) (n i b : nat) (s : seen) : seen :=
  match n with
  | O => s
  | S n => noted_regs w n (S i) (S (S b)) (note i (creg_at w b) s)
  end.

Lemma regs_loop_run ts w : forall n i s wk nb nt,
  at_read w wk nb nt ->
  (forall k, (k < n)%nat -> timed_out 4 ts (next_tick w (k + nt)) = false) ->
  exists wk',
    regs_loop n i ts s wk = (Go (noted_regs w n i nb s), wk')
    /\ at_read w wk' (2 * n + nb) (n + nt).
Proof.
  induction n as [|n IH]; intros i s wk nb nt P T.
  - exists wk. split; [reflexivity | exact P].
  - cbn [regs_loop noted_regs].
    destruct (check_reg_run ts i s _ _ _ _ P (T 0%nat ltac:(lia)))
      as (w1 & E1 & P1).
    rewrite (bind_result _ _ _ _ _ E1).
    destruct (IH (S i) (note i (creg_at w nb) s) _ _ _ P1) as (w2 & E2 & P2).
    { intros k Hk. replace (k + S nt)%nat with (S k + nt)%nat by lia.
      apply T. lia. }
    exists w2. split; [exact E2|].
    replace (2 * S n + nb)%nat with (2 * n + S (S nb))%nat by lia.
    replace (S n + nt)%nat with (n + S nt)%nat by lia. exact P2.
Qed.

(** The locals after [n] passes read from tape position [b] on. *)
Fixpoint noted_passes (w : world) (n b : nat) (s : seen) : seen :=
  match n with
  | O => s
  | S n => noted_passes w n (12 + b) (noted_regs w 6 0 b s)
  end.

Lemma pass_loop_run w : forall n s wk nb nt,
  at_read w wk nb nt ->
  (forall p i, (p < n)%nat -> (i < 6)%nat ->
     timed_out 4 (next_tick w (7 * p + nt))
                 (next_tick w (S i + 7 * p + nt)) = false) ->
  exists wk',
    pass_loop n s wk = (Go (noted_passes w n nb s), wk')
    /\ at_read w wk' (12 * n + nb) (7 * n + nt).
Proof.
  induction n as [|n IH]; intros s wk nb nt P T.
  - exists wk. split; [reflexivity | exact P].
  - cbn [pass_loop noted_passes].
    destruct (at_read_ticks _ _ _ _ P) as (w1 & E1 & P1).
    rewrite (bind_result _ _ _ _ _ E1).
    destruct (regs_loop_run (next_tick w nt) w NUM_ZORRO_EXPECTED_REGS 0 s
                _ _ _ P1) as (w2 & E2 & P2).
    { intros k Hk. specialize (T 0%nat k ltac:(lia) Hk).
      replace (k + S nt)%nat with (S k + 7 * 0 + nt)%nat by lia.
      exact T. }
    rewrite (bind_result _ _ _ _ _ E2).
    destruct (IH (noted_regs w 6 0 nb s) _ _ _ P2) as (w3 & E3 & P3).
    { intros p i Hp Hi. specialize (T (S p) i ltac:(lia) Hi).
      replace (7 * p + (NUM_ZORRO_EXPECTED_REGS + S nt))%nat
        with (7 * S p + nt)%nat by (unfold NUM_ZORRO_EXPECTED_REGS; lia).
      replace (S i + 7 * p + (NUM_ZORRO_EXPECTED_REGS + S nt))%nat
        with (S i + 7 * S p + nt)%nat
        by (unfold NUM_ZORRO_EXPECTED_REGS; lia).
      exact T. }
    exists w3. split; [exact E3|].
    replace (12 * S n + nb)%nat
      with (12 * n + (2 * NUM_ZORRO_EXPECTED_REGS + nb))%nat
      by (unfold NUM_ZORRO_EXPECTED_REGS; lia).
    replace (7 * S n + nt)%nat
      with (7 * n + (NUM_ZORRO_EXPECTED_REGS + S nt))%nat
      by (unfold NUM_ZORRO_EXPECTED_REGS; lia).
    exact P3.
Qed.

(** *** What the flags and the count come to *)

(** The (register, value) pairs the loops have been through include a
    wrong value of register [j]. *)
Definition wrong (done : list (nat * Z)) (j : nat) : bool :=
  existsb (fun iv => (fst iv =? j)%nat
                     && negb (snd iv =? nth j zorro_expected_regs 0)) done.

Definition flag (b : bool) : Z := if b then 1 else 0.

Definition total (l : list Z) : Z := fold_right Z.add 0 l.

(** The locals agree with the pairs gone through: a register's flag is
    set when a wrong value of it was seen, and [rc] is the number of
    flags set. *)
Definition counted (s : seen) (done : list (nat * Z)) : Prop :=
  saw_incorrect s = map (fun j => flag (wrong done j)) (seq 0 6)
  /\ rc s = total (saw_incorrect s).

Lemma nth_flags (f : nat -> Z) n j :
  (j < n)%nat -> nth j (map f (seq 0 n)) 0 = f j.
Proof.
  intros H. rewrite (nth_indep _ 0 (f 0%nat)) by
    (rewrite length_map, length_seq; exact H).
  rewrite map_nth, seq_nth by exact H. reflexivity.
Qed.

Lemma store_flags (f : nat -> Z) x : forall n a i,
  store i x (map f (seq a n))
  = map (fun j => if (j =? a + i)%nat then x else f j) (seq a n).
Proof.
  induction n as [|n IH]; intros a i; [reflexivity|].
  cbn [seq map]. destruct i as [|i]; cbn [store].
  - rewrite Nat.add_0_r, Nat.eqb_refl. f_equal.
    apply map_ext_in. intros j Hj. apply in_seq in Hj.
    destruct (Nat.eqb_spec j a); [lia | reflexivity].
  - destruct (Nat.eqb_spec a (a + S i)); [lia|]. f_equal.
    rewrite IH. apply map_ext. intros j.
    replace (S a + i)%nat with (a + S i)%nat by lia. reflexivity.
Qed.

Lemma total_store x : forall l i,
  (i < List.length l)%nat -> total (store i x l) = total l + x - nth i l 0.
Proof.
  induction l as [|h t IH]; intros i H; [cbn in H; lia|].
  destruct i as [|i]; cbn [store total fold_right nth].
  - lia.
  - cbn [List.length] in H. fold (total (store i x t)). fold (total t).
    rewrite IH by lia. lia.
Qed.

Lemma total_flags (g : nat -> bool) : forall l,
  total (map (fun j => flag (g j)) l) = Z.of_nat (List.length (filter g l)).
Proof.
  induction l as [|h t IH]; [reflexivity|].
  cbn [map total fold_right filter].
  fold (total (map (fun j => flag (g j)) t)). rewrite IH.
  destruct (g h); cbn [flag List.length]; lia.
Qed.

Lemma filter_short {A : Type} (g : A -> bool) : forall l,
  (List.length (filter g l) <= List.length l)%nat.
Proof.
  induction l as [|h t IH]; [cbn; lia|].
  cbn [filter]. destruct (g h); cbn [List.length]; lia.
Qed.

Lemma wrong_app d1 d2 j : wrong (d1 ++ d2) j = wrong d1 j || wrong d2 j.
Proof. apply existsb_app. Qed.

Lemma counted_note s done i v :
  counted s done -> (i < 6)%nat -> counted (note i v s) (done ++ [(i, v)]).
Proof.
  intros [F C] Hi.
  assert (N : nth i (saw_incorrect s) 0 = flag (wrong done i)).
  { rewrite F. apply (nth_flags (fun j => flag (wrong done j)) 6 i Hi). }
  assert (W : forall j, wrong (done ++ [(i, v)]) j
                        = wrong done j
                          || ((i =? j)%nat
                              && negb (v =? nth j zorro_expected_regs 0))).
  { intros j. rewrite wrong_app. unfold wrong at 2.
    cbn [existsb fst snd]. rewrite orb_false_r. reflexivity. }
  unfold note. destruct (v =? nth i zorro_expected_regs 0) eqn:V.
  - split; cbn [saw_incorrect rc]; [|exact C].
    rewrite F. apply map_ext. intros j. rewrite W.
    destruct (Nat.eqb_spec i j) as [<-|_].
    + rewrite V. cbn [negb andb]. rewrite orb_false_r. reflexivity.
    + cbn [andb]. rewrite orb_false_r. reflexivity.
  - rewrite N. destruct (wrong done i) eqn:B; cbn [flag Z.eqb].
    + split; [|exact C]. rewrite F. apply map_ext. intros j. rewrite W.
      destruct (Nat.eqb_spec i j) as [<-|_].
      * rewrite B. reflexivity.
      * cbn [andb]. rewrite orb_false_r. reflexivity.
    + assert (L : (i < List.length (saw_incorrect s))%nat)
        by (rewrite F, length_map, length_seq; exact Hi).
      assert (R : 0 <= rc s <= 6).
      { rewrite C, F, total_flags.
        pose proof (filter_short (wrong done) (seq 0 6)) as K.
        rewrite length_seq in K. lia. }
      split; cbn [saw_incorrect rc].
      * rewrite F, store_flags. apply map_ext. intros j. rewrite W.
        cbn [Nat.add]. rewrite (Nat.eqb_sym i j).
        destruct (Nat.eqb_spec j i) as [->|_].
        -- rewrite V. cbn [negb andb]. rewrite orb_true_r. reflexivity.
        -- cbn [andb]. rewrite orb_false_r. reflexivity.
      * rewrite total_store by exact L. rewrite N. cbn [flag].
        unfold to_int32, wrap32. rewrite Z.mod_small by lia.
        destruct (Z.ltb_spec (rc s + 1) 2147483648); lia.
Qed.

(** The pairs [noted_regs] and [noted_passes] go through. *)
Fixpoint pairs (w : world) (n i b : nat) : list (nat * Z) :=
  match n with
  | O => []
  | S n => (i, creg_at w b) :: pairs w n (S i) (S (S b))
  end.

Fixpoint all_pairs (w : world) (n b : nat) : list (nat * Z) :=
  match n with
  | O => []
  | S n => pairs w 6 0 b ++ all_pairs w n (12 + b)
  end.

Lemma counted_regs w : forall n i b s done,
  counted s done -> (i + n <= 6)%nat ->
  counted (noted_regs w n i b s) (done ++ pairs w n i b).
Proof.
  induction n as [|n IH]; intros i b s done C H.
  - cbn [noted_regs pairs]. rewrite app_nil_r. exact C.
  - cbn [noted_regs pairs].
    replace (done ++ (i, creg_at w b) :: pairs w n (S i) (S (S b)))
      with ((done ++ [(i, creg_at w b)]) ++ pairs w n (S i) (S (S b)))
      by (rewrite <- app_assoc; reflexivity).
    apply IH; [|lia]. apply counted_note; [exact C | lia].
Qed.

Lemma counted_passes w : forall n b s done,
  counted s done ->
  counted (noted_passes w n b s) (done ++ all_pairs w n b).
Proof.
  induction n as [|n IH]; intros b s done C.
  - cbn [noted_passes all_pairs]. rewrite app_nil_r. exact C.
  - cbn [noted_passes all_pairs]. rewrite app_assoc.
    apply IH. apply counted_regs; [exact C | lia].
Qed.

(** The value read for register [i] in pass [p] of a run that starts in
    [w] and is never late: two long-word reads come first, and each pass
    takes twelve byte reads. *)
Definition reg_value (w : world) (p i : nat) : Z :=
  creg_at w (2 * i + 12 * p + 2).

(** Register [i] was read wrong in one of the hundred passes. *)
Definition misread (w : world) (i : nat) : bool :=
  existsb (fun p => negb (reg_value w p i =? nth i zorro_expected_regs 0))
          (seq 0 100).

Lemma existsb_same {A : Type} (f g : A -> bool) :
  (forall x, f x = g x) -> forall l, existsb f l = existsb g l.
Proof.
  intros H. induction l as [|h t IH]; [reflexivity|].
  cbn [existsb]. rewrite H, IH. reflexivity.
Qed.

Lemma existsb_seq_next (f : nat -> bool) : forall n a,
  existsb f (seq (S a) n) = existsb (fun p => f (S p)) (seq a n).
Proof.
  induction n as [|n IH]; intros a; [reflexivity|].
  cbn [seq existsb]. rewrite IH. reflexivity.
Qed.

Lemma wrong_pairs w b j :
  (j < 6)%nat ->
  wrong (pairs w 6 0 b) j
  = negb (creg_at w (2 * j + b) =? nth j zorro_expected_regs 0).
Proof.
  intros H. unfold wrong. cbn [pairs existsb fst snd].
  do 6 (destruct j as [|j];
        [cbn [Nat.eqb andb orb Nat.mul Nat.add];
         rewrite ?orb_false_r; reflexivity|]).
  lia.
Qed.

Lemma wrong_all_pairs w j :
  (j < 6)%nat -> forall n b,
  wrong (all_pairs w n b) j
  = existsb (fun p => negb (creg_at w (2 * j + 12 * p + b)
                            =? nth j zorro_expected_regs 0))
            (seq 0 n).
Proof.
  intros H. induction n as [|n IH]; intros b; [reflexivity|].
  cbn [all_pairs seq existsb].
  rewrite wrong_app, (wrong_pairs w b j H), IH, existsb_seq_next.
  f_equal.
  - rewrite Nat.mul_0_r, Nat.add_0_r. reflexivity.
  - apply existsb_same. intros p. do 3 f_equal. lia.
Qed.

(** The card answers in time: none of the clock checks of the run finds
    more ticks gone by than it allows. *)
Definition in_time (w : world) : Prop :=
  timed_out 2 (next_tick w 0) (next_tick w 1) = false
  /\ timed_out 2 (next_tick w 0) (next_tick w 2) = false
  /\ forall p i, (p < 100)%nat -> (i < 6)%nat ->
       timed_out 4 (next_tick w (7 * p + 3))
                   (next_tick w (S i + 7 * p + 3)) = false.

Lemma device_access_checks_run w wk :
  in_time w -> at_read w wk 0 0 ->
  exists wk',
    device_access_checks wk
    = (Z.of_nat (List.length (filter (misread w) (seq 0 6))), wk')
    /\ at_read w wk' 1202 703.
Proof.
  intros (T1 & T2 & T3) P. unfold device_access_checks.
  destruct (at_read_ticks _ _ _ _ P) as (w1 & E1 & P1).
  rewrite (bind_result _ _ _ _ _ E1).
  pose proof (at_read_touch32 A4091_OFFSET_ROM _ _ _ _ P1) as P2.
  rewrite bind_run.
  destruct (at_read_access_timeout "ROM access timeout" 2 (next_tick w 0)
              _ _ _ _ P2) as (w3 & E3 & P3).
  rewrite (bind_result _ _ _ _ _ E3), T1.
  rewrite bind_run. cbn [ret fst snd].
  pose proof (at_read_touch32 A4091_OFFSET_REGISTERS _ _ _ _ P3) as P4.
  rewrite bind_run.
  destruct (at_read_access_timeout "\n53C710 access timeout" 2
              (next_tick w 0) _ _ _ _ P4) as (w5 & E5 & P5).
  rewrite (bind_result _ _ _ _ _ E5), T2.
  set (s0 := mkSeen 0 (repeat 0 NUM_ZORRO_EXPECTED_REGS)
                    (repeat 0 NUM_ZORRO_EXPECTED_REGS)).
  destruct (pass_loop_run w 100 s0 _ _ _ P5 T3) as (w6 & E6 & P6).
  rewrite (bind_result _ _ _ _ _ E6).
  exists w6. split; [|exact P6].
  unfold ret.
  assert (C0 : counted s0 []) by (split; reflexivity).
  destruct (counted_passes w 100 2 s0 [] C0) as [F C].
  rewrite C, F. cbn [app]. rewrite total_flags.
  assert (X : forall l, (forall j, In j l -> (j < 6)%nat) ->
            filter (wrong (all_pairs w 100 2)) l = filter (misread w) l).
  { induction l as [|h t IH]; intros B; [reflexivity|].
    cbn [filter]. rewrite IH by (intros j Hj; apply B; right; exact Hj).
    rewrite (wrong_all_pairs w h (B h (or_introl eq_refl)) 100 2).
    reflexivity. }
  rewrite X; [reflexivity|]. intros j Hj. apply in_seq in Hj. lia.
Qed.

(** On a card that answers in time,
    [test_device_access] returns the number of the six autoconfig header
    registers that read wrong in at least one of the hundred passes: a
    register counts once however often it is wrong.  So the result is
    between 0 and 6, it is 0 exactly when all six hundred values read are
    the expected ones, the last thing printed is PASS then and FAIL
    otherwise, and the test takes 1202 bus reads. *)
Theorem device_access_counts_misread_registers :
  forall w : world,
    in_time w ->
    let r := fst (test_device_access w) in
    r = Z.of_nat (List.length (filter (misread w) (seq 0 6)))
    /\ 0 <= r <= 6
    /\ (r = 0 <->
        forall p i, (p < 100)%nat -> (i < 6)%nat ->
          reg_value w p i = nth i zorro_expected_regs 0)
    /\ last (log (snd (test_device_access w))) (EvDelay 0)
       = EvPrintf (if r =? 0 then "PASS\n" else "FAIL\n") []
    /\ bus_pos (snd (test_device_access w)) = (1202 + bus_pos w)%nat.
Proof.
  intros w T r.
  set (n := List.length (filter (misread w) (seq 0 6))).
  assert (P0 : at_read w (snd (show_test_state "Device access:" (-1) w)) 0 0).
  { apply at_read_only_logs;
      [apply only_logs_show_test_state_any | apply at_read_start]. }
  destruct (device_access_checks_run w _ T P0) as (w1 & E1 & P1).
  fold n in E1.
  assert (R : test_device_access w
              = (Z.of_nat n,
                 snd (show_test_state "Device access:" (Z.of_nat n) w1))).
  { unfold test_device_access. rewrite bind_run.
    rewrite (bind_result _ _ _ _ _ E1). reflexivity. }
  assert (Rr : r = Z.of_nat n) by (unfold r; rewrite R; reflexivity).
  assert (B : (n <= 6)%nat).
  { pose proof (filter_short (misread w) (seq 0 6)) as K.
    rewrite length_seq in K. exact K. }
  split; [exact Rr|]. split; [lia|]. split; [|split].
  - rewrite Rr. split.
    + intros Z p i Hp Hi.
      assert (E : filter (misread w) (seq 0 6) = [])
        by (apply length_zero_iff_nil; fold n; lia).
      destruct (misread w i) eqn:Mi.
      * assert (I : In i (filter (misread w) (seq 0 6)))
          by (apply filter_In; split; [apply in_seq; lia | exact Mi]).
        rewrite E in I. destruct I.
      * unfold misread in Mi.
        destruct (reg_value w p i =? nth i zorro_expected_regs 0) eqn:V;
          [apply Z.eqb_eq; exact V|].
        assert (X : existsb
                      (fun p => negb (reg_value w p i
                                      =? nth i zorro_expected_regs 0))
                      (seq 0 100) = true).
        { apply existsb_exists. exists p. split; [apply in_seq; lia|].
          rewrite V. reflexivity. }
        rewrite X in Mi. discriminate.
    + intros A.
      assert (E : filter (misread w) (seq 0 6) = []).
      { destruct (filter (misread w) (seq 0 6)) as [|i t] eqn:F;
          [reflexivity|].
        assert (I : In i (filter (misread w) (seq 0 6)))
          by (rewrite F; left; reflexivity).
        apply filter_In in I. destruct I as [I Mi]. apply in_seq in I.
        unfold misread in Mi. apply existsb_exists in Mi.
        destruct Mi as (p & Hp & V). apply in_seq in Hp.
        rewrite (A p i) in V by lia. rewrite Z.eqb_refl in V.
        discriminate. }
      unfold n. rewrite E. reflexivity.
  - rewrite R, Rr. cbn [snd]. unfold show_test_state.
    destruct (Z.of_nat n =? 0) eqn:Z0.
    + unfold printf, emit. cbn [snd log with_log].
      apply last_last.
    + destruct (Z.of_nat n =? -1) eqn:Z1; [apply Z.eqb_eq in Z1; lia|].
      rewrite snd_seq. unfold printf at 1, emit. cbn [snd log with_log].
      apply last_last.
  - rewrite R. cbn [snd].
    assert (P2 : at_read w
                   (snd (show_test_state "Device access:" (Z.of_nat n) w1))
                   1202 703).
    { apply at_read_only_logs;
        [apply only_logs_show_test_state_any | exact P1]. }
    destruct P2 as [acc [F _ _]]. exact (fr_bus_pos _ _ _ _ _ F).
Qed.

End Test.

(** A card whose header register 0x10 never reads right and whose
    register 0x04 reads wrong in the eighth pass only, on a clock that
    stands still: the two bytes of each register are the complements of
    its nibbles, except for the wrong ones, which read 0. *)
Definition flaky_tape (k : nat) : Z :=
  if (k <? 2)%nat then 0
  else
    let p := ((k - 2) / 12)%nat in
    let i := (((k - 2) mod 12) / 2)%nat in
    let e := nth i zorro_expected_regs 0 in
    if ((i =? 4) || ((i =? 1) && (p =? 7)))%nat then 0
    else if Nat.even k then 255 - Z.land e 0xf0
    else 255 - 16 * Z.land e 0x0f.

Definition flaky_card : world := idle_world flaky_tape (fun _ => 0) no_irqs.

Lemma device_access_counts_misread_registers_witness :
  fst (test_device_access 50 flaky_card) = 2.
Proof.
  refine (eq_trans
            (proj1 (device_access_counts_misread_registers 50 flaky_card _))
            _).
  - split; [reflexivity|]. split; [reflexivity|].
    intros p i _ _. reflexivity.
  - vm_compute. reflexivity.
Defined.

End DeviceAccess.

(** ** The DMA FIFO test as a whole *)

(** A step that returns the next value of the bus tape, with the world it
    leaves. *)
Lemma read8_result reg w wk nb nt ni sv acc :
  progress w wk nb nt ni sv acc ->
  exists wk',
    get_ncrreg8 reg wk = (next_bus w nb, wk')
    /\ progress w wk' (S nb) nt ni sv
                (acc ++ [EvRead8 (rd_addr w reg) (next_bus w nb)]).
Proof.
  intros P. destruct (progress_read8 _ _ _ _ _ _ _ reg P) as [V P1].
  exists (snd (get_ncrreg8 reg wk)). split; [|exact P1].
  rewrite (surjective_pairing (get_ncrreg8 reg wk)), V. reflexivity.
Qed.

Lemma pair_result {A B : Type} (x : A * B) (a : A) :
  fst x = a -> x = (a, snd x).
Proof. destruct x. cbn [fst snd]. intros ->. reflexivity. Qed.

Lemma fifo_pop_lanes_progress ctest4 w nt ni sv :
  forall (lanes : list Z) (rc : Z) (wk : world) (nb : nat) (acc : list event),
    progress w wk nb nt ni sv acc ->
    exists acc',
      progress w (snd (fifo_pop_lanes lanes ctest4 rc wk))
               (32 * List.length lanes + nb) nt ni sv acc'.
Proof.
  induction lanes as [|lane rest IH]; intros rc wk nb acc P.
  - exists acc. exact P.
  - cbn [fifo_pop_lanes]. rewrite snd_seq. rewrite bind_run. unfold select_lane.
    pose proof (progress_write8 _ _ _ _ _ _ _ REG_CTEST4
                  (Z.lor (Z.lor (Z.land ctest4 (Z.lnot 3)) REG_CTEST4_FBL2)
                         lane) P) as P1.
    destruct (fifo_pop_bytes_run lane w nt ni sv (Z.to_nat NCR_FIFO_SIZE)
                0 rc 0 _ _ _ P1) as (acc1 & P2 & _ & _).
    destruct (IH (fst (fst (fifo_pop_bytes (Z.to_nat NCR_FIFO_SIZE) lane 0 rc 0
                              (snd (set_ncrreg8 REG_CTEST4
                                      (Z.lor (Z.lor (Z.land ctest4 (Z.lnot 3))
                                                    REG_CTEST4_FBL2) lane)
                                      wk)))))
                 _ _ _ P2) as (acc2 & P3).
    exists acc2.
    change (Z.to_nat NCR_FIFO_SIZE) with 16%nat in P3.
    cbn [List.length].
    replace (32 * S (List.length rest) + nb)%nat
      with (32 * List.length rest + (2 * 16 + nb))%nat by lia.
    exact P3.
Qed.

Lemma fifo_pop_result ctest4 rc w wk nb nt ni sv acc :
  progress w wk nb nt ni sv acc ->
  exists wk' acc',
    fifo_pop ctest4 rc wk
    = (pop_rc_lanes [0; 1; 2; 3] 19700119 (fun k => next_bus w (nb + k)) rc,
       wk')
    /\ progress w wk' (128 + nb) nt ni sv acc'.
Proof.
  intros P.
  pose proof (fifo_pop_run ctest4 rc _ _ _ _ _ _ _ P) as V.
  destruct (fifo_pop_lanes_progress ctest4 w nt ni sv [0; 1; 2; 3] rc _ _ _
              (progress_with_rand_seed _ _ _ _ _ _ _ (wrap32 19700119) P))
    as (acc' & P1).
  exists (snd (fifo_pop ctest4 rc wk)), acc'. split.
  - exact (pair_result _ _ V).
  - exact P1.
Qed.

(** The register accesses of [test_dma_fifo] up to its check that the
    FIFO is no longer empty: the reset, the reads of CTEST1, DSTAT, CTEST4
    and CTEST7, the pushes, and the second read of DSTAT. *)
Definition fifo_fill_accesses (w : world) : list event :=
  reset_accesses w 0
  ++ [EvRead8 (rd_addr w REG_CTEST1) (next_bus w 2);
      EvRead8 (rd_addr w REG_DSTAT) (next_bus w 3);
      EvRead8 (rd_addr w REG_CTEST4) (next_bus w 4);
      EvRead8 (rd_addr w REG_CTEST7) (next_bus w 5)]
  ++ push_lanes_writes w [0; 1; 2; 3] (next_bus w 4)
       (wrap8 (Z.land (next_bus w 5) (Z.lnot (BIT 3)))) 19700119
  ++ [EvRead8 (rd_addr w REG_DSTAT) (next_bus w 6)].

(** What [test_dma_fifo] returns once the FIFO is found filled: [0xff]
    when CTEST1 does not show it full or does not show it empty at the
    end, and the lanes with a wrong byte otherwise. *)
Definition fifo_verdict (w : world) : Z :=
  if next_bus w 7 =? 0x0f then
    if next_bus w 136 =? 0xf0
    then pop_rc_lanes [0; 1; 2; 3] 19700119 (fun k => next_bus w (8 + k)) 0
    else 0xff
  else 0xff.

(** Outside UAE and without the second debug level, on a
    card whose FIFO reads empty after the reset: when DSTAT still shows
    the FIFO empty after the 64 pushes, the test returns [0x0f] at once and
    its register accesses end with the pushes of lane 3 and that read of
    DSTAT, so CTEST4 is left with FBL2 and lane 3 selected; when DSTAT
    shows the FIFO filled, the last register access of the test is the
    write that clears the three lane select bits of CTEST4, and the result
    is [0xff] when CTEST1 does not read [0x0f] after the pushes or [0xf0]
    after the pops, and the set of lanes that gave a wrong byte
    otherwise. *)
Theorem dma_fifo_lane_select :
  forall w : world,
    fst (is_running_in_uae w) = false ->
    flag_set w FLAG_MORE_DEBUG = false ->
    next_bus w 2 = 0xf0 ->
    Z.land (next_bus w 3) REG_DSTAT_DFE <> 0 ->
    exists tr,
      log (snd (test_dma_fifo w)) = log w ++ tr
      /\ (Z.land (next_bus w 6) REG_DSTAT_DFE <> 0 ->
          fst (test_dma_fifo w) = 0x0f
          /\ bus_accesses tr = fifo_fill_accesses w)
      /\ (Z.land (next_bus w 6) REG_DSTAT_DFE = 0 ->
          fst (test_dma_fifo w) = fifo_verdict w
          /\ last (bus_accesses tr) (EvDelay 0)
             = EvWrite8 (wr_addr w REG_CTEST4)
                        (wrap8 (Z.land (next_bus w 4) (Z.lnot 7)))).
Proof.
  intros w U D H1 H2.
  enough (G : exists r wf acc,
            test_dma_fifo w = (r, wf)
            /\ progress w wf (bus_pos wf - bus_pos w) 0 0 (a4091_save w) acc
            /\ (Z.land (next_bus w 6) REG_DSTAT_DFE <> 0 ->
                r = 0x0f /\ acc = fifo_fill_accesses w)
            /\ (Z.land (next_bus w 6) REG_DSTAT_DFE = 0 ->
                r = fifo_verdict w
                /\ last acc (EvDelay 0)
                   = EvWrite8 (wr_addr w REG_CTEST4)
                              (wrap8 (Z.land (next_bus w 4) (Z.lnot 7))))).
  { destruct G as (r & wf & acc & E & [_ _ (tr & L & A)] & G1 & G2).
    rewrite E. cbn [fst snd]. exists tr. split; [exact L|].
    rewrite A. split; assumption. }
  unfold test_dma_fifo.
  rewrite bind_run. unfold is_running_in_uae in U |- * at 1.
  cbn [fst snd] in U |- *. rewrite U.
  pose proof (progress_only_logs (show_test_state "DMA FIFO test:" (-1))
                _ _ _ _ _ _ _
                (only_logs_show_test_state_any "DMA FIFO test:" (-1))
                (progress_start w)) as P0.
  rewrite bind_run.
  set (w0 := snd (show_test_state "DMA FIFO test:" (-1) w)) in *.
  pose proof (progress_reset _ _ _ _ _ _ _ P0) as P1.
  rewrite bind_run. set (w1 := snd (a4091_reset w0)) in *.
  cbn [app Nat.add] in P1.
  destruct (read8_result REG_CTEST1 _ _ _ _ _ _ _ P1) as (w2 & E2 & P2).
  rewrite (bind_result _ _ _ _ _ E2). rewrite H1.
  change (negb (0xf0 =? 0xf0)) with false. cbn [when andb].
  rewrite bind_run. cbn [ret fst snd].
  destruct (read8_result REG_DSTAT _ _ _ _ _ _ _ P2) as (w3 & E3 & P3).
  rewrite (bind_result _ _ _ _ _ E3).
  destruct (Z.land (next_bus w 3) REG_DSTAT_DFE =? 0) eqn:Z3;
    [apply Z.eqb_eq in Z3; contradiction|].
  cbn [negb when andb]. rewrite bind_run. cbn [ret fst snd].
  destruct (read8_result REG_CTEST4 _ _ _ _ _ _ _ P3) as (w4 & E4 & P4).
  rewrite (bind_result _ _ _ _ _ E4).
  destruct (read8_result REG_CTEST7 _ _ _ _ _ _ _ P4) as (w5 & E5 & P5).
  rewrite (bind_result _ _ _ _ _ E5).
  set (ctest4 := next_bus w 4) in *.
  set (ctest7 := wrap8 (Z.land (next_bus w 5) (Z.lnot (BIT 3)))) in *.
  pose proof (fifo_push_run ctest4 ctest7 _ _ _ _ _ _ _ P5) as P6.
  rewrite bind_run. set (w6 := snd (fifo_push ctest4 ctest7 w5)) in *.
  destruct (read8_result REG_DSTAT _ _ _ _ _ _ _ P6) as (w7 & E7 & P7).
  rewrite (bind_result _ _ _ _ _ E7).
  assert (A7 : reset_accesses w 0
               ++ [EvRead8 (rd_addr w REG_CTEST1) (next_bus w 2);
                   EvRead8 (rd_addr w REG_DSTAT) (next_bus w 3);
                   EvRead8 (rd_addr w REG_CTEST4) ctest4;
                   EvRead8 (rd_addr w REG_CTEST7) (next_bus w 5)]
               ++ push_lanes_writes w [0; 1; 2; 3] ctest4 ctest7 19700119
               ++ [EvRead8 (rd_addr w REG_DSTAT) (next_bus w 6)]
               = fifo_fill_accesses w) by reflexivity.
  repeat rewrite <- app_assoc in P7. cbn [app] in P7.
  destruct (Z.land (next_bus w 6) REG_DSTAT_DFE =? 0) eqn:Z6.
  - (* the FIFO is filled *)
    apply Z.eqb_eq in Z6.
    cbn [negb when andb]. rewrite bind_run. cbn [ret fst snd].
    destruct (read8_result REG_CTEST1 _ _ _ _ _ _ _ P7) as (w8 & E8 & P8).
    rewrite (bind_result _ _ _ _ _ E8).
    rewrite bind_run.
    set (c9 := when (negb (next_bus w 7 =? 0x0f)) _).
    assert (P9 : progress w (snd (c9 w8)) 8 0 0 (a4091_save w) _)
      by (apply progress_only_logs;
          [apply only_logs_when, only_logs_printf | exact P8]).
    set (w9 := snd (c9 w8)) in *.
    rewrite (progress_flags _ _ _ _ _ _ _ FLAG_MORE_DEBUG P9), D.
    cbn [negb]. rewrite andb_true_r.
    unfold fifo_verdict.
    destruct (next_bus w 7 =? 0x0f) eqn:F7; cbn [negb].
    + destruct (fifo_pop_result ctest4 0 _ _ _ _ _ _ _ P9)
        as (w10 & acc10 & E10 & P10).
      rewrite (bind_result _ _ _ _ _ E10).
      destruct (read8_result REG_CTEST1 _ _ _ _ _ _ _ P10)
        as (w11 & E11 & P11).
      rewrite (bind_result _ _ _ _ _ E11).
      rewrite bind_run.
      set (c12 := when (negb (next_bus w (128 + 8) =? 0xf0)) _).
      assert (P12 : progress w (snd (c12 w11)) 137 0 0 (a4091_save w) _)
        by (apply progress_only_logs;
            [apply only_logs_when, only_logs_printf | exact P11]).
      set (w12 := snd (c12 w11)) in *.
      unfold fifo_finish.
      set (rc := if next_bus w (128 + 8) =? 0xf0 then _ else 0xff).
      pose proof (progress_write8 _ _ _ _ _ _ _ REG_CTEST4
                    (Z.land ctest4 (Z.lnot 7)) P12) as P13.
      rewrite bind_run.
      set (w13 := snd (set_ncrreg8 REG_CTEST4 (Z.land ctest4 (Z.lnot 7)) w12))
        in *.
      pose proof (progress_only_logs (show_test_state "DMA FIFO test:" rc)
                    _ _ _ _ _ _ _
                    (only_logs_show_test_state_any "DMA FIFO test:" rc) P13)
        as P14.
      rewrite bind_run. unfold ret at 1.
      eexists _, _, _. split; [reflexivity|]. split.
      { replace (bus_pos _ - bus_pos w)%nat with 137%nat;
          [exact P14|].
        rewrite (fr_bus_pos _ _ _ _ _ (pg_frame _ _ _ _ _ _ _ P14)). lia. }
      split; [intros N; contradiction|].
      intros _. split; [reflexivity|]. apply last_last.
    + unfold fifo_finish.
      pose proof (progress_write8 _ _ _ _ _ _ _ REG_CTEST4
                    (Z.land ctest4 (Z.lnot 7)) P9) as P13.
      rewrite bind_run.
      set (w13 := snd (set_ncrreg8 REG_CTEST4 (Z.land ctest4 (Z.lnot 7)) w9))
        in *.
      pose proof (progress_only_logs (show_test_state "DMA FIFO test:" 0xff)
                    _ _ _ _ _ _ _
                    (only_logs_show_test_state_any "DMA FIFO test:" 0xff) P13)
        as P14.
      rewrite bind_run. unfold ret at 1.
      eexists _, _, _. split; [reflexivity|]. split.
      { replace (bus_pos _ - bus_pos w)%nat with 8%nat;
          [exact P14|].
        rewrite (fr_bus_pos _ _ _ _ _ (pg_frame _ _ _ _ _ _ _ P14)). lia. }
      split; [intros N; contradiction|].
      intros _. split; [reflexivity|]. apply last_last.
  - (* DSTAT still shows the FIFO empty *)
    apply Z.eqb_neq in Z6.
    cbn [negb when andb]. rewrite bind_run.
    set (c8 := bind (when (0 =? 0) _) _).
    assert (O8 : only_logs c8)
      by (apply only_logs_bind;
          [apply only_logs_when, only_logs_printf
          | intros _; apply only_logs_printf]).
    pose proof (progress_only_logs c8 _ _ _ _ _ _ _ O8 P7) as P8.
    set (w8 := snd (c8 w7)) in *.
    rewrite (progress_flags _ _ _ _ _ _ _ FLAG_MORE_DEBUG P8), D.
    cbn [negb andb].
    eexists _, _, _. split; [reflexivity|]. split.
    { replace (bus_pos w8 - bus_pos w)%nat with 7%nat; [exact P8|].
      rewrite (fr_bus_pos _ _ _ _ _ (pg_frame _ _ _ _ _ _ _ P8)). lia. }
    split; [|intros N; contradiction].
    intros _. split; [reflexivity | exact A7].
Qed.

(** A card whose DSTAT shows the DMA FIFO empty before and after the
    pushes. *)
Definition stuck_empty_tape (k : nat) : Z :=
  match k with
  | 2%nat => 0xf0
  | 3%nat | 6%nat => 0x80
  | _ => 0
  end.

Definition stuck_empty_world : world :=
  idle_world stuck_empty_tape (fun _ => 0) no_irqs.

Lemma dma_fifo_lane_select_witness :
  fst (test_dma_fifo stuck_empty_world) = 0x0f.
Proof.
  destruct (dma_fifo_lane_select stuck_empty_world eq_refl eq_refl eq_refl)
    as (tr & _ & A & _).
  - vm_compute. discriminate.
  - apply A. vm_compute. discriminate.
Defined.
